(** * Retrieval-confidence decision workflow: embedding and properties

    A shallow embedding of the decision core of the question-answering
    system: score normalisation and relevance assessment
    (src/rag/retriever.py, src/utils/helpers.py), the insufficiency
    classifier and the workflow nodes (src/graph/nodes.py), query
    reformulation (src/rag/answer_generator.py) and the routing graph
    (src/graph/workflow.py, src/graph/state.py).

    Conventions of the embedding.
    - The workflow (retrieval, nodes, routing) is embedded once, with
      Python [float] values as exact rationals [Q] and Python [str]
      values as [string]s over the 8-bit [ascii] type.  Rationals are
      what the scores are before rounding; the index is taken to return
      distances that are not negative, as its contract says, so that
      [1.0 / (1.0 + d)] does not raise.  8-bit strings are what the texts
      are as long as they are written in ASCII: the codes below 128 are
      classified as Python classifies them.
    - The functions that compute with scores are embedded a second time
      in [Scores], over [Binary64]: IEEE 754 double precision with its
      rounding, its infinities and NaN, and [ZeroDivisionError].  What
      is proved of the values of scores is proved there.
    - The functions that look inside a text are embedded a second time
      in [Unicode], over sequences of code points.  What is proved of
      the classifier and of query reformulation on every text is proved
      there; a property stated over 8-bit strings that does not hold
      outside ASCII says that its text is ASCII.
    - A Python [dict] whose keys vary from one path to another is a
      [gmap string _]; a dict with a fixed shape is a record.
    - The vector index, the language model and the web searcher are
      collaborators: they are fields of an environment record, and each
      call to one of them is logged. *)

From Stdlib Require Import ZArith NArith QArith Qround Qpower Lia Lqa.
From Stdlib Require Import Bool List Ascii String DecimalString.
From stdpp Require Import base option gmap strings.
Import ListNotations.

Local Open Scope string_scope.
Local Open Scope list_scope.

(** ** Numbers *)

Module PyFloat.

Local Open Scope Q_scope.

(** [x < y] and [x >= y] as the boolean tests Python evaluates. *)
Definition ltb (x y : Q) : bool := negb (Qle_bool y x).
Definition geb (x y : Q) : bool := Qle_bool y x.

(** [sum(xs)]: left-to-right accumulation from [0]. *)
Definition sum (xs : list Q) : Q := fold_left Qplus xs 0.

(** [max(x :: xs)]: the running maximum is replaced only by a strictly
    greater item. *)
Definition max (x : Q) (xs : list Q) : Q :=
  fold_left (fun m y => if ltb m y then y else m) xs x.

(** [float(n)] for a list length or a rank. *)
Definition of_nat (n : nat) : Q := inject_Z (Z.of_nat n).

End PyFloat.

(** ** Score normalisation (retriever.py, [retrieve]) *)

Module ScoreNormalizer.

Local Open Scope Q_scope.

(** [1.0 / (1.0 + d)], the body of the list comprehension. *)
Definition normalize (d : Q) : Q := 1 / (1 + d).

Definition normalized_scores (scores : list Q) : list Q :=
  map normalize scores.

End ScoreNormalizer.

(** ** Overall relevance score (helpers.py) *)

Module Helpers.

Local Open Scope Q_scope.

(** [weights = [1.0 / (i + 1) for i in range(len(similarity_scores))]] *)
Definition weight (i : nat) : Q := 1 / PyFloat.of_nat (i + 1).

Definition weights (n : nat) : list Q := map weight (seq 0 n).

Definition calculate_relevance_score (similarity_scores : list Q) : Q :=
  match similarity_scores with
  | [] => 0
  | _ =>
      let ws := weights (length similarity_scores) in
      let weighted_sum :=
        PyFloat.sum (map (fun sw => fst sw * snd sw)
                         (combine similarity_scores ws)) in
      let weight_total := PyFloat.sum ws in
      if PyFloat.ltb 0 weight_total then weighted_sum / weight_total else 0
  end.

End Helpers.

(** ** Strings *)

Module PyStr.

Definition code (c : ascii) : nat := nat_of_ascii c.

Definition newline : ascii := ascii_of_nat 10.

(** [c.isspace()] on the codes below 128. *)
Definition isspace (c : ascii) : bool :=
  let n := code c in
  ((9 <=? n)%nat && (n <=? 13)%nat) || ((28 <=? n)%nat && (n <=? 32)%nat).

Definition isdigit (c : ascii) : bool :=
  let n := code c in (48 <=? n)%nat && (n <=? 57)%nat.

Definition isupper (c : ascii) : bool :=
  let n := code c in (65 <=? n)%nat && (n <=? 90)%nat.

Definition islower (c : ascii) : bool :=
  let n := code c in (97 <=? n)%nat && (n <=? 122)%nat.

Definition isalnum_char (c : ascii) : bool :=
  isdigit c || isupper c || islower c.

Definition lower_char (c : ascii) : ascii :=
  if isupper c then ascii_of_nat (code c + 32) else c.

Fixpoint lower (s : string) : string :=
  match s with
  | EmptyString => EmptyString
  | String c s' => String (lower_char c) (lower s')
  end.

Definition is_empty (s : string) : bool :=
  match s with EmptyString => true | _ => false end.

Fixpoint all (p : ascii -> bool) (s : string) : bool :=
  match s with
  | EmptyString => true
  | String c s' => p c && all p s'
  end.

(** [s.isascii()]: every character is below 128. *)
Definition isascii (s : string) : bool := all (fun c => (code c <? 128)%nat) s.

(** [s.isalnum()]: at least one character and all of them alphanumeric. *)
Definition isalnum (s : string) : bool :=
  negb (is_empty s) && all isalnum_char s.

Fixpoint lstrip (p : ascii -> bool) (s : string) : string :=
  match s with
  | EmptyString => EmptyString
  | String c s' => if p c then lstrip p s' else s
  end.

Fixpoint rstrip (p : ascii -> bool) (s : string) : string :=
  match s with
  | EmptyString => EmptyString
  | String c s' =>
      let r := rstrip p s' in
      if is_empty r && p c then EmptyString else String c r
  end.

(** [s.strip()] removes white space at both ends; [s.strip(chars)]
    removes the characters of [chars]. *)
Definition strip_by (p : ascii -> bool) (s : string) : string :=
  rstrip p (lstrip p s).

Definition strip (s : string) : string := strip_by isspace s.

Fixpoint mem_char (c : ascii) (chars : string) : bool :=
  match chars with
  | EmptyString => false
  | String d chars' => Ascii.eqb c d || mem_char c chars'
  end.

Definition strip_chars (chars : string) (s : string) : string :=
  strip_by (fun c => mem_char c chars) s.

(** [s.replace(c, '')] for a one-character [c]. *)
Fixpoint remove_char (c : ascii) (s : string) : string :=
  match s with
  | EmptyString => EmptyString
  | String d s' =>
      if Ascii.eqb d c then remove_char c s' else String d (remove_char c s')
  end.

(** [s[:n]] *)
Fixpoint slice_to (n : nat) (s : string) : string :=
  match n, s with
  | O, _ => EmptyString
  | S _, EmptyString => EmptyString
  | S n', String c s' => String c (slice_to n' s')
  end.

(** [sep.join(parts)] *)
Fixpoint join (sep : string) (parts : list string) : string :=
  match parts with
  | [] => EmptyString
  | [p] => p
  | p :: rest => p +:+ sep +:+ join sep rest
  end.

(** [str(n)] for an integer. *)
Definition of_Z (z : Z) : string := NilZero.string_of_int (Z.to_int z).

Definition of_nat (n : nat) : string := of_Z (Z.of_nat n).

End PyStr.

(** ** Values stored in metadata *)

(** The values the document loader and the vector index keep in a
    passage's metadata: [None], booleans, integers and strings. *)
Inductive scalar : Type :=
| SNone
| SBool (b : bool)
| SInt (z : Z)
| SStr (s : string).

Module Scalar.

(** Truth value of [if v]. *)
Definition truthy (v : scalar) : bool :=
  match v with
  | SNone => false
  | SBool b => b
  | SInt z => negb (z =? 0)%Z
  | SStr s => negb (PyStr.is_empty s)
  end.

(** Booleans are integers for [==] and for hashing. *)
Definition as_int (v : scalar) : option Z :=
  match v with
  | SBool b => Some (if b then 1 else 0)%Z
  | SInt z => Some z
  | _ => None
  end.

(** [a == b], the test behind [page in seen_pages]. *)
Definition eqb (a b : scalar) : bool :=
  match as_int a, as_int b with
  | Some x, Some y => (x =? y)%Z
  | None, None =>
      match a, b with
      | SNone, SNone => true
      | SStr s, SStr t => String.eqb s t
      | _, _ => false
      end
  | _, _ => false
  end.

(** [str(v)], as an f-string renders a value. *)
Definition to_str (v : scalar) : string :=
  match v with
  | SNone => "None"
  | SBool true => "True"
  | SBool false => "False"
  | SInt z => PyStr.of_Z z
  | SStr s => s
  end.

End Scalar.

(** ** Values stored in the assessment and in the response metadata *)

(** Text produced by an f-string that interpolates floats.  The literal
    pieces are kept as they are; a float field stays a number together
    with its format, [{x:.2f}] or [{x}]. *)
Inductive fpart : Type :=
| FLit (s : string)
| F2f (x : Q)
| FRepr (x : Q).

Inductive pyval : Type :=
| VBool (b : bool)
| VInt (z : Z)
| VFloat (x : Q)
| VStr (s : string)
| VFStr (parts : list fpart).

(** A dict with string keys. *)
Abbreviation pydict := (gmap string pyval).

(** A dict literal. *)
Definition dict (items : list (string * pyval)) : pydict := list_to_map items.

(** ** Passages (langchain [Document]) *)

Module Document.

Record t : Type := mk {
  page_content : string;
  metadata : gmap string scalar }.

(** [doc.metadata.get(key, default)] *)
Definition get (doc : t) (key : string) (default : scalar) : scalar :=
  match metadata doc !! key with
  | Some v => v
  | None => default
  end.

End Document.

(** An entry of [rag_sources]: [{'page': .., 'source': .., 'preview': ..}]. *)
Module RagSource.

Record t : Type := mk {
  page : scalar;
  source : scalar;
  preview : string }.

End RagSource.

(** ** Settings (config/settings.py) *)

Module Settings.

Record t : Type := mk {
  TOP_K_RETRIEVAL : nat;
  RELEVANCE_THRESHOLD : Q;
  MIN_CONFIDENCE_SCORE : Q;
  MAX_SEARCH_RESULTS : nat }.

(** The values of the class body; each can be overridden from the
    process environment. *)
Definition defaults : t :=
  {| TOP_K_RETRIEVAL := 5;
     RELEVANCE_THRESHOLD := 50 # 100;
     MIN_CONFIDENCE_SCORE := 40 # 100;
     MAX_SEARCH_RESULTS := 5 |}.

End Settings.

(** ** Collaborators and their calls *)

(** Outcome of a call that can raise: the value, or the text of the
    exception ([str(e)]). *)
Inductive result (A : Type) : Type :=
| Ok (a : A)
| Raise (message : string).

Arguments Ok {A} a.
Arguments Raise {A} message.

(** A web search result as [search_and_extract] returns it. *)
Module WebResult.

Record t : Type := mk {
  title : string;
  url : string;
  snippet : string;
  content : string }.

End WebResult.

(** An entry of [web_sources]: [{'url': .., 'title': ..}]. *)
Module WebSource.

Record t : Type := mk {
  url : string;
  title : string }.

End WebSource.

(** The three prompt templates, with the values bound to their fields. *)
Inductive Prompt : Type :=
| RagAnswerPrompt (context : option string) (question : string)
| WebAnswerPrompt (web_results : string) (question : string)
| ReformulationPrompt (question : string).

Module Env.

Record t : Type := mk {
  settings : Settings.t;
  (** [vector_store.similarity_search_with_score(query, k)]: passages
      with their distances, best first. *)
  similarity_search_with_score :
    string -> nat -> result (list (Document.t * Q));
  (** [llm.invoke(messages).content] *)
  llm_invoke : Prompt -> result string;
  (** [web_searcher.search_and_extract(query, max_results)] *)
  search_and_extract : string -> nat -> result (list WebResult.t) }.

End Env.

Inductive Call : Type :=
| CallVectorSearch (query : string) (k : nat)
| CallLLM (prompt : Prompt)
| CallWebSearch (query : string) (max_results : nat).

(** Computations that read the collaborators and log their calls. *)
Definition M (A : Type) : Type := Env.t -> A * list Call.

#[global] Instance M_ret : MRet M := fun A a _ => (a, []).

#[global] Instance M_bind : MBind M :=
  fun A B f m env =>
    let '(a, calls1) := m env in
    let '(b, calls2) := f a env in
    (b, calls1 ++ calls2).

Definition get_settings : M Settings.t := fun env => (Env.settings env, []).

Definition vector_search (query : string) (k : nat)
    : M (result (list (Document.t * Q))) :=
  fun env => (Env.similarity_search_with_score env query k,
              [CallVectorSearch query k]).

Definition invoke_llm (prompt : Prompt) : M (result string) :=
  fun env => (Env.llm_invoke env prompt, [CallLLM prompt]).

Definition web_search (query : string) (max_results : nat)
    : M (result (list WebResult.t)) :=
  fun env => (Env.search_and_extract env query max_results,
              [CallWebSearch query max_results]).

(** ** Retrieval, relevance assessment and source metadata (retriever.py) *)

Module RAGRetriever.

Local Open Scope Q_scope.

(** [retrieve(query)] with [top_k] left to its default. *)
Definition retrieve (query : string)
    : M (result (list Document.t * list Q)) :=
  settings ← get_settings;
  let top_k := Settings.TOP_K_RETRIEVAL settings in
  results ← vector_search query top_k;
  match results with
  | Raise e => mret (Raise e)
  | Ok [] => mret (Ok ([], []))
  | Ok results =>
      let documents := map fst results in
      let scores := map snd results in
      mret (Ok (documents, ScoreNormalizer.normalized_scores scores))
  end.

Definition assess_relevance (settings : Settings.t) (query : string)
    (documents : list Document.t) (scores : list Q) : pydict :=
  let relevance_threshold := Settings.RELEVANCE_THRESHOLD settings in
  let min_confidence := Settings.MIN_CONFIDENCE_SCORE settings in
  match documents, scores with
  | [], _ | _, [] =>
      dict [ ("is_relevant", VBool false);
             ("confidence", VFloat 0);
             ("reason", VStr "No documents retrieved");
             ("top_score", VFloat 0);
             ("avg_score", VFloat 0) ]
  | _ :: _, s0 :: rest =>
      let similarity_scores := scores in
      let top_score := PyFloat.max s0 rest in
      let avg_score :=
        PyFloat.sum similarity_scores
        / PyFloat.of_nat (length similarity_scores) in
      let overall_score := Helpers.calculate_relevance_score similarity_scores in
      let is_relevant :=
        PyFloat.geb top_score relevance_threshold
        && PyFloat.geb overall_score min_confidence in
      let reason :=
        if is_relevant then
          [FLit "High relevance detected (top similarity: "; F2f top_score;
           FLit ")"]
        else if PyFloat.ltb top_score relevance_threshold then
          [FLit "Top similarity "; F2f top_score; FLit " below threshold ";
           FRepr relevance_threshold]
        else
          [FLit "Overall confidence "; F2f overall_score;
           FLit " below minimum "; FRepr min_confidence] in
      dict [ ("is_relevant", VBool is_relevant);
             ("confidence", VFloat overall_score);
             ("reason", VFStr reason);
             ("top_score", VFloat top_score);
             ("avg_score", VFloat avg_score);
             ("num_documents", VInt (Z.of_nat (length documents))) ]
  end.

Definition retrieve_and_assess (query : string)
    : M (result (list Document.t * pydict)) :=
  settings ← get_settings;
  retrieved ← retrieve query;
  match retrieved with
  | Raise e => mret (Raise e)
  | Ok (documents, scores) =>
      let assessment :=
        assess_relevance settings query documents scores in
      mret (Ok (documents, assessment))
  end.

(** [enumerate(xs, 1)] *)
Definition enumerate1 {A : Type} (xs : list A) : list (nat * A) :=
  combine (seq 1 (length xs)) xs.

Definition format_context (documents : list Document.t) : string :=
  match documents with
  | [] => EmptyString
  | _ =>
      let context_parts :=
        map (fun '(i, doc) =>
               let page := Document.get doc "page" (SStr "Unknown") in
               let content := PyStr.strip (Document.page_content doc) in
               "[Document " +:+ PyStr.of_nat i +:+ " - Page "
               +:+ Scalar.to_str page +:+ "]"
               +:+ String PyStr.newline content
               +:+ String PyStr.newline EmptyString)
            (enumerate1 documents) in
      PyStr.join (String PyStr.newline EmptyString) context_parts
  end.

(** [page in seen_pages] *)
Definition seen (page : scalar) (seen_pages : list scalar) : bool :=
  existsb (Scalar.eqb page) seen_pages.

Definition source_entry (doc : Document.t) : RagSource.t :=
  {| RagSource.page := Document.get doc "page" SNone;
     RagSource.source := Document.get doc "source" (SStr "Unknown");
     RagSource.preview :=
       PyStr.slice_to 200 (Document.page_content doc) +:+ "..." |}.

(** One iteration of the loop over [documents]; the state is the pair
    of [sources] and [seen_pages].  The set [seen_pages] is used through
    [in] and [add] only, and is kept as the list of the pages added. *)
Definition source_step (acc : list RagSource.t * list scalar)
    (doc : Document.t) : list RagSource.t * list scalar :=
  let '(sources, seen_pages) := acc in
  let page := Document.get doc "page" SNone in
  if Scalar.truthy page && negb (seen page seen_pages) then
    (sources ++ [source_entry doc], seen_pages ++ [page])
  else (sources, seen_pages).

Definition get_source_metadata (documents : list Document.t)
    : list RagSource.t :=
  fst (fold_left source_step documents ([], [])).

End RAGRetriever.

(** ** Regular expressions (the part of Python's [re] the code uses) *)

Module Re.

(** One-character patterns: a literal, [.] and [\s]. *)
Inductive cclass : Type :=
| CLit (c : ascii)
| CAny
| CSpace.

(** Patterns.  The repetitions of the source apply to one-character
    patterns only ([.*], [\s+]); all repetitions are greedy. *)
Inductive regex : Type :=
| REps
| RCls (c : cclass)
| ROpt (r : regex)
| RStar (c : cclass)
| RPlus (c : cclass)
| RSeq (r1 r2 : regex)
| RAlt (r1 r2 : regex)
| RBol
| REol.

(** A literal word, character by character. *)
Fixpoint lit (s : string) : regex :=
  match s with
  | EmptyString => REps
  | String c EmptyString => RCls (CLit c)
  | String c s' => RSeq (RCls (CLit c)) (lit s')
  end.

Fixpoint seq_of (rs : list regex) : regex :=
  match rs with
  | [] => REps
  | [r] => r
  | r :: rest => RSeq r (seq_of rest)
  end.

Fixpoint alt_of (r : regex) (rs : list regex) : regex :=
  match rs with
  | [] => r
  | r' :: rest => RAlt r (alt_of r' rest)
  end.

(** Does the character [x] match the class?  [ignorecase] is the flag
    [(?i)]; [.] does not match a newline. *)
Definition cls_match (ignorecase : bool) (c : cclass) (x : ascii) : bool :=
  match c with
  | CLit l =>
      if ignorecase
      then Ascii.eqb (PyStr.lower_char x) (PyStr.lower_char l)
      else Ascii.eqb x l
  | CAny => negb (Ascii.eqb x PyStr.newline)
  | CSpace => PyStr.isspace x
  end.

Definition orelse {A : Type} (x y : option A) : option A :=
  match x with
  | Some a => Some a
  | None => y
  end.

(** [$]: at the end of the subject, or before a newline that ends it. *)
Definition at_end (s : string) : bool :=
  match s with
  | EmptyString => true
  | String c EmptyString => Ascii.eqb c PyStr.newline
  | _ => false
  end.

Section Matcher.

Context {A : Type} (ignorecase : bool).

(** Greedy repetition of a class: take one more character first, give
    it back when the continuation fails. *)
Fixpoint star (c : cclass) (k : nat -> string -> option A)
    (pos : nat) (s : string) : option A :=
  match s with
  | String x s' =>
      if cls_match ignorecase c x
      then orelse (star c k (S pos) s') (k pos s)
      else k pos s
  | EmptyString => k pos s
  end.

(** Backtracking matcher.  [pos] is the number of characters of the
    subject before [s]; [k] is what remains to be matched. *)
Fixpoint run (r : regex) (k : nat -> string -> option A)
    (pos : nat) (s : string) : option A :=
  match r with
  | REps => k pos s
  | RCls c =>
      match s with
      | String x s' =>
          if cls_match ignorecase c x then k (S pos) s' else None
      | EmptyString => None
      end
  | ROpt r' => orelse (run r' k pos s) (k pos s)
  | RStar c => star c k pos s
  | RPlus c =>
      match s with
      | String x s' =>
          if cls_match ignorecase c x then star c k (S pos) s' else None
      | EmptyString => None
      end
  | RSeq r1 r2 => run r1 (run r2 k) pos s
  | RAlt r1 r2 => orelse (run r1 k pos s) (run r2 k pos s)
  | RBol => if (pos =? 0)%nat then k pos s else None
  | REol => if at_end s then k pos s else None
  end.

End Matcher.

(** A match of [r] that starts at [pos]: the position where it ends.
    With [must_advance] an empty match is refused. *)
Definition match_at (ignorecase : bool) (r : regex) (must_advance : bool)
    (pos : nat) (s : string) : option nat :=
  run ignorecase r
    (fun e _ => if must_advance && (e =? pos)%nat then None else Some e)
    pos s.

(** [re.search]: the leftmost match, as (start, end). *)
Fixpoint search_from (ignorecase : bool) (r : regex) (pos : nat) (s : string)
    : option (nat * nat) :=
  match match_at ignorecase r false pos s with
  | Some e => Some (pos, e)
  | None =>
      match s with
      | EmptyString => None
      | String _ s' => search_from ignorecase r (S pos) s'
      end
  end.

Definition search (ignorecase : bool) (r : regex) (s : string)
    : option (nat * nat) :=
  search_from ignorecase r 0 s.

(** [re.sub(r, repl, s)]: every match found from left to right is
    replaced.  [skip] counts the characters still covered by the last
    match; after an empty match the next match at the same position must
    advance. *)
Fixpoint sub_from (ignorecase : bool) (r : regex) (repl : string)
    (pos skip : nat) (s : string) : string :=
  match skip with
  | S skip' =>
      match s with
      | EmptyString => EmptyString
      | String _ s' => sub_from ignorecase r repl (S pos) skip' s'
      end
  | O =>
      let continue (covered : nat) : string :=
        match s with
        | EmptyString => EmptyString
        | String x s' =>
            match covered with
            | O => String x (sub_from ignorecase r repl (S pos) 0 s')
            | S c => sub_from ignorecase r repl (S pos) c s'
            end
        end in
      match match_at ignorecase r false pos s with
      | None => continue 0%nat
      | Some e =>
          if (e =? pos)%nat then
            match match_at ignorecase r true pos s with
            | Some e' => repl +:+ repl +:+ continue (e' - pos)%nat
            | None => repl +:+ continue 0%nat
            end
          else repl +:+ continue (e - pos)%nat
      end
  end.

Definition sub (ignorecase : bool) (r : regex) (repl : string) (s : string)
    : string :=
  sub_from ignorecase r repl 0 0 s.

End Re.

(** ** Insufficiency classifier (nodes.py) *)

Module Classifier.

Import Re.

Definition any_text : regex := RStar CAny.

Definition insufficient_patterns : list regex :=
  [ (* (?i)don'?t have.*information *)
    seq_of [lit "don"; ROpt (lit "'"); lit "t have"; any_text;
            lit "information"];
    (* (?i)does not contain.*information *)
    seq_of [lit "does not contain"; any_text; lit "information"];
    (* (?i)not mentioned in.*context *)
    seq_of [lit "not mentioned in"; any_text; lit "context"];
    (* (?i)context does not.*enough *)
    seq_of [lit "context does not"; any_text; lit "enough"];
    (* (?i)unable to provide *)
    lit "unable to provide";
    (* (?i)cannot answer *)
    lit "cannot answer";
    (* (?i)no information about *)
    lit "no information about";
    (* (?i)not included in.*context *)
    seq_of [lit "not included in"; any_text; lit "context"];
    (* (?i)unfortunately.*context *)
    seq_of [lit "unfortunately"; any_text; lit "context"] ].

(** The loop [for pattern in ...: if re.search(pattern, answer): return
    True], ending in [return False]. *)
Fixpoint first_match (patterns : list regex) (answer : string) : bool :=
  match patterns with
  | [] => false
  | pattern :: rest =>
      match search true pattern answer with
      | Some _ => true
      | None => first_match rest answer
      end
  end.

Definition _answer_indicates_insufficient_info (answer : string) : bool :=
  first_match insufficient_patterns answer.

End Classifier.

(** ** Citations (helpers.py) *)

Module Citations.

Definition numbered {A : Type} (xs : list A) : list (nat * A) :=
  RAGRetriever.enumerate1 xs.

(** [format_citations(sources, source_type="pdf")] *)
Definition format_citations_pdf (sources : list RagSource.t) : string :=
  match sources with
  | [] => "No sources available."
  | _ =>
      PyStr.join (String PyStr.newline EmptyString)
        (map (fun '(i, source) =>
                "[" +:+ PyStr.of_nat i +:+ "] Page "
                +:+ Scalar.to_str (RagSource.page source))
             (numbered sources))
  end.

(** [format_citations(sources, source_type="web")] *)
Definition format_citations_web (sources : list WebSource.t) : string :=
  match sources with
  | [] => "No sources available."
  | _ =>
      PyStr.join (String PyStr.newline EmptyString)
        (map (fun '(i, source) =>
                "[" +:+ PyStr.of_nat i +:+ "] " +:+ WebSource.title source
                +:+ " - " +:+ WebSource.url source)
             (numbered sources))
  end.

End Citations.

(** ** Answer generation (answer_generator.py) *)

(** The dict an answer generator returns. *)
Module AnswerRecord.

Record t (S : Type) : Type := mk {
  answer : string;
  source_type : string;
  sources : list S;
  citations : string;
  success : bool;
  error : option string }.

Arguments mk {S}.
Arguments answer {S}.
Arguments source_type {S}.
Arguments sources {S}.
Arguments citations {S}.
Arguments success {S}.
Arguments error {S}.

End AnswerRecord.

Module AnswerGenerator.

Definition generate_rag_answer (question : string) (context : option string)
    (sources : list RagSource.t) : M (AnswerRecord.t RagSource.t) :=
  response ← invoke_llm (RagAnswerPrompt context question);
  match response with
  | Ok answer =>
      let citations := Citations.format_citations_pdf sources in
      mret {| AnswerRecord.answer := answer;
             AnswerRecord.source_type := "knowledge_base";
             AnswerRecord.sources := sources;
             AnswerRecord.citations := citations;
             AnswerRecord.success := true;
             AnswerRecord.error := None |}
  | Raise e =>
      mret {| AnswerRecord.answer :=
               "I apologize, but I encountered an error generating the answer.";
             AnswerRecord.source_type := "knowledge_base";
             AnswerRecord.sources := [];
             AnswerRecord.citations := "";
             AnswerRecord.success := false;
             AnswerRecord.error := Some e |}
  end.

Definition _format_web_results (web_results : list WebResult.t) : string :=
  let formatted :=
    map (fun '(i, result) =>
           "[" +:+ PyStr.of_nat i +:+ "] " +:+ WebResult.title result
           +:+ String PyStr.newline
                 ("URL: " +:+ WebResult.url result
                  +:+ String PyStr.newline
                        ("Content: "
                         +:+ PyStr.slice_to 500 (WebResult.content result)
                         +:+ "..." +:+ String PyStr.newline EmptyString)))
        (RAGRetriever.enumerate1 web_results) in
  PyStr.join (String PyStr.newline EmptyString) formatted.

Definition generate_web_answer (question : string)
    (web_results : list WebResult.t) : M (AnswerRecord.t WebSource.t) :=
  let web_results_text := _format_web_results web_results in
  response ← invoke_llm (WebAnswerPrompt web_results_text question);
  match response with
  | Ok answer =>
      let sources :=
        map (fun result =>
               {| WebSource.url := WebResult.url result;
                  WebSource.title := WebResult.title result |})
            (firstn 5 web_results) in
      let citations := Citations.format_citations_web sources in
      mret {| AnswerRecord.answer := answer;
             AnswerRecord.source_type := "web";
             AnswerRecord.sources := sources;
             AnswerRecord.citations := citations;
             AnswerRecord.success := true;
             AnswerRecord.error := None |}
  | Raise e =>
      mret {| AnswerRecord.answer :=
               "I apologize, but I encountered an error generating the answer from web sources.";
             AnswerRecord.source_type := "web";
             AnswerRecord.sources := [];
             AnswerRecord.citations := "";
             AnswerRecord.success := false;
             AnswerRecord.error := Some e |}
  end.

(** [^(what|how|when|where|why|who|which|can you|please)\s+] *)
Definition leading_interrogative : Re.regex :=
  Re.seq_of
    [ Re.RBol;
      Re.alt_of (Re.lit "what")
        (map Re.lit ["how"; "when"; "where"; "why"; "who"; "which";
                     "can you"; "please"]);
      Re.RPlus Re.CSpace ].

(** [\?$] *)
Definition trailing_question_mark : Re.regex :=
  Re.RSeq (Re.lit "?") Re.REol.

Definition _simple_reformulation (question : string) : string :=
  let query := Re.sub false leading_interrogative "" (PyStr.lower question) in
  let query := Re.sub false trailing_question_mark "" query in
  PyStr.strip query.

(** The characters the second [strip] removes: the double and the
    single quote. *)
Definition quotes : string :=
  String (ascii_of_nat 34) (String (ascii_of_nat 39) EmptyString).

Definition space : ascii := ascii_of_nat 32.

(** The reply with white space and wrapping quotes removed. *)
Definition clean_reply (content : string) : string :=
  PyStr.strip_chars quotes (PyStr.strip content).

(** [len(reformulated) < 3 or not reformulated.replace(' ', '').isalnum()] *)
Definition too_short_or_broken (reformulated : string) : bool :=
  (String.length reformulated <? 3)%nat
  || negb (PyStr.isalnum (PyStr.remove_char space reformulated)).

Definition reformulate_query_for_web (question : string) : M string :=
  response ← invoke_llm (ReformulationPrompt question);
  match response with
  | Ok content =>
      let reformulated := clean_reply content in
      if too_short_or_broken reformulated
      then mret (_simple_reformulation question)
      else mret reformulated
  | Raise _ => mret (_simple_reformulation question)
  end.

End AnswerGenerator.

(** ** Workflow state (state.py) *)

Module PyVal.

(** Truth value of [if v]. *)
Definition truthy (v : pyval) : bool :=
  match v with
  | VBool b => b
  | VInt z => negb (z =? 0)%Z
  | VFloat x => negb (Qeq_bool x 0)
  | VStr s => negb (PyStr.is_empty s)
  | VFStr parts => match parts with [] => false | _ => true end
  end.

End PyVal.

Module GraphState.

Record t : Type := mk {
  question : string;
  reformulated_query : option string;
  retrieved_documents : list Document.t;
  retrieval_scores : list pyval;
  relevance_assessment : pydict;
  is_knowledge_base_sufficient : bool;
  needs_web_fallback : bool;
  rag_context : option string;
  rag_sources : list RagSource.t;
  web_search_query : option string;
  web_results : list WebResult.t;
  web_sources : list WebSource.t;
  answer : string;
  source_type : string;
  citations : string;
  error : option string;
  metadata : pydict }.

Definition create_initial_state (question : string) : t :=
  {| question := question;
     reformulated_query := None;
     retrieved_documents := [];
     retrieval_scores := [];
     relevance_assessment := ∅;
     is_knowledge_base_sufficient := false;
     needs_web_fallback := false;
     rag_context := None;
     rag_sources := [];
     web_search_query := None;
     web_results := [];
     web_sources := [];
     answer := "";
     source_type := "";
     citations := "";
     error := None;
     metadata := ∅ |}.

(** Assignments [state[key] = value], one per key the nodes write. *)
Definition set_retrieved_documents (v : list Document.t) (s : t) : t :=
  let 'mk a b _ d e f g h i j k l m n o p q := s in
  mk a b v d e f g h i j k l m n o p q.

Definition set_retrieval_scores (v : list pyval) (s : t) : t :=
  let 'mk a b c _ e f g h i j k l m n o p q := s in
  mk a b c v e f g h i j k l m n o p q.

Definition set_relevance_assessment (v : pydict) (s : t) : t :=
  let 'mk a b c d _ f g h i j k l m n o p q := s in
  mk a b c d v f g h i j k l m n o p q.

Definition set_is_knowledge_base_sufficient (v : bool) (s : t) : t :=
  let 'mk a b c d e _ g h i j k l m n o p q := s in
  mk a b c d e v g h i j k l m n o p q.

Definition set_needs_web_fallback (v : bool) (s : t) : t :=
  let 'mk a b c d e f _ h i j k l m n o p q := s in
  mk a b c d e f v h i j k l m n o p q.

Definition set_rag_context (v : option string) (s : t) : t :=
  let 'mk a b c d e f g _ i j k l m n o p q := s in
  mk a b c d e f g v i j k l m n o p q.

Definition set_rag_sources (v : list RagSource.t) (s : t) : t :=
  let 'mk a b c d e f g h _ j k l m n o p q := s in
  mk a b c d e f g h v j k l m n o p q.

Definition set_web_search_query (v : option string) (s : t) : t :=
  let 'mk a b c d e f g h i _ k l m n o p q := s in
  mk a b c d e f g h i v k l m n o p q.

Definition set_web_results (v : list WebResult.t) (s : t) : t :=
  let 'mk a b c d e f g h i j _ l m n o p q := s in
  mk a b c d e f g h i j v l m n o p q.

Definition set_web_sources (v : list WebSource.t) (s : t) : t :=
  let 'mk a b c d e f g h i j k _ m n o p q := s in
  mk a b c d e f g h i j k v m n o p q.

Definition set_answer (v : string) (s : t) : t :=
  let 'mk a b c d e f g h i j k l _ n o p q := s in
  mk a b c d e f g h i j k l v n o p q.

Definition set_source_type (v : string) (s : t) : t :=
  let 'mk a b c d e f g h i j k l m _ o p q := s in
  mk a b c d e f g h i j k l m v o p q.

Definition set_citations (v : string) (s : t) : t :=
  let 'mk a b c d e f g h i j k l m n _ p q := s in
  mk a b c d e f g h i j k l m n v p q.

Definition set_error (v : option string) (s : t) : t :=
  let 'mk a b c d e f g h i j k l m n o _ q := s in
  mk a b c d e f g h i j k l m n o v q.

Definition set_metadata (v : pydict) (s : t) : t :=
  let 'mk a b c d e f g h i j k l m n o p _ := s in
  mk a b c d e f g h i j k l m n o p v.

End GraphState.

(** ** Workflow nodes (nodes.py) *)

Module WorkflowNodes.

Import GraphState.

(** [str(KeyError(key))] *)
Definition key_error (key : string) : string := "'" +:+ key +:+ "'".

Definition retrieve_from_kb (state : t) : M t :=
  let on_exception (state : t) (e : string) : t :=
    set_is_knowledge_base_sufficient false (set_error (Some e) state) in
  outcome ← RAGRetriever.retrieve_and_assess (question state);
  match outcome with
  | Raise e => mret (on_exception state e)
  | Ok (documents, assessment) =>
      let state := set_retrieved_documents documents state in
      match assessment !! "top_score" with
      | None => mret (on_exception state (key_error "top_score"))
      | Some top_score =>
          let state := set_retrieval_scores [top_score] state in
          let state := set_relevance_assessment assessment state in
          match assessment !! "is_relevant" with
          | None => mret (on_exception state (key_error "is_relevant"))
          | Some is_relevant =>
              let state :=
                set_is_knowledge_base_sufficient (PyVal.truthy is_relevant)
                  state in
              match documents with
              | [] => mret state
              | _ =>
                  let state :=
                    set_rag_context
                      (Some (RAGRetriever.format_context documents)) state in
                  mret (set_rag_sources
                          (RAGRetriever.get_source_metadata documents) state)
              end
          end
      end
  end.

Definition generate_rag_answer (state : t) : M t :=
  result ← AnswerGenerator.generate_rag_answer
             (question state) (rag_context state) (rag_sources state);
  let state := set_answer (AnswerRecord.answer result) state in
  let state := set_source_type (AnswerRecord.source_type result) state in
  let state := set_citations (AnswerRecord.citations result) state in
  if Classifier._answer_indicates_insufficient_info (AnswerRecord.answer result)
  then
    let state := set_is_knowledge_base_sufficient false state in
    mret (set_needs_web_fallback true state)
  else mret state.

Definition fallback_notification : string :=
  "⚠️ The information was not found in the knowledge base. "
  +:+ "Searching the web for an answer...".

Definition notify_user_fallback (state : t) : M t :=
  mret (set_metadata
          (<[ "fallback_notification" := VStr fallback_notification ]>
             (metadata state))
          state).

Definition search_web (state : t) : M t :=
  reformulated ← AnswerGenerator.reformulate_query_for_web (question state);
  let state := set_web_search_query (Some reformulated) state in
  settings ← get_settings;
  outcome ← web_search reformulated (Settings.MAX_SEARCH_RESULTS settings);
  match outcome with
  | Ok results => mret (set_web_results results state)
  | Raise e => mret (set_web_results [] (set_error (Some e) state))
  end.

Definition no_information_answer : string :=
  "I apologize, but I couldn't find sufficient information "
  +:+ "in either the knowledge base or the web to answer your question.".

Definition generate_web_answer (state : t) : M t :=
  match web_results state with
  | [] =>
      let state := set_answer no_information_answer state in
      mret (set_source_type "none" state)
  | _ =>
      result ← AnswerGenerator.generate_web_answer
                 (question state) (web_results state);
      let state := set_answer (AnswerRecord.answer result) state in
      let state := set_source_type (AnswerRecord.source_type result) state in
      let state := set_citations (AnswerRecord.citations result) state in
      mret (set_web_sources (AnswerRecord.sources result) state)
  end.

(** [relevance_assessment.get('confidence', 0.0)] *)
Definition assessment_confidence (state : t) : pyval :=
  match relevance_assessment state !! "confidence" with
  | Some v => v
  | None => VFloat 0
  end.

(** [len(rag_sources or web_sources)] *)
Definition num_sources (state : t) : nat :=
  match rag_sources state with
  | [] => length (web_sources state)
  | _ => length (rag_sources state)
  end.

Definition format_final_output (state : t) : M t :=
  let state :=
    set_metadata
      (<[ "confidence" := assessment_confidence state ]> (metadata state))
      state in
  mret (set_metadata
          (<[ "num_sources" := VInt (Z.of_nat (num_sources state)) ]>
             (metadata state))
          state).

End WorkflowNodes.

(** ** Workflow graph (workflow.py) *)

Module Node.

Inductive t : Type :=
| retrieve_kb
| generate_rag_answer
| notify_fallback
| search_web
| generate_web_answer
| format_output
| END.

End Node.

Module QAWorkflow.

(** The labels the routing functions return. *)
Inductive Route : Type :=
| generate_rag
| fallback_to_web
| use_rag.

Definition _route_after_retrieval (state : GraphState.t) : Route :=
  if GraphState.is_knowledge_base_sufficient state
  then generate_rag
  else fallback_to_web.

Definition _route_after_rag_answer (state : GraphState.t) : Route :=
  if GraphState.needs_web_fallback state
  then fallback_to_web
  else use_rag.

(** [add_node]: the function each node runs. *)
Definition node_function (node : Node.t) (state : GraphState.t)
    : M GraphState.t :=
  match node with
  | Node.retrieve_kb => WorkflowNodes.retrieve_from_kb state
  | Node.generate_rag_answer => WorkflowNodes.generate_rag_answer state
  | Node.notify_fallback => WorkflowNodes.notify_user_fallback state
  | Node.search_web => WorkflowNodes.search_web state
  | Node.generate_web_answer => WorkflowNodes.generate_web_answer state
  | Node.format_output => WorkflowNodes.format_final_output state
  | Node.END => mret state
  end.

(** [add_edge] and [add_conditional_edges]: the node that follows
    [node], given the state the node left. *)
Definition next_node (node : Node.t) (state : GraphState.t) : Node.t :=
  match node with
  | Node.retrieve_kb =>
      match _route_after_retrieval state with
      | generate_rag => Node.generate_rag_answer
      | _ => Node.notify_fallback
      end
  | Node.generate_rag_answer =>
      match _route_after_rag_answer state with
      | use_rag => Node.format_output
      | _ => Node.notify_fallback
      end
  | Node.notify_fallback => Node.search_web
  | Node.search_web => Node.generate_web_answer
  | Node.generate_web_answer => Node.format_output
  | Node.format_output => Node.END
  | Node.END => Node.END
  end.

(** The value of each key after a node has returned its state: the
    returned value, except for [retrieved_documents], declared
    [Annotated[List[Any], add]], whose returned list is added to the
    stored one. *)
Definition merge (stored returned : GraphState.t) : GraphState.t :=
  GraphState.set_retrieved_documents
    (GraphState.retrieved_documents stored
     ++ GraphState.retrieved_documents returned)
    returned.

(** One executed node: the node, the state it received and the state
    the graph holds after it. *)
Record Step : Type := mk_step {
  step_node : Node.t;
  step_before : GraphState.t;
  step_after : GraphState.t }.

(** [graph.invoke]: run the nodes from [node] until [END].  [fuel]
    bounds the number of nodes run; the result is [None] when it is
    exhausted. *)
Fixpoint invoke_from (fuel : nat) (node : Node.t) (state : GraphState.t)
    : M (list Step * option GraphState.t) :=
  match node with
  | Node.END => mret ([], Some state)
  | _ =>
      match fuel with
      | O => mret ([], None)
      | S fuel' =>
          returned ← node_function node state;
          let state' := merge state returned in
          '(steps, final) ← invoke_from fuel' (next_node node state') state';
          mret (mk_step node state state' :: steps, final)
      end
  end.

(** No path of the graph has more than six nodes. *)
Definition max_steps : nat := 6.

Definition invoke (initial_state : GraphState.t)
    : M (list Step * option GraphState.t) :=
  invoke_from max_steps Node.retrieve_kb initial_state.

(** [run(question)]: the state the graph ends in.  When [invoke] raises,
    which for this model means that the bound on the number of nodes is
    reached, the initial state is returned with an error. *)
Definition run (question : string) : M GraphState.t :=
  let initial_state := GraphState.create_initial_state question in
  '(_, final) ← invoke initial_state;
  match final with
  | Some final_state => mret final_state
  | None =>
      mret (GraphState.set_answer
              "An error occurred while processing your question."
              (GraphState.set_error (Some "Recursion limit reached")
                 initial_state))
  end.

End QAWorkflow.

(** * Definitions used to state the properties *)

(** ** The weighted average of the specification *)

(** The sum of [f i] over the ranks [i < n]. *)
Fixpoint Qsum (n : nat) (f : nat -> Q) : Q :=
  match n with
  | O => 0
  | S k => Qsum k f + f k
  end.

(** The sum of [s_i * 1/(i+1)] divided by the sum of [1/(i+1)], over the
    ranks [i] of [scores]. *)
Definition weighted_average (scores : list Q) : Q :=
  (Qsum (length scores)
     (fun i => nth i scores 0 * (1 / PyFloat.of_nat (i + 1)))
   / Qsum (length scores) (fun i => 1 / PyFloat.of_nat (i + 1)))%Q.

(** ** Dict literals and kept documents *)

(** The value a dict literal without repeated keys gives to [key]. *)
Fixpoint assoc (key : string) (items : list (string * pyval)) : option pyval :=
  match items with
  | [] => None
  | (k, v) :: rest => if String.eqb k key then Some v else assoc key rest
  end.

(** [doc.metadata.get('page')] *)
Definition page_of (doc : Document.t) : scalar := Document.get doc "page" SNone.

(** The documents the loop of [get_source_metadata] keeps, given the pages
    seen so far. *)
Fixpoint kept (seen_pages : list scalar) (docs : list Document.t)
    : list Document.t :=
  match docs with
  | [] => []
  | d :: rest =>
      if Scalar.truthy (page_of d)
         && negb (RAGRetriever.seen (page_of d) seen_pages)
      then d :: kept (seen_pages ++ [page_of d]) rest
      else kept seen_pages rest
  end.

(** ** Sample data *)

Module Sample.

(** A passage without a page, one on page 0 and two on page 3. *)
Definition loose_note : Document.t := Document.mk "Loose note" ∅.

Definition cover : Document.t :=
  Document.mk "Cover" {[ "page" := SInt 0 ]}.

Definition body : Document.t :=
  Document.mk "Paris is the capital of France."
    (<[ "source" := SStr "atlas.pdf" ]> {[ "page" := SInt 3 ]}).

Definition body_again : Document.t :=
  Document.mk "France borders Spain." {[ "page" := SInt 3 ]}.

End Sample.

(** ** What it means for a pattern to match *)

(** [matches ignorecase r pos w rest]: the pattern [r] matches the word
    [w] when [w] starts at position [pos] of the subject and is followed
    by [rest]. *)
Inductive matches (ignorecase : bool)
    : Re.regex -> nat -> string -> string -> Prop :=
| MEps pos rest : matches ignorecase Re.REps pos "" rest
| MCls c x pos rest :
    Re.cls_match ignorecase c x = true ->
    matches ignorecase (Re.RCls c) pos (String x "") rest
| MOptNone r pos rest : matches ignorecase (Re.ROpt r) pos "" rest
| MOptSome r pos w rest :
    matches ignorecase r pos w rest -> matches ignorecase (Re.ROpt r) pos w rest
| MStar c pos w rest :
    PyStr.all (Re.cls_match ignorecase c) w = true ->
    matches ignorecase (Re.RStar c) pos w rest
| MPlus c pos x w rest :
    PyStr.all (Re.cls_match ignorecase c) (String x w) = true ->
    matches ignorecase (Re.RPlus c) pos (String x w) rest
| MSeq r1 r2 pos w1 w2 rest :
    matches ignorecase r1 pos w1 (w2 +:+ rest) ->
    matches ignorecase r2 (pos + String.length w1) w2 rest ->
    matches ignorecase (Re.RSeq r1 r2) pos (w1 +:+ w2) rest
| MAltL r1 r2 pos w rest :
    matches ignorecase r1 pos w rest -> matches ignorecase (Re.RAlt r1 r2) pos w rest
| MAltR r1 r2 pos w rest :
    matches ignorecase r2 pos w rest -> matches ignorecase (Re.RAlt r1 r2) pos w rest
| MBol rest : matches ignorecase Re.RBol 0 "" rest
| MEol pos rest :
    Re.at_end rest = true -> matches ignorecase Re.REol pos "" rest.

(** The pattern matches somewhere in the subject. *)
Definition matches_in (ignorecase : bool) (r : Re.regex) (subject : string) : Prop :=
  exists before w rest,
    subject = before +:+ w +:+ rest
    /\ matches ignorecase r (String.length before) w rest.

(** ** Steps of a run *)

(** The state the graph holds after [node] has run on [state]. *)
Definition exec (env : Env.t) (node : Node.t) (state : GraphState.t)
    : GraphState.t :=
  QAWorkflow.merge state (fst (QAWorkflow.node_function node state env)).

(** What a node leaves untouched when it assigns [answer] and
    [source_type] only. *)
Definition same_but_answer_and_source_type (s s' : GraphState.t) : Prop :=
  GraphState.question s' = GraphState.question s
  /\ GraphState.reformulated_query s' = GraphState.reformulated_query s
  /\ GraphState.retrieved_documents s' = GraphState.retrieved_documents s
  /\ GraphState.retrieval_scores s' = GraphState.retrieval_scores s
  /\ GraphState.relevance_assessment s' = GraphState.relevance_assessment s
  /\ GraphState.is_knowledge_base_sufficient s'
     = GraphState.is_knowledge_base_sufficient s
  /\ GraphState.needs_web_fallback s' = GraphState.needs_web_fallback s
  /\ GraphState.rag_context s' = GraphState.rag_context s
  /\ GraphState.rag_sources s' = GraphState.rag_sources s
  /\ GraphState.web_search_query s' = GraphState.web_search_query s
  /\ GraphState.web_results s' = GraphState.web_results s
  /\ GraphState.web_sources s' = GraphState.web_sources s
  /\ GraphState.citations s' = GraphState.citations s
  /\ GraphState.error s' = GraphState.error s
  /\ GraphState.metadata s' = GraphState.metadata s.

(** What a step of the graph leaves untouched when its node assigns
    [answer] and [source_type] only: every field but these two and
    [retrieved_documents], the key with a reducer. *)
Definition same_but_answer_source_type_and_documents
    (s s' : GraphState.t) : Prop :=
  GraphState.question s' = GraphState.question s
  /\ GraphState.reformulated_query s' = GraphState.reformulated_query s
  /\ GraphState.retrieval_scores s' = GraphState.retrieval_scores s
  /\ GraphState.relevance_assessment s' = GraphState.relevance_assessment s
  /\ GraphState.is_knowledge_base_sufficient s'
     = GraphState.is_knowledge_base_sufficient s
  /\ GraphState.needs_web_fallback s' = GraphState.needs_web_fallback s
  /\ GraphState.rag_context s' = GraphState.rag_context s
  /\ GraphState.rag_sources s' = GraphState.rag_sources s
  /\ GraphState.web_search_query s' = GraphState.web_search_query s
  /\ GraphState.web_results s' = GraphState.web_results s
  /\ GraphState.web_sources s' = GraphState.web_sources s
  /\ GraphState.citations s' = GraphState.citations s
  /\ GraphState.error s' = GraphState.error s
  /\ GraphState.metadata s' = GraphState.metadata s.

(** The steps of running the nodes [nodes] one after the other from
    [state], and the state they end in. *)
Fixpoint follow (env : Env.t) (nodes : list Node.t) (state : GraphState.t)
    : list QAWorkflow.Step * GraphState.t :=
  match nodes with
  | [] => ([], state)
  | node :: rest =>
      let state' := exec env node state in
      let '(steps, final) := follow env rest state' in
      (QAWorkflow.mk_step node state state' :: steps, final)
  end.

(** The steps [graph.invoke] goes through for a question. *)
Definition run_trace (env : Env.t) (question : string) : list QAWorkflow.Step :=
  fst (fst (QAWorkflow.invoke (GraphState.create_initial_state question) env)).

(** The three paths of the graph. *)
Definition kb_path : list Node.t :=
  [Node.retrieve_kb; Node.generate_rag_answer; Node.format_output].

Definition kb_then_web_path : list Node.t :=
  [Node.retrieve_kb; Node.generate_rag_answer; Node.notify_fallback;
   Node.search_web; Node.generate_web_answer; Node.format_output].

Definition web_path : list Node.t :=
  [Node.retrieve_kb; Node.notify_fallback; Node.search_web;
   Node.generate_web_answer; Node.format_output].

(** The path a run takes, decided by the two flags as they stand after
    retrieval and after the KB answer. *)
Definition path_of (env : Env.t) (question : string) : list Node.t :=
  let s0 := GraphState.create_initial_state question in
  let s1 := exec env Node.retrieve_kb s0 in
  if GraphState.is_knowledge_base_sufficient s1 then
    let s2 := exec env Node.generate_rag_answer s1 in
    if GraphState.needs_web_fallback s2 then kb_then_web_path else kb_path
  else web_path.

(** The record the KB answer generator returns for a state. *)
Definition kb_answer (env : Env.t) (state : GraphState.t)
    : AnswerRecord.t RagSource.t :=
  fst (AnswerGenerator.generate_rag_answer
         (GraphState.question state) (GraphState.rag_context state)
         (GraphState.rag_sources state) env).

(** The classifier applied to the answer a step leaves in the state. *)
Definition classifier_fires (step : QAWorkflow.Step) : bool :=
  Classifier._answer_indicates_insufficient_info
    (GraphState.answer (QAWorkflow.step_after step)).

(** ** Sample collaborators *)

Module SampleEnv.

Definition appendix : Document.t :=
  Document.mk "Population tables." {[ "page" := SInt 7 ]}.

(** Two passages at distances 1/9 and 1/4: similarities 0.9 and 0.8. *)
Definition kb_passages : list (Document.t * Q) :=
  [ (Sample.body, 1 # 9); (appendix, 1 # 4) ].

(** A model whose KB answer says the context is not enough. *)
Definition llm_context_not_enough (prompt : Prompt) : result string :=
  match prompt with
  | RagAnswerPrompt _ _ =>
      Ok "The provided context does not contain the information needed."
  | ReformulationPrompt _ => Ok "capital of France"
  | WebAnswerPrompt _ _ => Ok "Paris is the capital of France [1]."
  end.

Definition llm_down (prompt : Prompt) : result string :=
  Raise "connection refused".

Definition web_hits : list WebResult.t :=
  [ WebResult.mk "Paris" "https://example.org/paris" "Capital of France"
      "Paris is the capital and largest city of France.";
    WebResult.mk "France" "https://example.org/france" "Country in Europe"
      "France is a country in Western Europe.";
    WebResult.mk "Capitals" "https://example.org/capitals" "List of capitals"
      "A list of national capitals." ].

(** Knowledge base sufficient by score, answer insufficient, web search
    successful. *)
Definition fallback_to_web : Env.t :=
  {| Env.settings := Settings.defaults;
     Env.similarity_search_with_score := fun _ _ => Ok kb_passages;
     Env.llm_invoke := llm_context_not_enough;
     Env.search_and_extract := fun _ _ => Ok web_hits |}.

(** The same, with a web search that finds nothing. *)
Definition no_web_results : Env.t :=
  {| Env.settings := Settings.defaults;
     Env.similarity_search_with_score := fun _ _ => Ok kb_passages;
     Env.llm_invoke := llm_context_not_enough;
     Env.search_and_extract := fun _ _ => Ok [] |}.

(** No language model. *)
Definition model_down : Env.t :=
  {| Env.settings := Settings.defaults;
     Env.similarity_search_with_score := fun _ _ => Ok kb_passages;
     Env.llm_invoke := llm_down;
     Env.search_and_extract := fun _ _ => Ok web_hits |}.

Definition the_question : string := "What is the capital of France?".

End SampleEnv.

(** ** The rule-based reformulation, in words *)

Module Rule.

Definition interrogatives : list string :=
  ["what"; "how"; "when"; "where"; "why"; "who"; "which"; "can you"; "please"].

(** [s[n:]] *)
Fixpoint drop (n : nat) (s : string) : string :=
  match n, s with
  | O, _ => s
  | S _, EmptyString => EmptyString
  | S n', String _ s' => drop n' s'
  end.

(** The number of leading characters of [s] that satisfy [p]. *)
Fixpoint span (p : ascii -> bool) (s : string) : nat :=
  match s with
  | EmptyString => O
  | String c s' => if p c then S (span p s') else O
  end.

(** What follows [word] when [s] starts with it. *)
Fixpoint after_prefix (word s : string) : option string :=
  match word, s with
  | EmptyString, _ => Some s
  | String a word', String b s' =>
      if Ascii.eqb b a then after_prefix word' s' else None
  | String _ _, EmptyString => None
  end.

(** What follows [word] and the white space after it, when [s] starts
    with [word] and at least one white space character. *)
Definition after_word (word s : string) : option string :=
  match after_prefix word s with
  | Some (String c rest) =>
      if PyStr.isspace c then Some (PyStr.lstrip PyStr.isspace rest) else None
  | _ => None
  end.

Fixpoint after_first_word (words : list string) (s : string) : option string :=
  match words with
  | [] => None
  | word :: rest =>
      match after_word word s with
      | Some r => Some r
      | None => after_first_word rest s
      end
  end.

(** [s] without a leading interrogative word and the white space that
    follows it. *)
Definition without_interrogative (s : string) : string :=
  match after_first_word interrogatives s with
  | Some rest => rest
  | None => s
  end.

(** [s] without the question mark that ends it, or that stands before
    the newline that ends it. *)
Fixpoint without_question_mark (s : string) : string :=
  match s with
  | EmptyString => EmptyString
  | String c s' =>
      if Ascii.eqb c "?" && Re.at_end s' then s'
      else String c (without_question_mark s')
  end.

(** The question in lower case, without the interrogative word, without
    the final question mark, stripped of white space at both ends. *)
Definition reformulation (question : string) : string :=
  PyStr.strip
    (without_question_mark (without_interrogative (PyStr.lower question))).

(** Where the matcher ends a match of [word] followed by white space at
    the start of [s]. *)
Definition word_end (word s : string) : option nat :=
  Re.run false (Re.lit word)
    (Re.run false (Re.RPlus Re.CSpace) (fun e _ => Some e)) 0 s.

End Rule.
(** ** Binary64 arithmetic *)

(** Python's [float] is the IEEE 754 binary64 format: every operation
    returns the exact result rounded to the nearest representable number,
    ties going to the even significand.  A number is kept here as the
    rational it denotes; the two zeros are one value: they compare
    equal, a division by either raises, and their sign would show only
    in a printed zero, and the texts that print a score are kept below
    as their parts, not as characters. *)
Module Binary64.

Local Open Scope Q_scope.

Inductive t : Type :=
| Finite (q : Q)
| Inf (negative : bool)
| NaN.

(** The exponent of the last place of the subnormal numbers, and the
    number of bits of a significand. *)
Definition emin : Z := -1074.
Definition prec : Z := 53.

(** [floor (log2 x)] for [x > 0]. *)
Definition ilog2 (x : Q) : Z :=
  let k := (Z.log2 (Qnum x) - Z.log2 (Zpos (Qden x)))%Z in
  if Qle_bool (2 ^ k) x then k else (k - 1)%Z.

(** The integer nearest to [x], the even one of the two when [x] lies
    half way. *)
Definition rne (x : Q) : Z :=
  let f := Qfloor x in
  match Qcompare (x - inject_Z f) (1 # 2) with
  | Lt => f
  | Gt => (f + 1)%Z
  | Eq => if Z.even f then f else (f + 1)%Z
  end.

(** The exponent of the last place of the numbers around [x > 0]. *)
Definition ulp_exponent (x : Q) : Z := Z.max (ilog2 x - (prec - 1)) emin.

(** [x > 0] rounded to a multiple of its last place, without a bound on
    the exponent. *)
Definition nearest (x : Q) : Q :=
  let e := ulp_exponent x in
  inject_Z (rne (x / 2 ^ e)) * 2 ^ e.

(** From [2^1024] on the rounded value overflows to an infinity. *)
Definition overflow_threshold : Q := 2 ^ 1024.

Definition round_pos (negative : bool) (x : Q) : t :=
  let y := nearest x in
  if Qle_bool overflow_threshold y then Inf negative
  else Finite (Qred (if negative then - y else y)).

(** The binary64 number nearest to the rational [x]. *)
Definition round (x : Q) : t :=
  match Qcompare x 0 with
  | Eq => Finite 0
  | Gt => round_pos false x
  | Lt => round_pos true (- x)
  end.

(** [x] is a binary64 number, in the form rounding produces. *)
Definition is_binary64 (x : Q) : Prop := round x = Finite x.

(** The values a Python [float] can hold. *)
Definition valid (x : t) : Prop :=
  match x with
  | Finite q => is_binary64 q
  | _ => True
  end.

Definition zero : t := Finite 0.
Definition one : t := Finite 1.

(** The largest finite number. *)
Definition max_finite : Q := 2 ^ 1024 - 2 ^ 971.

(** The sign of a product or of a quotient by [q]. *)
Definition is_negative (q : Q) : bool := negb (Qle_bool 0 q).

Definition add (x y : t) : t :=
  match x, y with
  | NaN, _ | _, NaN => NaN
  | Inf a, Inf b => if Bool.eqb a b then Inf a else NaN
  | Inf a, Finite _ | Finite _, Inf a => Inf a
  | Finite a, Finite b => round (a + b)
  end.

Definition mul (x y : t) : t :=
  match x, y with
  | NaN, _ | _, NaN => NaN
  | Inf a, Inf b => Inf (xorb a b)
  | Inf a, Finite q | Finite q, Inf a =>
      if Qeq_bool q 0 then NaN else Inf (xorb a (is_negative q))
  | Finite a, Finite b => round (a * b)
  end.

(** The quotient by a divisor that is not zero. *)
Definition quotient (x y : t) : t :=
  match x, y with
  | NaN, _ | _, NaN => NaN
  | Inf _, Inf _ => NaN
  | Finite _, Inf _ => zero
  | Inf a, Finite b => Inf (xorb a (is_negative b))
  | Finite a, Finite b => round (a / b)
  end.

Definition is_zero (x : t) : bool :=
  match x with
  | Finite q => Qeq_bool q 0
  | _ => false
  end.

(** [x / y]; Python raises [ZeroDivisionError] on a zero divisor, before
    it looks at the dividend. *)
Definition div (x y : t) : result t :=
  if is_zero y then Raise "float division by zero" else Ok (quotient x y).

(** [x <= y] and [x < y]; a comparison with NaN is false. *)
Definition leb (x y : t) : bool :=
  match x, y with
  | NaN, _ | _, NaN => false
  | Inf true, _ | _, Inf false => true
  | Inf false, _ | _, Inf true => false
  | Finite a, Finite b => Qle_bool a b
  end.

Definition ltb (x y : t) : bool :=
  match x, y with
  | NaN, _ | _, NaN => false
  | Inf a, Inf b => a && negb b
  | Inf a, Finite _ => a
  | Finite _, Inf b => negb b
  | Finite a, Finite b => negb (Qle_bool b a)
  end.

(** [x >= y] and [x > y] *)
Definition geb (x y : t) : bool := leb y x.
Definition gtb (x y : t) : bool := ltb y x.

(** [float(n)] for an integer. *)
Definition of_Z (n : Z) : t := round (inject_Z n).
Definition of_nat (n : nat) : t := of_Z (Z.of_nat n).

(** The number a decimal literal denotes: the nearest binary64 number. *)
Definition literal (x : Q) : t := round x.

(** [sum(xs)]: the additions are made from left to right, starting from
    the integer [0], and each one is rounded. *)
Definition sum (xs : list t) : t := fold_left add xs zero.

(** [max(x :: xs)]: the running maximum is replaced only by a strictly
    greater item. *)
Definition max (x : t) (xs : list t) : t :=
  fold_left (fun m y => if gtb y m then y else m) xs x.

(** The order of the values that are numbers; NaN is not compared. *)
Definition le (x y : t) : Prop := leb x y = true.

End Binary64.

(** ** The scores in binary64 arithmetic (retriever.py, helpers.py)

    The functions that compute with scores, with Python's [float]
    arithmetic: what [retrieve] makes of the distances of the index,
    [calculate_relevance_score] and [assess_relevance]. *)

Module Scores.

Import Binary64.

(** [1.0 / (1.0 + d)], the body of the list comprehension. *)
Definition normalize (d : t) : result t := div one (add one d).

(** [[1.0 / (1.0 + d) for d in scores]]: the first division that raises
    ends the comprehension. *)
Fixpoint normalized_scores (scores : list t) : result (list t) :=
  match scores with
  | [] => Ok []
  | d :: rest =>
      match normalize d with
      | Raise e => Raise e
      | Ok s =>
          match normalized_scores rest with
          | Raise e => Raise e
          | Ok ss => Ok (s :: ss)
          end
      end
  end.

(** [retrieve], from the outcome of the call to the index on. *)
Definition retrieve (results : result (list (Document.t * t)))
    : result (list Document.t * list t) :=
  match results with
  | Raise e => Raise e
  | Ok [] => Ok ([], [])
  | Ok results =>
      let documents := map fst results in
      let scores := map snd results in
      match normalized_scores scores with
      | Raise e => Raise e
      | Ok normalized => Ok (documents, normalized)
      end
  end.

(** [1.0 / (i + 1)]; the divisor is at least 1. *)
Definition weight (i : nat) : t := quotient one (of_nat (i + 1)).

(** [weights = [1.0 / (i + 1) for i in range(len(similarity_scores))]] *)
Definition weights (n : nat) : list t := map weight (seq 0 n).

(** The division is guarded by [weight_total > 0]. *)
Definition calculate_relevance_score (similarity_scores : list t) : t :=
  match similarity_scores with
  | [] => zero
  | _ =>
      let ws := weights (length similarity_scores) in
      let weighted_sum :=
        sum (map (fun sw => mul (fst sw) (snd sw))
                 (combine similarity_scores ws)) in
      let weight_total := sum ws in
      if gtb weight_total zero then quotient weighted_sum weight_total
      else zero
  end.

(** Text of an f-string that interpolates floats: the literal pieces,
    and each float with its format, [{x:.2f}] or [{x}]. *)
Inductive part : Type :=
| Lit (s : string)
| F2f (x : t)
| Repr (x : t).

(** The values of the assessment dict. *)
Inductive value : Type :=
| VBool (b : bool)
| VInt (z : Z)
| VFloat (x : t)
| VStr (s : string)
| VFStr (parts : list part).


(** [assess_relevance]; the two thresholds are attributes of the
    retriever.  The average divides by the length of a list that is not
    empty. *)
Definition assess_relevance (relevance_threshold min_confidence : t)
    (query : string) (documents : list Document.t) (scores : list t)
    : gmap string value :=
  match documents, scores with
  | [], _ | _, [] =>
      list_to_map
        [ ("is_relevant", VBool false);
          ("confidence", VFloat zero);
          ("reason", VStr "No documents retrieved");
          ("top_score", VFloat zero);
          ("avg_score", VFloat zero) ]
  | _ :: _, s0 :: rest =>
      let similarity_scores := scores in
      let top_score := max s0 rest in
      let avg_score :=
        quotient (sum similarity_scores)
                 (of_nat (length similarity_scores)) in
      let overall_score := calculate_relevance_score similarity_scores in
      let is_relevant :=
        geb top_score relevance_threshold
        && geb overall_score min_confidence in
      let reason :=
        if is_relevant then
          [Lit "High relevance detected (top similarity: "; F2f top_score;
           Lit ")"]
        else if ltb top_score relevance_threshold then
          [Lit "Top similarity "; F2f top_score; Lit " below threshold ";
           Repr relevance_threshold]
        else
          [Lit "Overall confidence "; F2f overall_score;
           Lit " below minimum "; Repr min_confidence] in
      list_to_map
        [ ("is_relevant", VBool is_relevant);
          ("confidence", VFloat overall_score);
          ("reason", VFStr reason);
          ("top_score", VFloat top_score);
          ("avg_score", VFloat avg_score);
          ("num_documents", VInt (Z.of_nat (length documents))) ]
  end.

(** [retrieve_and_assess], from the outcome of the call to the index
    on. *)
Definition retrieve_and_assess (relevance_threshold min_confidence : t)
    (query : string) (results : result (list (Document.t * t)))
    : result (list Document.t * gmap string value) :=
  match retrieve results with
  | Raise e => Raise e
  | Ok (documents, scores) =>
      Ok (documents,
          assess_relevance relevance_threshold min_confidence query
            documents scores)
  end.

(** The sum of [f 0 .. f (n-1)], each addition rounded, in rank order. *)
Fixpoint rank_sum (f : nat -> t) (n : nat) : t :=
  match n with
  | O => zero
  | S n' => add (rank_sum f n') (f n')
  end.

(** The weighted average of the scores with the weights [1/(i+1)], as
    binary64 arithmetic computes it. *)
Definition weighted_average (scores : list t) : t :=
  quotient
    (rank_sum (fun i => mul (nth i scores zero) (weight i)) (length scores))
    (rank_sum weight (length scores)).


(** [s] and [s'] are numbers with [0 <= s <= s']. *)
Definition raised (s s' : t) : Prop :=
  exists q q', s = Finite q /\ s' = Finite q' /\ (0 <= q)%Q /\ (q <= q')%Q.




End Scores.

(** * The rest of the system: helpers, web searcher, loader, entry point *)

(** ** Text truncation (helpers.py) *)

Module TextHelpers.

(** [s[:n]] for an integer [n]: a negative [n] counts from the end. *)
Definition slice_to_Z (n : Z) (s : string) : string :=
  if (0 <=? n)%Z then PyStr.slice_to (Z.to_nat n) s
  else PyStr.slice_to (String.length s - Z.to_nat (- n)) s.

Definition truncate_text (text : string) (max_length : Z) : string :=
  if (Z.of_nat (String.length text) <=? max_length)%Z then text
  else slice_to_Z max_length text +:+ "...".

End TextHelpers.

(** ** Retries (helpers.py) *)

Module Retry.

(** What the wrapper does that can be observed from outside: calls of
    the wrapped function, numbered from 0, and calls of [time.sleep]. *)
Inductive Event : Type :=
| Called (attempt : nat)
| Slept (seconds : Binary64.t).

(** [raise None] *)
Definition raise_none : string := "exceptions must derive from BaseException".

(** [delay * (attempt + 1)] *)
Definition pause (delay : Binary64.t) (attempt : nat) : Binary64.t :=
  Binary64.mul delay (Binary64.of_nat (attempt + 1)).

(** The loop [for attempt in range(max_retries)], from [attempt] on, with
    [remaining] iterations left.  [func attempt] is the outcome of the
    call made at that attempt, and [sleep seconds] the outcome of
    [time.sleep(seconds)], which raises on a negative number, on NaN and
    on a number too large for the clock.  The pause is made inside the
    exception handler: when it raises, its exception leaves the
    wrapper. *)
Fixpoint attempts {A : Type} (func : nat -> result A)
    (sleep : Binary64.t -> result unit) (max_retries : Z)
    (delay : Binary64.t) (remaining attempt : nat)
    (last_exception : option string) : result A * list Event :=
  match remaining with
  | O =>
      (match last_exception with
       | Some e => Raise e
       | None => Raise raise_none
       end, [])
  | S remaining' =>
      match func attempt with
      | Ok a => (Ok a, [Called attempt])
      | Raise e =>
          if (Z.of_nat attempt <? max_retries - 1)%Z then
            match sleep (pause delay attempt) with
            | Raise e' =>
                (Raise e', [Called attempt; Slept (pause delay attempt)])
            | Ok _ =>
                let '(outcome, events) :=
                  attempts func sleep max_retries delay remaining'
                    (S attempt) (Some e) in
                (outcome,
                 Called attempt :: Slept (pause delay attempt) :: events)
            end
          else
            let '(outcome, events) :=
              attempts func sleep max_retries delay remaining' (S attempt)
                (Some e) in
            (outcome, Called attempt :: events)
      end
  end.

(** [retry_on_failure(max_retries, delay)(func)(...)] *)
Definition retry_on_failure {A : Type} (sleep : Binary64.t -> result unit)
    (max_retries : Z) (delay : Binary64.t) (func : nat -> result A)
    : result A * list Event :=
  attempts func sleep max_retries delay (Z.to_nat max_retries) 0 None.

(** The log of [n] failed attempts from [from] on, each followed by its
    pause. *)
Fixpoint failed_attempts (delay : Binary64.t) (from n : nat) : list Event :=
  match n with
  | O => []
  | S n' =>
      Called from :: Slept (pause delay from)
      :: failed_attempts delay (S from) n'
  end.

(** The attempts made and the seconds slept, in order. *)
Definition calls (events : list Event) : list nat :=
  omap (fun e => match e with Called k => Some k | Slept _ => None end) events.

Definition sleeps (events : list Event) : list Binary64.t :=
  omap (fun e => match e with Slept d => Some d | Called _ => None end) events.

(** A clock that accepts every pause. *)
Definition sleep_returns : Binary64.t -> result unit := fun _ => Ok tt.

(** A clock that refuses what [time.sleep] refuses whatever the
    platform, a negative number and NaN, and accepts the rest. *)
Definition sleep_refuses_negative (seconds : Binary64.t) : result unit :=
  match seconds with
  | Binary64.NaN => Raise "Invalid value NaN (not a number)"
  | _ =>
      if Binary64.ltb seconds Binary64.zero
      then Raise "sleep length must be non-negative"
      else Ok tt
  end.

End Retry.

(** ** Calls made during a run *)

(** The calls a node makes on a state. *)
Definition node_calls (env : Env.t) (node : Node.t) (state : GraphState.t)
    : list Call :=
  snd (QAWorkflow.node_function node state env).

(** The calls made by running the nodes [nodes] one after the other. *)
Fixpoint calls_along (env : Env.t) (nodes : list Node.t)
    (state : GraphState.t) : list Call :=
  match nodes with
  | [] => []
  | node :: rest =>
      node_calls env node state ++ calls_along env rest (exec env node state)
  end.

(** The web part of a run, from the state [state] in which the
    knowledge-base part ended. *)
Definition web_part (env : Env.t) (state : GraphState.t) : GraphState.t :=
  exec env Node.format_output
    (exec env Node.generate_web_answer
       (exec env Node.search_web (exec env Node.notify_fallback state))).

(** The entry of [web_sources] made from a web result. *)
Definition web_source_of (result : WebResult.t) : WebSource.t :=
  {| WebSource.url := WebResult.url result;
     WebSource.title := WebResult.title result |}.

(** ** The entry point (qa_system.py) *)

Module QASystem.

(** The dict [ask] returns; the key [fallback_notification] is present
    only on some paths. *)
Record Response : Type := mk_response {
  question : string;
  answer : string;
  source_type : string;
  citations : string;
  metadata : pydict;
  fallback_notification : option pyval }.

(** [ask(question)].  [workflow] is [self.workflow]: [None] until [setup]
    has run, then the workflow over the collaborators it was created
    with. *)
Definition ask (workflow : option Env.t) (question : string)
    : result Response * list Call :=
  match workflow with
  | None => (Raise "System not initialized. Call setup() first.", [])
  | Some env =>
      let '(result, calls) := QAWorkflow.run question env in
      let response :=
        {| question := question;
           answer := GraphState.answer result;
           source_type := GraphState.source_type result;
           citations := GraphState.citations result;
           metadata := GraphState.metadata result;
           fallback_notification :=
             GraphState.metadata result !! "fallback_notification" |} in
      (Ok response, calls)
  end.

End QASystem.

(** ** More sample collaborators *)

Module SampleEnv2.

(** A model that answers from the context. *)
Definition llm_answers (prompt : Prompt) : result string :=
  match prompt with
  | RagAnswerPrompt _ _ => Ok "Paris is the capital of France [Page 3]."
  | ReformulationPrompt _ => Ok "capital of France"
  | WebAnswerPrompt _ _ => Ok "Paris is the capital of France [1]."
  end.

(** Knowledge base sufficient and answered from. *)
Definition kb_answers : Env.t :=
  {| Env.settings := Settings.defaults;
     Env.similarity_search_with_score := fun _ _ => Ok SampleEnv.kb_passages;
     Env.llm_invoke := llm_answers;
     Env.search_and_extract := fun _ _ => Ok SampleEnv.web_hits |}.

(** An index that returns the sample passages. *)
Definition passages (query : string) (k : nat)
    : result (list (Document.t * Q)) :=
  Ok SampleEnv.kb_passages.

(** An index without passages. *)
Definition no_passages (query : string) (k : nat)
    : result (list (Document.t * Q)) :=
  Ok [].

Definition empty_index : Env.t :=
  {| Env.settings := Settings.defaults;
     Env.similarity_search_with_score := no_passages;
     Env.llm_invoke := llm_answers;
     Env.search_and_extract := fun _ _ => Ok SampleEnv.web_hits |}.

(** An index that fails, and a web search that fails as well. *)
Definition index_down : Env.t :=
  {| Env.settings := Settings.defaults;
     Env.similarity_search_with_score := fun _ _ => Raise "collection not found";
     Env.llm_invoke := llm_answers;
     Env.search_and_extract := fun _ _ => Ok SampleEnv.web_hits |}.

Definition all_down : Env.t :=
  {| Env.settings := Settings.defaults;
     Env.similarity_search_with_score := fun _ _ => Raise "collection not found";
     Env.llm_invoke := SampleEnv.llm_down;
     Env.search_and_extract := fun _ _ => Raise "network unreachable" |}.

End SampleEnv2.

(** ** Shapes of patterns *)

(** Patterns without [^] and [$]. *)
Fixpoint anchor_free (r : Re.regex) : bool :=
  match r with
  | Re.RBol | Re.REol => false
  | Re.ROpt r' => anchor_free r'
  | Re.RSeq r1 r2 | Re.RAlt r1 r2 => anchor_free r1 && anchor_free r2
  | Re.REps | Re.RCls _ | Re.RStar _ | Re.RPlus _ => true
  end.

(** Two continuations of the matcher that agree up to the case of the
    text that is left. *)
Definition agree {A : Type} (k' k : nat -> string -> option A) : Prop :=
  forall p t, k' p (PyStr.lower t) = k p t.

(** ** Web searcher (web_searcher.py) *)

(** A search hit as the providers return it: [{title, url, snippet}]. *)
Module SearchHit.

Record t : Type := mk {
  title : string;
  url : string;
  snippet : string }.

End SearchHit.

(** A hit as [search_and_extract] returns it: the key [content] is
    present once the content has been extracted. *)
Module Hit.

Record t : Type := mk {
  title : string;
  url : string;
  snippet : string;
  content : option string }.

Definition of_search_hit (h : SearchHit.t) (content : option string) : t :=
  {| title := SearchHit.title h;
     url := SearchHit.url h;
     snippet := SearchHit.snippet h;
     content := content |}.

Definition search_hit (h : t) : SearchHit.t :=
  {| SearchHit.title := title h;
     SearchHit.url := url h;
     SearchHit.snippet := snippet h |}.

End Hit.

(** An item of [DDGS().text(...)]: a dict whose values can be missing or
    [None]. *)
Module RawResult.

Record t : Type := mk {
  title : option string;
  href : option string;
  body : option string }.

End RawResult.

(** The network behind the searcher.  The requests and the parsing of
    the pages they return are collaborators; each provider that catches
    all its exceptions is a function to the list it returns. *)
Module World.

Record t : Type := mk {
  (** [settings.MAX_SEARCH_RESULTS], read by [WebSearcher.__init__] *)
  max_results : nat;
  (** [settings.MAX_WEB_CONTENT_LENGTH] *)
  MAX_WEB_CONTENT_LENGTH : nat;
  (** [_search_weather(city)] *)
  _search_weather : string -> list SearchHit.t;
  (** [DDGS().text(query, max_results)]: the items produced, and the
      exception that ended the iteration, if any *)
  ddgs_text : string -> nat -> list RawResult.t * option string;
  (** [_search_wikipedia(query, max_results)] *)
  _search_wikipedia : string -> nat -> list SearchHit.t;
  (** [_search_stackoverflow(query, max_results)] *)
  _search_stackoverflow : string -> nat -> list SearchHit.t;
  (** The text [soup.get_text(separator, strip)] extracts from the page
      at a URL, at a given attempt; [Raise] stands for any exception of
      the request or of the parser. *)
  page_text : string -> nat -> result string;
  (** [time.sleep(seconds)] *)
  time_sleep : Binary64.t -> result unit }.

End World.

Inductive NetCall : Type :=
| CallWeather (city : string)
| CallDuckDuckGo (query : string) (max_results : nat)
| CallWikipedia (query : string) (max_results : nat)
| CallStackOverflow (query : string) (max_results : nat)
| CallFetch (url : string) (attempt : nat).

(** Computations of the searcher, with the log of their calls. *)
Definition W (A : Type) : Type := World.t -> A * list NetCall.

#[global] Instance W_ret : MRet W := fun A a _ => (a, []).

#[global] Instance W_bind : MBind W :=
  fun A B f m world =>
    let '(a, calls1) := m world in
    let '(b, calls2) := f a world in
    (b, calls1 ++ calls2).

Module WebSearcher.

Definition get_world : W World.t := fun world => (world, []).

Definition call_weather (city : string) : W (list SearchHit.t) :=
  fun world => (World._search_weather world city, [CallWeather city]).

Definition call_ddgs (query : string) (max_results : nat)
    : W (list RawResult.t * option string) :=
  fun world => (World.ddgs_text world query max_results,
                [CallDuckDuckGo query max_results]).

Definition call_wikipedia (query : string) (max_results : nat)
    : W (list SearchHit.t) :=
  fun world => (World._search_wikipedia world query max_results,
                [CallWikipedia query max_results]).

Definition call_stackoverflow (query : string) (max_results : nat)
    : W (list SearchHit.t) :=
  fun world => (World._search_stackoverflow world query max_results,
                [CallStackOverflow query max_results]).

(** [current\s+weather\s+in\s+] and the group [(.+)] that follows it. *)
Definition weather_prefix : Re.regex :=
  Re.seq_of [ Re.lit "current"; Re.RPlus Re.CSpace; Re.lit "weather";
              Re.RPlus Re.CSpace; Re.lit "in"; Re.RPlus Re.CSpace ].

Definition weather_group : Re.regex := Re.RPlus Re.CAny.

(** A match of the whole pattern that starts at [pos]: the span of the
    group. *)
Definition weather_at (pos : nat) (s : string) : option (nat * nat) :=
  Re.run true weather_prefix
    (fun start rest =>
       Re.run true weather_group (fun e _ => Some (start, e)) start rest)
    pos s.

Fixpoint weather_search_from (pos : nat) (s : string) : option (nat * nat) :=
  match weather_at pos s with
  | Some group => Some group
  | None =>
      match s with
      | EmptyString => None
      | String _ s' => weather_search_from (S pos) s'
      end
  end.

(** [weather_match.group(1).strip()], when the query matches. *)
Definition weather_city (query : string) : option string :=
  match weather_search_from 0 query with
  | Some (start, e) =>
      Some (PyStr.strip (String.substring start (e - start) query))
  | None => None
  end.

(** [value or default] for a string that can be missing. *)
Definition or_default (value : option string) (default : string) : string :=
  match value with
  | Some s => if PyStr.is_empty s then default else s
  | None => default
  end.

(** One iteration of the loop of [_search_duckduckgo]. *)
Definition keep_raw (r : RawResult.t) : option SearchHit.t :=
  let title := or_default (RawResult.title r) "No Title" in
  let url := or_default (RawResult.href r) "" in
  let snippet := or_default (RawResult.body r) "" in
  if PyStr.is_empty url then None
  else Some {| SearchHit.title := title;
               SearchHit.url := url;
               SearchHit.snippet := snippet |}.

(** The item has a link: [r.get("href")] is a string that is not
    empty. *)
Definition has_link (r : RawResult.t) : bool :=
  match RawResult.href r with
  | Some url => negb (PyStr.is_empty url)
  | None => false
  end.

(** The hit made of an item: its link, its title or "No Title", its body
    or the empty snippet. *)
Definition hit_of_item (r : RawResult.t) (hit : SearchHit.t) : Prop :=
  RawResult.href r = Some (SearchHit.url hit)
  /\ SearchHit.title hit = or_default (RawResult.title r) "No Title"
  /\ SearchHit.snippet hit = or_default (RawResult.body r) "".

Definition _search_duckduckgo (query : string) (max_results : nat)
    : W (list SearchHit.t) :=
  '(items, _) ← call_ddgs query max_results;
  mret (omap keep_raw items).

(** [max_results or self.max_results] *)
Definition effective_max_results (max_results : option nat) (default : nat)
    : nat :=
  match max_results with
  | Some (S n) => S n
  | Some O | None => default
  end.

Definition search (query : string) (max_results : option nat)
    : W (list SearchHit.t) :=
  world ← get_world;
  let max_results :=
    effective_max_results max_results (World.max_results world) in
  weather_results ←
    match weather_city query with
    | Some city => call_weather city
    | None => mret []
    end;
  match weather_results with
  | _ :: _ => mret (firstn max_results weather_results)
  | [] =>
      ddg_results ← _search_duckduckgo query max_results;
      match ddg_results with
      | _ :: _ => mret (firstn max_results ddg_results)
      | [] =>
          wiki_results ← call_wikipedia query max_results;
          match wiki_results with
          | _ :: _ => mret (firstn max_results wiki_results)
          | [] =>
              so_results ← call_stackoverflow query max_results;
              match so_results with
              | _ :: _ => mret (firstn max_results so_results)
              | [] => mret []
              end
          end
      end
  end.

(** Line boundaries of [str.splitlines] among the codes below 128. *)
Definition is_linebreak (c : ascii) : bool :=
  let n := PyStr.code c in
  ((10 <=? n)%nat && (n <=? 13)%nat) || ((28 <=? n)%nat && (n <=? 30)%nat).

(** [s.splitlines()]; a carriage return followed by a line feed is one
    boundary. *)
Fixpoint splitlines (s : string) : list string :=
  match s with
  | EmptyString => []
  | String c s' =>
      if is_linebreak c then
        match s' with
        | String d s'' =>
            if Ascii.eqb c (ascii_of_nat 13) && Ascii.eqb d PyStr.newline
            then EmptyString :: splitlines s''
            else EmptyString :: splitlines s'
        | EmptyString => [EmptyString]
        end
      else
        match splitlines s' with
        | [] => [String c EmptyString]
        | line :: lines => String c line :: lines
        end
  end.

(** [[line.strip() for line in text.splitlines() if line.strip()]],
    joined by newlines. *)
Definition clean_lines (text : string) : string :=
  PyStr.join (String PyStr.newline EmptyString)
    (List.filter (fun line => negb (PyStr.is_empty line))
       (map PyStr.strip (splitlines text))).

(** The body of [fetch_page_content], under its decorator: every
    exception is caught and gives [None]. *)
Definition fetch_once (world : World.t) (url : string) (attempt : nat)
    : option string :=
  match World.page_text world url attempt with
  | Raise _ => None
  | Ok text =>
      let text := clean_lines text in
      let limit := World.MAX_WEB_CONTENT_LENGTH world in
      if (limit <? String.length text)%nat
      then Some (PyStr.slice_to limit text)
      else Some text
  end.

(** [fetch_page_content], decorated with
    [retry_on_failure(max_retries=2, delay=1.0)]. *)
Definition fetch_page_content (url : string) : W (result (option string)) :=
  fun world =>
    let '(outcome, events) :=
      Retry.retry_on_failure (World.time_sleep world) 2 Binary64.one
        (fun attempt => Ok (fetch_once world url attempt)) in
    (outcome, map (CallFetch url) (Retry.calls events)).

(** The value assigned to [result['content']] for the hit [hit]. *)
Definition content_for (hit : SearchHit.t) : W (result string) :=
  if PyStr.is_empty (SearchHit.url hit)
  then mret (Ok (SearchHit.snippet hit))
  else
    fetched ← fetch_page_content (SearchHit.url hit);
    match fetched with
    | Raise e => mret (Raise e)
    | Ok (Some content) =>
        if PyStr.is_empty content
        then mret (Ok (SearchHit.snippet hit))
        else mret (Ok content)
    | Ok None => mret (Ok (SearchHit.snippet hit))
    end.

(** The loop [for result in results] of [search_and_extract]. *)
Fixpoint enrich (results : list SearchHit.t) : W (result (list Hit.t)) :=
  match results with
  | [] => mret (Ok [])
  | hit :: rest =>
      content ← content_for hit;
      match content with
      | Raise e => mret (Raise e)
      | Ok content =>
          enriched ← enrich rest;
          match enriched with
          | Raise e => mret (Raise e)
          | Ok enriched_results =>
              mret (Ok (Hit.of_search_hit hit (Some content)
                        :: enriched_results))
          end
      end
  end.

Definition search_and_extract (query : string) (max_results : option nat)
    (extract_content : bool) : W (result (list Hit.t)) :=
  results ← search query max_results;
  if extract_content then enrich results
  else mret (Ok (map (fun h => Hit.of_search_hit h None) results)).

(** [reformulate_query(original_query, context)] *)
Definition reformulate_query (original_query context : string) : string :=
  let query := PyStr.strip original_query in
  let query := PyStr.remove_char "?" query in
  if PyStr.is_empty context then query
  else query +:+ " " +:+ context.

(** The fetches of a log, in order. *)
Definition fetched_urls (calls : list NetCall) : list string :=
  omap (fun c => match c with CallFetch url _ => Some url | _ => None end)
    calls.

End WebSearcher.

(** ** The web searcher, as seen by its callers *)

(** The first non-empty list among [lists]. *)
Fixpoint first_nonempty {A : Type} (lists : list (list A)) : list A :=
  match lists with
  | [] => []
  | [] :: rest => first_nonempty rest
  | l :: _ => l
  end.

(** The hits of the weather provider for a query: none when the query
    does not ask for the current weather. *)
Definition weather_hits (world : World.t) (query : string)
    : list SearchHit.t :=
  match WebSearcher.weather_city query with
  | Some city => World._search_weather world city
  | None => []
  end.

(** The content that goes with a hit: the text of its page when the hit
    has a URL and the page gives a non-empty text, its snippet
    otherwise. *)
Definition expected_content (world : World.t) (hit : SearchHit.t) : string :=
  if PyStr.is_empty (SearchHit.url hit) then SearchHit.snippet hit
  else
    match WebSearcher.fetch_once world (SearchHit.url hit) 0 with
    | Some content =>
        if PyStr.is_empty content then SearchHit.snippet hit else content
    | None => SearchHit.snippet hit
    end.

(** The URLs [search_and_extract] fetches for a list of hits. *)
Definition urls_to_fetch (hits : list SearchHit.t) : list string :=
  List.filter (fun url => negb (PyStr.is_empty url)) (map SearchHit.url hits).

(** A hit as the answer generator reads it:
    [result.get('content', result.get('snippet', ''))]. *)
Definition as_web_result (h : Hit.t) : WebResult.t :=
  {| WebResult.title := Hit.title h;
     WebResult.url := Hit.url h;
     WebResult.snippet := Hit.snippet h;
     WebResult.content :=
       match Hit.content h with
       | Some content => content
       | None => Hit.snippet h
       end |}.

(** [web_searcher.search_and_extract(query, max_results,
    extract_content=True)] as the workflow calls it. *)
Definition web_searcher_oracle (world : World.t) (query : string)
    (max_results : nat) : result (list WebResult.t) :=
  match fst (WebSearcher.search_and_extract query (Some max_results) true
               world) with
  | Ok hits => Ok (map as_web_result hits)
  | Raise e => Raise e
  end.

(** The contract of the index that the retriever relies on: the scores
    that [similarity_search_with_score] returns are distances, none of
    them negative.  On such scores [1.0 / (1.0 + d)] divides by a number
    that is at least one, so the list comprehension of [retrieve] does
    not raise. *)
Definition distances_not_negative
    (similarity_search_with_score :
       string -> nat -> result (list (Document.t * Q)))
    (query : string) (top_k : nat) : Prop :=
  forall results,
    similarity_search_with_score query top_k = Ok results ->
    Forall (fun result => (0 <= snd result)%Q) results.

(** The collaborators of a workflow whose web searcher is the one above,
    created under the same settings. *)
Definition deployed (settings : Settings.t)
    (similarity_search_with_score :
       string -> nat -> result (list (Document.t * Q)))
    (llm_invoke : Prompt -> result string) (world : World.t) : Env.t :=
  {| Env.settings := settings;
     Env.similarity_search_with_score := similarity_search_with_score;
     Env.llm_invoke := llm_invoke;
     Env.search_and_extract := web_searcher_oracle world |}.

(** ** A sample network *)

Module SampleWorld.

Definition paris_hit : SearchHit.t :=
  SearchHit.mk "Paris" "https://example.org/paris" "Capital of France".

Definition france_hit : SearchHit.t :=
  SearchHit.mk "France" "https://example.org/france" "Country in Europe".

Definition raw_results : list RawResult.t :=
  [ RawResult.mk (Some "Paris") (Some "https://example.org/paris")
      (Some "Capital of France");
    RawResult.mk (Some "Untitled") None (Some "no link");
    RawResult.mk None (Some "https://example.org/france")
      (Some "Country in Europe") ].

(** DuckDuckGo answers, the other providers find nothing, and the page
    of Paris cannot be fetched. *)
Definition ddg_only : World.t :=
  {| World.max_results := 5;
     World.MAX_WEB_CONTENT_LENGTH := 5000;
     World._search_weather := fun _ => [];
     World.ddgs_text := fun _ _ => (raw_results, None);
     World._search_wikipedia := fun _ _ => [];
     World._search_stackoverflow := fun _ _ => [];
     World.page_text := fun url _ =>
       if String.eqb url "https://example.org/paris"
       then Raise "timed out"
       else Ok "France is a country in Western Europe.";
     World.time_sleep := Retry.sleep_refuses_negative |}.

End SampleWorld.

(** ** PDF loader (pdf_loader.py) *)

Module PDFLoader.

(** The file behind a loader.  [pages] is what [pdfplumber] gives for
    it: the text [extract_text] returns for each page, [None] for a page
    without text, or the exception raised while the file is opened or
    read. *)
Record Pdf : Type := mk_pdf {
  name : string;
  path : string;
  file_exists : bool;
  pages : result (list (option string)) }.

(** [text and text.strip()] *)
Definition has_text (text : option string) : bool :=
  match text with
  | Some t => negb (PyStr.is_empty t) && negb (PyStr.is_empty (PyStr.strip t))
  | None => false
  end.

Definition page_document (name : string) (total_pages page_num : nat)
    (text : string) : Document.t :=
  {| Document.page_content := text;
     Document.metadata :=
       <[ "source" := SStr name ]>
         (<[ "page" := SInt (Z.of_nat page_num) ]>
            {[ "total_pages" := SInt (Z.of_nat total_pages) ]}) |}.

(** The loop [for page_num, page in enumerate(pdf.pages, start=1)],
    from page [page_num] on. *)
Fixpoint load_pages (name : string) (total_pages page_num : nat)
    (pages : list (option string)) : list Document.t :=
  match pages with
  | [] => []
  | text :: rest =>
      let documents := load_pages name total_pages (S page_num) rest in
      match text with
      | Some t =>
          if has_text text
          then page_document name total_pages page_num t :: documents
          else documents
      | None => documents
      end
  end.

Definition load_pdf (pdf : Pdf) : result (list Document.t) :=
  if negb (file_exists pdf)
  then Raise ("PDF file not found: " +:+ path pdf)
  else
    match pages pdf with
    | Raise e => Raise e
    | Ok pages => Ok (load_pages (name pdf) (length pages) 1 pages)
    end.

(** [chunk.metadata["chunk_index"] = i] *)
Definition with_chunk_index (i : nat) (chunk : Document.t) : Document.t :=
  {| Document.page_content := Document.page_content chunk;
     Document.metadata :=
       <[ "chunk_index" := SInt (Z.of_nat i) ]> (Document.metadata chunk) |}.

(** [chunk_documents(documents)].  [split_documents] is the text
    splitter, a collaborator; it gives every chunk a metadata dict of
    its own.  The average size logged after the loop divides by the
    number of chunks. *)
Definition chunk_documents
    (split_documents : list Document.t -> result (list Document.t))
    (documents : list Document.t) : result (list Document.t) :=
  match split_documents documents with
  | Raise e => Raise e
  | Ok chunks =>
      let chunks := imap with_chunk_index chunks in
      match chunks with
      | [] => Raise "division by zero"
      | _ :: _ => Ok chunks
      end
  end.

Definition process_pdf
    (split_documents : list Document.t -> result (list Document.t))
    (pdf : Pdf) : result (list Document.t) :=
  match load_pdf pdf with
  | Raise e => Raise e
  | Ok documents => chunk_documents split_documents documents
  end.

(** The page number in the metadata of a loaded document. *)
Definition page_number (doc : Document.t) : option Z :=
  match Document.metadata doc !! "page" with
  | Some (SInt p) => Some p
  | _ => None
  end.

End PDFLoader.

Module SamplePdf.

(** Three pages, the second without text. *)
Definition report : PDFLoader.Pdf :=
  {| PDFLoader.name := "report.pdf";
     PDFLoader.path := "data/report.pdf";
     PDFLoader.file_exists := true;
     PDFLoader.pages := Ok [Some "Introduction"; None; Some "Results"] |}.

(** Two pages of white space. *)
Definition scan : PDFLoader.Pdf :=
  {| PDFLoader.name := "scan.pdf";
     PDFLoader.path := "data/scan.pdf";
     PDFLoader.file_exists := true;
     PDFLoader.pages := Ok [Some "  "; None] |}.

(** A splitter that makes one chunk of each document. *)
Definition one_chunk_each (documents : list Document.t)
    : result (list Document.t) :=
  Ok documents.

End SamplePdf.

(** ** Test suite (tests/test_suite.py) *)

Module TestSuite.

Local Open Scope Q_scope.

Record TestCase : Type := mk_case {
  id : string;
  case_question : string;
  case_expected_source : string;
  expected_concepts : option (list string) }.

Record TestResult : Type := mk_result {
  test_id : string;
  question : string;
  expected_source : string;
  actual_source : string;
  answer : string;
  citations : string;
  source_correct : bool;
  contains_expected_concepts : option bool;
  execution_time : Q;
  error : option string;
  metadata : option pydict }.

(** [s.startswith(prefix)] and [needle in haystack]. *)
Fixpoint starts_with (prefix s : string) : bool :=
  match prefix, s with
  | EmptyString, _ => true
  | String a prefix', String b s' => Ascii.eqb a b && starts_with prefix' s'
  | String _ _, EmptyString => false
  end.

Fixpoint contains (needle haystack : string) : bool :=
  starts_with needle haystack
  || match haystack with
     | EmptyString => false
     | String _ rest => contains needle rest
     end.

(** [run_test_case(test_case)] on a system whose workflow is [workflow];
    [elapsed] is the time the clock measures. *)
Definition run_test_case (workflow : option Env.t) (elapsed : Q)
    (test_case : TestCase) : TestResult * list Call :=
  let '(outcome, calls) :=
    QASystem.ask workflow (case_question test_case) in
  match outcome with
  | Ok response =>
      let source_correct :=
        String.eqb (QASystem.source_type response)
          (case_expected_source test_case) in
      let contains_concepts :=
        match expected_concepts test_case with
        | Some (concept :: concepts) =>
            let answer_lower := PyStr.lower (QASystem.answer response) in
            Some (forallb (fun c => contains (PyStr.lower c) answer_lower)
                    (concept :: concepts))
        | Some [] | None => None
        end in
      ({| test_id := id test_case;
          question := case_question test_case;
          expected_source := case_expected_source test_case;
          actual_source := QASystem.source_type response;
          answer := QASystem.answer response;
          citations := QASystem.citations response;
          source_correct := source_correct;
          contains_expected_concepts := contains_concepts;
          execution_time := elapsed;
          error := None;
          metadata := Some (QASystem.metadata response) |}, calls)
  | Raise e =>
      ({| test_id := id test_case;
          question := case_question test_case;
          expected_source := case_expected_source test_case;
          actual_source := "error";
          answer := "";
          citations := "";
          source_correct := false;
          contains_expected_concepts := None;
          execution_time := elapsed;
          error := Some e;
          metadata := None |}, calls)
  end.

(** The results [run_all_tests] collects. *)
Definition run_all_tests (workflow : option Env.t) (elapsed : Q)
    (test_cases : list TestCase) : list TestResult :=
  map (fun test_case => fst (run_test_case workflow elapsed test_case))
    test_cases.

(** [sum(1 for r in results if p(r))] *)
Definition count (p : TestResult -> bool) (results : list TestResult) : nat :=
  length (List.filter p results).

(** [if r.error] *)
Definition has_error (r : TestResult) : bool :=
  match error r with
  | Some e => negb (PyStr.is_empty e)
  | None => false
  end.

Definition expects (source : string) (r : TestResult) : bool :=
  String.eqb (expected_source r) source.

Definition has_concept_check (r : TestResult) : bool :=
  match contains_expected_concepts r with
  | Some _ => true
  | None => false
  end.

Definition concepts_found (r : TestResult) : bool :=
  match contains_expected_concepts r with
  | Some b => b
  | None => false
  end.

(** [a / b if b else 0] for two counts. *)
Definition ratio (a b : nat) : Q :=
  match b with
  | O => 0
  | S _ => PyFloat.of_nat a / PyFloat.of_nat b
  end.

Record Metrics : Type := mk_metrics {
  total_tests : nat;
  overall_accuracy : Q;
  errors : nat;
  error_rate : Q;
  knowledge_base_tests : nat;
  knowledge_base_accuracy : Q;
  web_tests : nat;
  web_accuracy : Q;
  concept_coverage_tests : nat;
  concept_coverage_accuracy : Q;
  avg_execution_time : Q;
  timestamp : string }.

(** [calculate_metrics(results)]; [stored] is [self.results], [now] the
    time stamp of the clock.  The empty dict is [None]. *)
Definition calculate_metrics (stored : list TestResult)
    (results : option (list TestResult)) (now : string) : option Metrics :=
  let results :=
    match results with
    | Some (r :: rs) => r :: rs
    | Some [] | None => stored
    end in
  match results with
  | [] => None
  | _ :: _ =>
      let total := length results in
      let kb_tests := List.filter (expects "knowledge_base") results in
      let web_tests := List.filter (expects "web") results in
      let concept_tests := List.filter has_concept_check results in
      Some
        {| total_tests := total;
           overall_accuracy := ratio (count source_correct results) total;
           errors := count has_error results;
           error_rate := ratio (count has_error results) total;
           knowledge_base_tests := length kb_tests;
           knowledge_base_accuracy :=
             ratio (count source_correct kb_tests) (length kb_tests);
           web_tests := length web_tests;
           web_accuracy :=
             ratio (count source_correct web_tests) (length web_tests);
           concept_coverage_tests := length concept_tests;
           concept_coverage_accuracy :=
             ratio (count concepts_found concept_tests) (length concept_tests);
           avg_execution_time :=
             PyFloat.sum (map execution_time results) / PyFloat.of_nat total;
           timestamp := now |}
  end.

End TestSuite.

(** ** Text without its white space *)

(** The characters of [s] that are not white space, in order. *)
Fixpoint without_space (s : string) : string :=
  match s with
  | EmptyString => EmptyString
  | String c s' =>
      if PyStr.isspace c then without_space s'
      else String c (without_space s')
  end.

(** The lines of a list, one after the other. *)
Definition flat (lines : list string) : string :=
  fold_right String.append EmptyString lines.

(** The lines [fetch_page_content] keeps of a text. *)
Definition kept_lines (text : string) : list string :=
  List.filter (fun line => negb (PyStr.is_empty line))
    (map PyStr.strip (WebSearcher.splitlines text)).

(** * Text as Python has it: sequences of code points *)

(** The workflow above carries its texts as 8-bit strings, which is what
    they are as long as they are written in ASCII.  The functions of the
    source that look inside a text ([re.search] under [(?i)], [re.sub]
    with [\s], [str.strip], [str.lower], [str.isalnum]) follow the Unicode
    character database on every other character.  They are embedded a
    second time here over Python's own representation of a [str], a
    sequence of code points, so that what is proved of the classifier and
    of query reformulation holds of every text. *)

Module Unicode.

Local Open Scope N_scope.

(** What the character database of the interpreter says outside ASCII.
    It grows with the version of Python, so it is a collaborator of the
    embedding: the functions below consult it only for characters, and
    texts, that are not ASCII. *)
Module UnicodeData.

Record t : Type := mk {
  (** [c.isalnum()] of a character from U+0080 on *)
  isalnum : N -> bool;
  (** [s.lower()] of a text that is not all ASCII; it is not computed
      character by character (a capital sigma depends on its
      neighbours, and one character can become two) *)
  lower : list N -> list N }.

End UnicodeData.

Module PyStr.

(** A [str]: its code points, in order. *)
Definition t : Type := list N.

(** The text of a literal of the source; every literal used below is
    written in ASCII. *)
Fixpoint of_string (s : string) : t :=
  match s with
  | EmptyString => []
  | String c s' => N_of_ascii c :: of_string s'
  end.

Definition newline : N := 10.

Definition is_ascii_char (c : N) : bool := c <? 128.

(** [s.isascii()] *)
Definition isascii (s : t) : bool := forallb is_ascii_char s.

(** [c.isspace()], which is also the class [\s] of a [str] pattern and
    what [s.strip()] removes: the characters of the database that are
    white space.  The set has been the same in every version of
    Python 3 from 3.4 on. *)
Definition isspace (c : N) : bool :=
  ((9 <=? c) && (c <=? 13))
  || ((28 <=? c) && (c <=? 32))
  || (c =? 0x85) || (c =? 0xA0) || (c =? 0x1680)
  || ((0x2000 <=? c) && (c <=? 0x200A))
  || (c =? 0x2028) || (c =? 0x2029) || (c =? 0x202F) || (c =? 0x205F)
  || (c =? 0x3000).

Definition isdigit (c : N) : bool := (48 <=? c) && (c <=? 57).

Definition isupper (c : N) : bool := (65 <=? c) && (c <=? 90).

Definition islower (c : N) : bool := (97 <=? c) && (c <=? 122).

(** [c.isalnum()] *)
Definition isalnum_char (data : UnicodeData.t) (c : N) : bool :=
  if is_ascii_char c then isdigit c || isupper c || islower c
  else UnicodeData.isalnum data c.

(** The lower case of an ASCII character. *)
Definition lower_char (c : N) : N := if isupper c then c + 32 else c.

(** [s.lower()] *)
Definition lower (data : UnicodeData.t) (s : t) : t :=
  if isascii s then map lower_char s else UnicodeData.lower data s.

Definition is_empty (s : t) : bool :=
  match s with [] => true | _ => false end.

(** [s.isalnum()]: at least one character and all of them alphanumeric. *)
Definition isalnum (data : UnicodeData.t) (s : t) : bool :=
  negb (is_empty s) && forallb (isalnum_char data) s.

Fixpoint lstrip (p : N -> bool) (s : t) : t :=
  match s with
  | [] => []
  | c :: s' => if p c then lstrip p s' else s
  end.

Fixpoint rstrip (p : N -> bool) (s : t) : t :=
  match s with
  | [] => []
  | c :: s' =>
      let r := rstrip p s' in
      if is_empty r && p c then [] else c :: r
  end.

(** [s.strip()] removes white space at both ends; [s.strip(chars)]
    removes the characters of [chars]. *)
Definition strip_by (p : N -> bool) (s : t) : t := rstrip p (lstrip p s).

Definition strip (s : t) : t := strip_by isspace s.

Definition mem_char (c : N) (chars : t) : bool := existsb (N.eqb c) chars.

Definition strip_chars (chars : t) (s : t) : t :=
  strip_by (fun c => mem_char c chars) s.

(** [s.replace(c, '')] for a one-character [c]. *)
Definition remove_char (c : N) (s : t) : t :=
  List.filter (fun d => negb (d =? c)) s.

End PyStr.

(** ** Regular expressions over code points *)

Module Re.

(** One-character patterns: a literal, [.] and [\s]. *)
Inductive cclass : Type :=
| CLit (c : N)
| CAny
| CSpace.

(** Patterns, as far as the source uses them; all repetitions are
    greedy and apply to one-character patterns. *)
Inductive regex : Type :=
| REps
| RCls (c : cclass)
| ROpt (r : regex)
| RStar (c : cclass)
| RPlus (c : cclass)
| RSeq (r1 r2 : regex)
| RAlt (r1 r2 : regex)
| RBol
| REol.

(** A literal word, character by character. *)
Fixpoint lit (s : PyStr.t) : regex :=
  match s with
  | [] => REps
  | [c] => RCls (CLit c)
  | c :: s' => RSeq (RCls (CLit c)) (lit s')
  end.

(** A literal word of the source. *)
Definition word (s : string) : regex := lit (PyStr.of_string s).

Fixpoint seq_of (rs : list regex) : regex :=
  match rs with
  | [] => REps
  | [r] => r
  | r :: rest => RSeq r (seq_of rest)
  end.

Fixpoint alt_of (r : regex) (rs : list regex) : regex :=
  match rs with
  | [] => r
  | r' :: rest => RAlt r (alt_of r' rest)
  end.

(** Under [(?i)] the matcher compares lower cases: the literal has been
    put in lower case when the pattern was compiled, and a character of
    the subject matches when its own lower case (the one-character
    mapping of the database) is that literal.  The characters whose lower
    case is an ASCII letter are the letter, its capital and, from
    outside ASCII, U+0130 (capital I with a dot above, for [i]) and
    U+212A (the Kelvin sign, for [k]). *)
Definition lowers_to (l x : N) : bool :=
  (PyStr.lower_char x =? l)
  || ((l =? 105) && (x =? 0x130))
  || ((l =? 107) && (x =? 0x212A)).

(** In addition the matcher has a table of lower-case characters that
    it takes for equal; for the ASCII letters it holds U+0131 (dotless
    i) with [i], and U+017F (long s) with [s]. *)
Definition equivalent (l x : N) : bool :=
  ((l =? 105) && (x =? 0x131)) || ((l =? 115) && (x =? 0x17F)).

(** Does the character [x] of the subject match the ASCII literal [l]?
    (Every literal of the patterns of the source is ASCII.) *)
Definition lit_match (ignorecase : bool) (l x : N) : bool :=
  if ignorecase
  then let lo := PyStr.lower_char l in lowers_to lo x || equivalent lo x
  else x =? l.

(** Does the character [x] match the class?  [ignorecase] is the flag
    [(?i)]; [.] matches everything but a newline. *)
Definition cls_match (ignorecase : bool) (c : cclass) (x : N) : bool :=
  match c with
  | CLit l => lit_match ignorecase l x
  | CAny => negb (x =? PyStr.newline)
  | CSpace => PyStr.isspace x
  end.

Definition orelse {A : Type} (x y : option A) : option A :=
  match x with
  | Some a => Some a
  | None => y
  end.

(** [$]: at the end of the subject, or before a newline that ends it. *)
Definition at_end (s : PyStr.t) : bool :=
  match s with
  | [] => true
  | [c] => c =? PyStr.newline
  | _ => false
  end.

Section Matcher.

Context {A : Type} (ignorecase : bool).

(** Greedy repetition of a class: take one more character first, give
    it back when the continuation fails. *)
Fixpoint star (c : cclass) (k : nat -> PyStr.t -> option A)
    (pos : nat) (s : PyStr.t) : option A :=
  match s with
  | x :: s' =>
      if cls_match ignorecase c x
      then orelse (star c k (S pos) s') (k pos s)
      else k pos s
  | [] => k pos s
  end.

(** Backtracking matcher.  [pos] is the number of characters of the
    subject before [s]; [k] is what remains to be matched. *)
Fixpoint run (r : regex) (k : nat -> PyStr.t -> option A)
    (pos : nat) (s : PyStr.t) : option A :=
  match r with
  | REps => k pos s
  | RCls c =>
      match s with
      | x :: s' => if cls_match ignorecase c x then k (S pos) s' else None
      | [] => None
      end
  | ROpt r' => orelse (run r' k pos s) (k pos s)
  | RStar c => star c k pos s
  | RPlus c =>
      match s with
      | x :: s' =>
          if cls_match ignorecase c x then star c k (S pos) s' else None
      | [] => None
      end
  | RSeq r1 r2 => run r1 (run r2 k) pos s
  | RAlt r1 r2 => orelse (run r1 k pos s) (run r2 k pos s)
  | RBol => if (pos =? 0)%nat then k pos s else None
  | REol => if at_end s then k pos s else None
  end.

End Matcher.

(** A match of [r] that starts at [pos]: the position where it ends.
    With [must_advance] an empty match is refused. *)
Definition match_at (ignorecase : bool) (r : regex) (must_advance : bool)
    (pos : nat) (s : PyStr.t) : option nat :=
  run ignorecase r
    (fun e _ => if must_advance && (e =? pos)%nat then None else Some e)
    pos s.

(** [re.search]: the leftmost match, as (start, end). *)
Fixpoint search_from (ignorecase : bool) (r : regex) (pos : nat)
    (s : PyStr.t) : option (nat * nat) :=
  match match_at ignorecase r false pos s with
  | Some e => Some (pos, e)
  | None =>
      match s with
      | [] => None
      | _ :: s' => search_from ignorecase r (S pos) s'
      end
  end.

Definition search (ignorecase : bool) (r : regex) (s : PyStr.t)
    : option (nat * nat) :=
  search_from ignorecase r 0 s.

(** [re.sub(r, repl, s)]: every match found from left to right is
    replaced.  [skip] counts the characters still covered by the last
    match; after an empty match the next match at the same position must
    advance. *)
Fixpoint sub_from (ignorecase : bool) (r : regex) (repl : PyStr.t)
    (pos skip : nat) (s : PyStr.t) : PyStr.t :=
  match skip with
  | S skip' =>
      match s with
      | [] => []
      | _ :: s' => sub_from ignorecase r repl (S pos) skip' s'
      end
  | O =>
      let continue (covered : nat) : PyStr.t :=
        match s with
        | [] => []
        | x :: s' =>
            match covered with
            | O => x :: sub_from ignorecase r repl (S pos) 0 s'
            | S c => sub_from ignorecase r repl (S pos) c s'
            end
        end in
      match match_at ignorecase r false pos s with
      | None => continue 0%nat
      | Some e =>
          if (e =? pos)%nat then
            match match_at ignorecase r true pos s with
            | Some e' => repl ++ repl ++ continue (e' - pos)%nat
            | None => repl ++ continue 0%nat
            end
          else repl ++ continue (e - pos)%nat
      end
  end.

Definition sub (ignorecase : bool) (r : regex) (repl : PyStr.t)
    (s : PyStr.t) : PyStr.t :=
  sub_from ignorecase r repl 0 0 s.

(** What it means for a pattern to match.  [matches ignorecase r pos w
    rest]: the pattern [r] matches the word [w] when [w] starts at
    position [pos] of the subject and is followed by [rest]. *)
Inductive matches (ignorecase : bool)
    : regex -> nat -> PyStr.t -> PyStr.t -> Prop :=
| MEps pos rest : matches ignorecase REps pos [] rest
| MCls c x pos rest :
    cls_match ignorecase c x = true ->
    matches ignorecase (RCls c) pos [x] rest
| MOptNone r pos rest : matches ignorecase (ROpt r) pos [] rest
| MOptSome r pos w rest :
    matches ignorecase r pos w rest -> matches ignorecase (ROpt r) pos w rest
| MStar c pos w rest :
    forallb (cls_match ignorecase c) w = true ->
    matches ignorecase (RStar c) pos w rest
| MPlus c pos x w rest :
    forallb (cls_match ignorecase c) (x :: w) = true ->
    matches ignorecase (RPlus c) pos (x :: w) rest
| MSeq r1 r2 pos w1 w2 rest :
    matches ignorecase r1 pos w1 (w2 ++ rest) ->
    matches ignorecase r2 (pos + length w1) w2 rest ->
    matches ignorecase (RSeq r1 r2) pos (w1 ++ w2) rest
| MAltL r1 r2 pos w rest :
    matches ignorecase r1 pos w rest ->
    matches ignorecase (RAlt r1 r2) pos w rest
| MAltR r1 r2 pos w rest :
    matches ignorecase r2 pos w rest ->
    matches ignorecase (RAlt r1 r2) pos w rest
| MBol rest : matches ignorecase RBol 0 [] rest
| MEol pos rest :
    at_end rest = true -> matches ignorecase REol pos [] rest.

(** The pattern matches somewhere in the subject. *)
Definition matches_in (ignorecase : bool) (r : regex) (subject : PyStr.t)
    : Prop :=
  exists before w rest,
    subject = before ++ w ++ rest
    /\ matches ignorecase r (length before) w rest.

End Re.

(** ** Insufficiency classifier (nodes.py) *)

Module Classifier.

Import Re.

Definition any_text : regex := RStar CAny.

Definition insufficient_patterns : list regex :=
  [ (* (?i)don'?t have.*information *)
    seq_of [word "don"; ROpt (word "'"); word "t have"; any_text;
            word "information"];
    (* (?i)does not contain.*information *)
    seq_of [word "does not contain"; any_text; word "information"];
    (* (?i)not mentioned in.*context *)
    seq_of [word "not mentioned in"; any_text; word "context"];
    (* (?i)context does not.*enough *)
    seq_of [word "context does not"; any_text; word "enough"];
    (* (?i)unable to provide *)
    word "unable to provide";
    (* (?i)cannot answer *)
    word "cannot answer";
    (* (?i)no information about *)
    word "no information about";
    (* (?i)not included in.*context *)
    seq_of [word "not included in"; any_text; word "context"];
    (* (?i)unfortunately.*context *)
    seq_of [word "unfortunately"; any_text; word "context"] ].

(** The loop [for pattern in ...: if re.search(pattern, answer): return
    True], ending in [return False]. *)
Fixpoint first_match (patterns : list regex) (answer : PyStr.t) : bool :=
  match patterns with
  | [] => false
  | pattern :: rest =>
      match search true pattern answer with
      | Some _ => true
      | None => first_match rest answer
      end
  end.

Definition _answer_indicates_insufficient_info (answer : PyStr.t) : bool :=
  first_match insufficient_patterns answer.

End Classifier.

(** ** Query reformulation (answer_generator.py) *)

Module AnswerGenerator.

(** [^(what|how|when|where|why|who|which|can you|please)\s+] *)
Definition leading_interrogative : Re.regex :=
  Re.seq_of
    [ Re.RBol;
      Re.alt_of (Re.word "what")
        (map Re.word ["how"; "when"; "where"; "why"; "who"; "which";
                      "can you"; "please"]);
      Re.RPlus Re.CSpace ].

(** [\?$] *)
Definition trailing_question_mark : Re.regex :=
  Re.RSeq (Re.word "?") Re.REol.

Definition _simple_reformulation (data : UnicodeData.t)
    (question : PyStr.t) : PyStr.t :=
  let query :=
    Re.sub false leading_interrogative [] (PyStr.lower data question) in
  let query := Re.sub false trailing_question_mark [] query in
  PyStr.strip query.

(** The characters the second [strip] removes: the double and the
    single quote. *)
Definition quotes : PyStr.t := [34; 39].

Definition space : N := 32.

(** The reply with white space and wrapping quotes removed. *)
Definition clean_reply (content : PyStr.t) : PyStr.t :=
  PyStr.strip_chars quotes (PyStr.strip content).

(** [len(reformulated) < 3 or not reformulated.replace(' ', '').isalnum()] *)
Definition too_short_or_broken (data : UnicodeData.t)
    (reformulated : PyStr.t) : bool :=
  (length reformulated <? 3)%nat
  || negb (PyStr.isalnum data (PyStr.remove_char space reformulated)).

(** [reformulate_query_for_web(question)].  [llm_invoke question] is the
    outcome of [self.llm.invoke] on the reformulation prompt filled with
    the question: the content of the response, or the exception. *)
Definition reformulate_query_for_web (data : UnicodeData.t)
    (llm_invoke : PyStr.t -> result PyStr.t) (question : PyStr.t)
    : PyStr.t :=
  match llm_invoke question with
  | Ok content =>
      let reformulated := clean_reply content in
      if too_short_or_broken data reformulated
      then _simple_reformulation data question
      else reformulated
  | Raise _ => _simple_reformulation data question
  end.

End AnswerGenerator.

(** ** The rule-based reformulation, in words *)

Module Rule.

Definition interrogatives : list string :=
  ["what"; "how"; "when"; "where"; "why"; "who"; "which"; "can you"; "please"].

(** [s[n:]] *)
Definition drop (n : nat) (s : PyStr.t) : PyStr.t := skipn n s.

(** The number of leading characters of [s] that satisfy [p]. *)
Fixpoint span (p : N -> bool) (s : PyStr.t) : nat :=
  match s with
  | [] => O
  | c :: s' => if p c then S (span p s') else O
  end.

(** What follows [word] when [s] starts with it. *)
Fixpoint after_prefix (word s : PyStr.t) : option PyStr.t :=
  match word, s with
  | [], _ => Some s
  | a :: word', b :: s' => if b =? a then after_prefix word' s' else None
  | _ :: _, [] => None
  end.

(** What follows [word] and the white space after it, when [s] starts
    with [word] and at least one white space character. *)
Definition after_word (word s : PyStr.t) : option PyStr.t :=
  match after_prefix word s with
  | Some (c :: rest) =>
      if PyStr.isspace c then Some (PyStr.lstrip PyStr.isspace rest) else None
  | _ => None
  end.

Fixpoint after_first_word (words : list PyStr.t) (s : PyStr.t)
    : option PyStr.t :=
  match words with
  | [] => None
  | word :: rest =>
      match after_word word s with
      | Some r => Some r
      | None => after_first_word rest s
      end
  end.

(** [s] without a leading interrogative word and the white space that
    follows it. *)
Definition without_interrogative (s : PyStr.t) : PyStr.t :=
  match after_first_word (map PyStr.of_string interrogatives) s with
  | Some rest => rest
  | None => s
  end.

(** [s] without the question mark that ends it, or that stands before
    the newline that ends it. *)
Fixpoint without_question_mark (s : PyStr.t) : PyStr.t :=
  match s with
  | [] => []
  | c :: s' =>
      if (c =? 63) && Re.at_end s' then s'
      else c :: without_question_mark s'
  end.

(** The question in lower case, without the interrogative word, without
    the final question mark, stripped of white space at both ends. *)
Definition reformulation (data : UnicodeData.t) (question : PyStr.t)
    : PyStr.t :=
  PyStr.strip
    (without_question_mark
       (without_interrogative (PyStr.lower data question))).

(** Where the matcher ends a match of [word] followed by white space at
    the start of [s]. *)
Definition word_end (word s : PyStr.t) : option nat :=
  Re.run false (Re.lit word)
    (Re.run false (Re.RPlus Re.CSpace) (fun e _ => Some e)) 0 s.

End Rule.

(** ** Sample texts and a sample of the database *)

Module Sample.

(** The database for the characters U+0080 to U+00FF (Latin-1): the
    letters and the digit-like signs are alphanumeric, and the capital
    letters U+00C0 to U+00DE, the multiplication sign apart, have their
    lower case 32 places further.  Of the characters above U+00FF this
    sample says nothing true; it serves for texts that stay below. *)
Definition latin1_isalnum (c : N) : bool :=
  (c =? 0xAA) || (c =? 0xB2) || (c =? 0xB3) || (c =? 0xB5) || (c =? 0xB9)
  || (c =? 0xBA) || ((0xBC <=? c) && (c <=? 0xBE))
  || ((0xC0 <=? c) && (c <=? 0xD6))
  || ((0xD8 <=? c) && (c <=? 0xF6))
  || ((0xF8 <=? c) && (c <=? 0xFF)).

Definition latin1_lower_char (c : N) : N :=
  if PyStr.isupper c then c + 32
  else if (0xC0 <=? c) && (c <=? 0xDE) && negb (c =? 0xD7) then c + 32
  else c.

Definition latin1 : UnicodeData.t :=
  {| UnicodeData.isalnum := latin1_isalnum;
     UnicodeData.lower := map latin1_lower_char |}.

(** A model that is down. *)
Definition llm_down (question : PyStr.t) : result PyStr.t :=
  Raise "connection refused".

(** A model that answers every question with the same text. *)
Definition llm_replies (reply : PyStr.t) (question : PyStr.t)
    : result PyStr.t :=
  Ok reply.

(** "café paris" *)
Definition cafe_paris : PyStr.t :=
  PyStr.of_string "caf" ++ [0xE9] ++ PyStr.of_string " paris".

(** "NO İNFORMATION ABOUT", with a capital I with a dot above. *)
Definition no_information_dotted : PyStr.t :=
  PyStr.of_string "NO " ++ [0x130] ++ PyStr.of_string "NFORMATION ABOUT".

End Sample.

End Unicode.

(** * Properties *)

(** ** Arithmetic of scores *)

Module PyFloatFacts.

Import PyFloat.
Local Open Scope Q_scope.

Lemma ltb_lt x y : ltb x y = true <-> x < y.
Proof.
  unfold ltb. rewrite negb_true_iff.
  destruct (Qle_bool y x) eqn:E.
  - apply Qle_bool_iff in E. split; [discriminate | intros H; exfalso; lra].
  - split; [intros _ | reflexivity].
    destruct (Qlt_le_dec x y) as [H | H]; [exact H |].
    apply Qle_bool_iff in H. congruence.
Qed.

Lemma geb_ge x y : geb x y = true <-> y <= x.
Proof. unfold geb. apply Qle_bool_iff. Qed.

Lemma sum_snoc xs x : sum (xs ++ [x]) = sum xs + x.
Proof. unfold sum. rewrite fold_left_app. reflexivity. Qed.

(** [max] returns an element of the list that bounds all the others. *)
Lemma max_in x xs : In (max x xs) (x :: xs).
Proof.
  unfold max. revert x. induction xs as [| y ys IH]; intros x; [left; reflexivity |].
  cbn [fold_left]. destruct (ltb x y).
  - right. apply IH.
  - destruct (IH x) as [H | H]; [left; exact H | right; right; exact H].
Qed.

Lemma max_ge_init x xs : x <= max x xs.
Proof.
  unfold max. revert x. induction xs as [| y ys IH]; intros x; [cbn; lra |].
  cbn [fold_left]. destruct (ltb x y) eqn:E.
  - apply ltb_lt in E. specialize (IH y). lra.
  - apply IH.
Qed.

Lemma max_upper x xs s : In s (x :: xs) -> s <= max x xs.
Proof.
  revert x. induction xs as [| y ys IH]; intros x H.
  - destruct H as [<- | []]. cbn. lra.
  - unfold max. cbn [fold_left]. fold (max (if ltb x y then y else x) ys).
    destruct H as [<- | [<- | H]].
    + destruct (ltb x y) eqn:E.
      * apply ltb_lt in E. pose proof (max_ge_init y ys). lra.
      * apply max_ge_init.
    + destruct (ltb x y) eqn:E.
      * apply max_ge_init.
      * assert (y <= x).
        { destruct (Qlt_le_dec x y) as [L | L]; [| exact L].
          apply ltb_lt in L. congruence. }
        pose proof (max_ge_init x ys). lra.
    + apply IH. right. exact H.
Qed.

End PyFloatFacts.

(** ** Score normalisation *)

Module ScoreNormalizerFacts.

Import ScoreNormalizer.
Local Open Scope Q_scope.

Lemma normalize_pos d : 0 <= d -> 0 < normalize d.
Proof.
  intros Hd. unfold normalize, Qdiv. rewrite Qmult_1_l.
  apply Qinv_lt_0_compat. lra.
Qed.

Lemma normalize_le_1 d : 0 <= d -> normalize d <= 1.
Proof.
  intros Hd. unfold normalize.
  apply Qle_shift_div_r; lra.
Qed.

Lemma normalize_0 : normalize 0 == 1.
Proof. reflexivity. Qed.

Lemma normalize_strict d1 d2 :
  0 <= d1 -> d1 < d2 -> normalize d2 < normalize d1.
Proof.
  intros H1 H12. unfold normalize.
  apply Qlt_shift_div_r; [lra |].
  assert (E : 1 / (1 + d1) * (1 + d2)
              == 1 + (d2 - d1) * (1 / (1 + d1))) by (field; lra).
  rewrite E.
  assert (0 < (d2 - d1) * (1 / (1 + d1))).
  { apply Qmult_lt_0_compat; [lra |]. apply (normalize_pos d1 H1). }
  lra.
Qed.

End ScoreNormalizerFacts.

(** ** Overall relevance score *)

Module HelpersFacts.

Import Helpers.
Local Open Scope Q_scope.

Lemma sum_map_seq f n : PyFloat.sum (map f (seq 0 n)) = Qsum n f.
Proof.
  induction n as [| n IH]; [reflexivity |].
  rewrite seq_S, map_app. cbn [map].
  rewrite PyFloatFacts.sum_snoc, IH. reflexivity.
Qed.

Lemma combine_weights scores (w : nat -> Q) a :
  map (fun sw => fst sw * snd sw)
      (combine scores (map w (seq a (length scores))))
  = map (fun i => nth (i - a) scores 0 * w i) (seq a (length scores)).
Proof.
  revert a. induction scores as [| s scores IH]; intros a; [reflexivity |].
  cbn [length seq map combine fst snd]. rewrite Nat.sub_diag. cbn [nth].
  f_equal. rewrite IH. apply map_ext_in. intros i Hi.
  apply in_seq in Hi.
  replace (i - a)%nat with (S (i - S a)) by lia. reflexivity.
Qed.

Lemma weight_pos i : 0 < weight i.
Proof.
  unfold weight, Qdiv. rewrite Qmult_1_l. apply Qinv_lt_0_compat.
  unfold PyFloat.of_nat.
  change 0 with (inject_Z 0). rewrite <- Zlt_Qlt. lia.
Qed.

Lemma Qsum_nonneg n f : (forall i, 0 <= f i) -> 0 <= Qsum n f.
Proof.
  intros Hf. induction n as [| n IH]; cbn [Qsum]; [lra |].
  specialize (Hf n). lra.
Qed.

Lemma weight_total_pos n : (0 < n)%nat -> 0 < Qsum n weight.
Proof.
  intros Hn. destruct n as [| n]; [lia |]. cbn [Qsum].
  pose proof (Qsum_nonneg n weight (fun i => Qlt_le_weak _ _ (weight_pos i))).
  pose proof (weight_pos n). lra.
Qed.

Lemma Qsum_ext n f g :
  (forall i, (i < n)%nat -> f i == g i) -> Qsum n f == Qsum n g.
Proof.
  induction n as [| n IH]; intros H; cbn [Qsum]; [reflexivity |].
  rewrite IH by (intros; apply H; lia). rewrite (H n) by lia. reflexivity.
Qed.

Lemma calculate_relevance_score_nonempty scores :
  scores <> [] -> calculate_relevance_score scores == weighted_average scores.
Proof.
  intros Hne. destruct scores as [| s0 rest]; [congruence |].
  unfold calculate_relevance_score, weighted_average, weights.
  set (l := s0 :: rest).
  rewrite (combine_weights l weight 0), !sum_map_seq.
  assert (Hpos : 0 < Qsum (length l) weight)
    by (apply weight_total_pos; cbn; lia).
  apply PyFloatFacts.ltb_lt in Hpos as Hb. rewrite Hb.
  assert (E : Qsum (length l) (fun i => nth (i - 0) l 0 * weight i)
              == Qsum (length l)
                   (fun i => nth i l 0 * (1 / PyFloat.of_nat (i + 1)))).
  { apply Qsum_ext. intros i _. rewrite Nat.sub_0_r. reflexivity. }
  rewrite E. reflexivity.
Qed.

Lemma calculate_relevance_score_single s : calculate_relevance_score [s] == s.
Proof.
  rewrite calculate_relevance_score_nonempty by discriminate.
  unfold weighted_average. cbn [length Qsum nth].
  change (PyFloat.of_nat (0 + 1)) with 1. field.
Qed.

End HelpersFacts.

(** ** Strings and metadata values *)

Module PyStrFacts.

Import PyStr.

Lemma slice_to_length n s :
  String.length (slice_to n s) = Nat.min n (String.length s).
Proof.
  revert s. induction n as [| n IH]; intros [| c s]; cbn; try reflexivity.
  rewrite IH. reflexivity.
Qed.

Lemma append_length s t :
  String.length (s +:+ t) = (String.length s + String.length t)%nat.
Proof.
  induction s as [| c s IH]; [reflexivity |].
  change (String c s +:+ t) with (String c (s +:+ t)). cbn [String.length].
  rewrite IH. reflexivity.
Qed.

Lemma append_nil_l s : "" +:+ s = s.
Proof. reflexivity. Qed.

Lemma append_cons c s t : String c s +:+ t = String c (s +:+ t).
Proof. reflexivity. Qed.

Lemma append_nil_r s : s +:+ "" = s.
Proof.
  induction s as [| c s IH]; [reflexivity |].
  change (String c s +:+ "") with (String c (s +:+ "")). rewrite IH. reflexivity.
Qed.

Lemma append_assoc s t u : (s +:+ t) +:+ u = s +:+ (t +:+ u).
Proof.
  induction s as [| c s IH]; [reflexivity |].
  change ((String c s +:+ t) +:+ u) with (String c ((s +:+ t) +:+ u)).
  rewrite IH. reflexivity.
Qed.

End PyStrFacts.

Module ScalarFacts.

Import Scalar.

Lemma eqb_refl a : eqb a a = true.
Proof.
  destruct a as [| [|] | z | s]; unfold eqb; cbn [as_int]; try reflexivity.
  - apply Z.eqb_refl.
  - apply String.eqb_refl.
Qed.

Lemma eqb_sym a b : eqb a b = eqb b a.
Proof.
  destruct a as [| [|] | x | s], b as [| [|] | y | t];
    unfold eqb; cbn [as_int]; try reflexivity; try apply Z.eqb_sym.
  apply String.eqb_sym.
Qed.

Lemma eqb_trans a b c : eqb a b = true -> eqb b c = true -> eqb a c = true.
Proof.
  unfold eqb.
  destruct (as_int a) as [x |] eqn:Ea, (as_int b) as [y |] eqn:Eb,
           (as_int c) as [z |] eqn:Ec; try discriminate.
  - rewrite !Z.eqb_eq. congruence.
  - destruct a, b, c; try discriminate; try reflexivity.
    rewrite !String.eqb_eq. congruence.
Qed.

Lemma eqb_truthy a b : eqb a b = true -> truthy a = truthy b.
Proof.
  destruct a as [| [|] | x | s], b as [| [|] | y | t];
    unfold eqb; cbn [as_int truthy];
    try discriminate; try reflexivity;
    try (intros H; apply Z.eqb_eq in H; subst; reflexivity).
  intros H. apply String.eqb_eq in H. subst t. reflexivity.
Qed.

End ScalarFacts.

(** ** Dict literals *)

Module DictFacts.

Lemma dict_lookup items key : dict items !! key = assoc key items.
Proof.
  unfold dict. induction items as [| [k v] rest IH]; [reflexivity |].
  cbn [list_to_map foldr assoc uncurry fst snd].
  destruct (String.eqb_spec k key) as [-> | Hne].
  - apply lookup_insert_eq.
  - rewrite lookup_insert_ne by exact Hne. exact IH.
Qed.

End DictFacts.

(** Evaluate the lookup of a literal key in a dict literal. *)
Ltac dict_lookup := rewrite DictFacts.dict_lookup; reflexivity.

(** ** Relevance assessment *)

Module AssessFacts.

Import RAGRetriever.
Local Open Scope Q_scope.

Lemma assess_empty_scores settings query documents key :
  assess_relevance settings query documents [] !! key
  = assoc key
      [ ("is_relevant", VBool false); ("confidence", VFloat 0);
        ("reason", VStr "No documents retrieved");
        ("top_score", VFloat 0); ("avg_score", VFloat 0) ].
Proof.
  unfold assess_relevance. destruct documents; apply DictFacts.dict_lookup.
Qed.

Lemma assess_empty_documents settings query scores key :
  assess_relevance settings query [] scores !! key
  = assoc key
      [ ("is_relevant", VBool false); ("confidence", VFloat 0);
        ("reason", VStr "No documents retrieved");
        ("top_score", VFloat 0); ("avg_score", VFloat 0) ].
Proof. unfold assess_relevance. apply DictFacts.dict_lookup. Qed.

Lemma assess_confidence settings query d ds s ss :
  assess_relevance settings query (d :: ds) (s :: ss) !! "confidence"
  = Some (VFloat (Helpers.calculate_relevance_score (s :: ss))).
Proof. unfold assess_relevance. dict_lookup. Qed.

Lemma assess_top_score settings query d ds s ss :
  assess_relevance settings query (d :: ds) (s :: ss) !! "top_score"
  = Some (VFloat (PyFloat.max s ss)).
Proof. unfold assess_relevance. dict_lookup. Qed.

Lemma assess_avg_score settings query d ds s ss :
  assess_relevance settings query (d :: ds) (s :: ss) !! "avg_score"
  = Some (VFloat (PyFloat.sum (s :: ss) / PyFloat.of_nat (length (s :: ss)))).
Proof. unfold assess_relevance. dict_lookup. Qed.

Lemma assess_is_relevant settings query d ds s ss :
  assess_relevance settings query (d :: ds) (s :: ss) !! "is_relevant"
  = Some (VBool
      (PyFloat.geb (PyFloat.max s ss) (Settings.RELEVANCE_THRESHOLD settings)
       && PyFloat.geb (Helpers.calculate_relevance_score (s :: ss))
            (Settings.MIN_CONFIDENCE_SCORE settings))).
Proof. unfold assess_relevance. dict_lookup. Qed.

Lemma assess_num_documents settings query d ds s ss :
  assess_relevance settings query (d :: ds) (s :: ss) !! "num_documents"
  = Some (VInt (Z.of_nat (length (d :: ds)))).
Proof. unfold assess_relevance. dict_lookup. Qed.

Lemma assess_reason settings query d ds s ss :
  exists parts,
    assess_relevance settings query (d :: ds) (s :: ss) !! "reason"
    = Some (VFStr parts).
Proof. unfold assess_relevance. eexists. dict_lookup. Qed.

End AssessFacts.

(** C6.  For a non-empty passage list with its scores the assessment has
    the six fields [is_relevant], [confidence], [top_score], [avg_score],
    [reason] and [num_documents], the last one being the number of
    passages.  For the empty passage list the record has the first five
    fields only: [num_documents] is missing. *)
Theorem assess_relevance_fields (settings : Settings.t) (query : string) :
  (forall d ds s ss,
     let r := RAGRetriever.assess_relevance settings query (d :: ds) (s :: ss) in
     (exists b, r !! "is_relevant" = Some (VBool b))
     /\ (exists c, r !! "confidence" = Some (VFloat c))
     /\ (exists t, r !! "top_score" = Some (VFloat t))
     /\ (exists a, r !! "avg_score" = Some (VFloat a))
     /\ (exists parts, r !! "reason" = Some (VFStr parts))
     /\ r !! "num_documents" = Some (VInt (Z.of_nat (length (d :: ds)))))
  /\ (let r := RAGRetriever.assess_relevance settings query [] [] in
      r !! "is_relevant" = Some (VBool false)
      /\ r !! "confidence" = Some (VFloat 0)
      /\ r !! "top_score" = Some (VFloat 0)
      /\ r !! "avg_score" = Some (VFloat 0)
      /\ r !! "reason" = Some (VStr "No documents retrieved")
      /\ r !! "num_documents" = None).
Proof.
  split.
  - intros d ds s ss r. subst r.
    split; [eexists; apply AssessFacts.assess_is_relevant |].
    split; [eexists; apply AssessFacts.assess_confidence |].
    split; [eexists; apply AssessFacts.assess_top_score |].
    split; [eexists; apply AssessFacts.assess_avg_score |].
    split; [apply AssessFacts.assess_reason |].
    apply AssessFacts.assess_num_documents.
  - cbv zeta. rewrite !AssessFacts.assess_empty_documents. repeat split.
Qed.

(** ** Source metadata *)

Module SourceFacts.

Import RAGRetriever.

Lemma fold_source_step docs sources seen_pages :
  fold_left source_step docs (sources, seen_pages)
  = (sources ++ map source_entry (kept seen_pages docs),
     seen_pages ++ map page_of (kept seen_pages docs)).
Proof.
  revert sources seen_pages.
  induction docs as [| d rest IH]; intros sources seen_pages.
  - cbn. rewrite !app_nil_r. reflexivity.
  - cbn [fold_left kept source_step]. fold (page_of d).
    destruct (Scalar.truthy (page_of d) && negb (seen (page_of d) seen_pages)).
    + rewrite IH. cbn [map]. rewrite <- !app_assoc. reflexivity.
    + apply IH.
Qed.

Lemma get_source_metadata_kept docs :
  get_source_metadata docs = map source_entry (kept [] docs).
Proof. unfold get_source_metadata. rewrite fold_source_step. reflexivity. Qed.

Lemma seen_app p l1 l2 : seen p (l1 ++ l2) = seen p l1 || seen p l2.
Proof. unfold seen. apply existsb_app. Qed.

Lemma seen_false p l :
  seen p l = false <-> forall q, In q l -> Scalar.eqb p q = false.
Proof.
  unfold seen. split.
  - intros H q Hq. destruct (Scalar.eqb p q) eqn:E; [| reflexivity].
    assert (existsb (Scalar.eqb p) l = true)
      by (apply existsb_exists; exists q; split; assumption).
    congruence.
  - intros H. destruct (existsb (Scalar.eqb p) l) eqn:E; [| reflexivity].
    apply existsb_exists in E as (q & Hq & Hpq). rewrite (H q Hq) in Hpq.
    discriminate.
Qed.

Lemma kept_sublist seen_pages docs : sublist (kept seen_pages docs) docs.
Proof.
  revert seen_pages. induction docs as [| d rest IH]; intros seen_pages.
  - constructor.
  - cbn [kept].
    destruct (Scalar.truthy (page_of d) && negb (seen (page_of d) seen_pages)).
    + apply sublist_skip, IH.
    + apply sublist_cons, IH.
Qed.

(** Every kept document is the first one of the input with its page,
    the page is truthy and was not seen before. *)
Lemma kept_first seen_pages docs d :
  In d (kept seen_pages docs) ->
  exists l1 l2,
    docs = l1 ++ d :: l2
    /\ Scalar.truthy (page_of d) = true
    /\ seen (page_of d) seen_pages = false
    /\ forall x, In x l1 -> Scalar.eqb (page_of x) (page_of d) = false.
Proof.
  revert seen_pages. induction docs as [| d0 rest IH]; intros seen_pages H.
  - destruct H.
  - cbn [kept] in H.
    destruct (Scalar.truthy (page_of d0)) eqn:Et;
      [destruct (seen (page_of d0) seen_pages) eqn:Es |]; cbn [andb negb] in H.
    + destruct (IH _ H) as (l1 & l2 & -> & Ht & Hs & Hl1).
      exists (d0 :: l1), l2. repeat split; try assumption.
      intros x [<- | Hx]; [| apply Hl1; exact Hx].
      destruct (Scalar.eqb (page_of d0) (page_of d)) eqn:E; [| reflexivity].
      exfalso. apply existsb_exists in Es as (q & Hq & Hpq).
      rewrite ScalarFacts.eqb_sym in E.
      pose proof (ScalarFacts.eqb_trans _ _ _ E Hpq) as C.
      rewrite (proj1 (seen_false _ _) Hs q Hq) in C. discriminate.
    + destruct H as [<- | H].
      * exists [], rest. repeat split; try assumption. intros x [].
      * destruct (IH _ H) as (l1 & l2 & -> & Ht & Hs & Hl1).
        rewrite seen_app in Hs. apply orb_false_iff in Hs as [Hs Hd0].
        exists (d0 :: l1), l2. repeat split; try assumption.
        intros x [<- | Hx]; [| apply Hl1; exact Hx].
        unfold seen in Hd0. cbn in Hd0. rewrite orb_false_r in Hd0.
        rewrite ScalarFacts.eqb_sym. exact Hd0.
    + destruct (IH _ H) as (l1 & l2 & -> & Ht & Hs & Hl1).
      exists (d0 :: l1), l2. repeat split; try assumption.
      intros x [<- | Hx]; [| apply Hl1; exact Hx].
      destruct (Scalar.eqb (page_of d0) (page_of d)) eqn:E; [| reflexivity].
      apply ScalarFacts.eqb_truthy in E. congruence.
Qed.

Lemma kept_complete seen_pages l1 d l2 :
  Scalar.truthy (page_of d) = true ->
  seen (page_of d) seen_pages = false ->
  (forall x, In x l1 -> Scalar.eqb (page_of x) (page_of d) = false) ->
  In d (kept seen_pages (l1 ++ d :: l2)).
Proof.
  intros Ht. revert seen_pages.
  induction l1 as [| x l1 IH]; intros seen_pages Hs Hl1.
  - cbn [app kept]. rewrite Ht, Hs. left. reflexivity.
  - cbn [app kept].
    assert (Hx : Scalar.eqb (page_of d) (page_of x) = false)
      by (rewrite ScalarFacts.eqb_sym; apply Hl1; left; reflexivity).
    assert (Hl1' : forall y, In y l1 ->
              Scalar.eqb (page_of y) (page_of d) = false)
      by (intros y Hy; apply Hl1; right; exact Hy).
    destruct (Scalar.truthy (page_of x) && negb (seen (page_of x) seen_pages)).
    + right. apply IH; [| exact Hl1'].
      rewrite seen_app, Hs. unfold seen. cbn. rewrite Hx. reflexivity.
    + apply IH; assumption.
Qed.

Lemma kept_distinct seen_pages docs (i j : nat) a b :
  (i < j)%nat ->
  kept seen_pages docs !! i = Some a ->
  kept seen_pages docs !! j = Some b ->
  Scalar.eqb (page_of a) (page_of b) = false.
Proof.
  revert seen_pages i j.
  induction docs as [| d rest IH]; intros seen_pages i j Hij Ha Hb.
  - discriminate.
  - cbn [kept] in Ha, Hb.
    destruct (Scalar.truthy (page_of d) && negb (seen (page_of d) seen_pages)).
    + destruct j as [| j]; [lia |]. cbn in Hb.
      destruct i as [| i].
      * cbn in Ha. injection Ha as <-.
        apply list_elem_of_lookup_2, list_elem_of_In, kept_first in Hb.
        destruct Hb as (_ & _ & _ & _ & Hs & _).
        rewrite seen_app in Hs. apply orb_false_iff in Hs as [_ Hs].
        unfold seen in Hs. cbn in Hs. rewrite orb_false_r in Hs.
        rewrite ScalarFacts.eqb_sym. exact Hs.
      * cbn in Ha. apply (IH (seen_pages ++ [page_of d]) i j); [lia | assumption..].
    + apply (IH seen_pages i j); assumption.
Qed.

Lemma kept_represents seen_pages docs d :
  In d docs -> Scalar.truthy (page_of d) = true ->
  seen (page_of d) seen_pages = true
  \/ exists d', In d' (kept seen_pages docs)
                /\ Scalar.eqb (page_of d') (page_of d) = true.
Proof.
  revert seen_pages. induction docs as [| d0 rest IH]; intros seen_pages Hin Ht.
  - destruct Hin.
  - cbn [kept]. destruct Hin as [-> | Hin].
    + rewrite Ht. destruct (seen (page_of d) seen_pages); [left; reflexivity |].
      right. exists d. split; [left; reflexivity | apply ScalarFacts.eqb_refl].
    + destruct (Scalar.truthy (page_of d0)
                && negb (seen (page_of d0) seen_pages)).
      * destruct (IH (seen_pages ++ [page_of d0]) Hin Ht) as [Hs | (d' & Hd' & E)].
        -- rewrite seen_app in Hs. apply orb_true_iff in Hs as [Hs | Hs];
             [left; exact Hs |].
           right. exists d0. split; [left; reflexivity |].
           unfold seen in Hs. cbn in Hs. rewrite orb_false_r in Hs.
           rewrite ScalarFacts.eqb_sym. exact Hs.
        -- right. exists d'. split; [right; exact Hd' | exact E].
      * destruct (IH seen_pages Hin Ht) as [Hs | (d' & Hd' & E)];
          [left; exact Hs | right; exists d'; split; assumption].
Qed.

Lemma preview_length doc :
  String.length (RagSource.preview (source_entry doc))
  = (Nat.min 200 (String.length (Document.page_content doc)) + 3)%nat.
Proof.
  cbn [source_entry RagSource.preview].
  rewrite PyStrFacts.append_length, PyStrFacts.slice_to_length. reflexivity.
Qed.

End SourceFacts.

(** C9 (as amended).  [get_source_metadata] returns one entry per distinct
    truthy locator: the entries are those of the documents that are the
    first of the input with their page, taken in the order of the input,
    and no two entries have the same page.  A document whose page is
    missing or falsy ([None], [0], the empty string) gives no entry; every
    other document is represented by the entry of the first occurrence of
    its page.  The preview of an entry is the first 200 characters of the
    content followed by three dots, so it has at most 203 characters. *)
Theorem get_source_metadata_first_occurrences (documents : list Document.t) :
  let page_of doc := Document.get doc "page" SNone in
  let result := RAGRetriever.get_source_metadata documents in
  (exists kept, sublist kept documents
                /\ result = map RAGRetriever.source_entry kept)
  /\ (forall e, In e result <->
        exists l1 d l2,
          documents = l1 ++ d :: l2
          /\ e = RAGRetriever.source_entry d
          /\ Scalar.truthy (page_of d) = true
          /\ forall x, In x l1 -> Scalar.eqb (page_of x) (page_of d) = false)
  /\ (forall (i j : nat) e1 e2, (i < j)%nat ->
        result !! i = Some e1 -> result !! j = Some e2 ->
        Scalar.eqb (RagSource.page e1) (RagSource.page e2) = false)
  /\ (forall d, In d documents -> Scalar.truthy (page_of d) = true ->
        exists e, In e result
                  /\ Scalar.eqb (RagSource.page e) (page_of d) = true)
  /\ (forall e, In e result ->
        exists d, In d documents
          /\ RagSource.preview e
             = PyStr.slice_to 200 (Document.page_content d) +:+ "..."
          /\ (String.length (RagSource.preview e) <= 203)%nat).
Proof.
  intros page_of result. subst result.
  rewrite SourceFacts.get_source_metadata_kept.
  assert (Hfwd : forall e,
            In e (map RAGRetriever.source_entry (kept [] documents)) ->
            exists l1 d l2,
              documents = l1 ++ d :: l2
              /\ e = RAGRetriever.source_entry d
              /\ Scalar.truthy (page_of d) = true
              /\ forall x, In x l1 ->
                   Scalar.eqb (page_of x) (page_of d) = false).
  { intros e He. apply in_map_iff in He as (d & <- & Hd).
    apply SourceFacts.kept_first in Hd as (l1 & l2 & E & Ht & _ & Hl1).
    exists l1, d, l2. repeat split; assumption. }
  split; [| split; [| split; [| split]]].
  - exists (kept [] documents).
    split; [apply SourceFacts.kept_sublist | reflexivity].
  - intros e. split; [apply Hfwd |].
    intros (l1 & d & l2 & -> & -> & Ht & Hl1).
    apply in_map. apply SourceFacts.kept_complete; [exact Ht | reflexivity | exact Hl1].
  - intros i j e1 e2 Hij H1 H2.
    rewrite list_lookup_fmap in H1, H2.
    destruct (kept [] documents !! i) as [a |] eqn:Ea; [| discriminate].
    destruct (kept [] documents !! j) as [b |] eqn:Eb; [| discriminate].
    injection H1 as <-. injection H2 as <-.
    apply (SourceFacts.kept_distinct [] documents i j a b Hij Ea Eb).
  - intros d Hd Ht.
    destruct (SourceFacts.kept_represents [] documents d Hd Ht)
      as [Hs | (d' & Hd' & E)]; [discriminate |].
    exists (RAGRetriever.source_entry d'). split; [apply in_map; exact Hd' | exact E].
  - intros e He. destruct (Hfwd e He) as (l1 & d & l2 & -> & -> & _).
    exists d. split; [apply in_or_app; right; left; reflexivity |].
    split; [reflexivity |].
    rewrite SourceFacts.preview_length. lia.
Qed.

(** The second passage of page 3 is represented by an entry of that page. *)
Lemma get_source_metadata_first_occurrences_witness :
  exists e,
    In e (RAGRetriever.get_source_metadata
            [Sample.cover; Sample.body; Sample.body_again])
    /\ Scalar.eqb (RagSource.page e)
         (Document.get Sample.body_again "page" SNone) = true.
Proof.
  destruct (get_source_metadata_first_occurrences
              [Sample.cover; Sample.body; Sample.body_again])
    as (_ & _ & _ & Hrepresented & _).
  apply (Hrepresented Sample.body_again).
  - right. right. left. reflexivity.
  - vm_compute. reflexivity.
Defined.

(** C9, counterexample to the claim as stated.  Of four passages, one
    without a page, one on page 0 and two on page 3, only the first
    passage of page 3 gets an entry: the passage without a page and the
    one on page 0 are not represented, and the preview of the entry is as
    long as its short content allows, not of a fixed length. *)
Lemma get_source_metadata_drops_falsy_pages :
  RAGRetriever.get_source_metadata
    [Sample.loose_note; Sample.cover; Sample.body; Sample.body_again]
  = [ {| RagSource.page := SInt 3;
         RagSource.source := SStr "atlas.pdf";
         RagSource.preview := "Paris is the capital of France...." |} ]
  /\ Document.get Sample.cover "page" SNone = SInt 0
  /\ ~ (exists e,
          In e (RAGRetriever.get_source_metadata
                  [Sample.loose_note; Sample.cover; Sample.body;
                   Sample.body_again])
          /\ Scalar.eqb (RagSource.page e) (SInt 0) = true).
Proof.
  split; [vm_compute; reflexivity |].
  split; [vm_compute; reflexivity |].
  intros (e & He & Hpage).
  vm_compute in He. destruct He as [<- | []]. vm_compute in Hpage. discriminate.
Qed.

(** ** The matcher finds exactly the matches *)

(** Push [+:+] through the constructors of its first argument. *)
Ltac str_norm :=
  rewrite ?PyStrFacts.append_nil_l, ?PyStrFacts.append_cons in *.

Module ReFacts.

Import Re.

Lemma is_Some_orelse {A} (x y : option A) :
  is_Some (orelse x y) <-> is_Some x \/ is_Some y.
Proof.
  destruct x as [a |]; cbn.
  - split; [left; eauto | intros _; eauto].
  - split; [right; assumption | intros [H | H]; [destruct H; discriminate | exact H]].
Qed.

Section Correct.

Context {A : Type} (i : bool).

Lemma star_spec c (k : nat -> string -> option A) pos s :
  is_Some (star i c k pos s) <->
  exists w rest,
    s = w +:+ rest
    /\ PyStr.all (cls_match i c) w = true
    /\ is_Some (k (pos + String.length w)%nat rest).
Proof.
  revert pos. induction s as [| x s IH]; intros pos.
  - cbn [star]. split.
    + intros H. exists "", "". rewrite Nat.add_0_r. auto.
    + intros (w & rest & E & _ & H).
      destruct w; [| discriminate]. str_norm. subst rest.
      rewrite Nat.add_0_r in H. exact H.
  - cbn [star]. destruct (cls_match i c x) eqn:Ex.
    + rewrite is_Some_orelse, IH. split.
      * intros [(w & rest & -> & Hw & H) | H].
        -- exists (String x w), rest. split; [reflexivity |].
           split; [cbn; rewrite Ex; exact Hw |].
           cbn [String.length]. rewrite Nat.add_succ_r. exact H.
        -- exists "", (String x s). rewrite Nat.add_0_r. auto.
      * intros (w & rest & E & Hw & H). destruct w as [| y w].
        -- right. str_norm. subst rest. rewrite Nat.add_0_r in H. exact H.
        -- left. str_norm. injection E as -> ->. exists w, rest.
           cbn in Hw. apply andb_true_iff in Hw as [_ Hw].
           cbn [String.length] in H. rewrite Nat.add_succ_r in H. auto.
    + split.
      * intros H. exists "", (String x s). rewrite Nat.add_0_r. auto.
      * intros (w & rest & E & Hw & H). destruct w as [| y w].
        -- str_norm. subst rest. rewrite Nat.add_0_r in H. exact H.
        -- str_norm. injection E as -> ->. cbn in Hw. rewrite Ex in Hw. discriminate.
Qed.

Lemma run_spec r :
  forall (k : nat -> string -> option A) pos s,
    is_Some (run i r k pos s) <->
    exists w rest,
      s = w +:+ rest
      /\ matches i r pos w rest
      /\ is_Some (k (pos + String.length w)%nat rest).
Proof.
  induction r as [| c | r IH | c | c | r1 IH1 r2 IH2 | r1 IH1 r2 IH2 | |];
    intros k pos s; cbn [run].
  - (* REps *)
    split.
    + intros H. exists "", s. rewrite Nat.add_0_r.
      repeat split; [constructor | exact H].
    + intros (w & rest & -> & Hm & H). inversion Hm; subst.
      rewrite Nat.add_0_r in H. exact H.
  - (* RCls *)
    split.
    + destruct s as [| x s]; [intros []; discriminate |].
      destruct (cls_match i c x) eqn:Ex; [| intros []; discriminate].
      intros H. exists (String x ""), s.
      repeat split; [constructor; exact Ex |].
      cbn [String.length]. rewrite Nat.add_1_r. exact H.
    + intros (w & rest & -> & Hm & H). inversion Hm; subst.
      change (String x "" +:+ rest) with (String x rest). cbv beta iota.
      match goal with E : cls_match _ _ _ = true |- _ => rewrite E end.
      cbn [String.length] in H. rewrite Nat.add_1_r in H. exact H.
  - (* ROpt *)
    rewrite is_Some_orelse, IH. split.
    + intros [(w & rest & -> & Hm & H) | H].
      * exists w, rest. repeat split; [apply MOptSome; exact Hm | exact H].
      * exists "", s. rewrite Nat.add_0_r.
        repeat split; [apply MOptNone | exact H].
    + intros (w & rest & -> & Hm & H). inversion Hm; subst.
      * right. rewrite Nat.add_0_r in H. exact H.
      * left. exists w, rest. auto.
  - (* RStar *)
    rewrite star_spec. split.
    + intros (w & rest & -> & Hw & H). exists w, rest.
      repeat split; [constructor; exact Hw | exact H].
    + intros (w & rest & -> & Hm & H). inversion Hm; subst.
      exists w, rest. auto.
  - (* RPlus *)
    split.
    + destruct s as [| x s]; [intros []; discriminate |].
      destruct (cls_match i c x) eqn:Ex; [| intros []; discriminate].
      intros H. apply star_spec in H as (w & rest & -> & Hw & H).
      exists (String x w), rest. split; [reflexivity |].
      split; [constructor; cbn; rewrite Ex; exact Hw |].
      cbn [String.length]. rewrite Nat.add_succ_r. exact H.
    + intros (w & rest & -> & Hm & H). inversion Hm; subst.
      change (String x w0 +:+ rest) with (String x (w0 +:+ rest)).
      match goal with E : PyStr.all _ _ = true |- _ =>
        cbn in E; apply andb_true_iff in E as [Ex Hw] end.
      cbv beta iota. rewrite Ex. apply star_spec. exists w0, rest.
      cbn [String.length] in H. rewrite Nat.add_succ_r in H. auto.
  - (* RSeq *)
    rewrite IH1. split.
    + intros (w1 & rest1 & -> & Hm1 & H).
      apply IH2 in H as (w2 & rest & -> & Hm2 & H).
      exists (w1 +:+ w2), rest.
      split; [symmetry; apply PyStrFacts.append_assoc |].
      split; [constructor; assumption |].
      rewrite PyStrFacts.append_length, Nat.add_assoc. exact H.
    + intros (w & rest & -> & Hm & H). inversion Hm; subst.
      exists w1, (w2 +:+ rest).
      split; [apply PyStrFacts.append_assoc |].
      split; [assumption |].
      apply IH2. exists w2, rest.
      rewrite PyStrFacts.append_length, Nat.add_assoc in H. auto.
  - (* RAlt *)
    rewrite is_Some_orelse, IH1, IH2. split.
    + intros [(w & rest & -> & Hm & H) | (w & rest & -> & Hm & H)];
        exists w, rest; (repeat split; [| exact H]);
        [apply MAltL | apply MAltR]; exact Hm.
    + intros (w & rest & -> & Hm & H). inversion Hm; subst;
        [left | right]; exists w, rest; auto.
  - (* RBol *)
    split.
    + destruct (Nat.eqb_spec pos 0) as [-> | Hne]; [| intros []; discriminate].
      intros H. exists "", s. repeat split; [constructor | exact H].
    + intros (w & rest & -> & Hm & H). inversion Hm; subst. exact H.
  - (* REol *)
    split.
    + destruct (at_end s) eqn:Es; [| intros []; discriminate].
      intros H. exists "", s. rewrite Nat.add_0_r.
      repeat split; [constructor; exact Es | exact H].
    + intros (w & rest & -> & Hm & H). inversion Hm; subst.
      change ("" +:+ rest) with rest.
      match goal with E : at_end _ = true |- _ => rewrite E end.
      rewrite Nat.add_0_r in H. exact H.
Qed.

End Correct.

Lemma match_at_spec i r pos s :
  is_Some (match_at i r false pos s) <->
  exists w rest, s = w +:+ rest /\ matches i r pos w rest.
Proof.
  unfold match_at. rewrite run_spec. split.
  - intros (w & rest & E & Hm & _). eauto.
  - intros (w & rest & E & Hm). exists w, rest. cbn. eauto.
Qed.

Lemma search_from_spec i r s :
  forall pos,
    is_Some (search_from i r pos s) <->
    exists before w rest,
      s = before +:+ w +:+ rest
      /\ matches i r (pos + String.length before) w rest.
Proof.
  induction s as [| x s IH]; intros pos; cbn [search_from].
  - destruct (match_at i r false pos "") as [e |] eqn:E.
    + split; [intros _ | eauto].
      assert (H : is_Some (match_at i r false pos "")) by (rewrite E; eauto).
      apply match_at_spec in H as (w & rest & Hs & Hm).
      exists "", w, rest. rewrite Nat.add_0_r. auto.
    + split; [intros []; discriminate |].
      intros (before & w & rest & Hs & Hm).
      destruct before; [| discriminate]. str_norm.
      rewrite Nat.add_0_r in Hm.
      assert (H : is_Some (match_at i r false pos ""))
        by (apply match_at_spec; eauto).
      rewrite E in H. destruct H; discriminate.
  - destruct (match_at i r false pos (String x s)) as [e |] eqn:E.
    + split; [intros _ | eauto].
      assert (H : is_Some (match_at i r false pos (String x s)))
        by (rewrite E; eauto).
      apply match_at_spec in H as (w & rest & Hs & Hm).
      exists "", w, rest. rewrite Nat.add_0_r. auto.
    + rewrite IH. split.
      * intros (before & w & rest & -> & Hm).
        exists (String x before), w, rest. split; [reflexivity |].
        cbn [String.length]. rewrite Nat.add_succ_r. exact Hm.
      * intros (before & w & rest & Hs & Hm). destruct before as [| y before].
        -- exfalso. str_norm. rewrite Nat.add_0_r in Hm.
           assert (H : is_Some (match_at i r false pos (String x s)))
             by (apply match_at_spec; eauto).
           rewrite E in H. destruct H; discriminate.
        -- str_norm. injection Hs as -> ->. exists before, w, rest.
           split; [reflexivity |].
           cbn [String.length] in Hm. rewrite Nat.add_succ_r in Hm. exact Hm.
Qed.

Lemma search_spec i r s : is_Some (search i r s) <-> matches_in i r s.
Proof. unfold search, matches_in. apply search_from_spec. Qed.

End ReFacts.

Module ClassifierFacts.

Import Classifier.

Lemma first_match_spec patterns answer :
  first_match patterns answer = true <->
  exists pattern, In pattern patterns /\ matches_in true pattern answer.
Proof.
  induction patterns as [| p rest IH]; cbn [first_match].
  - split; [discriminate | intros (? & [] & _)].
  - destruct (Re.search true p answer) as [m |] eqn:E.
    + split; [intros _ | reflexivity].
      exists p. split; [left; reflexivity |].
      apply ReFacts.search_spec. rewrite E. eauto.
    + rewrite IH. split.
      * intros (q & Hq & Hm). exists q. split; [right; exact Hq | exact Hm].
      * intros (q & [<- | Hq] & Hm); [| eauto].
        apply ReFacts.search_spec in Hm. rewrite E in Hm.
        destruct Hm; discriminate.
Qed.

End ClassifierFacts.

(** ** Workflow nodes *)

(** Unfold the monadic plumbing of a node. *)
Ltac unfold_monad :=
  unfold mbind, M_bind, mret, M_ret, invoke_llm, web_search, vector_search,
    get_settings in *.

Module NodeFacts.

Import GraphState WorkflowNodes.

Lemma generate_web_answer_no_results state env :
  web_results state = [] ->
  generate_web_answer state env
  = (set_source_type "none" (set_answer no_information_answer state), []).
Proof.
  intros H. unfold generate_web_answer. rewrite H. reflexivity.
Qed.

Lemma no_results_frame state :
  same_but_answer_and_source_type state
    (set_source_type "none" (set_answer no_information_answer state)).
Proof. destruct state. repeat split. Qed.

End NodeFacts.

(** C4.  When [web_results] is empty, the node [generate_web_answer]
    returns at once with the fixed answer that no sufficient information
    was found in either the knowledge base or the web and with
    [source_type = "none"]; it calls no collaborator, so the language
    model is not invoked. *)
Theorem generate_web_answer_without_results
    (env : Env.t) (state : GraphState.t) :
  GraphState.web_results state = [] ->
  let '(state', calls) := WorkflowNodes.generate_web_answer state env in
  GraphState.answer state'
  = "I apologize, but I couldn't find sufficient information in either the knowledge base or the web to answer your question."
  /\ GraphState.source_type state' = "none"
  /\ calls = [].
Proof.
  intros H. rewrite (NodeFacts.generate_web_answer_no_results state env H).
  destruct state. repeat split.
Qed.

(** The node on the initial state of the sample question, whose
    [web_results] is empty. *)
Lemma generate_web_answer_without_results_witness :
  let '(state', calls) :=
    WorkflowNodes.generate_web_answer
      (GraphState.create_initial_state SampleEnv.the_question)
      SampleEnv.fallback_to_web in
  GraphState.answer state'
  = "I apologize, but I couldn't find sufficient information in either the knowledge base or the web to answer your question."
  /\ GraphState.source_type state' = "none"
  /\ calls = [].
Proof.
  apply (generate_web_answer_without_results SampleEnv.fallback_to_web
           (GraphState.create_initial_state SampleEnv.the_question)).
  reflexivity.
Defined.

(** ** Effect of each node on the fields the routing depends on *)

Module ExecFacts.

Import GraphState WorkflowNodes QAWorkflow.

Arguments Classifier._answer_indicates_insufficient_info : simpl never.
Arguments Citations.format_citations_pdf : simpl never.
Arguments Citations.format_citations_web : simpl never.
Arguments RAGRetriever.format_context : simpl never.
Arguments RAGRetriever.get_source_metadata : simpl never.
Arguments RAGRetriever.assess_relevance : simpl never.
Arguments AnswerGenerator._simple_reformulation : simpl never.
Arguments AnswerGenerator._format_web_results : simpl never.

Lemma apology_is_not_insufficient :
  Classifier._answer_indicates_insufficient_info
    "I apologize, but I encountered an error generating the answer." = false.
Proof. vm_compute. reflexivity. Qed.

(** Case analysis on every outcome a node inspects, then projection
    through the assignments. *)
Ltac node_cases state :=
  unfold exec, merge, node_function, retrieve_from_kb, generate_rag_answer,
    notify_user_fallback, search_web, generate_web_answer,
    format_final_output, RAGRetriever.retrieve_and_assess, RAGRetriever.retrieve,
    AnswerGenerator.generate_rag_answer, AnswerGenerator.generate_web_answer,
    AnswerGenerator.reformulate_query_for_web;
  unfold_monad;
  destruct state; cbn [question rag_context rag_sources web_results
                       metadata relevance_assessment];
  repeat (case_match;
          cbn [fst snd AnswerRecord.answer AnswerRecord.source_type
               AnswerRecord.citations AnswerRecord.sources] in *;
          rewrite ?apology_is_not_insufficient in * );
  simplify_eq; try reflexivity.

Lemma flag_preserved env node state :
  node <> Node.generate_rag_answer ->
  needs_web_fallback (exec env node state) = needs_web_fallback state.
Proof.
  intros Hnode. destruct node; try congruence; clear Hnode;
    node_cases state.
Qed.

Lemma kb_answer_insufficient env state :
  Classifier._answer_indicates_insufficient_info
    (AnswerRecord.answer (kb_answer env state)) = true ->
  AnswerRecord.citations (kb_answer env state)
  = Citations.format_citations_pdf (rag_sources state).
Proof.
  unfold kb_answer, AnswerGenerator.generate_rag_answer. unfold_monad.
  destruct (Env.llm_invoke env _) as [text | e]; cbn [fst AnswerRecord.answer
    AnswerRecord.citations]; [reflexivity |].
  rewrite apology_is_not_insufficient. discriminate.
Qed.

Lemma exec_generate_rag_answer env state :
  let state' := exec env Node.generate_rag_answer state in
  let fires :=
    Classifier._answer_indicates_insufficient_info (answer state') in
  answer state' = AnswerRecord.answer (kb_answer env state)
  /\ citations state' = AnswerRecord.citations (kb_answer env state)
  /\ source_type state' = "knowledge_base"
  /\ needs_web_fallback state' = fires || needs_web_fallback state
  /\ is_knowledge_base_sufficient state'
     = (if fires then false else is_knowledge_base_sufficient state)
  /\ rag_sources state' = rag_sources state
  /\ web_results state' = web_results state
  /\ web_sources state' = web_sources state.
Proof.
  unfold exec, merge, node_function, generate_rag_answer, kb_answer,
    AnswerGenerator.generate_rag_answer.
  unfold_monad.
  destruct (Env.llm_invoke env _) as [text | e];
    cbn [fst AnswerRecord.answer AnswerRecord.citations
         AnswerRecord.source_type].
  - destruct (Classifier._answer_indicates_insufficient_info text) eqn:E;
      destruct state; cbn; rewrite E; repeat split; reflexivity.
  - rewrite apology_is_not_insufficient.
    destruct state; cbn; rewrite apology_is_not_insufficient;
      repeat split; reflexivity.
Qed.

Lemma citations_preserved env node state :
  node = Node.notify_fallback \/ node = Node.search_web
  \/ node = Node.format_output
  \/ (node = Node.generate_web_answer /\ web_results state = []) ->
  citations (exec env node state) = citations state.
Proof.
  intros [-> | [-> | [-> | [-> H]]]]; node_cases state.
Qed.

Lemma rag_sources_preserved env node state :
  node <> Node.retrieve_kb ->
  rag_sources (exec env node state) = rag_sources state.
Proof.
  intros Hnode. destruct node; try congruence; clear Hnode;
    try apply (exec_generate_rag_answer env state); node_cases state.
Qed.

Lemma web_results_preserved env node state :
  node <> Node.search_web ->
  web_results (exec env node state) = web_results state.
Proof.
  intros Hnode. destruct node; try congruence; clear Hnode;
    try apply (exec_generate_rag_answer env state); node_cases state.
Qed.

Lemma web_sources_preserved env node state :
  node <> Node.generate_web_answer ->
  web_sources (exec env node state) = web_sources state.
Proof.
  intros Hnode. destruct node; try congruence; clear Hnode;
    try apply (exec_generate_rag_answer env state); node_cases state.
Qed.

Lemma format_output_keeps_answer env state :
  answer (exec env Node.format_output state) = answer state
  /\ source_type (exec env Node.format_output state) = source_type state.
Proof. split; node_cases state. Qed.

Lemma exec_generate_web_answer_no_results env state :
  web_results state = [] ->
  answer (exec env Node.generate_web_answer state) = no_information_answer
  /\ source_type (exec env Node.generate_web_answer state) = "none".
Proof.
  intros H. unfold exec, merge, node_function.
  rewrite (NodeFacts.generate_web_answer_no_results state env H).
  destruct state; split; reflexivity.
Qed.

Lemma format_final_output_metadata env state :
  let state' := fst (format_final_output state env) in
  metadata state' !! "confidence" = Some (assessment_confidence state)
  /\ metadata state' !! "num_sources"
     = Some (VInt (Z.of_nat (num_sources state))).
Proof.
  unfold format_final_output. unfold_monad. cbn [fst].
  destruct state; cbn. split.
  - rewrite lookup_insert_ne by discriminate. apply lookup_insert_eq.
  - apply lookup_insert_eq.
Qed.

Lemma exec_format_output_num_sources env state :
  metadata (exec env Node.format_output state) !! "num_sources"
  = Some (VInt (Z.of_nat (num_sources state))).
Proof.
  pose proof (format_final_output_metadata env state) as [_ H].
  unfold exec, merge, node_function.
  destruct (format_final_output state env) as [state' calls].
  cbn [fst] in *. destruct state'. exact H.
Qed.

Lemma exec_generate_web_answer_source_type env state :
  source_type (exec env Node.generate_web_answer state) = "none"
  \/ source_type (exec env Node.generate_web_answer state) = "web".
Proof.
  destruct (web_results state) as [| r rs] eqn:E.
  - left. apply exec_generate_web_answer_no_results. exact E.
  - right. unfold exec, merge, node_function, generate_web_answer,
      AnswerGenerator.generate_web_answer.
    rewrite E. unfold_monad.
    destruct (Env.llm_invoke env _); destruct state; reflexivity.
Qed.

End ExecFacts.

(** ** Runs of the graph *)

Module RunFacts.

Import GraphState QAWorkflow.

Lemma invoke_from_step fuel node state env :
  node <> Node.END ->
  fst (invoke_from (S fuel) node state env)
  = (let state' := exec env node state in
     let rest := fst (invoke_from fuel (next_node node state') state' env) in
     (mk_step node state state' :: fst rest, snd rest)).
Proof.
  intros Hnode. unfold exec.
  destruct node; try congruence; cbn [invoke_from]; unfold_monad;
    destruct (node_function _ state env) as [returned calls1]; cbn [fst];
    destruct (invoke_from fuel _ _ env) as [[steps final] calls2];
    reflexivity.
Qed.

Lemma invoke_from_END fuel state env :
  fst (invoke_from fuel Node.END state env) = ([], Some state).
Proof. destruct fuel; reflexivity. Qed.

(** [invoke] follows one of the three paths and reaches [END]. *)
Lemma invoke_follows_path env question :
  fst (invoke (create_initial_state question) env)
  = (let '(steps, final) :=
       follow env (path_of env question) (create_initial_state question) in
     (steps, Some final)).
Proof.
  unfold invoke, max_steps, path_of.
  set (s0 := create_initial_state question).
  rewrite invoke_from_step by discriminate. cbv zeta.
  set (s1 := exec env Node.retrieve_kb s0).
  cbn [next_node]. unfold _route_after_retrieval.
  destruct (is_knowledge_base_sufficient s1) eqn:Hsuff.
  - rewrite invoke_from_step by discriminate. cbv zeta.
    set (s2 := exec env Node.generate_rag_answer s1).
    cbn [next_node]. unfold _route_after_rag_answer.
    destruct (needs_web_fallback s2) eqn:Hflag.
    + do 4 (rewrite invoke_from_step by discriminate; cbv zeta;
            cbn [next_node fst snd]).
      rewrite invoke_from_END. reflexivity.
    + rewrite invoke_from_step by discriminate. cbv zeta.
      cbn [next_node fst snd]. rewrite invoke_from_END. reflexivity.
  - do 4 (rewrite invoke_from_step by discriminate; cbv zeta;
          cbn [next_node fst snd]).
    rewrite invoke_from_END. reflexivity.
Qed.

Lemma run_trace_follows_path env question :
  run_trace env question
  = fst (follow env (path_of env question) (create_initial_state question)).
Proof.
  unfold run_trace. rewrite invoke_follows_path.
  destruct (follow env _ _). reflexivity.
Qed.

(** [run] returns the state in which the path ends. *)
Lemma run_follows_path env question :
  fst (run question env)
  = snd (follow env (path_of env question) (create_initial_state question)).
Proof.
  unfold run. unfold_monad.
  pose proof (invoke_follows_path env question) as H.
  destruct (invoke (create_initial_state question) env) as [[steps final] calls].
  cbn [fst] in H.
  destruct (follow env _ _) as [steps' final'].
  injection H as -> ->. reflexivity.
Qed.

(** The graph reaches [END]: [run] never returns its error state. *)
Lemma run_reaches_end env question :
  snd (fst (invoke (create_initial_state question) env))
  = Some (fst (run question env)).
Proof.
  rewrite run_follows_path, invoke_follows_path.
  destruct (follow env _ _). reflexivity.
Qed.

(** The shape of a run that ends with the flag set. *)
Lemma fallback_run env question :
  needs_web_fallback (fst (run question env)) = true ->
  let s1 := exec env Node.retrieve_kb (create_initial_state question) in
  let s2 := exec env Node.generate_rag_answer s1 in
  path_of env question = kb_then_web_path
  /\ Classifier._answer_indicates_insufficient_info (answer s2) = true
  /\ fst (run question env)
     = exec env Node.format_output
         (exec env Node.generate_web_answer
            (exec env Node.search_web (exec env Node.notify_fallback s2))).
Proof.
  rewrite run_follows_path. unfold path_of. cbv zeta.
  remember (create_initial_state question) as s0 eqn:E0.
  remember (exec env Node.retrieve_kb s0) as s1 eqn:E1.
  remember (exec env Node.generate_rag_answer s1) as s2 eqn:E2.
  assert (F1 : needs_web_fallback s1 = false).
  { subst s1. rewrite ExecFacts.flag_preserved by discriminate.
    subst s0. reflexivity. }
  destruct (ExecFacts.exec_generate_rag_answer env s1)
    as (_ & _ & _ & Hflag & _).
  rewrite <- E2 in Hflag. rewrite F1, orb_false_r in Hflag.
  destruct (is_knowledge_base_sufficient s1);
    [destruct (needs_web_fallback s2) eqn:F2 |];
    cbn [follow kb_path kb_then_web_path web_path fst snd];
    rewrite <- ?E1, <- ?E2; intros Hfinal.
  - repeat split. symmetry. exact Hflag.
  - rewrite ExecFacts.flag_preserved in Hfinal by discriminate. congruence.
  - rewrite !ExecFacts.flag_preserved in Hfinal by discriminate. congruence.
Qed.

(** When the final answer comes from the knowledge base, [num_sources] is
    the number of KB sources. *)
Lemma kb_run_counts_kb_sources env question :
  let final := fst (run question env) in
  source_type final = "knowledge_base" ->
  metadata final !! "num_sources"
  = Some (VInt (Z.of_nat (length (rag_sources final)))).
Proof.
  cbv zeta. rewrite run_follows_path. unfold path_of.
  remember (create_initial_state question) as s0 eqn:E0.
  remember (exec env Node.retrieve_kb s0) as s1 eqn:E1.
  remember (exec env Node.generate_rag_answer s1) as s2 eqn:E2.
  assert (Hweb : forall s, s = s0 \/ s = s1 \/ s = s2 -> web_sources s = []).
  { assert (H0 : web_sources s0 = []) by (subst s0; reflexivity).
    assert (H1 : web_sources s1 = [])
      by (subst s1; rewrite ExecFacts.web_sources_preserved by discriminate;
          exact H0).
    intros s [-> | [-> | ->]]; try assumption.
    rewrite E2, ExecFacts.web_sources_preserved by discriminate. exact H1. }
  destruct (is_knowledge_base_sufficient s1);
    [destruct (needs_web_fallback s2) |];
    cbn [follow kb_path kb_then_web_path web_path fst snd];
    rewrite <- ?E1, <- ?E2; intros Hst.
  - destruct (ExecFacts.format_output_keeps_answer env
                (exec env Node.generate_web_answer
                   (exec env Node.search_web
                      (exec env Node.notify_fallback s2)))) as [_ Hkeep].
    rewrite Hkeep in Hst.
    destruct (ExecFacts.exec_generate_web_answer_source_type env
                (exec env Node.search_web (exec env Node.notify_fallback s2)))
      as [H | H]; rewrite H in Hst; discriminate.
  - rewrite ExecFacts.exec_format_output_num_sources.
    rewrite ExecFacts.rag_sources_preserved by discriminate.
    unfold WorkflowNodes.num_sources.
    rewrite (Hweb s2) by auto.
    destruct (rag_sources s2); reflexivity.
  - destruct (ExecFacts.format_output_keeps_answer env
                (exec env Node.generate_web_answer
                   (exec env Node.search_web
                      (exec env Node.notify_fallback s1)))) as [_ Hkeep].
    rewrite Hkeep in Hst.
    destruct (ExecFacts.exec_generate_web_answer_source_type env
                (exec env Node.search_web (exec env Node.notify_fallback s1)))
      as [H | H]; rewrite H in Hst; discriminate.
Qed.

End RunFacts.

(** C1.  In every run the flag [needs_web_fallback] starts false and is
    changed by no node but [generate_rag_answer]; that node runs only
    after retrieval found the knowledge base sufficient, and it sets the
    flag exactly when the classifier fires on the answer text it has just
    generated, in which case it also sets [is_knowledge_base_sufficient]
    to false.  After [generate_rag_answer] the run goes to the web path
    ([notify_fallback]) exactly when the flag is true, and after
    [retrieve_kb] it goes to [generate_rag_answer] exactly when
    [is_knowledge_base_sufficient] is true.  The run always ends, and the
    flag is true at the end exactly when a KB answer step made the
    classifier fire. *)
Theorem needs_web_fallback_set_only_by_kb_answer
    (env : Env.t) (question : string) :
  let steps := run_trace env question in
  let final := fst (QAWorkflow.run question env) in
  let flag := GraphState.needs_web_fallback in
  let sufficient := GraphState.is_knowledge_base_sufficient in
  let node := QAWorkflow.step_node in
  let before := QAWorkflow.step_before in
  let after := QAWorkflow.step_after in
  flag (GraphState.create_initial_state question) = false
  /\ (forall st, In st steps -> after st = exec env (node st) (before st))
  /\ (forall (i : nat) st1 st2,
        steps !! i = Some st1 -> steps !! S i = Some st2 ->
        before st2 = after st1
        /\ node st2 = QAWorkflow.next_node (node st1) (after st1))
  /\ (forall st, In st steps -> node st <> Node.generate_rag_answer ->
        flag (after st) = flag (before st))
  /\ (forall st, In st steps -> node st = Node.generate_rag_answer ->
        flag (before st) = false
        /\ sufficient (before st) = true
        /\ GraphState.answer (after st)
           = AnswerRecord.answer (kb_answer env (before st))
        /\ flag (after st) = classifier_fires st
        /\ (classifier_fires st = true -> sufficient (after st) = false))
  /\ (forall (i : nat) st1 st2,
        steps !! i = Some st1 -> steps !! S i = Some st2 ->
        (node st1 = Node.generate_rag_answer ->
           (node st2 = Node.notify_fallback <-> flag (after st1) = true))
        /\ (node st1 = Node.retrieve_kb ->
              (node st2 = Node.generate_rag_answer
               <-> sufficient (after st1) = true))
        /\ (node st2 = Node.generate_rag_answer -> node st1 = Node.retrieve_kb)
        /\ (node st2 = Node.notify_fallback ->
              node st1 = Node.retrieve_kb
              \/ node st1 = Node.generate_rag_answer))
  /\ (forall (i : nat) st, steps !! i = Some st ->
        node st = Node.retrieve_kb \/ node st = Node.generate_rag_answer ->
        exists st', steps !! S i = Some st')
  /\ snd (fst (QAWorkflow.invoke (GraphState.create_initial_state question) env))
     = Some final
  /\ (flag final = true <->
      exists st, In st steps /\ node st = Node.generate_rag_answer
                 /\ classifier_fires st = true).
Proof.
  cbv zeta.
  rewrite RunFacts.run_reaches_end, RunFacts.run_trace_follows_path,
    RunFacts.run_follows_path.
  unfold path_of.
  remember (GraphState.create_initial_state question) as s0 eqn:E0.
  remember (exec env Node.retrieve_kb s0) as s1 eqn:E1.
  remember (exec env Node.generate_rag_answer s1) as s2 eqn:E2.
  assert (F0 : GraphState.needs_web_fallback s0 = false) by (subst s0; reflexivity).
  assert (F1 : GraphState.needs_web_fallback s1 = false)
    by (subst s1; rewrite ExecFacts.flag_preserved by discriminate; exact F0).
  destruct (ExecFacts.exec_generate_rag_answer env s1)
    as (Hanswer & _ & _ & Hflag & Hsuff & _).
  rewrite <- E2 in Hanswer, Hflag, Hsuff. rewrite F1, orb_false_r in Hflag.
  assert (Hkeep : forall n s, n <> Node.generate_rag_answer ->
            GraphState.needs_web_fallback (exec env n s)
            = GraphState.needs_web_fallback s)
    by (intros; apply ExecFacts.flag_preserved; assumption).
  destruct (GraphState.is_knowledge_base_sufficient s1) eqn:S1;
    [destruct (GraphState.needs_web_fallback s2) eqn:F2 |];
    cbn [follow kb_path kb_then_web_path web_path fst snd];
    rewrite <- ?E1, <- ?E2.
  all: split; [exact F0 |].
  all: split;
    [intros st Hin; repeat (destruct Hin as [<- | Hin]);
       try destruct Hin; cbn; congruence |].
  all: split;
    [intros i st1 st2 H1 H2;
     do 7 (try (destruct i as [| i]; cbn in H1, H2)); simplify_eq;
     cbn; unfold QAWorkflow._route_after_retrieval,
       QAWorkflow._route_after_rag_answer;
     rewrite ?S1, ?F2; split; reflexivity |].
  all: split;
    [intros st Hin Hnode; repeat (destruct Hin as [<- | Hin]);
       try destruct Hin; cbn in *; try congruence;
       apply Hkeep; discriminate |].
  all: split;
    [intros st Hin Hnode; repeat (destruct Hin as [<- | Hin]);
       try destruct Hin; cbn in Hnode; try discriminate;
       unfold classifier_fires; cbn;
       rewrite ?F2 in *; rewrite <- ?Hflag in *;
       repeat split; try assumption; try reflexivity; try discriminate;
       intros _; exact Hsuff |].
  all: split;
    [intros i st1 st2 H1 H2;
     do 7 (try (destruct i as [| i]; cbn in H1, H2)); simplify_eq;
     cbn; rewrite ?S1, ?F2;
     repeat split; intros; try discriminate; try reflexivity; auto |].
  all: split;
    [intros i st H Hnode;
     do 7 (try (destruct i as [| i]; cbn in H)); simplify_eq;
     cbn in Hnode; destruct Hnode; try discriminate;
     eexists; reflexivity |].
  all: split; [reflexivity |].
  all: rewrite ?Hkeep by discriminate; rewrite ?F2, ?F1.
  all: split;
    [intros Hfinal; try discriminate |
     intros (st & Hin & Hnode & Hfires);
     repeat (destruct Hin as [<- | Hin]); try destruct Hin;
     cbn in Hnode; try discriminate; try reflexivity;
     unfold classifier_fires in Hfires; cbn in Hfires; congruence].
  eexists. split; [right; left; reflexivity |]. split; [reflexivity |].
  unfold classifier_fires. cbn. symmetry. exact Hflag.
Qed.

(** In the run of the sample question with a KB answer that says the
    context is not enough, the KB answer step makes the classifier fire. *)
Lemma needs_web_fallback_set_only_by_kb_answer_witness :
  exists st,
    In st (run_trace SampleEnv.fallback_to_web SampleEnv.the_question)
    /\ QAWorkflow.step_node st = Node.generate_rag_answer
    /\ classifier_fires st = true.
Proof.
  pose proof (needs_web_fallback_set_only_by_kb_answer
                SampleEnv.fallback_to_web SampleEnv.the_question) as H.
  cbv zeta in H.
  destruct H as (_ & _ & _ & _ & _ & _ & _ & _ & Hiff).
  apply Hiff. vm_compute. reflexivity.
Defined.

(** C10 (as amended).  When [generate_web_answer] finds [web_results]
    empty, the node assigns [answer] and [source_type] and nothing else.
    In the state the graph holds after the step, every field but these
    two and [retrieved_documents] keeps its value, [citations] and
    [web_sources] among them; [retrieved_documents], whose key has the
    reducer [add], is the stored list followed by the list the node
    returned, which is the stored list again.  So a run that generated a
    KB answer, fell back because the classifier fired and then got no web
    result ends with [source_type = "none"] and with the citations of the
    KB answer. *)
Theorem zero_web_results_step_keeps_kb_citations :
  (forall env state,
     GraphState.web_results state = [] ->
     let returned := fst (WorkflowNodes.generate_web_answer state env) in
     let state' := exec env Node.generate_web_answer state in
     same_but_answer_and_source_type state returned
     /\ same_but_answer_source_type_and_documents state state'
     /\ GraphState.retrieved_documents state'
        = GraphState.retrieved_documents state
          ++ GraphState.retrieved_documents state
     /\ GraphState.answer state' = WorkflowNodes.no_information_answer
     /\ GraphState.source_type state' = "none")
  /\ (forall env question,
        let final := fst (QAWorkflow.run question env) in
        GraphState.needs_web_fallback final = true ->
        GraphState.web_results final = [] ->
        GraphState.source_type final = "none"
        /\ exists st,
             In st (run_trace env question)
             /\ QAWorkflow.step_node st = Node.generate_rag_answer
             /\ GraphState.source_type (QAWorkflow.step_after st)
                = "knowledge_base"
             /\ GraphState.citations (QAWorkflow.step_after st)
                = Citations.format_citations_pdf
                    (GraphState.rag_sources (QAWorkflow.step_before st))
             /\ GraphState.citations final
                = GraphState.citations (QAWorkflow.step_after st)).
Proof.
  split.
  - intros env state H. cbv zeta. unfold exec.
    cbn [QAWorkflow.node_function].
    rewrite (NodeFacts.generate_web_answer_no_results state env H). cbn [fst].
    split; [apply NodeFacts.no_results_frame |].
    destruct state. repeat split.
  - intros env question final Hflag Hweb. subst final.
    destruct (RunFacts.fallback_run env question Hflag)
      as (Hpath & Hfires & Hfinal).
    rewrite Hfinal in *. clear Hfinal.
    rewrite RunFacts.run_trace_follows_path, Hpath.
    set (s1 := exec env Node.retrieve_kb _) in *.
    set (s2 := exec env Node.generate_rag_answer s1) in *.
    set (s3 := exec env Node.notify_fallback s2) in *.
    set (s4 := exec env Node.search_web s3) in *.
    rewrite !ExecFacts.web_results_preserved in Hweb by discriminate.
    destruct (ExecFacts.exec_generate_web_answer_no_results env s4 Hweb)
      as [_ Hnone].
    destruct (ExecFacts.format_output_keeps_answer env
                (exec env Node.generate_web_answer s4)) as [_ Hkeep].
    split; [rewrite Hkeep; exact Hnone |].
    exists (QAWorkflow.mk_step Node.generate_rag_answer s1 s2).
    split; [cbn; right; left; reflexivity |].
    split; [reflexivity |].
    destruct (ExecFacts.exec_generate_rag_answer env s1)
      as (Hanswer & Hcit & Hst & _).
    fold s2 in Hanswer, Hcit, Hst.
    cbn [QAWorkflow.step_after QAWorkflow.step_before].
    split; [exact Hst |].
    split.
    + rewrite Hcit. apply ExecFacts.kb_answer_insufficient.
      rewrite <- Hanswer. exact Hfires.
    + rewrite ExecFacts.citations_preserved by auto.
      rewrite (ExecFacts.citations_preserved env Node.generate_web_answer s4)
        by (right; right; right; split; [reflexivity | exact Hweb]).
      unfold s4, s3. rewrite !ExecFacts.citations_preserved by auto.
      reflexivity.
Qed.

(** The run of the sample question when the KB answer is judged
    insufficient and the web search finds nothing. *)
Lemma zero_web_results_step_keeps_kb_citations_witness :
  let final :=
    fst (QAWorkflow.run SampleEnv.the_question SampleEnv.no_web_results) in
  GraphState.source_type final = "none"
  /\ exists st,
       In st (run_trace SampleEnv.no_web_results SampleEnv.the_question)
       /\ QAWorkflow.step_node st = Node.generate_rag_answer
       /\ GraphState.source_type (QAWorkflow.step_after st) = "knowledge_base"
       /\ GraphState.citations (QAWorkflow.step_after st)
          = Citations.format_citations_pdf
              (GraphState.rag_sources (QAWorkflow.step_before st))
       /\ GraphState.citations final
          = GraphState.citations (QAWorkflow.step_after st).
Proof.
  destruct zero_web_results_step_keeps_kb_citations as [_ Hrun].
  apply Hrun; vm_compute; reflexivity.
Defined.

(** C10, counterexample to the claim as stated.  In the run of the sample
    question when the KB answer is judged insufficient and the web search
    finds nothing, the step [generate_web_answer] starts with no web
    result and with 16 entries in [retrieved_documents], and the state
    the graph holds after it has 32: a field other than [answer] and
    [source_type] has changed. *)
Lemma zero_web_results_step_extends_retrieved_documents :
  exists st,
    In st (run_trace SampleEnv.no_web_results SampleEnv.the_question)
    /\ QAWorkflow.step_node st = Node.generate_web_answer
    /\ GraphState.web_results (QAWorkflow.step_before st) = []
    /\ length (GraphState.retrieved_documents (QAWorkflow.step_before st))
       = 16%nat
    /\ length (GraphState.retrieved_documents (QAWorkflow.step_after st))
       = 32%nat
    /\ GraphState.retrieved_documents (QAWorkflow.step_after st)
       <> GraphState.retrieved_documents (QAWorkflow.step_before st).
Proof.
  assert (Hpath : path_of SampleEnv.no_web_results SampleEnv.the_question
                  = kb_then_web_path) by (vm_compute; reflexivity).
  rewrite RunFacts.run_trace_follows_path, Hpath.
  pose (env := SampleEnv.no_web_results).
  pose (s1 := exec env Node.retrieve_kb
                (GraphState.create_initial_state SampleEnv.the_question)).
  pose (s2 := exec env Node.generate_rag_answer s1).
  pose (s3 := exec env Node.notify_fallback s2).
  pose (s4 := exec env Node.search_web s3).
  pose (s5 := exec env Node.generate_web_answer s4).
  exists (QAWorkflow.mk_step Node.generate_web_answer s4 s5).
  split; [cbn; do 4 right; left; reflexivity |].
  cbn [QAWorkflow.step_node QAWorkflow.step_before QAWorkflow.step_after].
  split; [reflexivity |].
  assert (Hbefore : length (GraphState.retrieved_documents s4) = 16%nat)
    by (vm_compute; reflexivity).
  assert (Hafter : length (GraphState.retrieved_documents s5) = 32%nat)
    by (vm_compute; reflexivity).
  split; [vm_compute; reflexivity |].
  split; [exact Hbefore |]. split; [exact Hafter |].
  intros E. apply (f_equal (@length Document.t)) in E.
  rewrite Hbefore, Hafter in E. discriminate.
Qed.

(** C5.  [format_final_output] stores in the metadata the confidence of
    the relevance assessment (0.0 when the assessment has none) and, as
    [num_sources], the length of [rag_sources] when that list is not
    empty and the length of [web_sources] otherwise.  In the run of the
    sample question where the KB answer is judged insufficient and the web
    search returns three results, the final answer has
    [source_type = "web"] and three web sources, and [num_sources] is 2,
    the number of KB sources. *)
Theorem format_final_output_counts_kb_sources_first :
  (forall env state,
     let state' := fst (WorkflowNodes.format_final_output state env) in
     GraphState.metadata state' !! "confidence"
     = Some (match GraphState.relevance_assessment state !! "confidence" with
             | Some confidence => confidence
             | None => VFloat 0
             end)
     /\ GraphState.metadata state' !! "num_sources"
        = Some (VInt (Z.of_nat
            (match GraphState.rag_sources state with
             | [] => length (GraphState.web_sources state)
             | _ :: _ => length (GraphState.rag_sources state)
             end))))
  /\ (let final :=
        fst (QAWorkflow.run SampleEnv.the_question SampleEnv.fallback_to_web) in
      GraphState.source_type final = "web"
      /\ length (GraphState.web_sources final) = 3%nat
      /\ length (GraphState.rag_sources final) = 2%nat
      /\ GraphState.metadata final !! "num_sources" = Some (VInt 2)).
Proof.
  split.
  - intros env state. apply ExecFacts.format_final_output_metadata.
  - vm_compute. repeat split.
Qed.

(** ** The two substitutions of the rule-based reformulation *)

Module SubFacts.

Import Re Rule.

Lemma drop_0 s : drop 0 s = s.
Proof. destruct s; reflexivity. Qed.

(** Where no match starts, [sub_from] copies the subject. *)
Lemma sub_from_no_match i r repl s :
  forall pos skip,
    (forall pos' s', (pos <= pos')%nat -> match_at i r false pos' s' = None) ->
    sub_from i r repl pos skip s = drop skip s.
Proof.
  induction s as [| x s IH]; intros pos skip Hnone.
  - destruct skip; cbn [sub_from drop]; [| reflexivity].
    rewrite Hnone by lia. reflexivity.
  - destruct skip as [| skip]; cbn [sub_from drop].
    + rewrite Hnone by lia. rewrite IH, drop_0; [reflexivity |].
      intros pos' s' Hle. apply Hnone. lia.
    + apply IH. intros pos' s' Hle. apply Hnone. lia.
Qed.

(** A literal word matches the prefix it spells. *)
Lemma run_lit {A} word :
  forall (k : nat -> string -> option A) pos s,
    run false (lit word) k pos s
    = match after_prefix word s with
      | Some rest => k (pos + String.length word)%nat rest
      | None => None
      end.
Proof.
  induction word as [| a word IH]; intros k pos s.
  - cbn. rewrite Nat.add_0_r. reflexivity.
  - destruct word as [| b word].
    + cbn [lit run after_prefix cls_match String.length].
      destruct s as [| x s]; [reflexivity |].
      destruct (Ascii.eqb x a); [| reflexivity].
      cbn [after_prefix]. rewrite Nat.add_1_r. reflexivity.
    + change (lit (String a (String b word)))
        with (RSeq (RCls (CLit a)) (lit (String b word))).
      cbn [run cls_match]. destruct s as [| x s]; [reflexivity |].
      change (after_prefix (String a (String b word)) (String x s))
        with (if Ascii.eqb x a then after_prefix (String b word) s else None).
      destruct (Ascii.eqb x a); [| reflexivity].
      rewrite IH. cbn [String.length].
      destruct (after_prefix (String b word) s); [| reflexivity].
      f_equal. lia.
Qed.

(** The greedy repetition takes every character of the class. *)
Lemma star_takes_all c pos s :
  star false c (fun e _ => Some e) pos s
  = Some (pos + span (cls_match false c) s)%nat.
Proof.
  revert pos. induction s as [| x s IH]; intros pos; cbn [star span].
  - rewrite Nat.add_0_r. reflexivity.
  - destruct (cls_match false c x).
    + rewrite IH. cbn [orelse]. f_equal. lia.
    + rewrite Nat.add_0_r. reflexivity.
Qed.

Lemma drop_span p s : drop (span p s) s = PyStr.lstrip p s.
Proof.
  induction s as [| x s IH]; [reflexivity |].
  cbn [span PyStr.lstrip]. destruct (p x); [exact IH | reflexivity].
Qed.

Lemma drop_after_prefix word s rest n :
  after_prefix word s = Some rest ->
  drop (String.length word + n) s = drop n rest.
Proof.
  revert s. induction word as [| a word IH]; intros s H.
  - cbn in H. injection H as ->. reflexivity.
  - destruct s as [| x s]; [discriminate |]. cbn [after_prefix] in H.
    destruct (Ascii.eqb x a); [| discriminate].
    cbn [String.length Nat.add drop]. apply IH. exact H.
Qed.

Lemma word_end_spec word s :
  match word_end word s with
  | Some e => e <> O /\ after_word word s = Some (drop e s)
  | None => after_word word s = None
  end.
Proof.
  unfold word_end, after_word. rewrite run_lit.
  destruct (after_prefix word s) as [rest |] eqn:E; [| reflexivity].
  cbn [run Nat.add]. destruct rest as [| c rest]; [reflexivity |].
  change (cls_match false CSpace c) with (PyStr.isspace c).
  destruct (PyStr.isspace c); [| reflexivity].
  rewrite star_takes_all. split; [lia |].
  change (cls_match false CSpace) with PyStr.isspace.
  replace (S (String.length word) + span PyStr.isspace rest)%nat
    with (String.length word + S (span PyStr.isspace rest))%nat by lia.
  rewrite (drop_after_prefix word s (String c rest) _ E).
  cbn [drop]. rewrite drop_span. reflexivity.
Qed.

Lemma first_word_end word words s :
  match run false (alt_of (lit word) (map lit words))
          (run false (RPlus CSpace) (fun e _ => Some e)) 0 s with
  | Some e => e <> O /\ after_first_word (word :: words) s = Some (drop e s)
  | None => after_first_word (word :: words) s = None
  end.
Proof.
  revert word. induction words as [| w words IH]; intros word.
  - cbn [map alt_of after_first_word].
    pose proof (word_end_spec word s) as H. unfold word_end in H.
    destruct (run false (lit word) _ 0 s) as [e |].
    + destruct H as [He ->]. auto.
    + rewrite H. reflexivity.
  - cbn [map alt_of run after_first_word].
    pose proof (word_end_spec word s) as H. unfold word_end in H.
    destruct (run false (lit word) _ 0 s) as [e |]; cbn [orelse].
    + destruct H as [He ->]. auto.
    + rewrite H. apply IH.
Qed.

Lemma leading_interrogative_only_at_start pos s :
  (1 <= pos)%nat ->
  match_at false AnswerGenerator.leading_interrogative false pos s = None.
Proof.
  intros Hpos. unfold match_at, AnswerGenerator.leading_interrogative.
  cbn [seq_of run]. destruct pos; [lia | reflexivity].
Qed.

(** The first substitution removes the interrogative word. *)
Lemma sub_leading_interrogative s :
  sub false AnswerGenerator.leading_interrogative "" s
  = without_interrogative s.
Proof.
  unfold sub, without_interrogative, interrogatives.
  pose proof (first_word_end "what"
                ["how"; "when"; "where"; "why"; "who"; "which"; "can you";
                 "please"] s) as H.
  assert (Hm : match_at false AnswerGenerator.leading_interrogative false 0 s
               = run false
                   (alt_of (lit "what")
                      (map lit ["how"; "when"; "where"; "why"; "who";
                                "which"; "can you"; "please"]))
                   (run false (RPlus CSpace) (fun e _ => Some e)) 0 s)
    by reflexivity.
  assert (Hrest : forall skip s',
            sub_from false AnswerGenerator.leading_interrogative "" 1 skip s'
            = drop skip s').
  { intros skip s'. apply sub_from_no_match. intros pos' s'' Hle.
    apply leading_interrogative_only_at_start. exact Hle. }
  destruct s as [| x s].
  - cbn [sub_from]. rewrite Hm.
    destruct (run false _ _ 0 "") as [e |].
    + destruct H as [He ->]. destruct e; [congruence |]. reflexivity.
    + rewrite H. reflexivity.
  - cbn [sub_from]. rewrite Hm.
    destruct (run false _ _ 0 (String x s)) as [e |].
    + destruct H as [He ->]. destruct e as [| e]; [congruence |].
      change (S e =? 0)%nat with false. change (S e - 0)%nat with (S e).
      cbv beta iota. str_norm. rewrite Hrest. reflexivity.
    + rewrite H, Hrest, drop_0. reflexivity.
Qed.

Lemma without_question_mark_at_end s :
  at_end s = true -> without_question_mark s = s.
Proof.
  destruct s as [| c [| d s]]; try discriminate; [reflexivity |].
  intros H. cbn in H. apply Ascii.eqb_eq in H. subst c. reflexivity.
Qed.

Lemma match_trailing_question_mark pos x s :
  match_at false AnswerGenerator.trailing_question_mark false pos (String x s)
  = if Ascii.eqb x "?" && at_end s then Some (S pos) else None.
Proof.
  unfold match_at, AnswerGenerator.trailing_question_mark.
  cbn [lit run cls_match]. destruct (Ascii.eqb x "?"); [| reflexivity].
  cbn [andb]. destruct (at_end s); [| reflexivity].
  cbn [andb]. reflexivity.
Qed.

(** The second substitution removes the final question mark. *)
Lemma sub_trailing_question_mark s :
  sub false AnswerGenerator.trailing_question_mark "" s
  = without_question_mark s.
Proof.
  unfold sub.
  enough (H : forall pos,
            sub_from false AnswerGenerator.trailing_question_mark "" pos 0 s
            = without_question_mark s) by apply H.
  induction s as [| x s IH]; intros pos; [reflexivity |].
  cbn [sub_from without_question_mark].
  rewrite match_trailing_question_mark.
  destruct (Ascii.eqb x "?" && at_end s) eqn:E.
  - replace (S pos =? pos)%nat with false by (symmetry; apply Nat.eqb_neq; lia).
    replace (S pos - pos)%nat with 1%nat by lia.
    str_norm. rewrite IH. apply without_question_mark_at_end.
    apply andb_true_iff in E as [_ E]. exact E.
  - rewrite IH. reflexivity.
Qed.

(** The rule-based reformulation is the one the words describe. *)
Lemma simple_reformulation_in_words question :
  AnswerGenerator._simple_reformulation question = reformulation question.
Proof.
  unfold AnswerGenerator._simple_reformulation, reformulation.
  rewrite sub_leading_interrogative, sub_trailing_question_mark. reflexivity.
Qed.

End SubFacts.

(** ** Query reformulation *)

Module ReformulationFacts.

Import AnswerGenerator.

Lemma reformulate_accepts question env content :
  Env.llm_invoke env (ReformulationPrompt question) = Ok content ->
  too_short_or_broken (clean_reply content) = false ->
  fst (reformulate_query_for_web question env) = clean_reply content.
Proof.
  intros Hllm Hok. unfold reformulate_query_for_web. unfold_monad.
  rewrite Hllm, Hok. reflexivity.
Qed.

Lemma reformulate_rejects question env content :
  Env.llm_invoke env (ReformulationPrompt question) = Ok content ->
  too_short_or_broken (clean_reply content) = true ->
  fst (reformulate_query_for_web question env)
  = _simple_reformulation question.
Proof.
  intros Hllm Hbad. unfold reformulate_query_for_web. unfold_monad.
  rewrite Hllm, Hbad. reflexivity.
Qed.

Lemma reformulate_failure question env e :
  Env.llm_invoke env (ReformulationPrompt question) = Raise e ->
  fst (reformulate_query_for_web question env)
  = _simple_reformulation question.
Proof.
  intros Hllm. unfold reformulate_query_for_web. unfold_monad.
  rewrite Hllm. reflexivity.
Qed.

Lemma too_short_or_broken_false reply :
  too_short_or_broken reply = false <->
  (3 <= String.length reply)%nat
  /\ PyStr.isalnum (PyStr.remove_char space reply) = true.
Proof.
  unfold too_short_or_broken.
  rewrite orb_false_iff, negb_false_iff, Nat.ltb_ge. reflexivity.
Qed.

End ReformulationFacts.

(** ** Binary64 rounding *)

Module Binary64Facts.

Import Binary64.
Local Open Scope Q_scope.

Lemma rne_floor x :
  (Qfloor x <= rne x <= Qfloor x + 1)%Z.
Proof.
  unfold rne. destruct (Qcompare _ _); [destruct (Z.even _) | |]; lia.
Qed.

(** Rounding to the nearest integer is monotone. *)
Lemma rne_le x y : x <= y -> (rne x <= rne y)%Z.
Proof.
  intros Hxy.
  pose proof (Qfloor_resp_le x y Hxy) as Hf.
  pose proof (rne_floor x) as Hx. pose proof (rne_floor y) as Hy.
  destruct (Z.eq_dec (Qfloor x) (Qfloor y)) as [E | N]; [| lia].
  unfold rne in *. rewrite <- E in *.
  destruct (Qcompare_spec (x - inject_Z (Qfloor x)) (1 # 2)) as [Ex | Lx | Gx];
    destruct (Qcompare_spec (y - inject_Z (Qfloor x)) (1 # 2)) as [Ey | Ly | Gy];
    try destruct (Z.even (Qfloor x)); try lia; lra.
Qed.

Lemma rne_Z z : rne (inject_Z z) = z.
Proof.
  unfold rne. rewrite Qfloor_Z.
  destruct (Qcompare_spec (inject_Z z - inject_Z z) (1 # 2)); [lra | reflexivity | lra].
Qed.

Lemma rne_ge z x : inject_Z z <= x -> (z <= rne x)%Z.
Proof. intros H. rewrite <- (rne_Z z). apply rne_le, H. Qed.

Lemma rne_le_Z z x : x <= inject_Z z -> (rne x <= z)%Z.
Proof. intros H. rewrite <- (rne_Z z). apply rne_le, H. Qed.

(** Powers of two. *)
Lemma pow2_pos e : 0 < 2 ^ e.
Proof. apply Qpower_0_lt. reflexivity. Qed.

Lemma pow2_le a b : (a <= b)%Z -> 2 ^ a <= 2 ^ b.
Proof. intros H. apply Qpower_le_compat_l; [exact H | discriminate]. Qed.

Lemma pow2_lt a b : (a < b)%Z -> 2 ^ a < 2 ^ b.
Proof. intros H. apply Qpower_lt_compat_l; [exact H | reflexivity]. Qed.

Lemma pow2_add a b : 2 ^ (a + b) == 2 ^ a * 2 ^ b.
Proof. apply Qpower_plus. discriminate. Qed.

Lemma pow2_Z n : (0 <= n)%Z -> inject_Z (2 ^ n) == 2 ^ n.
Proof. intros H. apply (Zpower_Qpower 2 n H). Qed.

Lemma pow2_succ a : 2 ^ (a + 1) == 2 * 2 ^ a.
Proof. rewrite pow2_add. change (2 ^ 1) with 2. ring. Qed.

(** [ilog2 x] is the exponent of the power of two at or below [x]. *)
Lemma ilog2_spec x :
  0 < x -> 2 ^ ilog2 x <= x /\ x < 2 ^ (ilog2 x + 1).
Proof.
  intros Hx. destruct x as [n d].
  assert (Hn : (0 < n)%Z) by (unfold Qlt in Hx; cbn in Hx; lia).
  pose proof (Z.log2_spec n Hn) as [Hn1 Hn2].
  pose proof (Z.log2_spec (Z.pos d) (Pos2Z.is_pos d)) as [Hd1 Hd2].
  pose proof (Z.log2_nonneg n) as Ha. pose proof (Z.log2_nonneg (Z.pos d)) as Hb.
  set (a := Z.log2 n) in *. set (b := Z.log2 (Z.pos d)) in *.
  rewrite Zle_Qle, pow2_Z in Hn1, Hd1 by lia.
  rewrite Zlt_Qlt in Hn2, Hd2.
  rewrite <- Z.add_1_r, pow2_Z in Hn2, Hd2 by lia.
  assert (Hdpos : 0 < inject_Z (Z.pos d)) by reflexivity.
  assert (Hlow : 2 ^ (a - b - 1) <= n # d).
  { rewrite (Qmake_Qdiv n d). apply Qle_shift_div_l; [exact Hdpos |].
    apply Qle_trans with (2 ^ (a - b - 1) * 2 ^ (b + 1)).
    - apply Qmult_le_l; [apply pow2_pos | apply Qlt_le_weak, Hd2].
    - rewrite <- pow2_add. replace (a - b - 1 + (b + 1))%Z with a by lia.
      exact Hn1. }
  assert (Hhigh : n # d < 2 ^ (a - b + 1)).
  { rewrite (Qmake_Qdiv n d). apply Qlt_shift_div_r; [exact Hdpos |].
    apply Qlt_le_trans with (2 ^ (a + 1)); [exact Hn2 |].
    replace (a + 1)%Z with (a - b + 1 + b)%Z by lia. rewrite pow2_add.
    apply Qmult_le_l; [apply pow2_pos | exact Hd1]. }
  unfold ilog2. cbn [Qnum Qden]. fold a b.
  destruct (Qle_bool (2 ^ (a - b)) (n # d)) eqn:E.
  - apply Qle_bool_iff in E. split; [exact E | exact Hhigh].
  - split; [exact Hlow |].
    replace (a - b - 1 + 1)%Z with (a - b)%Z by lia.
    apply Qnot_le_lt. intros H. apply Qle_bool_iff in H. congruence.
Qed.

Lemma ilog2_le x y : 0 < x -> x <= y -> (ilog2 x <= ilog2 y)%Z.
Proof.
  intros Hx Hxy.
  destruct (ilog2_spec x Hx) as [Hx1 _].
  destruct (ilog2_spec y) as [_ Hy2]; [lra |].
  destruct (Z_le_gt_dec (ilog2 x) (ilog2 y)) as [H | H]; [exact H |].
  exfalso. pose proof (pow2_le (ilog2 y + 1) (ilog2 x) ltac:(lia)). lra.
Qed.

Lemma ulp_exponent_le x y :
  0 < x -> x <= y -> (ulp_exponent x <= ulp_exponent y)%Z.
Proof.
  intros Hx Hxy. unfold ulp_exponent.
  pose proof (ilog2_le x y Hx Hxy). lia.
Qed.

(** [x] scaled to its last place is below [2^53]. *)
Lemma scaled_lt x :
  0 < x -> x / 2 ^ ulp_exponent x < 2 ^ prec.
Proof.
  intros Hx. destruct (ilog2_spec x Hx) as [_ Hhigh].
  apply Qlt_shift_div_r; [apply pow2_pos |].
  rewrite <- pow2_add. eapply Qlt_le_trans; [exact Hhigh |].
  apply pow2_le. unfold ulp_exponent, prec. lia.
Qed.

Lemma nearest_nonneg x : 0 < x -> 0 <= nearest x.
Proof.
  intros Hx. unfold nearest.
  apply Qmult_le_0_compat; [| apply Qlt_le_weak, pow2_pos].
  change 0 with (inject_Z 0). rewrite <- Zle_Qle. apply rne_ge.
  apply Qle_shift_div_l; [apply pow2_pos |].
  change (inject_Z 0) with 0. rewrite Qmult_0_l. lra.
Qed.

(** Above the subnormal range [x] scaled to its last place is at least
    [2^52]. *)
Lemma scaled_ge x :
  0 < x -> (emin < ulp_exponent x)%Z -> 2 ^ (prec - 1) <= x / 2 ^ ulp_exponent x.
Proof.
  intros Hx He. destruct (ilog2_spec x Hx) as [Hlow _].
  apply Qle_shift_div_l; [apply pow2_pos |].
  rewrite <- pow2_add. eapply Qle_trans; [| exact Hlow].
  apply pow2_le. unfold ulp_exponent in *. lia.
Qed.

(** Rounding to the last place is monotone. *)
Lemma nearest_le x y : 0 < x -> x <= y -> nearest x <= nearest y.
Proof.
  intros Hx Hxy. assert (Hy : 0 < y) by lra.
  pose proof (ulp_exponent_le x y Hx Hxy) as He.
  unfold nearest.
  destruct (Z.eq_dec (ulp_exponent x) (ulp_exponent y)) as [E | N].
  - rewrite E. apply Qmult_le_compat_r; [| apply Qlt_le_weak, pow2_pos].
    rewrite <- Zle_Qle. apply rne_le.
    apply Qmult_le_compat_r; [exact Hxy |].
    apply Qlt_le_weak, Qinv_lt_0_compat, pow2_pos.
  - set (ex := ulp_exponent x) in *. set (ey := ulp_exponent y) in *.
    apply Qle_trans with (2 ^ prec * 2 ^ ex).
    + apply Qmult_le_compat_r; [| apply Qlt_le_weak, pow2_pos].
      rewrite <- (pow2_Z prec) by (unfold prec; lia).
      rewrite <- Zle_Qle. apply rne_le_Z.
      rewrite pow2_Z by (unfold prec; lia).
      apply Qlt_le_weak, scaled_lt, Hx.
    + apply Qle_trans with (2 ^ (prec - 1) * 2 ^ ey).
      * rewrite <- !pow2_add. apply pow2_le. lia.
      * apply Qmult_le_compat_r; [| apply Qlt_le_weak, pow2_pos].
        rewrite <- (pow2_Z (prec - 1)) by (unfold prec; lia).
        rewrite <- Zle_Qle. apply rne_ge.
        rewrite pow2_Z by (unfold prec; lia).
        apply scaled_ge; [exact Hy |]. unfold ey, ulp_exponent in *. lia.
Qed.

Lemma rne_proper x y : x == y -> rne x = rne y.
Proof.
  intros H. unfold rne. rewrite (Qfloor_comp x y H).
  replace (Qcompare (x - inject_Z (Qfloor y)) (1 # 2))
    with (Qcompare (y - inject_Z (Qfloor y)) (1 # 2)); [reflexivity |].
  apply Qcompare_comp; [| reflexivity]. rewrite H. reflexivity.
Qed.

Lemma ilog2_unique k y : 2 ^ k <= y -> y < 2 ^ (k + 1) -> ilog2 y = k.
Proof.
  intros Hlow Hhigh.
  assert (Hy : 0 < y) by (pose proof (pow2_pos k); lra).
  destruct (ilog2_spec y Hy) as [Hl Hh].
  destruct (Z.lt_trichotomy (ilog2 y) k) as [H | [H | H]]; [| exact H |].
  - pose proof (pow2_le (ilog2 y + 1) k ltac:(lia)). lra.
  - pose proof (pow2_le (k + 1) (ilog2 y) ltac:(lia)). lra.
Qed.

Lemma ilog2_lt k y : 0 < y -> y < 2 ^ k -> (ilog2 y < k)%Z.
Proof.
  intros Hy Hk. destruct (ilog2_spec y Hy) as [Hl _].
  destruct (Z_lt_le_dec (ilog2 y) k) as [H | H]; [exact H |].
  pose proof (pow2_le k (ilog2 y) H). lra.
Qed.

(** A multiple of a last place with a significand of at most 53 bits is
    not changed by rounding. *)
Lemma nearest_multiple m e :
  (emin <= e)%Z -> (0 < m <= 2 ^ prec)%Z ->
  ((2 ^ (prec - 1) <= m)%Z \/ e = emin) ->
  nearest (inject_Z m * 2 ^ e) == inject_Z m * 2 ^ e.
Proof.
  intros He [Hm0 Hm] Hnorm.
  set (y := inject_Z m * 2 ^ e).
  assert (Hpos : 0 < 2 ^ e) by apply pow2_pos.
  assert (Hm0' : 0 < inject_Z m) by (change 0 with (inject_Z 0); rewrite <- Zlt_Qlt; exact Hm0).
  assert (Hy : 0 < y) by (apply Qmult_lt_0_compat; assumption).
  destruct (Z.eq_dec m (2 ^ prec)%Z) as [Etop | Ntop].
  - (* the significand is [2^53]: the number is a power of two *)
    assert (Ey : y == 2 ^ (prec + e)).
    { unfold y. rewrite Etop, pow2_Z by (unfold prec; lia).
      rewrite pow2_add. reflexivity. }
    assert (El : ilog2 y = (prec + e)%Z).
    { apply ilog2_unique; rewrite Ey; [lra | apply pow2_lt; lia]. }
    unfold nearest, ulp_exponent. rewrite El.
    replace (Z.max (prec + e - (prec - 1)) emin) with (e + 1)%Z by lia.
    rewrite (rne_proper _ (inject_Z (2 ^ (prec - 1)))).
    + rewrite rne_Z, Ey, pow2_Z by (unfold prec; lia).
      rewrite <- pow2_add.
      replace (prec - 1 + (e + 1))%Z with (prec + e)%Z by lia. reflexivity.
    + rewrite Ey, pow2_Z by (unfold prec; lia).
      replace (prec + e)%Z with (prec - 1 + (e + 1))%Z by lia.
      rewrite pow2_add. field. pose proof (pow2_pos (e + 1)). lra.
  - assert (Hlt : (m < 2 ^ prec)%Z) by lia.
    assert (Hyhigh : y < 2 ^ (prec + e)).
    { unfold y. rewrite pow2_add.
      apply Qmult_lt_compat_r; [exact Hpos |].
      rewrite <- pow2_Z by (unfold prec; lia). rewrite <- Zlt_Qlt. exact Hlt. }
    assert (Eexp : ulp_exponent y = e).
    { unfold ulp_exponent. destruct Hnorm as [Hnorm | ->].
      - assert (El : ilog2 y = (prec - 1 + e)%Z).
        { apply ilog2_unique.
          - unfold y. rewrite pow2_add.
            apply Qmult_le_compat_r; [| lra].
            rewrite <- pow2_Z by (unfold prec; lia). rewrite <- Zle_Qle.
            exact Hnorm.
          - replace (prec - 1 + e + 1)%Z with (prec + e)%Z by lia.
            exact Hyhigh. }
        rewrite El. lia.
      - pose proof (ilog2_lt (prec + emin) y Hy Hyhigh). lia. }
    unfold nearest. rewrite Eexp.
    rewrite (rne_proper _ (inject_Z m)).
    + rewrite rne_Z. reflexivity.
    + unfold y. field. lra.
Qed.

(** The rounded value of a positive number, as a value or an overflow. *)
Lemma round_pos_cases negative x :
  0 < x ->
  (round_pos negative x = Inf negative /\ overflow_threshold <= nearest x)
  \/ (exists a, round_pos negative x = Finite a
      /\ a == (if negative then - nearest x else nearest x)
      /\ nearest x < overflow_threshold).
Proof.
  intros Hx. unfold round_pos.
  destruct (Qle_bool overflow_threshold (nearest x)) eqn:E.
  - left. apply Qle_bool_iff in E. split; [reflexivity | exact E].
  - right. eexists. split; [reflexivity |]. split; [apply Qred_correct |].
    apply Qnot_le_lt. intros H. apply Qle_bool_iff in H. congruence.
Qed.

Lemma round_0 x : x == 0 -> round x = Finite 0.
Proof.
  intros H. unfold round.
  destruct (Qcompare_spec x 0); [reflexivity | lra | lra].
Qed.

Lemma round_gt x : 0 < x -> round x = round_pos false x.
Proof.
  intros H. unfold round.
  destruct (Qcompare_spec x 0); [lra | lra | reflexivity].
Qed.

Lemma round_lt x : x < 0 -> round x = round_pos true (- x).
Proof.
  intros H. unfold round.
  destruct (Qcompare_spec x 0); [lra | reflexivity | lra].
Qed.

Lemma le_Finite a b : le (Finite a) (Finite b) <-> a <= b.
Proof. unfold le, leb. apply Qle_bool_iff. Qed.


Lemma ilog2_proper x y : 0 < x -> x == y -> ilog2 x = ilog2 y.
Proof.
  intros Hx E. destruct (ilog2_spec x Hx) as [Hl Hh].
  symmetry. apply ilog2_unique; rewrite <- E; assumption.
Qed.

Lemma nearest_proper x y : 0 < x -> x == y -> nearest x == nearest y.
Proof.
  intros Hx E. unfold nearest, ulp_exponent.
  rewrite <- (ilog2_proper x y Hx E).
  set (e := Z.max (ilog2 x - (prec - 1)) emin).
  assert (Hs : y / 2 ^ e == x / 2 ^ e).
  { apply Qmult_comp; [symmetry; exact E | reflexivity]. }
  rewrite (rne_proper _ _ Hs). reflexivity.
Qed.

(** The significand of a rounded number. *)
Lemma significand_bounds x :
  0 < x ->
  let m := rne (x / 2 ^ ulp_exponent x) in
  (0 <= m <= 2 ^ prec)%Z
  /\ ((2 ^ (prec - 1) <= m)%Z \/ ulp_exponent x = emin).
Proof.
  intros Hx m. split; [split |].
  - apply rne_ge. apply Qle_shift_div_l; [apply pow2_pos |].
    change (inject_Z 0) with 0. rewrite Qmult_0_l. lra.
  - apply rne_le_Z. rewrite pow2_Z by (unfold prec; lia).
    apply Qlt_le_weak, scaled_lt, Hx.
  - destruct (Z.eq_dec (ulp_exponent x) emin) as [E | N]; [right; exact E |].
    left. apply rne_ge. rewrite pow2_Z by (unfold prec; lia).
    apply scaled_ge; [exact Hx |]. unfold ulp_exponent in *. lia.
Qed.

Lemma ulp_exponent_ge x : (emin <= ulp_exponent x)%Z.
Proof. unfold ulp_exponent. lia. Qed.

(** What rounding returns is not changed by rounding again. *)
Lemma nearest_idem x :
  0 < x -> nearest x == 0 \/ (0 < nearest x /\ nearest (nearest x) == nearest x).
Proof.
  intros Hx. destruct (significand_bounds x Hx) as [[Hm0 Hm] Hnorm].
  cbv zeta in *. unfold nearest at 1 2 4 5.
  remember (rne (x / 2 ^ ulp_exponent x)) as m eqn:Em.
  destruct (Z.eq_dec m 0%Z) as [-> | N].
  - left. change (inject_Z 0) with 0. ring.
  - right.
    assert (Hfix := nearest_multiple m (ulp_exponent x) (ulp_exponent_ge x)
                      ltac:(lia) Hnorm).
    split.
    + apply Qmult_lt_0_compat; [| apply pow2_pos].
      change 0 with (inject_Z 0). rewrite <- Zlt_Qlt. lia.
    + exact Hfix.
Qed.

Lemma Qred_idem q : Qred (Qred q) = Qred q.
Proof. apply Qred_complete, Qred_correct. Qed.

Lemma Qred_zero q : q == 0 -> Qred q = 0.
Proof. intros H. rewrite (Qred_complete q 0 H). reflexivity. Qed.

Lemma round_pos_idem negative x :
  0 < x ->
  forall a, round_pos negative x = Finite a -> round a = Finite a.
Proof.
  intros Hx a Ha. unfold round_pos in Ha.
  destruct (Qle_bool overflow_threshold (nearest x)) eqn:Eover; [discriminate |].
  injection Ha as <-.
  assert (Hlt : nearest x < overflow_threshold).
  { apply Qnot_le_lt. intros H. apply Qle_bool_iff in H. congruence. }
  destruct (nearest_idem x Hx) as [Hzero | [Hpos Hfix]].
  - rewrite Qred_zero by (destruct negative; lra). reflexivity.
  - destruct negative.
    + assert (Hneg : Qred (- nearest x) < 0) by (rewrite Qred_correct; lra).
      rewrite (round_lt _ Hneg). unfold round_pos.
      assert (E : nearest (- Qred (- nearest x)) == nearest x).
      { rewrite <- Hfix at 2. apply nearest_proper.
        - rewrite Qred_correct. lra.
        - rewrite Qred_correct. ring. }
      replace (Qle_bool overflow_threshold (nearest (- Qred (- nearest x))))
        with false.
      * f_equal. apply Qred_complete. rewrite E. reflexivity.
      * symmetry. apply not_true_is_false. intros H.
        apply Qle_bool_iff in H. lra.
    + assert (Hgt : 0 < Qred (nearest x)) by (rewrite Qred_correct; lra).
      rewrite (round_gt _ Hgt). unfold round_pos.
      assert (E : nearest (Qred (nearest x)) == nearest x).
      { rewrite <- Hfix at 2. apply nearest_proper; [exact Hgt |].
        apply Qred_correct. }
      replace (Qle_bool overflow_threshold (nearest (Qred (nearest x))))
        with false.
      * f_equal. apply Qred_complete. exact E.
      * symmetry. apply not_true_is_false. intros H.
        apply Qle_bool_iff in H. lra.
Qed.

(** The result of a rounding is a binary64 number. *)
Lemma round_is_binary64 x a : round x = Finite a -> is_binary64 a.
Proof.
  unfold is_binary64, round at 1.
  destruct (Qcompare_spec x 0) as [E | L | G].
  - intros [= <-]. reflexivity.
  - apply round_pos_idem. lra.
  - apply round_pos_idem. exact G.
Qed.

Lemma round_valid x : valid (round x).
Proof.
  unfold valid. destruct (round x) eqn:E; [| exact I | exact I].
  eapply round_is_binary64, E.
Qed.

Lemma max_finite_eq : max_finite == inject_Z (2 ^ prec - 1) * 2 ^ 971.
Proof. vm_compute. reflexivity. Qed.

(** A binary64 number is at most the largest finite number. *)
Lemma is_binary64_le_max q : is_binary64 q -> q <= max_finite.
Proof.
  intros Hq. destruct (Qlt_le_dec 0 q) as [Hpos | Hneg];
    [| apply Qle_trans with 0; [exact Hneg | vm_compute; discriminate]].
  unfold is_binary64 in Hq. rewrite (round_gt q Hpos) in Hq.
  destruct (round_pos_cases false q Hpos) as [[E _] | (a & E & Ha & Hlt)];
    [congruence |].
  rewrite E in Hq. injection Hq as ->.
  destruct (significand_bounds q Hpos) as [[Hm0 Hm] _]. cbv zeta in *.
  destruct (ilog2_spec q Hpos) as [Hl Hh].
  unfold nearest in Ha, Hlt.
  set (e := ulp_exponent q) in *. set (m := rne (q / 2 ^ e)) in *.
  assert (He : (ilog2 q - (prec - 1) <= e)%Z) by (unfold e, ulp_exponent; lia).
  assert (Hm' : (m <= 2 ^ prec - 1)%Z).
  { destruct (Z.eq_dec m (2 ^ prec)%Z) as [Etop | N]; [exfalso | lia].
    rewrite Etop, pow2_Z, <- pow2_add in Ha by (unfold prec; lia).
    pose proof (pow2_le (ilog2 q + 1) (prec + e) ltac:(lia)). lra. }
  assert (He' : (e <= 971)%Z).
  { assert (ilog2 q < 1024)%Z.
    { apply ilog2_lt; [exact Hpos |]. rewrite Ha. exact Hlt. }
    unfold e, ulp_exponent, prec, emin. lia. }
  rewrite Ha, max_finite_eq.
  apply Qle_trans with (inject_Z (2 ^ prec - 1) * 2 ^ e).
  - apply Qmult_le_compat_r; [| apply Qlt_le_weak, pow2_pos].
    rewrite <- Zle_Qle. exact Hm'.
  - apply Qmult_le_l; [reflexivity | apply pow2_le, He'].
Qed.




(** Rounding never yields NaN, and the sign of the result is the sign of
    the number. *)
Lemma round_nonneg x : 0 <= x -> le zero (round x).
Proof.
  intros Hx. destruct (Qlt_le_dec 0 x) as [Hpos | H0].
  - rewrite round_gt by exact Hpos.
    destruct (round_pos_cases false x Hpos) as [[-> _] | (a & -> & Ha & _)];
      [reflexivity |].
    apply le_Finite. pose proof (nearest_nonneg x Hpos). lra.
  - rewrite round_0 by lra. reflexivity.
Qed.

Lemma round_nonpos x : x <= 0 -> le (round x) zero.
Proof.
  intros Hx. destruct (Qlt_le_dec x 0) as [Hneg | H0].
  - rewrite round_lt by exact Hneg.
    destruct (round_pos_cases true (- x)) as [[-> _] | (a & -> & Ha & _)];
      [lra | reflexivity |].
    apply le_Finite. pose proof (nearest_nonneg (- x)). lra.
  - rewrite round_0 by lra. reflexivity.
Qed.

Lemma le_trans x y z : le x y -> le y z -> le x z.
Proof.
  unfold le. destruct x as [a | [] |], y as [b | [] |], z as [c | [] |];
    cbn; try congruence.
  rewrite !Qle_bool_iff. apply Qle_trans.
Qed.

Lemma le_refl_round x : le (round x) (round x).
Proof.
  unfold le. destruct (round x) as [a | [] |] eqn:E; cbn; try reflexivity.
  - apply Qle_bool_iff. lra.
  - exfalso. unfold round, round_pos in E.
    repeat (destruct (Qcompare _ _) || destruct (Qle_bool _ _));
      discriminate.
Qed.

(** Rounding is monotone. *)
Lemma round_le x y : x <= y -> le (round x) (round y).
Proof.
  intros Hxy.
  destruct (Qlt_le_dec 0 x) as [Hx | Hx].
  - (* both positive *)
    assert (Hy : 0 < y) by lra.
    rewrite (round_gt x Hx), (round_gt y Hy).
    pose proof (nearest_le x y Hx Hxy) as Hn.
    destruct (round_pos_cases false y Hy) as [[-> _] | (b & -> & Hb & Hby)].
    + destruct (round_pos_cases false x Hx) as [[-> _] | (a & -> & _)];
        reflexivity.
    + destruct (round_pos_cases false x Hx) as [[_ Ha] | (a & -> & Ha & _)];
        [lra |].
      apply le_Finite. lra.
  - destruct (Qlt_le_dec y 0) as [Hy | Hy].
    + (* both negative *)
      assert (Hx' : x < 0) by lra.
      rewrite (round_lt x Hx'), (round_lt y Hy).
      pose proof (nearest_le (- y) (- x) ltac:(lra) ltac:(lra)) as Hn.
      destruct (round_pos_cases true (- x)) as [[-> _] | (a & -> & Ha & Hax)];
        [lra | | ].
      * destruct (round_pos_cases true (- y)) as [[-> _] | (b & -> & _)];
          [lra | reflexivity | reflexivity].
      * destruct (round_pos_cases true (- y)) as [[_ Hb] | (b & -> & Hb & _)];
          [lra | lra |].
        apply le_Finite. lra.
    + apply le_trans with zero; [apply round_nonpos, Hx | apply round_nonneg, Hy].
Qed.

(** A number between two binary64 numbers rounds between them. *)
Lemma round_ge a x : is_binary64 a -> a <= x -> le (Finite a) (round x).
Proof. intros Ha H. rewrite <- Ha. apply round_le, H. Qed.

Lemma round_le_repr a x : is_binary64 a -> x <= a -> le (round x) (Finite a).
Proof. intros Ha H. rewrite <- Ha. apply round_le, H. Qed.

Lemma is_binary64_0 : is_binary64 0.
Proof. reflexivity. Qed.

Lemma is_binary64_1 : is_binary64 1.
Proof. vm_compute. reflexivity. Qed.

Lemma le_Finite_l_cases a y :
  le (Finite a) y -> (exists b, y = Finite b /\ a <= b) \/ y = Inf false.
Proof.
  unfold le. destruct y as [b | [] |]; cbn; try discriminate.
  - intros H. left. exists b. split; [reflexivity | apply Qle_bool_iff, H].
  - right. reflexivity.
Qed.









End Binary64Facts.

(** ** The scores in binary64 arithmetic *)

Module ScoresFacts.

Import Binary64 Binary64Facts Scores.
Local Open Scope Q_scope.

Lemma le_Finite_r x b :
  le x (Finite b) -> (exists a, x = Finite a /\ a <= b) \/ x = Inf true.
Proof.
  unfold le. destruct x as [a | [] |]; cbn; try discriminate.
  - intros H. left. exists a. split; [reflexivity | apply Qle_bool_iff, H].
  - right. reflexivity.
Qed.

(** A value between two numbers is a number. *)
Lemma between a b y :
  le (Finite a) y -> le y (Finite b) -> exists c, y = Finite c /\ a <= c <= b.
Proof.
  intros Hl Hr.
  destruct (le_Finite_l_cases a y Hl) as [(c & -> & Hc) | ->]; [| discriminate].
  exists c. split; [reflexivity |]. split; [exact Hc |].
  apply le_Finite. exact Hr.
Qed.

Lemma inv_le a b : 0 < a -> a <= b -> 1 / b <= 1 / a.
Proof.
  intros Ha Hab. apply Qle_shift_div_l; [exact Ha |].
  assert (E : 1 / b * a == a / b) by (field; lra).
  rewrite E. apply Qle_shift_div_r; lra.
Qed.

Lemma round_max_finite_succ : round (1 + max_finite) = Finite max_finite.
Proof. vm_compute. reflexivity. Qed.

Lemma round_max_finite_inv : round (1 / max_finite) = Finite (2 ^ (-1024)).
Proof. vm_compute. reflexivity. Qed.

(** [1.0 + d] for a distance that is not negative. *)
Lemma one_plus d :
  is_binary64 d -> 0 <= d ->
  exists c, add one (Finite d) = Finite c /\ 1 <= c <= max_finite.
Proof.
  intros Hd H0. cbn [add one]. apply between.
  - apply round_ge; [apply is_binary64_1 | lra].
  - rewrite <- round_max_finite_succ. apply round_le.
    pose proof (is_binary64_le_max d Hd). lra.
Qed.

Lemma normalize_eq d c :
  add one (Finite d) = Finite c -> 1 <= c ->
  normalize (Finite d) = Ok (round (1 / c)).
Proof.
  intros E Hc. unfold normalize, div. rewrite E. cbn [is_zero].
  replace (Qeq_bool c 0) with false; [reflexivity |].
  symmetry. apply not_true_is_false. intros H. apply Qeq_bool_iff in H. lra.
Qed.

Lemma normalize_range d :
  is_binary64 d -> 0 <= d ->
  exists s, normalize (Finite d) = Ok (Finite s) /\ 0 < s /\ s <= 1.
Proof.
  intros Hd H0. destruct (one_plus d Hd H0) as (c & E & Hc1 & Hc2).
  rewrite (normalize_eq d c E Hc1).
  assert (Hmax : 0 < max_finite) by (vm_compute; reflexivity).
  destruct (between (2 ^ (-1024)) 1 (round (1 / c))) as (s & -> & Hs1 & Hs2).
  - rewrite <- round_max_finite_inv. apply round_le.
    apply inv_le; [lra | exact Hc2].
  - apply round_le_repr; [apply is_binary64_1 |].
    apply Qle_shift_div_r; lra.
  - exists s. split; [reflexivity |]. split; [| exact Hs2].
    pose proof (pow2_pos (-1024)). lra.
Qed.

Lemma normalize_antitone d1 d2 s1 s2 :
  is_binary64 d1 -> is_binary64 d2 -> 0 <= d1 -> d1 <= d2 ->
  normalize (Finite d1) = Ok (Finite s1) ->
  normalize (Finite d2) = Ok (Finite s2) ->
  s2 <= s1.
Proof.
  intros H1 H2 H0 H12.
  destruct (one_plus d1 H1 H0) as (c1 & E1 & Hc1 & _).
  destruct (one_plus d2 H2 ltac:(lra)) as (c2 & E2 & Hc2 & _).
  rewrite (normalize_eq d1 c1 E1 Hc1), (normalize_eq d2 c2 E2 Hc2).
  intros [= R1] [= R2].
  assert (Hc : c1 <= c2).
  { apply le_Finite. rewrite <- E1, <- E2. cbn [add one].
    apply round_le. lra. }
  apply le_Finite. rewrite <- R1, <- R2. apply round_le.
  apply inv_le; lra.
Qed.

(** *** Weights and sums *)

Lemma weight_0 : weight 0 = one.
Proof. vm_compute. reflexivity. Qed.











(** *** The greatest score *)







(** *** Scores between 0 and 1 *)






(** *** Scores compared *)




(** *** Retrieval *)






(** *** The assessment *)







End ScoresFacts.

(** C3 (as amended).  In binary64 arithmetic the normalised score
    [1.0 / (1.0 + d)] of every finite distance [d >= 0] lies in the
    half-open interval (0, 1], it is exactly 1 at [d = 0], and it does not
    increase with the distance: a larger distance gives a score that is
    smaller or equal. *)
Theorem normalize_binary64_range_and_monotone :
  (forall d : Q, Binary64.is_binary64 d -> (0 <= d)%Q ->
     exists s, Scores.normalize (Binary64.Finite d) = Ok (Binary64.Finite s)
               /\ (0 < s)%Q /\ (s <= 1)%Q)
  /\ Scores.normalize (Binary64.Finite 0) = Ok (Binary64.Finite 1)
  /\ (forall d1 d2 s1 s2 : Q,
        Binary64.is_binary64 d1 -> Binary64.is_binary64 d2 ->
        (0 <= d1)%Q -> (d1 <= d2)%Q ->
        Scores.normalize (Binary64.Finite d1) = Ok (Binary64.Finite s1) ->
        Scores.normalize (Binary64.Finite d2) = Ok (Binary64.Finite s2) ->
        (s2 <= s1)%Q).
Proof.
  split; [| split].
  - apply ScoresFacts.normalize_range.
  - vm_compute. reflexivity.
  - apply ScoresFacts.normalize_antitone.
Qed.

(** The score of the distance 0.5 lies in (0, 1], and the score of the
    distance 3, which is 0.25, is not above it. *)
Lemma normalize_binary64_range_and_monotone_witness :
  (exists s, Scores.normalize (Binary64.Finite (1 # 2))
             = Ok (Binary64.Finite s) /\ (0 < s)%Q /\ (s <= 1)%Q)
  /\ (1 # 4 <= 6004799503160661 # 9007199254740992)%Q.
Proof.
  destruct normalize_binary64_range_and_monotone as (Hrange & _ & Hmono).
  split.
  - apply (Hrange (1 # 2)%Q); [vm_compute; reflexivity | discriminate].
  - apply (Hmono (1 # 2)%Q 3%Q); try (vm_compute; reflexivity);
      discriminate.
Defined.

(** C3, counterexample to the claim as stated.  The distances 0 and
    [2^-60] are different and receive the same score 1.0, because
    [1.0 + 2^-60] rounds to 1.0: the score is not strictly decreasing.
    At the distance [inf] the score is 0.0, outside (0, 1]. *)
Lemma normalize_not_strictly_decreasing :
  Binary64.is_binary64 0 /\ Binary64.is_binary64 (2 ^ (-60))
  /\ (0 < 2 ^ (-60))%Q
  /\ Scores.normalize (Binary64.Finite 0) = Ok (Binary64.Finite 1)
  /\ Scores.normalize (Binary64.Finite (2 ^ (-60))) = Ok (Binary64.Finite 1)
  /\ Scores.normalize (Binary64.Inf false) = Ok (Binary64.Finite 0).
Proof. vm_compute. repeat split. Qed.










(** * Properties of the rest of the system *)

(** ** Text truncation *)

Module TextFacts.

Import PyStr TextHelpers.

Lemma slice_to_all n s : (String.length s <= n)%nat -> slice_to n s = s.
Proof.
  revert n; induction s as [| c s IH]; intros [| n] H; cbn in *;
    try reflexivity; try lia.
  f_equal. apply IH. lia.
Qed.

Lemma slice_to_append n s t :
  (n <= String.length s)%nat -> slice_to n (s +:+ t) = slice_to n s.
Proof.
  revert n; induction s as [| c s IH]; intros [| n] H; cbn in *;
    try reflexivity; try lia.
  rewrite PyStrFacts.append_cons. cbn. f_equal. apply IH. lia.
Qed.

Lemma slice_to_idem n s : slice_to n (slice_to n s) = slice_to n s.
Proof.
  apply slice_to_all. rewrite PyStrFacts.slice_to_length. lia.
Qed.

End TextFacts.

(** X1.  [truncate_text] with a non-negative [max_length] returns a text
    of at most [max_length] characters unchanged; a longer text becomes
    its first [max_length] characters followed by three dots, which is
    [max_length + 3] characters long, so the result can be up to three
    characters longer than the limit (and longer than a text that exceeds
    the limit by one or two characters).  Truncating twice is the same as
    truncating once. *)
Theorem truncate_text_bounds (text : string) (max_length : Z) :
  (0 <= max_length)%Z ->
  let n := Z.to_nat max_length in
  let result := TextHelpers.truncate_text text max_length in
  ((String.length text <= n)%nat -> result = text)
  /\ ((n < String.length text)%nat ->
      result = PyStr.slice_to n text +:+ "..."
      /\ String.length result = (n + 3)%nat)
  /\ (String.length result <= Nat.max (String.length text) (n + 3))%nat
  /\ ((n < String.length text < n + 3)%nat ->
      (String.length text < String.length result)%nat)
  /\ TextHelpers.truncate_text result max_length = result.
Proof.
  intros Hn n result.
  assert (Hshort : (String.length text <= n)%nat -> result = text).
  { intros H. subst result. unfold TextHelpers.truncate_text.
    destruct (Z.leb_spec (Z.of_nat (String.length text)) max_length);
      [reflexivity | lia]. }
  assert (Hlong : (n < String.length text)%nat ->
                  result = PyStr.slice_to n text +:+ "..."
                  /\ String.length result = (n + 3)%nat).
  { intros H. subst result. unfold TextHelpers.truncate_text.
    destruct (Z.leb_spec (Z.of_nat (String.length text)) max_length);
      [lia |].
    unfold TextHelpers.slice_to_Z.
    destruct (Z.leb_spec 0 max_length); [| lia].
    split; [reflexivity |].
    rewrite PyStrFacts.append_length, PyStrFacts.slice_to_length.
    cbn. lia. }
  split; [exact Hshort |]. split; [exact Hlong |].
  destruct (le_lt_dec (String.length text) n) as [Hle | Hlt].
  - rewrite (Hshort Hle). repeat split; try lia.
    fold result. rewrite (Hshort Hle).
    unfold TextHelpers.truncate_text.
    destruct (Z.leb_spec (Z.of_nat (String.length text)) max_length);
      [reflexivity | lia].
  - destruct (Hlong Hlt) as [Hres Hlen]. repeat split; try lia.
    unfold TextHelpers.truncate_text at 1.
    destruct (Z.leb_spec (Z.of_nat (String.length result)) max_length);
      [lia |].
    unfold TextHelpers.slice_to_Z.
    destruct (Z.leb_spec 0 max_length); [| lia].
    fold n. rewrite Hres at 1.
    rewrite TextFacts.slice_to_append
      by (rewrite PyStrFacts.slice_to_length; lia).
    rewrite TextFacts.slice_to_idem. symmetry. exact Hres.
Qed.

(** A seven-character text cut at five characters. *)
Lemma truncate_text_bounds_witness :
  let result := TextHelpers.truncate_text "chapter" 5 in
  ((String.length "chapter" <= 5)%nat -> result = "chapter")
  /\ ((5 < String.length "chapter")%nat ->
      result = PyStr.slice_to 5 "chapter" +:+ "..."
      /\ String.length result = (5 + 3)%nat)
  /\ (String.length result <= Nat.max (String.length "chapter") (5 + 3))%nat
  /\ ((5 < String.length "chapter" < 5 + 3)%nat ->
      (String.length "chapter" < String.length result)%nat)
  /\ TextHelpers.truncate_text result 5 = result.
Proof.
  apply (truncate_text_bounds "chapter" 5). lia.
Defined.

(** ** Retries *)

Module RetryFacts.

Import Retry.

Section Attempts.

Context {A : Type} (func : nat -> result A).
Context (sleep : Binary64.t -> result unit).
Context (max_retries : Z) (delay : Binary64.t).
Context (msg : nat -> string).

(** [k] failures in a row, none of them at the last attempt allowed,
    each followed by a pause that returns. *)
Lemma attempts_failures k : forall remaining attempt last,
  (forall j, (j < k)%nat ->
     func (attempt + j)%nat = Raise (msg (attempt + j)%nat)) ->
  (forall j, (j < k)%nat -> sleep (pause delay (attempt + j)) = Ok tt) ->
  (Z.of_nat (attempt + k) < max_retries)%Z ->
  attempts func sleep max_retries delay (k + remaining) attempt last
  = (let rest :=
       attempts func sleep max_retries delay remaining (attempt + k)
         (match k with
          | O => last
          | S k' => Some (msg (attempt + k')%nat)
          end) in
     (fst rest, failed_attempts delay attempt k ++ snd rest)).
Proof.
  induction k as [| k IH]; intros remaining attempt last Hfail Hsleep Hlt.
  - cbn. rewrite Nat.add_0_r. destruct (attempts _ _ _ _ _ _ _). reflexivity.
  - cbn [Nat.add attempts failed_attempts].
    pose proof (Hfail 0%nat ltac:(lia)) as H0. rewrite Nat.add_0_r in H0.
    rewrite H0.
    pose proof (Hsleep 0%nat ltac:(lia)) as S0. rewrite Nat.add_0_r in S0.
    rewrite S0.
    destruct (Z.ltb_spec (Z.of_nat attempt) (max_retries - 1)); [| lia].
    rewrite (IH remaining (S attempt) (Some (msg attempt))).
    + replace (S attempt + k)%nat with (attempt + S k)%nat by lia.
      replace (match k with
               | O => Some (msg attempt)
               | S k' => Some (msg (S attempt + k')%nat)
               end) with (Some (msg (attempt + k)%nat)).
      * destruct (attempts _ _ _ _ _ _ _). reflexivity.
      * destruct k as [| k']; [rewrite Nat.add_0_r | f_equal; f_equal; lia];
          reflexivity.
    + intros j Hj. replace (S attempt + j)%nat with (attempt + S j)%nat by lia.
      apply Hfail. lia.
    + intros j Hj. replace (S attempt + j)%nat with (attempt + S j)%nat by lia.
      apply Hsleep. lia.
    + lia.
Qed.

End Attempts.

Lemma sleeps_failed_attempts delay from n :
  sleeps (failed_attempts delay from n) = map (pause delay) (seq from n).
Proof.
  revert from; induction n as [| n IH]; intros from; [reflexivity |].
  cbn. unfold sleeps in IH. rewrite IH. reflexivity.
Qed.

Lemma calls_failed_attempts delay from n :
  calls (failed_attempts delay from n) = seq from n.
Proof.
  revert from; induction n as [| n IH]; intros from; [reflexivity |].
  cbn. unfold calls in IH. rewrite IH. reflexivity.
Qed.

Lemma sleeps_app l1 l2 : sleeps (l1 ++ l2) = sleeps l1 ++ sleeps l2.
Proof. apply omap_app. Qed.

Lemma calls_app l1 l2 : calls (l1 ++ l2) = calls l1 ++ calls l2.
Proof. apply omap_app. Qed.

End RetryFacts.

(** X2.  [retry_on_failure]: when the wrapped function fails at the
    attempts [0 .. k-1] and succeeds at attempt [k], with [k] below
    [max_retries], and [time.sleep] returns from each pause, the wrapper
    returns the value of attempt [k]; the function has been called
    [k + 1] times, and after the failed attempt number [j] the wrapper
    has slept the binary64 product [delay * (j + 1)] seconds. *)
Theorem retry_on_failure_first_success {A : Type}
    (func : nat -> result A) (sleep : Binary64.t -> result unit)
    (max_retries : Z) (delay : Binary64.t) (k : nat) (a : A) :
  (Z.of_nat k < max_retries)%Z ->
  (forall j, (j < k)%nat -> exists e, func j = Raise e) ->
  (forall j, (j < k)%nat -> sleep (Retry.pause delay j) = Ok tt) ->
  func k = Ok a ->
  let '(outcome, events) :=
    Retry.retry_on_failure sleep max_retries delay func in
  outcome = Ok a
  /\ events = Retry.failed_attempts delay 0 k ++ [Retry.Called k]
  /\ Retry.calls events = seq 0 (k + 1)
  /\ Retry.sleeps events = map (Retry.pause delay) (seq 0 k).
Proof.
  intros Hk Hfail Hsleep Hok. unfold Retry.retry_on_failure.
  set (msg := fun j => match func j with Raise e => e | Ok _ => "" end).
  replace (Z.to_nat max_retries)
    with (k + S (Z.to_nat max_retries - S k))%nat by lia.
  rewrite (RetryFacts.attempts_failures func sleep max_retries delay msg k).
  - cbn [Nat.add Retry.attempts]. rewrite Hok. cbn [fst snd].
    split; [reflexivity |]. split; [reflexivity |].
    rewrite RetryFacts.calls_app, RetryFacts.sleeps_app.
    rewrite RetryFacts.calls_failed_attempts,
      RetryFacts.sleeps_failed_attempts.
    cbn. rewrite app_nil_r. split; [| reflexivity].
    rewrite Nat.add_1_r, seq_S. reflexivity.
  - intros j Hj. cbn [Nat.add]. subst msg. cbn beta.
    destruct (Hfail j Hj) as [e ->]. reflexivity.
  - intros j Hj. cbn [Nat.add]. apply Hsleep, Hj.
  - cbn [Nat.add]. exact Hk.
Qed.

(** Two failures, then a value, within three attempts and a delay of
    0.1 second: the value is returned after pauses of 0.1 and 0.2
    seconds. *)
Lemma retry_on_failure_first_success_witness :
  let func := fun attempt : nat =>
    if (attempt <? 2)%nat then Raise "timed out" else Ok "page text" in
  let delay := Binary64.literal (1 # 10) in
  let '(outcome, events) :=
    Retry.retry_on_failure Retry.sleep_refuses_negative 3 delay func in
  outcome = Ok "page text"
  /\ events = Retry.failed_attempts delay 0 2 ++ [Retry.Called 2]
  /\ Retry.calls events = seq 0 (2 + 1)
  /\ Retry.sleeps events = map (Retry.pause delay) (seq 0 2).
Proof.
  apply (retry_on_failure_first_success
           (fun attempt : nat =>
              if (attempt <? 2)%nat then Raise "timed out" else Ok "page text")
           Retry.sleep_refuses_negative 3 (Binary64.literal (1 # 10)) 2
           "page text").
  - lia.
  - intros j Hj. exists "timed out".
    destruct j as [| [| j]]; [reflexivity | reflexivity | lia].
  - intros j Hj.
    destruct j as [| [| j]]; [vm_compute; reflexivity
                             | vm_compute; reflexivity | lia].
  - reflexivity.
Defined.

(** X3.  [retry_on_failure] when every attempt made fails.  If
    [time.sleep] returns from each pause, the wrapper calls the function
    exactly [max_retries] times, pauses after each failed attempt but the
    last, and raises the exception of the last attempt; with
    [max_retries <= 0] the function is not called at all and the wrapper
    fails on [raise None].  If [time.sleep] raises at the pause after
    attempt [k], as it does for a negative delay, its exception leaves
    the wrapper and no further attempt is made. *)
Theorem retry_on_failure_all_fail {A : Type}
    (func : nat -> result A) (sleep : Binary64.t -> result unit)
    (max_retries : Z) (delay : Binary64.t) (msg : nat -> string) :
  (forall j, (Z.of_nat j < max_retries)%Z -> func j = Raise (msg j)) ->
  ((forall j, (Z.of_nat j < max_retries - 1)%Z ->
      sleep (Retry.pause delay j) = Ok tt) ->
   let '(outcome, events) :=
     Retry.retry_on_failure sleep max_retries delay func in
   match Z.to_nat max_retries with
   | O => outcome = Raise Retry.raise_none /\ events = []
   | S m =>
       outcome = Raise (msg m)
       /\ events = Retry.failed_attempts delay 0 m ++ [Retry.Called m]
       /\ Retry.calls events = seq 0 (S m)
       /\ Retry.sleeps events = map (Retry.pause delay) (seq 0 m)
   end)
  /\ (forall k e,
        (Z.of_nat k < max_retries - 1)%Z ->
        (forall j, (j < k)%nat -> sleep (Retry.pause delay j) = Ok tt) ->
        sleep (Retry.pause delay k) = Raise e ->
        let '(outcome, events) :=
          Retry.retry_on_failure sleep max_retries delay func in
        outcome = Raise e
        /\ Retry.calls events = seq 0 (S k)
        /\ Retry.sleeps events = map (Retry.pause delay) (seq 0 (S k))).
Proof.
  intros Hfail. split.
  - intros Hsleep. unfold Retry.retry_on_failure.
    destruct (Z.to_nat max_retries) as [| m] eqn:En.
    + cbn. split; reflexivity.
    + replace (S m) with (m + 1)%nat by lia.
      rewrite (RetryFacts.attempts_failures func sleep max_retries delay msg m).
      * cbn [Nat.add Retry.attempts]. rewrite (Hfail m) by lia.
        destruct (Z.ltb_spec (Z.of_nat m) (max_retries - 1)); [lia |].
        cbn [fst snd app].
        split; [reflexivity |]. split; [reflexivity |].
        rewrite RetryFacts.calls_app, RetryFacts.sleeps_app.
        rewrite RetryFacts.calls_failed_attempts,
          RetryFacts.sleeps_failed_attempts.
        cbn [Retry.calls Retry.sleeps omap]. cbn. rewrite app_nil_r. split.
        -- rewrite Nat.add_1_r, seq_S. reflexivity.
        -- reflexivity.
      * intros j Hj. cbn [Nat.add]. apply Hfail. lia.
      * intros j Hj. cbn [Nat.add]. apply Hsleep. lia.
      * cbn [Nat.add]. lia.
  - intros k e Hk Hsleep Hraise. unfold Retry.retry_on_failure.
    replace (Z.to_nat max_retries)
      with (k + S (Z.to_nat max_retries - S k))%nat by lia.
    rewrite (RetryFacts.attempts_failures func sleep max_retries delay msg k).
    + cbn [Nat.add Retry.attempts]. rewrite (Hfail k) by lia.
      destruct (Z.ltb_spec (Z.of_nat k) (max_retries - 1)); [| lia].
      rewrite Hraise. cbn [fst snd].
      split; [reflexivity |].
      rewrite RetryFacts.calls_app, RetryFacts.sleeps_app.
      rewrite RetryFacts.calls_failed_attempts,
        RetryFacts.sleeps_failed_attempts.
      cbn [Retry.calls Retry.sleeps omap].
      rewrite !seq_S, List.map_app. cbn [Nat.add map]. split; reflexivity.
    + intros j Hj. cbn [Nat.add]. apply Hfail. lia.
    + intros j Hj. cbn [Nat.add]. apply Hsleep, Hj.
    + cbn [Nat.add]. lia.
Qed.

(** Three attempts that all time out: with a delay of one second the
    exception of the third attempt is raised after two pauses; with a
    delay of minus one second the first pause raises and the function is
    called once. *)
Lemma retry_on_failure_all_fail_witness :
  let func := fun attempt : nat => @Raise string "timed out" in
  (let '(outcome, events) :=
     Retry.retry_on_failure Retry.sleep_refuses_negative 3 Binary64.one
       func in
   outcome = Raise "timed out"
   /\ events = Retry.failed_attempts Binary64.one 0 2 ++ [Retry.Called 2]
   /\ Retry.calls events = seq 0 3
   /\ Retry.sleeps events = map (Retry.pause Binary64.one) (seq 0 2))
  /\ (let delay := Binary64.Finite (- 1) in
      let '(outcome, events) :=
        Retry.retry_on_failure Retry.sleep_refuses_negative 3 delay func in
      outcome = Raise "sleep length must be non-negative"
      /\ Retry.calls events = seq 0 1
      /\ Retry.sleeps events = map (Retry.pause delay) (seq 0 1)).
Proof.
  intros func. split.
  - apply (proj1 (retry_on_failure_all_fail func
                    Retry.sleep_refuses_negative 3 Binary64.one
                    (fun _ => "timed out") (fun j _ => eq_refl))).
    intros j Hj.
    destruct j as [| [| j]]; [vm_compute; reflexivity
                             | vm_compute; reflexivity | lia].
  - apply (proj2 (retry_on_failure_all_fail func
                    Retry.sleep_refuses_negative 3 (Binary64.Finite (- 1))
                    (fun _ => "timed out") (fun j _ => eq_refl))
             0%nat "sleep length must be non-negative").
    + lia.
    + intros j Hj. lia.
    + vm_compute. reflexivity.
Defined.

(** ** The nodes, field by field *)

Module FieldFacts.

Import GraphState WorkflowNodes QAWorkflow.

(** The state [generate_rag_answer] leaves, in terms of the record the
    answer generator returned. *)
Lemma exec_generate_rag_answer_eq env state :
  exec env Node.generate_rag_answer state
  = (let r := kb_answer env state in
     let s :=
       set_citations (AnswerRecord.citations r)
         (set_source_type (AnswerRecord.source_type r)
            (set_answer (AnswerRecord.answer r) state)) in
     merge state
       (if Classifier._answer_indicates_insufficient_info
             (AnswerRecord.answer r)
        then set_needs_web_fallback true
               (set_is_knowledge_base_sufficient false s)
        else s)).
Proof.
  unfold exec, node_function, generate_rag_answer, kb_answer. unfold_monad.
  destruct (AnswerGenerator.generate_rag_answer _ _ _ env) as [r calls].
  cbn [fst].
  destruct (Classifier._answer_indicates_insufficient_info _); reflexivity.
Qed.

Ltac rag_answer_field state :=
  rewrite exec_generate_rag_answer_eq; cbv zeta;
  destruct (Classifier._answer_indicates_insufficient_info _);
  destruct state; reflexivity.

Lemma question_preserved env node state :
  question (exec env node state) = question state.
Proof.
  destruct node; try (rag_answer_field state);
    ExecFacts.node_cases state.
Qed.

Lemma metadata_preserved env node state :
  node <> Node.notify_fallback -> node <> Node.format_output ->
  metadata (exec env node state) = metadata state.
Proof.
  intros H1 H2. destruct node; try congruence; clear H1 H2;
    try (rag_answer_field state); ExecFacts.node_cases state.
Qed.

Lemma source_type_preserved env node state :
  node <> Node.generate_rag_answer -> node <> Node.generate_web_answer ->
  source_type (exec env node state) = source_type state.
Proof.
  intros H1 H2. destruct node; try congruence; clear H1 H2;
    ExecFacts.node_cases state.
Qed.

Lemma answer_preserved env node state :
  node <> Node.generate_rag_answer -> node <> Node.generate_web_answer ->
  answer (exec env node state) = answer state.
Proof.
  intros H1 H2. destruct node; try congruence; clear H1 H2;
    ExecFacts.node_cases state.
Qed.

Lemma error_preserved env node state :
  node <> Node.retrieve_kb -> node <> Node.search_web ->
  error (exec env node state) = error state.
Proof.
  intros H1 H2. destruct node; try congruence; clear H1 H2;
    try (rag_answer_field state); ExecFacts.node_cases state.
Qed.

Lemma relevance_assessment_preserved env node state :
  node <> Node.retrieve_kb ->
  relevance_assessment (exec env node state) = relevance_assessment state.
Proof.
  intros H1. destruct node; try congruence; clear H1;
    try (rag_answer_field state); ExecFacts.node_cases state.
Qed.

Lemma rag_context_preserved env node state :
  node <> Node.retrieve_kb ->
  rag_context (exec env node state) = rag_context state.
Proof.
  intros H1. destruct node; try congruence; clear H1;
    try (rag_answer_field state); ExecFacts.node_cases state.
Qed.

Lemma web_search_query_preserved env node state :
  node <> Node.search_web ->
  web_search_query (exec env node state) = web_search_query state.
Proof.
  intros H1. destruct node; try congruence; clear H1;
    try (rag_answer_field state); ExecFacts.node_cases state.
Qed.

(** *** [retrieve_kb] *)

Lemma exec_retrieve_kb_failure env state e :
  Env.similarity_search_with_score env (question state)
    (Settings.TOP_K_RETRIEVAL (Env.settings env)) = Raise e ->
  let state' := exec env Node.retrieve_kb state in
  is_knowledge_base_sufficient state' = false
  /\ error state' = Some e
  /\ rag_sources state' = rag_sources state
  /\ rag_context state' = rag_context state
  /\ relevance_assessment state' = relevance_assessment state.
Proof.
  intros H. unfold exec, merge, node_function, retrieve_from_kb,
    RAGRetriever.retrieve_and_assess, RAGRetriever.retrieve.
  unfold_monad. rewrite H. destruct state. cbn. repeat split.
Qed.

Lemma exec_retrieve_kb_empty env state :
  Env.similarity_search_with_score env (question state)
    (Settings.TOP_K_RETRIEVAL (Env.settings env)) = Ok [] ->
  let state' := exec env Node.retrieve_kb state in
  is_knowledge_base_sufficient state' = false
  /\ error state' = error state
  /\ rag_sources state' = rag_sources state
  /\ rag_context state' = rag_context state
  /\ relevance_assessment state' !! "confidence" = Some (VFloat 0).
Proof.
  intros H. unfold exec, merge, node_function, retrieve_from_kb,
    RAGRetriever.retrieve_and_assess, RAGRetriever.retrieve.
  unfold_monad. rewrite H. cbn [fst snd].
  rewrite !AssessFacts.assess_empty_documents. cbn [assoc String.eqb Ascii.eqb
    Bool.eqb PyVal.truthy].
  destruct state. cbn. rewrite !AssessFacts.assess_empty_documents.
  repeat split.
Qed.

Lemma exec_retrieve_kb_results env state r rest :
  Env.similarity_search_with_score env (question state)
    (Settings.TOP_K_RETRIEVAL (Env.settings env)) = Ok (r :: rest) ->
  let documents := map fst (r :: rest) in
  let state' := exec env Node.retrieve_kb state in
  error state' = error state
  /\ rag_sources state' = RAGRetriever.get_source_metadata documents
  /\ rag_context state' = Some (RAGRetriever.format_context documents).
Proof.
  intros H. unfold exec, merge, node_function, retrieve_from_kb,
    RAGRetriever.retrieve_and_assess, RAGRetriever.retrieve.
  unfold_monad. rewrite H. cbn [fst snd map ScoreNormalizer.normalized_scores].
  rewrite AssessFacts.assess_top_score, AssessFacts.assess_is_relevant.
  destruct state. cbn. repeat split.
Qed.

Lemma node_calls_retrieve_kb env state :
  node_calls env Node.retrieve_kb state
  = [CallVectorSearch (question state)
       (Settings.TOP_K_RETRIEVAL (Env.settings env))].
Proof.
  unfold node_calls, node_function, retrieve_from_kb,
    RAGRetriever.retrieve_and_assess, RAGRetriever.retrieve.
  unfold_monad.
  destruct (Env.similarity_search_with_score env _ _) as [[| r rest] | e];
    cbn [fst snd]; repeat case_match; simplify_eq; reflexivity.
Qed.

(** An exception in [retrieve_kb] clears the sufficiency flag: a state
    judged sufficient carries no new error. *)
Lemma exec_retrieve_kb_sufficient env state :
  is_knowledge_base_sufficient (exec env Node.retrieve_kb state) = true ->
  error (exec env Node.retrieve_kb state) = error state.
Proof.
  destruct (Env.similarity_search_with_score env (question state)
              (Settings.TOP_K_RETRIEVAL (Env.settings env)))
    as [[| r rest] | e] eqn:E.
  - destruct (exec_retrieve_kb_empty env state E) as (H & _). congruence.
  - intros _. apply (exec_retrieve_kb_results env state r rest E).
  - destruct (exec_retrieve_kb_failure env state e E) as (H & _). congruence.
Qed.

(** *** [generate_rag_answer] *)

Lemma node_calls_generate_rag_answer env state :
  node_calls env Node.generate_rag_answer state
  = [CallLLM (RagAnswerPrompt (rag_context state) (question state))].
Proof.
  unfold node_calls, node_function, generate_rag_answer,
    AnswerGenerator.generate_rag_answer.
  unfold_monad.
  destruct (Env.llm_invoke env _); cbn [AnswerRecord.answer];
    destruct (Classifier._answer_indicates_insufficient_info _); reflexivity.
Qed.

Lemma kb_answer_failure env state e :
  Env.llm_invoke env (RagAnswerPrompt (rag_context state) (question state))
  = Raise e ->
  kb_answer env state
  = {| AnswerRecord.answer :=
         "I apologize, but I encountered an error generating the answer.";
       AnswerRecord.source_type := "knowledge_base";
       AnswerRecord.sources := [];
       AnswerRecord.citations := "";
       AnswerRecord.success := false;
       AnswerRecord.error := Some e |}.
Proof.
  intros H. unfold kb_answer, AnswerGenerator.generate_rag_answer.
  unfold_monad. rewrite H. reflexivity.
Qed.

Lemma kb_answer_success env state text :
  Env.llm_invoke env (RagAnswerPrompt (rag_context state) (question state))
  = Ok text ->
  kb_answer env state
  = {| AnswerRecord.answer := text;
       AnswerRecord.source_type := "knowledge_base";
       AnswerRecord.sources := rag_sources state;
       AnswerRecord.citations :=
         Citations.format_citations_pdf (rag_sources state);
       AnswerRecord.success := true;
       AnswerRecord.error := None |}.
Proof.
  intros H. unfold kb_answer, AnswerGenerator.generate_rag_answer.
  unfold_monad. rewrite H. reflexivity.
Qed.

(** *** [notify_fallback] and [format_output] *)

Lemma exec_notify_fallback_metadata env state :
  metadata (exec env Node.notify_fallback state)
  = <[ "fallback_notification" := VStr fallback_notification ]>
      (metadata state).
Proof. destruct state. reflexivity. Qed.

Lemma exec_format_output_metadata env state :
  metadata (exec env Node.format_output state)
  = <[ "num_sources" := VInt (Z.of_nat (num_sources state)) ]>
      (<[ "confidence" := assessment_confidence state ]> (metadata state)).
Proof. destruct state. reflexivity. Qed.

Lemma node_calls_silent env node state :
  node = Node.notify_fallback \/ node = Node.format_output ->
  node_calls env node state = [].
Proof. intros [-> | ->]; reflexivity. Qed.

(** *** [search_web] *)

Lemma reformulation_calls question env :
  snd (AnswerGenerator.reformulate_query_for_web question env)
  = [CallLLM (ReformulationPrompt question)].
Proof.
  unfold AnswerGenerator.reformulate_query_for_web. unfold_monad.
  destruct (Env.llm_invoke env _); [| reflexivity].
  destruct (AnswerGenerator.too_short_or_broken _); reflexivity.
Qed.

Lemma exec_search_web env state :
  let query :=
    fst (AnswerGenerator.reformulate_query_for_web (question state) env) in
  let max_results := Settings.MAX_SEARCH_RESULTS (Env.settings env) in
  let outcome := Env.search_and_extract env query max_results in
  let state' := exec env Node.search_web state in
  web_search_query state' = Some query
  /\ web_results state'
     = match outcome with Ok results => results | Raise _ => [] end
  /\ error state'
     = match outcome with Ok _ => error state | Raise e => Some e end
  /\ node_calls env Node.search_web state
     = [CallLLM (ReformulationPrompt (question state));
        CallWebSearch query max_results].
Proof.
  cbv zeta. pose proof (reformulation_calls (question state) env) as Hcalls.
  unfold exec, merge, node_calls, node_function, search_web. unfold_monad.
  destruct (AnswerGenerator.reformulate_query_for_web _ env) as [query calls].
  cbn [fst snd] in *. subst calls.
  destruct (Env.search_and_extract env query _); destruct state; cbn;
    repeat split.
Qed.

(** *** [generate_web_answer] *)

Lemma exec_generate_web_answer_results env state r rest :
  web_results state = r :: rest ->
  let prompt :=
    WebAnswerPrompt (AnswerGenerator._format_web_results (web_results state))
      (question state) in
  let state' := exec env Node.generate_web_answer state in
  node_calls env Node.generate_web_answer state = [CallLLM prompt]
  /\ source_type state' = "web"
  /\ match Env.llm_invoke env prompt with
     | Ok text =>
         answer state' = text
         /\ web_sources state'
            = map web_source_of (firstn 5 (web_results state))
         /\ citations state'
            = Citations.format_citations_web (web_sources state')
     | Raise _ =>
         answer state'
         = "I apologize, but I encountered an error generating the answer from web sources."
         /\ web_sources state' = []
         /\ citations state' = ""
     end.
Proof.
  intros H. cbv zeta.
  unfold exec, merge, node_calls, node_function, generate_web_answer,
    AnswerGenerator.generate_web_answer.
  rewrite H. unfold_monad.
  destruct (Env.llm_invoke env _); destruct state; cbn; repeat split.
Qed.

Lemma web_sources_no_results env state :
  web_results state = [] ->
  web_sources (exec env Node.generate_web_answer state) = web_sources state.
Proof.
  intros H. unfold exec, merge, node_function.
  rewrite (NodeFacts.generate_web_answer_no_results state env H).
  destruct state; reflexivity.
Qed.

Lemma node_calls_generate_web_answer_no_results env state :
  web_results state = [] ->
  node_calls env Node.generate_web_answer state = [].
Proof.
  intros H. unfold node_calls, node_function.
  rewrite (NodeFacts.generate_web_answer_no_results state env H). reflexivity.
Qed.

End FieldFacts.

(** ** The three paths of a run *)

Module PathFacts.

Import GraphState WorkflowNodes QAWorkflow.

Lemma invoke_from_step_calls fuel node state env :
  node <> Node.END ->
  snd (invoke_from (S fuel) node state env)
  = node_calls env node state
    ++ snd (invoke_from fuel (next_node node (exec env node state))
              (exec env node state) env).
Proof.
  intros Hnode. unfold exec, node_calls.
  destruct node; try congruence; cbn [invoke_from]; unfold_monad;
    destruct (node_function _ state env) as [returned calls1]; cbn [fst snd];
    destruct (invoke_from fuel _ _ env) as [[steps final] calls2];
    cbn [snd]; rewrite app_nil_r; reflexivity.
Qed.

Lemma invoke_from_END_calls fuel state env :
  snd (invoke_from fuel Node.END state env) = [].
Proof. destruct fuel; reflexivity. Qed.

Lemma invoke_calls_follow_path env question :
  snd (invoke (create_initial_state question) env)
  = calls_along env (path_of env question) (create_initial_state question).
Proof.
  unfold invoke, max_steps, path_of.
  set (s0 := create_initial_state question).
  rewrite invoke_from_step_calls by discriminate.
  set (s1 := exec env Node.retrieve_kb s0).
  cbn [next_node]. unfold _route_after_retrieval.
  destruct (is_knowledge_base_sufficient s1) eqn:Hsuff.
  - rewrite invoke_from_step_calls by discriminate.
    set (s2 := exec env Node.generate_rag_answer s1).
    cbn [next_node]. unfold _route_after_rag_answer.
    destruct (needs_web_fallback s2) eqn:Hflag.
    + do 4 (rewrite invoke_from_step_calls by discriminate;
            cbn [next_node]).
      rewrite invoke_from_END_calls. reflexivity.
    + rewrite invoke_from_step_calls by discriminate. cbn [next_node].
      rewrite invoke_from_END_calls. reflexivity.
  - do 4 (rewrite invoke_from_step_calls by discriminate; cbn [next_node]).
    rewrite invoke_from_END_calls. reflexivity.
Qed.

Lemma run_calls_follow_path env question :
  snd (run question env)
  = calls_along env (path_of env question) (create_initial_state question).
Proof.
  rewrite <- invoke_calls_follow_path. unfold run. unfold_monad.
  destruct (invoke (create_initial_state question) env)
    as [[steps final] calls].
  destruct final; cbn [snd]; apply app_nil_r.
Qed.

(** A run takes one of three paths. *)
Lemma run_cases env question :
  let s0 := create_initial_state question in
  let s1 := exec env Node.retrieve_kb s0 in
  let s2 := exec env Node.generate_rag_answer s1 in
  (is_knowledge_base_sufficient s1 = true
   /\ needs_web_fallback s2 = false
   /\ fst (run question env) = exec env Node.format_output s2
   /\ snd (run question env)
      = node_calls env Node.retrieve_kb s0
        ++ node_calls env Node.generate_rag_answer s1)
  \/ (is_knowledge_base_sufficient s1 = true
      /\ needs_web_fallback s2 = true
      /\ fst (run question env) = web_part env s2
      /\ snd (run question env)
         = node_calls env Node.retrieve_kb s0
           ++ node_calls env Node.generate_rag_answer s1
           ++ calls_along env
                [Node.notify_fallback; Node.search_web;
                 Node.generate_web_answer; Node.format_output] s2)
  \/ (is_knowledge_base_sufficient s1 = false
      /\ fst (run question env) = web_part env s1
      /\ snd (run question env)
         = node_calls env Node.retrieve_kb s0
           ++ calls_along env
                [Node.notify_fallback; Node.search_web;
                 Node.generate_web_answer; Node.format_output] s1).
Proof.
  cbv zeta. rewrite RunFacts.run_follows_path, run_calls_follow_path.
  unfold path_of, web_part.
  destruct (is_knowledge_base_sufficient _) eqn:Hsuff;
    [destruct (needs_web_fallback _) eqn:Hflag |].
  - right. left. repeat split.
  - left. repeat split. cbn [calls_along kb_path].
    rewrite (FieldFacts.node_calls_silent env Node.format_output) by auto.
    rewrite !app_nil_r. reflexivity.
  - right. right. repeat split.
Qed.

(** What the web part of a run leaves in the state, and the calls it
    makes. *)
Lemma web_part_spec env state :
  let query :=
    fst (AnswerGenerator.reformulate_query_for_web (question state) env) in
  let max_results := Settings.MAX_SEARCH_RESULTS (Env.settings env) in
  let outcome := Env.search_and_extract env query max_results in
  let results := match outcome with Ok rs => rs | Raise _ => [] end in
  let prompt :=
    WebAnswerPrompt (AnswerGenerator._format_web_results results)
      (question state) in
  let final := web_part env state in
  metadata final !! "fallback_notification"
  = Some (VStr fallback_notification)
  /\ web_search_query final = Some query
  /\ web_results final = results
  /\ error final
     = match outcome with Ok _ => error state | Raise e => Some e end
  /\ rag_sources final = rag_sources state
  /\ calls_along env
       [Node.notify_fallback; Node.search_web; Node.generate_web_answer;
        Node.format_output] state
     = CallLLM (ReformulationPrompt (question state))
       :: CallWebSearch query max_results
       :: match results with [] => [] | _ :: _ => [CallLLM prompt] end
  /\ match results with
     | [] =>
         answer final = no_information_answer
         /\ source_type final = "none"
         /\ web_sources final = web_sources state
         /\ citations final = citations state
     | _ :: _ =>
         source_type final = "web"
         /\ match Env.llm_invoke env prompt with
            | Ok text =>
                answer final = text
                /\ web_sources final = map web_source_of (firstn 5 results)
                /\ citations final
                   = Citations.format_citations_web (web_sources final)
            | Raise _ =>
                answer final
                = "I apologize, but I encountered an error generating the answer from web sources."
                /\ web_sources final = []
                /\ citations final = ""
            end
     end.
Proof.
  cbv zeta. unfold web_part.
  set (sN := exec env Node.notify_fallback state).
  set (sS := exec env Node.search_web sN).
  set (sW := exec env Node.generate_web_answer sS).
  assert (HqN : question sN = question state)
    by apply FieldFacts.question_preserved.
  assert (HqS : question sS = question state)
    by (unfold sS; rewrite FieldFacts.question_preserved; exact HqN).
  destruct (FieldFacts.exec_search_web env sN) as (Hquery & Hres & Herr & Hcalls).
  fold sS in Hquery, Hres, Herr. rewrite HqN in Hquery, Hres, Herr, Hcalls.
  set (query := fst (AnswerGenerator.reformulate_query_for_web
                       (question state) env)) in *.
  set (outcome := Env.search_and_extract env query _) in *.
  split.
  { rewrite FieldFacts.exec_format_output_metadata.
    rewrite !lookup_insert_ne by discriminate.
    unfold sW, sS. rewrite !FieldFacts.metadata_preserved by discriminate.
    unfold sN. rewrite FieldFacts.exec_notify_fallback_metadata.
    apply lookup_insert_eq. }
  split.
  { unfold sW. rewrite !FieldFacts.web_search_query_preserved by discriminate.
    exact Hquery. }
  split.
  { unfold sW. rewrite !ExecFacts.web_results_preserved by discriminate.
    exact Hres. }
  split.
  { unfold sW. rewrite !FieldFacts.error_preserved by discriminate.
    rewrite Herr.
    unfold sN. rewrite FieldFacts.error_preserved by discriminate.
    reflexivity. }
  split.
  { unfold sW, sS, sN.
    rewrite !ExecFacts.rag_sources_preserved by discriminate. reflexivity. }
  cbn [calls_along]. fold sN sS sW.
  rewrite (FieldFacts.node_calls_silent env Node.notify_fallback) by auto.
  rewrite (FieldFacts.node_calls_silent env Node.format_output) by auto.
  rewrite Hcalls, !app_nil_r. cbn [app].
  destruct (ExecFacts.format_output_keeps_answer env sW) as [Hans Hst].
  rewrite Hans, Hst.
  rewrite (ExecFacts.web_sources_preserved env Node.format_output)
    by discriminate.
  rewrite (ExecFacts.citations_preserved env Node.format_output) by auto.
  destruct (match outcome with Ok rs => rs | Raise _ => [] end)
    as [| r rest] eqn:Eres.
  - rewrite (FieldFacts.node_calls_generate_web_answer_no_results env sS)
      by exact Hres.
    split; [reflexivity |].
    destruct (ExecFacts.exec_generate_web_answer_no_results env sS Hres)
      as [H1 H2].
    split; [exact H1 |]. split; [exact H2 |]. split.
    + unfold sW. rewrite FieldFacts.web_sources_no_results by exact Hres.
      unfold sS, sN.
      rewrite !ExecFacts.web_sources_preserved by discriminate. reflexivity.
    + unfold sW.
      rewrite (ExecFacts.citations_preserved env Node.generate_web_answer)
        by auto.
      unfold sS, sN. rewrite !ExecFacts.citations_preserved by auto.
      reflexivity.
  - destruct (FieldFacts.exec_generate_web_answer_results env sS r rest Hres)
      as (Hc & Hst' & Hllm).
    rewrite Hres, HqS in Hc, Hllm. rewrite Hc.
    split; [reflexivity |]. split; [exact Hst' |].
    fold sW in Hllm. exact Hllm.
Qed.

End PathFacts.

Module KbPartFacts.

Import GraphState WorkflowNodes QAWorkflow.

(** The knowledge-base part of a run leaves the web fields and the
    metadata as they were created. *)
Lemma kb_part_untouched env question state :
  state = exec env Node.retrieve_kb (create_initial_state question)
  \/ state = exec env Node.generate_rag_answer
               (exec env Node.retrieve_kb (create_initial_state question)) ->
  GraphState.question state = question
  /\ web_results state = []
  /\ web_sources state = []
  /\ web_search_query state = None
  /\ metadata state = ∅.
Proof.
  intros [-> | ->];
    rewrite !FieldFacts.question_preserved,
      !ExecFacts.web_results_preserved, !ExecFacts.web_sources_preserved,
      !FieldFacts.web_search_query_preserved, !FieldFacts.metadata_preserved
      by discriminate;
    repeat split.
Qed.

(** The end of a run that stays on the knowledge-base path. *)
Lemma kb_final env state :
  let final :=
    exec env Node.format_output (exec env Node.generate_rag_answer state) in
  source_type final = "knowledge_base"
  /\ answer final = AnswerRecord.answer (kb_answer env state)
  /\ citations final = AnswerRecord.citations (kb_answer env state)
  /\ web_results final = web_results state
  /\ web_sources final = web_sources state
  /\ web_search_query final = web_search_query state
  /\ rag_sources final = rag_sources state
  /\ error final = error state.
Proof.
  cbv zeta.
  destruct (ExecFacts.format_output_keeps_answer env
              (exec env Node.generate_rag_answer state)) as [-> ->].
  rewrite (ExecFacts.citations_preserved env Node.format_output) by auto.
  rewrite !ExecFacts.web_results_preserved, !ExecFacts.web_sources_preserved,
    !FieldFacts.web_search_query_preserved, !ExecFacts.rag_sources_preserved,
    !FieldFacts.error_preserved by discriminate.
  destruct (ExecFacts.exec_generate_rag_answer env state)
    as (H1 & H2 & H3 & _).
  repeat split; assumption.
Qed.

End KbPartFacts.

Module AskFacts.

Lemma ask_set_up (env : Env.t) (question : string) :
  exists response,
    fst (QASystem.ask (Some env) question) = Ok response
    /\ QASystem.question response = question
    /\ (QASystem.source_type response = "knowledge_base"
        \/ QASystem.source_type response = "web"
        \/ QASystem.source_type response = "none")
    /\ (QASystem.source_type response = "knowledge_base" ->
        QASystem.fallback_notification response = None)
    /\ (QASystem.source_type response <> "knowledge_base" ->
        QASystem.fallback_notification response
        = Some (VStr WorkflowNodes.fallback_notification))
    /\ is_Some (QASystem.metadata response !! "confidence")
    /\ is_Some (QASystem.metadata response !! "num_sources")
    /\ (QASystem.source_type response = "none" ->
        QASystem.answer response = WorkflowNodes.no_information_answer).
Proof.
  unfold QASystem.ask.
  destruct (QAWorkflow.run question env) as [final calls] eqn:Erun.
  eexists. split; [reflexivity |].
  cbn [fst QASystem.question QASystem.source_type QASystem.answer
       QASystem.fallback_notification QASystem.metadata].
  split; [reflexivity |].
  assert (Efinal : final = fst (QAWorkflow.run question env))
    by (rewrite Erun; reflexivity).
  clear Erun.
  assert (Hmeta : forall state,
            is_Some (GraphState.metadata (exec env Node.format_output state)
                     !! "confidence")
            /\ is_Some (GraphState.metadata (exec env Node.format_output state)
                        !! "num_sources")).
  { intros state. rewrite FieldFacts.exec_format_output_metadata. split.
    - rewrite lookup_insert_ne by discriminate.
      rewrite lookup_insert_eq. eexists; reflexivity.
    - rewrite lookup_insert_eq. eexists; reflexivity. }
  assert (Hweb : forall state,
            final = web_part env state ->
            (GraphState.source_type final = "web"
             \/ GraphState.source_type final = "none")
            /\ GraphState.metadata final !! "fallback_notification"
               = Some (VStr WorkflowNodes.fallback_notification)
            /\ (GraphState.source_type final = "none" ->
                GraphState.answer final = WorkflowNodes.no_information_answer)).
  { intros state ->.
    destruct (PathFacts.web_part_spec env state)
      as (Hnote & _ & _ & _ & _ & _ & Hres).
    split; [| split; [exact Hnote |]].
    - destruct (match Env.search_and_extract env _ _ with
                | Ok rs => rs | Raise _ => [] end);
        [right | left]; apply Hres.
    - destruct (match Env.search_and_extract env _ _ with
                | Ok rs => rs | Raise _ => [] end).
      + intros _. apply Hres.
      + destruct Hres as [-> _]. discriminate. }
  destruct (PathFacts.run_cases env question)
    as [(Hsuff & Hflag & Hfst & _) | [(Hsuff & Hflag & Hfst & _)
                                     | (Hsuff & Hfst & _)]];
    rewrite <- Efinal in Hfst.
  - assert (Hst : GraphState.source_type final = "knowledge_base").
    { rewrite Hfst.
      destruct (ExecFacts.format_output_keeps_answer env
                  (exec env Node.generate_rag_answer
                     (exec env Node.retrieve_kb
                        (GraphState.create_initial_state question))))
        as [_ ->].
      apply ExecFacts.exec_generate_rag_answer. }
    rewrite Hst. split; [left; reflexivity |].
    split.
    { intros _. rewrite Hfst, FieldFacts.exec_format_output_metadata.
      rewrite !lookup_insert_ne by discriminate.
      rewrite !FieldFacts.metadata_preserved by discriminate.
      reflexivity. }
    split; [congruence |].
    rewrite Hfst. split; [apply Hmeta |]. split; [apply Hmeta |].
    discriminate.
  - destruct (Hweb _ Hfst) as (Hst & Hnote & Hnone).
    split; [destruct Hst; auto |].
    split; [intros H; destruct Hst as [H' | H']; rewrite H' in H;
            discriminate |].
    split; [intros _; exact Hnote |].
    rewrite Hfst at 1 2. unfold web_part.
    split; [apply Hmeta |]. split; [apply Hmeta | exact Hnone].
  - destruct (Hweb _ Hfst) as (Hst & Hnote & Hnone).
    split; [destruct Hst; auto |].
    split; [intros H; destruct Hst as [H' | H']; rewrite H' in H;
            discriminate |].
    split; [intros _; exact Hnote |].
    rewrite Hfst at 1 2. unfold web_part.
    split; [apply Hmeta |]. split; [apply Hmeta | exact Hnone].
Qed.

End AskFacts.

(** X7.  [QASystem.ask]: before [setup] has created the workflow, [ask]
    raises [RuntimeError] without calling any collaborator.  Afterwards
    it returns a response for every question, whatever the index, the
    model and the web searcher do: the response repeats the question,
    its [source_type] is [knowledge_base], [web] or [none], its metadata
    has [confidence] and [num_sources], the key [fallback_notification]
    is present exactly when the source type is not [knowledge_base], and
    a response of type [none] carries the fixed answer that no
    information was found. *)
Theorem ask_response (env : Env.t) (question : string) :
  QASystem.ask None question
  = (Raise "System not initialized. Call setup() first.", [])
  /\ exists response,
       fst (QASystem.ask (Some env) question) = Ok response
       /\ QASystem.question response = question
       /\ (QASystem.source_type response = "knowledge_base"
           \/ QASystem.source_type response = "web"
           \/ QASystem.source_type response = "none")
       /\ (QASystem.source_type response = "knowledge_base" ->
           QASystem.fallback_notification response = None)
       /\ (QASystem.source_type response <> "knowledge_base" ->
           QASystem.fallback_notification response
           = Some (VStr WorkflowNodes.fallback_notification))
       /\ is_Some (QASystem.metadata response !! "confidence")
       /\ is_Some (QASystem.metadata response !! "num_sources")
       /\ (QASystem.source_type response = "none" ->
           QASystem.answer response = WorkflowNodes.no_information_answer).
Proof.
  split; [reflexivity | apply AskFacts.ask_set_up].
Qed.

(** X8.  The calls of a run, by the source of its answer.  Every run
    queries the index exactly once, first, with the question and
    [TOP_K_RETRIEVAL].  A run whose answer comes from the knowledge base
    makes one more call, the model's answer from the context: the
    question is not reformulated and nothing is sent to the web searcher.
    Every other run reformulates the question, searches the web exactly
    once, with the query it records in [web_search_query] and with
    [MAX_SEARCH_RESULTS], and asks the model for a web answer exactly
    when the search returned results; it has asked for a knowledge-base
    answer before at most once.  So a run makes at most three model
    calls and at most one web search. *)
Theorem run_calls_by_source_type (env : Env.t) (question : string) :
  let final := fst (QAWorkflow.run question env) in
  let calls := snd (QAWorkflow.run question env) in
  let top_k := Settings.TOP_K_RETRIEVAL (Env.settings env) in
  let max_results := Settings.MAX_SEARCH_RESULTS (Env.settings env) in
  (GraphState.source_type final = "knowledge_base"
   /\ GraphState.web_search_query final = None
   /\ exists context,
        calls = [CallVectorSearch question top_k;
                 CallLLM (RagAnswerPrompt context question)])
  \/ (exists kb_calls query answer_calls,
        calls = CallVectorSearch question top_k
                :: kb_calls
                   ++ [CallLLM (ReformulationPrompt question);
                       CallWebSearch query max_results]
                   ++ answer_calls
        /\ GraphState.web_search_query final = Some query
        /\ (kb_calls = []
            \/ exists context,
                 kb_calls = [CallLLM (RagAnswerPrompt context question)])
        /\ ((GraphState.source_type final = "none"
             /\ GraphState.web_results final = []
             /\ answer_calls = [])
            \/ (GraphState.source_type final = "web"
                /\ GraphState.web_results final <> []
                /\ exists text,
                     answer_calls
                     = [CallLLM (WebAnswerPrompt text question)]))).
Proof.
  cbv zeta.
  set (s0 := GraphState.create_initial_state question).
  set (s1 := exec env Node.retrieve_kb s0).
  set (s2 := exec env Node.generate_rag_answer s1).
  destruct (KbPartFacts.kb_part_untouched env question s1 (or_introl eq_refl))
    as (Hq1 & _ & _ & Hwq1 & _).
  destruct (KbPartFacts.kb_part_untouched env question s2 (or_intror eq_refl))
    as (Hq2 & _ & _ & _ & _).
  assert (Hweb : forall state kb_calls,
            GraphState.question state = question ->
            (kb_calls = []
             \/ exists context,
                  kb_calls = [CallLLM (RagAnswerPrompt context question)]) ->
            fst (QAWorkflow.run question env) = web_part env state ->
            snd (QAWorkflow.run question env)
            = node_calls env Node.retrieve_kb s0 ++ kb_calls
              ++ calls_along env
                   [Node.notify_fallback; Node.search_web;
                    Node.generate_web_answer; Node.format_output] state ->
            exists kb_calls query answer_calls,
              snd (QAWorkflow.run question env)
              = CallVectorSearch question
                  (Settings.TOP_K_RETRIEVAL (Env.settings env))
                :: kb_calls
                   ++ [CallLLM (ReformulationPrompt question);
                       CallWebSearch query
                         (Settings.MAX_SEARCH_RESULTS (Env.settings env))]
                   ++ answer_calls
              /\ GraphState.web_search_query (fst (QAWorkflow.run question env))
                 = Some query
              /\ (kb_calls = []
                  \/ exists context,
                       kb_calls = [CallLLM (RagAnswerPrompt context question)])
              /\ ((GraphState.source_type (fst (QAWorkflow.run question env))
                   = "none"
                   /\ GraphState.web_results (fst (QAWorkflow.run question env))
                      = []
                   /\ answer_calls = [])
                  \/ (GraphState.source_type (fst (QAWorkflow.run question env))
                      = "web"
                      /\ GraphState.web_results
                           (fst (QAWorkflow.run question env)) <> []
                      /\ exists text,
                           answer_calls
                           = [CallLLM (WebAnswerPrompt text question)]))).
  { intros state kb_calls Hq Hkb Hfst Hsnd.
    destruct (PathFacts.web_part_spec env state)
      as (_ & Hquery & Hres & _ & _ & Hcalls & Hans).
    rewrite Hq in Hquery, Hres, Hcalls, Hans.
    rewrite <- Hfst in Hquery, Hres, Hans.
    rewrite Hsnd, Hcalls, FieldFacts.node_calls_retrieve_kb, Hres.
    destruct (match Env.search_and_extract env _ _ with
              | Ok rs => rs | Raise _ => [] end) as [| r rest].
    - exists kb_calls. eexists. exists [].
      split; [cbn [app]; reflexivity |].
      split; [exact Hquery |]. split; [exact Hkb |].
      left. repeat split. apply Hans.
    - exists kb_calls. eexists. eexists.
      split; [cbn [app]; reflexivity |].
      split; [exact Hquery |]. split; [exact Hkb |].
      right. split; [apply Hans |]. split; [discriminate |].
      eexists; reflexivity. }
  destruct (PathFacts.run_cases env question)
    as [(Hsuff & Hflag & Hfst & Hsnd) | [(Hsuff & Hflag & Hfst & Hsnd)
                                       | (Hsuff & Hfst & Hsnd)]];
    fold s0 in Hfst, Hsnd; fold s1 in Hfst, Hsnd; fold s2 in Hfst, Hsnd.
  - left. rewrite Hfst, Hsnd.
    destruct (KbPartFacts.kb_final env s1) as (Hst & _ & _ & _ & _ & Hwq & _).
    fold s2 in Hst, Hwq.
    split; [exact Hst |]. split; [rewrite Hwq; exact Hwq1 |].
    rewrite FieldFacts.node_calls_retrieve_kb,
      FieldFacts.node_calls_generate_rag_answer, Hq1.
    eexists; reflexivity.
  - right.
    apply (Hweb s2 (node_calls env Node.generate_rag_answer s1));
      [exact Hq2 | | exact Hfst | exact Hsnd].
    right. rewrite FieldFacts.node_calls_generate_rag_answer, Hq1.
    eexists; reflexivity.
  - right. apply (Hweb s1 []); [exact Hq1 | left; reflexivity | exact Hfst |].
    exact Hsnd.
Qed.

(** X9.  A run on an index that returns no passage, or that fails,
    answers from the web: the model is never asked for a knowledge-base
    answer, the final state has no knowledge-base sources and no
    context, its metadata reports the confidence 0 and the number of web
    sources, and its source type is [web] or [none].  The message of an
    index failure is kept in [error] unless the web search fails too, in
    which case the message of the web search replaces it. *)
Theorem run_without_kb_passages (env : Env.t) (question : string) :
  let top_k := Settings.TOP_K_RETRIEVAL (Env.settings env) in
  let max_results := Settings.MAX_SEARCH_RESULTS (Env.settings env) in
  let retrieved := Env.similarity_search_with_score env question top_k in
  let query :=
    fst (AnswerGenerator.reformulate_query_for_web question env) in
  let final := fst (QAWorkflow.run question env) in
  let calls := snd (QAWorkflow.run question env) in
  retrieved = Ok [] \/ (exists e, retrieved = Raise e) ->
  (GraphState.source_type final = "web"
   \/ GraphState.source_type final = "none")
  /\ (forall context q, ~ In (CallLLM (RagAnswerPrompt context q)) calls)
  /\ GraphState.rag_sources final = []
  /\ GraphState.rag_context final = None
  /\ GraphState.metadata final !! "confidence" = Some (VFloat 0)
  /\ GraphState.metadata final !! "num_sources"
     = Some (VInt (Z.of_nat (length (GraphState.web_sources final))))
  /\ GraphState.error final
     = match Env.search_and_extract env query max_results, retrieved with
       | Raise e', _ => Some e'
       | Ok _, Raise e => Some e
       | Ok _, Ok _ => None
       end.
Proof.
  cbv zeta. intros Hretrieved.
  set (s0 := GraphState.create_initial_state question).
  set (s1 := exec env Node.retrieve_kb s0).
  assert (H1 : GraphState.is_knowledge_base_sufficient s1 = false
               /\ GraphState.rag_sources s1 = []
               /\ GraphState.rag_context s1 = None
               /\ WorkflowNodes.assessment_confidence s1 = VFloat 0
               /\ GraphState.error s1
                  = match Env.similarity_search_with_score env question
                            (Settings.TOP_K_RETRIEVAL (Env.settings env)) with
                    | Raise e => Some e
                    | Ok _ => None
                    end).
  { unfold WorkflowNodes.assessment_confidence.
    destruct Hretrieved as [H | [e H]]; rewrite H.
    - destruct (FieldFacts.exec_retrieve_kb_empty env s0 H)
        as (Ha & Hb & Hc & Hd & He).
      fold s1 in Ha, Hb, Hc, Hd, He. rewrite He. repeat split; assumption.
    - destruct (FieldFacts.exec_retrieve_kb_failure env s0 e H)
        as (Ha & Hb & Hc & Hd & He).
      fold s1 in Ha, Hb, Hc, Hd, He. rewrite He. repeat split; assumption. }
  destruct H1 as (Hsuff1 & Hsrc1 & Hctx1 & Hconf1 & Herr1).
  destruct (KbPartFacts.kb_part_untouched env question s1 (or_introl eq_refl))
    as (Hq1 & _ & Hws1 & _ & _).
  destruct (PathFacts.run_cases env question)
    as [(Hsuff & _) | [(Hsuff & _) | (Hsuff & Hfst & Hsnd)]];
    fold s0 in Hsuff; fold s1 in Hsuff; try congruence.
  fold s0 in Hfst, Hsnd. fold s1 in Hfst, Hsnd.
  destruct (PathFacts.web_part_spec env s1)
    as (_ & _ & _ & Herr & Hsrc & Hcalls & Hans).
  rewrite Hq1 in Herr, Hcalls, Hans. rewrite <- Hfst in Herr, Hsrc, Hans.
  split.
  { destruct (match Env.search_and_extract env _ _ with
              | Ok rs => rs | Raise _ => [] end);
      [right | left]; apply Hans. }
  split.
  { intros context q. rewrite Hsnd, Hcalls, FieldFacts.node_calls_retrieve_kb.
    cbn [app]. intros [H | [H | [H | H]]]; try discriminate.
    destruct (match Env.search_and_extract env _ _ with
              | Ok rs => rs | Raise _ => [] end);
      [destruct H | destruct H as [H | []]; discriminate]. }
  split; [rewrite Hsrc; exact Hsrc1 |].
  split.
  { rewrite Hfst. unfold web_part.
    rewrite !FieldFacts.rag_context_preserved by discriminate. exact Hctx1. }
  split.
  { rewrite Hfst. unfold web_part.
    rewrite FieldFacts.exec_format_output_metadata.
    rewrite lookup_insert_ne by discriminate. rewrite lookup_insert_eq.
    unfold WorkflowNodes.assessment_confidence.
    rewrite !FieldFacts.relevance_assessment_preserved by discriminate.
    f_equal. exact Hconf1. }
  split.
  { rewrite Hfst. unfold web_part.
    rewrite ExecFacts.exec_format_output_num_sources.
    rewrite (ExecFacts.web_sources_preserved env Node.format_output)
      by discriminate.
    unfold WorkflowNodes.num_sources.
    rewrite !ExecFacts.rag_sources_preserved by discriminate.
    rewrite Hsrc1. reflexivity. }
  rewrite Herr, Herr1.
  destruct (Env.search_and_extract env _ _); [| reflexivity].
  destruct (Env.similarity_search_with_score env _ _); reflexivity.
Qed.

(** The index of [SampleEnv2.index_down] fails on every query. *)
Lemma run_without_kb_passages_witness :
  let env := SampleEnv2.index_down in
  let question := SampleEnv.the_question in
  let final := fst (QAWorkflow.run question env) in
  let calls := snd (QAWorkflow.run question env) in
  (GraphState.source_type final = "web"
   \/ GraphState.source_type final = "none")
  /\ (forall context q, ~ In (CallLLM (RagAnswerPrompt context q)) calls)
  /\ GraphState.rag_sources final = []
  /\ GraphState.rag_context final = None
  /\ GraphState.metadata final !! "confidence" = Some (VFloat 0)
  /\ GraphState.metadata final !! "num_sources"
     = Some (VInt (Z.of_nat (length (GraphState.web_sources final))))
  /\ GraphState.error final = Some "collection not found".
Proof.
  apply (run_without_kb_passages SampleEnv2.index_down SampleEnv.the_question).
  right. exists "collection not found". reflexivity.
Defined.

(** X10.  When retrieval finds the knowledge base sufficient and the
    model then fails on the knowledge-base prompt, the run ends on the
    knowledge-base path: the answer is the fixed apology, the source type
    is [knowledge_base], there are no citations, no web fallback takes
    place (the web searcher is not called and there is no fallback
    notification), and the failure is not recorded in [error]. *)
Theorem run_when_model_fails_on_kb_answer
    (env : Env.t) (question : string) (e : string) :
  let s1 :=
    exec env Node.retrieve_kb (GraphState.create_initial_state question) in
  let prompt := RagAnswerPrompt (GraphState.rag_context s1) question in
  let final := fst (QAWorkflow.run question env) in
  let calls := snd (QAWorkflow.run question env) in
  GraphState.is_knowledge_base_sufficient s1 = true ->
  Env.llm_invoke env prompt = Raise e ->
  GraphState.answer final
  = "I apologize, but I encountered an error generating the answer."
  /\ GraphState.source_type final = "knowledge_base"
  /\ GraphState.citations final = ""
  /\ GraphState.needs_web_fallback final = false
  /\ GraphState.error final = None
  /\ GraphState.metadata final !! "fallback_notification" = None
  /\ calls
     = [CallVectorSearch question
          (Settings.TOP_K_RETRIEVAL (Env.settings env));
        CallLLM prompt].
Proof.
  cbv zeta. intros Hsuff Hllm.
  set (s0 := GraphState.create_initial_state question) in *.
  set (s1 := exec env Node.retrieve_kb s0) in *.
  set (s2 := exec env Node.generate_rag_answer s1).
  destruct (KbPartFacts.kb_part_untouched env question s1 (or_introl eq_refl))
    as (Hq1 & _ & _ & _ & Hmeta1).
  rewrite <- Hq1 in Hllm at 1.
  pose proof (FieldFacts.kb_answer_failure env s1 e Hllm) as Hkb.
  assert (Hflag1 : GraphState.needs_web_fallback s1 = false)
    by (unfold s1; rewrite ExecFacts.flag_preserved by discriminate;
        reflexivity).
  destruct (ExecFacts.exec_generate_rag_answer env s1)
    as (Hans & _ & _ & Hflag & _).
  fold s2 in Hans, Hflag.
  rewrite Hkb in Hans. cbn [AnswerRecord.answer] in Hans.
  rewrite Hans, ExecFacts.apology_is_not_insufficient, Hflag1 in Hflag.
  cbn [orb] in Hflag.
  destruct (PathFacts.run_cases env question)
    as [(_ & _ & Hfst & Hsnd) | [(_ & Hflag' & _) | (Hsuff' & _)]];
    [| fold s0 in Hflag'; fold s1 in Hflag'; fold s2 in Hflag'; congruence
     | fold s0 in Hsuff'; fold s1 in Hsuff'; congruence].
  fold s0 in Hfst, Hsnd. fold s1 in Hfst, Hsnd. fold s2 in Hfst, Hsnd.
  destruct (KbPartFacts.kb_final env s1)
    as (Hst & Hanswer & Hcit & _ & _ & _ & _ & Herr).
  fold s2 in Hst, Hanswer, Hcit, Herr.
  rewrite Hkb in Hanswer, Hcit.
  cbn [AnswerRecord.answer AnswerRecord.citations] in Hanswer, Hcit.
  rewrite Hfst, Hsnd.
  split; [exact Hanswer |]. split; [exact Hst |]. split; [exact Hcit |].
  split.
  { rewrite ExecFacts.flag_preserved by discriminate. exact Hflag. }
  split.
  { rewrite Herr.
    pose proof (FieldFacts.exec_retrieve_kb_sufficient env s0 Hsuff) as He.
    fold s1 in He. rewrite He. reflexivity. }
  split.
  { rewrite FieldFacts.exec_format_output_metadata.
    rewrite !lookup_insert_ne by discriminate.
    unfold s2. rewrite FieldFacts.metadata_preserved by discriminate.
    rewrite Hmeta1. reflexivity. }
  rewrite FieldFacts.node_calls_retrieve_kb,
    FieldFacts.node_calls_generate_rag_answer, Hq1.
  reflexivity.
Qed.

(** The sample environment whose model is down. *)
Lemma run_when_model_fails_on_kb_answer_witness :
  let env := SampleEnv.model_down in
  let question := SampleEnv.the_question in
  let final := fst (QAWorkflow.run question env) in
  GraphState.answer final
  = "I apologize, but I encountered an error generating the answer."
  /\ GraphState.source_type final = "knowledge_base"
  /\ GraphState.citations final = ""
  /\ GraphState.needs_web_fallback final = false
  /\ GraphState.error final = None
  /\ GraphState.metadata final !! "fallback_notification" = None.
Proof.
  destruct (run_when_model_fails_on_kb_answer SampleEnv.model_down
              SampleEnv.the_question "connection refused")
    as (H1 & H2 & H3 & H4 & H5 & H6 & _).
  - vm_compute. reflexivity.
  - reflexivity.
  - repeat split; assumption.
Defined.

(** X11.  When the web search raises during the fallback, the run ends
    as if the search had found nothing: the answer is the fixed text that
    no information was found, the source type is [none], there are no web
    results and no web sources, the model is not asked for a web answer,
    and the message of the exception is stored in [error]. *)
Theorem run_when_web_search_fails
    (env : Env.t) (question : string) (e : string) :
  let query :=
    fst (AnswerGenerator.reformulate_query_for_web question env) in
  let max_results := Settings.MAX_SEARCH_RESULTS (Env.settings env) in
  let final := fst (QAWorkflow.run question env) in
  let calls := snd (QAWorkflow.run question env) in
  Env.search_and_extract env query max_results = Raise e ->
  GraphState.source_type final <> "knowledge_base" ->
  GraphState.answer final = WorkflowNodes.no_information_answer
  /\ GraphState.source_type final = "none"
  /\ GraphState.error final = Some e
  /\ GraphState.web_results final = []
  /\ GraphState.web_sources final = []
  /\ (forall text q, ~ In (CallLLM (WebAnswerPrompt text q)) calls)
  /\ In (CallWebSearch query max_results) calls.
Proof.
  cbv zeta. intros Hsearch Hst.
  set (s0 := GraphState.create_initial_state question).
  set (s1 := exec env Node.retrieve_kb s0).
  set (s2 := exec env Node.generate_rag_answer s1).
  assert (Hweb : forall state kb_calls,
            GraphState.question state = question ->
            GraphState.web_sources state = [] ->
            (forall text q, ~ In (CallLLM (WebAnswerPrompt text q)) kb_calls) ->
            fst (QAWorkflow.run question env) = web_part env state ->
            snd (QAWorkflow.run question env)
            = node_calls env Node.retrieve_kb s0 ++ kb_calls
              ++ calls_along env
                   [Node.notify_fallback; Node.search_web;
                    Node.generate_web_answer; Node.format_output] state ->
            GraphState.answer (fst (QAWorkflow.run question env))
            = WorkflowNodes.no_information_answer
            /\ GraphState.source_type (fst (QAWorkflow.run question env))
               = "none"
            /\ GraphState.error (fst (QAWorkflow.run question env)) = Some e
            /\ GraphState.web_results (fst (QAWorkflow.run question env)) = []
            /\ GraphState.web_sources (fst (QAWorkflow.run question env)) = []
            /\ (forall text q,
                  ~ In (CallLLM (WebAnswerPrompt text q))
                       (snd (QAWorkflow.run question env)))
            /\ In (CallWebSearch
                     (fst (AnswerGenerator.reformulate_query_for_web
                             question env))
                     (Settings.MAX_SEARCH_RESULTS (Env.settings env)))
                  (snd (QAWorkflow.run question env))).
  { intros state kb_calls Hq Hws Hkb Hfst Hsnd.
    destruct (PathFacts.web_part_spec env state)
      as (_ & _ & Hres & Herr & _ & Hcalls & Hans).
    rewrite Hq, Hsearch in Hres, Herr, Hcalls, Hans.
    rewrite <- Hfst in Hres, Herr, Hans.
    destruct Hans as (Ha & Hb & Hc & _).
    split; [exact Ha |]. split; [exact Hb |]. split; [exact Herr |].
    split; [exact Hres |]. split; [rewrite Hc; exact Hws |].
    rewrite Hsnd, Hcalls, FieldFacts.node_calls_retrieve_kb. split.
    - intros text q. cbn [app]. intros [H | H]; [discriminate |].
      apply in_app_or in H as [H | [H | [H | []]]];
        [exact (Hkb text q H) | discriminate | discriminate].
    - cbn [app]. right. apply in_or_app. right. right. left. reflexivity. }
  destruct (KbPartFacts.kb_part_untouched env question s1 (or_introl eq_refl))
    as (Hq1 & _ & Hws1 & _ & _).
  destruct (KbPartFacts.kb_part_untouched env question s2 (or_intror eq_refl))
    as (Hq2 & _ & Hws2 & _ & _).
  destruct (PathFacts.run_cases env question)
    as [(_ & _ & Hfst & _) | [(_ & _ & Hfst & Hsnd) | (_ & Hfst & Hsnd)]];
    fold s0 in Hfst; fold s1 in Hfst; fold s2 in Hfst.
  - exfalso. apply Hst. rewrite Hfst.
    apply (KbPartFacts.kb_final env s1).
  - fold s0 in Hsnd. fold s1 in Hsnd. fold s2 in Hsnd.
    apply (Hweb s2 (node_calls env Node.generate_rag_answer s1));
      [exact Hq2 | exact Hws2 | | exact Hfst | exact Hsnd].
    intros text q. rewrite FieldFacts.node_calls_generate_rag_answer.
    intros [H | []]. discriminate.
  - fold s0 in Hsnd. fold s1 in Hsnd.
    apply (Hweb s1 []); [exact Hq1 | exact Hws1 | | exact Hfst | exact Hsnd].
    intros text q [].
Qed.

(** Index, model and web search all fail. *)
Lemma run_when_web_search_fails_witness :
  let env := SampleEnv2.all_down in
  let question := SampleEnv.the_question in
  let final := fst (QAWorkflow.run question env) in
  GraphState.answer final = WorkflowNodes.no_information_answer
  /\ GraphState.source_type final = "none"
  /\ GraphState.error final = Some "network unreachable"
  /\ GraphState.web_results final = []
  /\ GraphState.web_sources final = [].
Proof.
  destruct (run_when_web_search_fails SampleEnv2.all_down
              SampleEnv.the_question "network unreachable")
    as (H1 & H2 & H3 & H4 & H5 & _).
  - reflexivity.
  - vm_compute. discriminate.
  - repeat split; assumption.
Defined.

(** X12.  The web sources of a run: there are at most five; the source
    at each position carries the URL and the title of the web result at
    the same position; and a run answered from the knowledge base has
    neither web results nor web sources. *)
Theorem run_web_sources (env : Env.t) (question : string) :
  let final := fst (QAWorkflow.run question env) in
  (length (GraphState.web_sources final) <= 5)%nat
  /\ (forall (i : nat) source,
        GraphState.web_sources final !! i = Some source ->
        exists result,
          GraphState.web_results final !! i = Some result
          /\ WebSource.url source = WebResult.url result
          /\ WebSource.title source = WebResult.title result)
  /\ (GraphState.source_type final = "knowledge_base" ->
      GraphState.web_results final = []
      /\ GraphState.web_sources final = []).
Proof.
  cbv zeta.
  set (s0 := GraphState.create_initial_state question).
  set (s1 := exec env Node.retrieve_kb s0).
  set (s2 := exec env Node.generate_rag_answer s1).
  assert (Hshape : forall results sources,
            sources = [] \/ sources = map web_source_of (firstn 5 results) ->
            (length sources <= 5)%nat
            /\ (forall (i : nat) source,
                  sources !! i = Some source ->
                  exists result,
                    results !! i = Some result
                    /\ WebSource.url source = WebResult.url result
                    /\ WebSource.title source = WebResult.title result)).
  { intros results sources [-> | ->].
    - split; [cbn; lia |]. intros i source H. discriminate.
    - split.
      + rewrite length_map, length_firstn. lia.
      + intros i source H. rewrite list_lookup_fmap in H.
        destruct (firstn 5 results !! i) as [result |] eqn:E;
          [| discriminate].
        injection H as <-. exists result. split; [| split; reflexivity].
        change (firstn 5 results) with (take 5 results) in E.
        apply lookup_take_Some in E. apply E. }
  assert (Hweb : forall state,
            GraphState.web_sources state = [] ->
            fst (QAWorkflow.run question env) = web_part env state ->
            GraphState.source_type (fst (QAWorkflow.run question env))
            <> "knowledge_base"
            /\ (GraphState.web_sources (fst (QAWorkflow.run question env)) = []
                \/ GraphState.web_sources (fst (QAWorkflow.run question env))
                   = map web_source_of
                       (firstn 5 (GraphState.web_results
                                    (fst (QAWorkflow.run question env)))))).
  { intros state Hws Hfst.
    destruct (PathFacts.web_part_spec env state)
      as (_ & _ & Hres & _ & _ & _ & Hans).
    rewrite <- Hfst in Hres, Hans. rewrite Hres.
    destruct (match Env.search_and_extract env _ _ with
              | Ok rs => rs | Raise _ => [] end) as [| r rest].
    - destruct Hans as (_ & Hst & Hsrc & _). rewrite Hst.
      split; [discriminate |]. left. rewrite Hsrc. exact Hws.
    - destruct Hans as (Hst & Hllm). rewrite Hst. split; [discriminate |].
      destruct (Env.llm_invoke env _);
        [right | left]; apply Hllm. }
  destruct (KbPartFacts.kb_part_untouched env question s1 (or_introl eq_refl))
    as (_ & Hwr1 & Hws1 & _ & _).
  destruct (KbPartFacts.kb_part_untouched env question s2 (or_intror eq_refl))
    as (_ & Hwr2 & Hws2 & _ & _).
  destruct (PathFacts.run_cases env question)
    as [(_ & _ & Hfst & _) | [(_ & _ & Hfst & _) | (_ & Hfst & _)]];
    fold s0 in Hfst; fold s1 in Hfst; fold s2 in Hfst.
  - destruct (KbPartFacts.kb_final env s1) as (_ & _ & _ & Hwr & Hws & _).
    fold s2 in Hwr, Hws. rewrite <- Hfst in Hwr, Hws.
    rewrite Hwr, Hws, Hwr1, Hws1.
    destruct (Hshape [] [] (or_introl eq_refl)) as [Ha Hb].
    split; [exact Ha |]. split; [exact Hb |]. intros _. split; reflexivity.
  - destruct (Hweb s2 Hws2 Hfst) as [Hst Hsrc].
    destruct (Hshape _ _ Hsrc) as [Ha Hb].
    split; [exact Ha |]. split; [exact Hb |]. intros H. contradiction.
  - destruct (Hweb s1 Hws1 Hfst) as [Hst Hsrc].
    destruct (Hshape _ _ Hsrc) as [Ha Hb].
    split; [exact Ha |]. split; [exact Hb |]. intros H. contradiction.
Qed.

(** X13.  A run answered from the knowledge base: when the index
    returns passages, the model answers the knowledge-base prompt with
    [text] and the final source type is [knowledge_base], the final
    answer is [text]; the sources are those of [get_source_metadata] on
    the passages in the order of the index, the citations are these
    sources formatted, one line per source, [num_sources] is their
    number, and no error is recorded. *)
Theorem run_answered_from_kb
    (env : Env.t) (question : string)
    (results : list (Document.t * Q)) (text : string) :
  let top_k := Settings.TOP_K_RETRIEVAL (Env.settings env) in
  let documents := map fst results in
  let context := Some (RAGRetriever.format_context documents) in
  let sources := RAGRetriever.get_source_metadata documents in
  let final := fst (QAWorkflow.run question env) in
  Env.similarity_search_with_score env question top_k = Ok results ->
  Env.llm_invoke env (RagAnswerPrompt context question) = Ok text ->
  GraphState.source_type final = "knowledge_base" ->
  GraphState.answer final = text
  /\ GraphState.rag_sources final = sources
  /\ GraphState.citations final = Citations.format_citations_pdf sources
  /\ GraphState.metadata final !! "num_sources"
     = Some (VInt (Z.of_nat (length sources)))
  /\ GraphState.error final = None.
Proof.
  cbv zeta. intros Hindex Hllm Hst.
  set (s0 := GraphState.create_initial_state question).
  set (s1 := exec env Node.retrieve_kb s0).
  set (s2 := exec env Node.generate_rag_answer s1).
  assert (Hnot : forall state,
            fst (QAWorkflow.run question env) = web_part env state -> False).
  { intros state Hfst.
    destruct (PathFacts.web_part_spec env state)
      as (_ & _ & _ & _ & _ & _ & Hans).
    rewrite <- Hfst in Hans.
    destruct (match Env.search_and_extract env _ _ with
              | Ok rs => rs | Raise _ => [] end);
      [destruct Hans as (_ & H & _) | destruct Hans as (H & _)];
      rewrite H in Hst; discriminate. }
  destruct (PathFacts.run_cases env question)
    as [(Hsuff & _ & Hfst & _) | [(_ & _ & Hfst & _) | (_ & Hfst & _)]];
    [| exfalso; exact (Hnot _ Hfst) | exfalso; exact (Hnot _ Hfst)].
  fold s0 in Hfst, Hsuff. fold s1 in Hfst, Hsuff. fold s2 in Hfst.
  destruct results as [| r rest].
  { destruct (FieldFacts.exec_retrieve_kb_empty env s0 Hindex) as (H & _).
    fold s1 in H. congruence. }
  destruct (FieldFacts.exec_retrieve_kb_results env s0 r rest Hindex)
    as (Herr1 & Hsrc1 & Hctx1).
  fold s1 in Herr1, Hsrc1, Hctx1.
  destruct (KbPartFacts.kb_part_untouched env question s1 (or_introl eq_refl))
    as (Hq1 & _ & _ & _ & _).
  assert (Hllm1 : Env.llm_invoke env
                    (RagAnswerPrompt (GraphState.rag_context s1)
                       (GraphState.question s1)) = Ok text)
    by (rewrite Hctx1, Hq1; exact Hllm).
  pose proof (FieldFacts.kb_answer_success env s1 text Hllm1) as Hkb.
  destruct (KbPartFacts.kb_final env s1)
    as (_ & Hans & Hcit & _ & _ & _ & Hsrc & Herr).
  fold s2 in Hans, Hcit, Hsrc, Herr.
  rewrite Hkb in Hans, Hcit.
  cbn [AnswerRecord.answer AnswerRecord.citations] in Hans, Hcit.
  rewrite Hsrc1 in Hcit, Hsrc. rewrite Herr1 in Herr.
  pose proof (RunFacts.kb_run_counts_kb_sources env question Hst) as Hnum.
  rewrite Hfst in Hnum |- *. rewrite Hsrc in Hnum.
  repeat split; assumption.
Qed.

(** The sample environment whose model answers from the context. *)
Lemma run_answered_from_kb_witness :
  let env := SampleEnv2.kb_answers in
  let sources :=
    RAGRetriever.get_source_metadata (map fst SampleEnv.kb_passages) in
  let final := fst (QAWorkflow.run SampleEnv.the_question env) in
  GraphState.answer final = "Paris is the capital of France [Page 3]."
  /\ GraphState.rag_sources final = sources
  /\ GraphState.citations final = Citations.format_citations_pdf sources
  /\ GraphState.metadata final !! "num_sources"
     = Some (VInt (Z.of_nat (length sources)))
  /\ GraphState.error final = None.
Proof.
  apply (run_answered_from_kb SampleEnv2.kb_answers SampleEnv.the_question
           SampleEnv.kb_passages "Paris is the capital of France [Page 3].").
  - reflexivity.
  - reflexivity.
  - vm_compute. reflexivity.
Defined.

(** ** The classifier and letter case *)

Module CaseFacts.

Import Re PyStr.

Lemma lower_char_idem x : lower_char (lower_char x) = lower_char x.
Proof. destruct x as [[] [] [] [] [] [] [] []]; reflexivity. Qed.

Lemma lower_char_newline x :
  Ascii.eqb (lower_char x) newline = Ascii.eqb x newline.
Proof. destruct x as [[] [] [] [] [] [] [] []]; reflexivity. Qed.

Lemma lower_char_isspace x : isspace (lower_char x) = isspace x.
Proof. destruct x as [[] [] [] [] [] [] [] []]; reflexivity. Qed.

Lemma cls_match_lower c x :
  cls_match true c (lower_char x) = cls_match true c x.
Proof.
  destruct c as [l | |]; cbn [cls_match].
  - rewrite lower_char_idem. reflexivity.
  - rewrite lower_char_newline. reflexivity.
  - apply lower_char_isspace.
Qed.

Lemma at_end_lower s : at_end (lower s) = at_end s.
Proof.
  destruct s as [| c [| d s]]; cbn [lower at_end]; try reflexivity.
  apply lower_char_newline.
Qed.

Section Lower.

Context {A : Type}.

Lemma star_lower c (k' k : nat -> string -> option A) :
  agree k' k -> agree (star true c k') (star true c k).
Proof.
  intros Hk pos s. revert pos.
  induction s as [| x s IH]; intros pos; cbn [lower star].
  - apply (Hk pos "").
  - rewrite cls_match_lower, IH.
    change (String (lower_char x) (lower s)) with (lower (String x s)).
    rewrite (Hk pos (String x s)). reflexivity.
Qed.

Lemma run_lower r : forall k' k : nat -> string -> option A,
  agree k' k -> agree (run true r k') (run true r k).
Proof.
  induction r as [| c | r IH | c | c | r1 IH1 r2 IH2 | r1 IH1 r2 IH2 | |];
    intros k' k Hk pos s; cbn [run].
  - apply Hk.
  - destruct s as [| x s]; cbn [lower]; [reflexivity |].
    rewrite cls_match_lower. destruct (cls_match true c x); [apply Hk |].
    reflexivity.
  - rewrite (IH k' k Hk pos s), (Hk pos s). reflexivity.
  - apply star_lower. exact Hk.
  - destruct s as [| x s]; cbn [lower]; [reflexivity |].
    rewrite cls_match_lower. destruct (cls_match true c x); [| reflexivity].
    apply star_lower. exact Hk.
  - apply IH1. apply IH2. exact Hk.
  - rewrite (IH1 k' k Hk pos s), (IH2 k' k Hk pos s). reflexivity.
  - destruct (pos =? 0)%nat; [apply Hk | reflexivity].
  - rewrite at_end_lower. destruct (at_end s); [apply Hk | reflexivity].
Qed.

End Lower.

Lemma match_at_lower r must_advance pos s :
  match_at true r must_advance pos (lower s) = match_at true r must_advance pos s.
Proof.
  unfold match_at. apply run_lower. intros p t. reflexivity.
Qed.

Lemma search_from_lower r s : forall pos,
  search_from true r pos (lower s) = search_from true r pos s.
Proof.
  induction s as [| x s IH]; intros pos.
  - reflexivity.
  - change (lower (String x s)) with (String (lower_char x) (lower s)).
    cbn [search_from].
    change (String (lower_char x) (lower s)) with (lower (String x s)).
    rewrite match_at_lower, IH. reflexivity.
Qed.

Lemma first_match_lower patterns answer :
  Classifier.first_match patterns (lower answer)
  = Classifier.first_match patterns answer.
Proof.
  induction patterns as [| p rest IH]; cbn [Classifier.first_match];
    [reflexivity |].
  unfold search. rewrite search_from_lower, IH. reflexivity.
Qed.

End CaseFacts.

(** X14.  On answers written in ASCII, the verdict of the insufficiency
    classifier does not depend on letter case: two such answers that are
    equal once put in lower case get the same verdict, and so do an
    answer and its lower-case form.  (Outside ASCII this is not so: a
    capital I with a dot above matches the letter i of a pattern, and
    its lower-case form, an i followed by a combining dot, does not.) *)
Theorem answer_indicates_insufficient_info_ignores_case (a b : string) :
  PyStr.isascii a = true ->
  PyStr.isascii b = true ->
  PyStr.lower a = PyStr.lower b ->
  Classifier._answer_indicates_insufficient_info a
  = Classifier._answer_indicates_insufficient_info b
  /\ Classifier._answer_indicates_insufficient_info (PyStr.lower a)
     = Classifier._answer_indicates_insufficient_info a.
Proof.
  intros _ _ H. unfold Classifier._answer_indicates_insufficient_info.
  split; [| apply CaseFacts.first_match_lower].
  rewrite <- (CaseFacts.first_match_lower _ a),
    <- (CaseFacts.first_match_lower _ b), H.
  reflexivity.
Qed.

(** The same refusal in capitals and in small letters. *)
Lemma answer_indicates_insufficient_info_ignores_case_witness :
  Classifier._answer_indicates_insufficient_info "I CANNOT ANSWER that."
  = Classifier._answer_indicates_insufficient_info "i cannot answer THAT."
  /\ Classifier._answer_indicates_insufficient_info
       (PyStr.lower "I CANNOT ANSWER that.")
     = Classifier._answer_indicates_insufficient_info "I CANNOT ANSWER that.".
Proof.
  apply (answer_indicates_insufficient_info_ignores_case
           "I CANNOT ANSWER that." "i cannot answer THAT.");
    reflexivity.
Defined.

(** ** The classifier and surrounding text *)

Module EmbedFacts.

(** A pattern without anchors matches a word wherever the word stands. *)
Lemma matches_anywhere i r pos w rest :
  anchor_free r = true ->
  matches i r pos w rest ->
  forall pos' rest', matches i r pos' w rest'.
Proof.
  intros Hfree Hm. induction Hm; cbn [anchor_free] in Hfree;
    intros pos' rest'; try discriminate.
  - constructor.
  - constructor. assumption.
  - apply MOptNone.
  - apply MOptSome. apply IHHm. exact Hfree.
  - constructor. assumption.
  - constructor. assumption.
  - apply andb_true_iff in Hfree as [H1 H2]. constructor.
    + apply IHHm1. exact H1.
    + apply IHHm2. exact H2.
  - apply andb_true_iff in Hfree as [H1 H2]. apply MAltL. apply IHHm. exact H1.
  - apply andb_true_iff in Hfree as [H1 H2]. apply MAltR. apply IHHm. exact H2.
Qed.

Lemma matches_in_embedded i r prefix answer suffix :
  anchor_free r = true ->
  matches_in i r answer ->
  matches_in i r (prefix +:+ answer +:+ suffix).
Proof.
  intros Hfree (before & w & rest & -> & Hm).
  exists (prefix +:+ before), w, (rest +:+ suffix). split.
  - rewrite !PyStrFacts.append_assoc. reflexivity.
  - apply (matches_anywhere i r _ w rest Hfree Hm).
Qed.

Lemma insufficient_patterns_anchor_free :
  forallb anchor_free Classifier.insufficient_patterns = true.
Proof. vm_compute. reflexivity. Qed.

End EmbedFacts.

(** X15.  The insufficiency classifier looks for its phrases anywhere in
    the answer: when it fires on a text, it fires on every text that
    contains it, whatever precedes and follows.  An answer that quotes a
    refusal inside a longer text is classified as insufficient. *)
Theorem answer_indicates_insufficient_info_embedded
    (prefix answer suffix : string) :
  Classifier._answer_indicates_insufficient_info answer = true ->
  Classifier._answer_indicates_insufficient_info
    (prefix +:+ answer +:+ suffix) = true.
Proof.
  unfold Classifier._answer_indicates_insufficient_info.
  rewrite !ClassifierFacts.first_match_spec.
  intros (pattern & Hin & Hm). exists pattern. split; [exact Hin |].
  apply EmbedFacts.matches_in_embedded; [| exact Hm].
  pose proof EmbedFacts.insufficient_patterns_anchor_free as H.
  rewrite forallb_forall in H. apply H. exact Hin.
Qed.

(** A refusal quoted inside an answer that does give the information. *)
Lemma answer_indicates_insufficient_info_embedded_witness :
  Classifier._answer_indicates_insufficient_info
    ("The manual says: " +:+ "we cannot answer"
     +:+ " billing questions by phone; write to support instead.") = true.
Proof.
  apply (answer_indicates_insufficient_info_embedded
           "The manual says: " "we cannot answer"
           " billing questions by phone; write to support instead.").
  vm_compute. reflexivity.
Defined.

(** ** The web searcher *)

Module SearcherFacts.

Import WebSearcher.

Ltac unfold_w :=
  unfold mbind, W_bind, mret, W_ret, get_world, call_weather, call_ddgs,
    call_wikipedia, call_stackoverflow in *.

Lemma firstn_length_le {A} n (l : list A) : (length (firstn n l) <= n)%nat.
Proof. rewrite length_firstn. lia. Qed.

(** The decorated [fetch_page_content] returns after its first attempt. *)
Lemma fetch_page_content_eq url world :
  fetch_page_content url world
  = (Ok (fetch_once world url 0), [CallFetch url 0]).
Proof. reflexivity. Qed.

Lemma content_for_eq hit world :
  content_for hit world
  = (Ok (expected_content world hit),
     if PyStr.is_empty (SearchHit.url hit) then []
     else [CallFetch (SearchHit.url hit) 0]).
Proof.
  unfold content_for, expected_content.
  destruct (PyStr.is_empty (SearchHit.url hit)); [reflexivity |].
  unfold_w. rewrite fetch_page_content_eq.
  destruct (fetch_once world (SearchHit.url hit) 0) as [content |];
    [destruct (PyStr.is_empty content) |]; reflexivity.
Qed.

Lemma enrich_eq hits world :
  enrich hits world
  = (Ok (map (fun hit =>
                Hit.of_search_hit hit (Some (expected_content world hit)))
             hits),
     map (fun url => CallFetch url 0) (urls_to_fetch hits)).
Proof.
  induction hits as [| hit rest IH]; [reflexivity |].
  cbn [enrich]. unfold mbind, W_bind. rewrite content_for_eq.
  fold (enrich rest). rewrite IH. unfold mret, W_ret.
  unfold urls_to_fetch. cbn [map List.filter].
  destruct (PyStr.is_empty (SearchHit.url hit)); cbn [negb app map];
    rewrite app_nil_r; reflexivity.
Qed.

Lemma search_hit_of_search_hit hit content :
  Hit.search_hit (Hit.of_search_hit hit content) = hit.
Proof. destruct hit. reflexivity. Qed.

Lemma fetched_urls_fetches urls :
  fetched_urls (map (fun url => CallFetch url 0) urls) = urls.
Proof.
  induction urls as [| u urls IH]; [reflexivity |].
  cbn. unfold fetched_urls in IH. rewrite IH. reflexivity.
Qed.

Lemma search_eq query max_results world :
  let n := effective_max_results max_results (World.max_results world) in
  let weather := weather_hits world query in
  let ddg := omap keep_raw (fst (World.ddgs_text world query n)) in
  let wiki := World._search_wikipedia world query n in
  let so := World._search_stackoverflow world query n in
  search query max_results world
  = (firstn n (first_nonempty [weather; ddg; wiki; so]),
     match weather_city query with
     | Some city => [CallWeather city]
     | None => []
     end
     ++ match weather with
        | _ :: _ => []
        | [] =>
            CallDuckDuckGo query n
            :: match ddg with
               | _ :: _ => []
               | [] =>
                   CallWikipedia query n
                   :: match wiki with
                      | _ :: _ => []
                      | [] => [CallStackOverflow query n]
                      end
               end
        end).
Proof.
  cbv zeta. unfold search, weather_hits, _search_duckduckgo. unfold_w.
  set (n := effective_max_results max_results (World.max_results world)).
  cbv beta iota zeta. fold n.
  destruct (weather_city query) as [city |];
    [destruct (World._search_weather world city) as [| w ws] |];
    cbv beta iota zeta; cbn [fst snd app first_nonempty];
    try (rewrite app_nil_r; reflexivity);
    (destruct (World.ddgs_text world query n) as [items raised];
     cbv beta iota zeta; cbn [fst snd];
     destruct (omap keep_raw items) as [| d ds];
     [destruct (World._search_wikipedia world query n) as [| k ks];
      [destruct (World._search_stackoverflow world query n) as [| o os] |] |]);
    cbv beta iota zeta; cbn [fst snd app first_nonempty];
    rewrite ?firstn_nil; reflexivity.
Qed.

Lemma search_and_extract_eq query max_results world :
  let hits := fst (search query max_results world) in
  search_and_extract query max_results true world
  = (Ok (map (fun hit =>
                Hit.of_search_hit hit (Some (expected_content world hit)))
             hits),
     snd (search query max_results world)
     ++ map (fun url => CallFetch url 0) (urls_to_fetch hits)).
Proof.
  cbv zeta. unfold search_and_extract. unfold mbind, W_bind.
  destruct (search query max_results world) as [hits calls].
  rewrite enrich_eq. reflexivity.
Qed.

Lemma omap_length_le {A B} (f : A -> option B) l :
  (length (omap f l) <= length l)%nat.
Proof.
  induction l as [| x l IH]; [reflexivity |].
  cbn. destruct (f x); cbn; lia.
Qed.

Lemma search_duckduckgo_eq query n world :
  _search_duckduckgo query n world
  = (omap keep_raw (fst (World.ddgs_text world query n)),
     [CallDuckDuckGo query n]).
Proof.
  unfold _search_duckduckgo. unfold_w.
  destruct (World.ddgs_text world query n) as [items raised]. reflexivity.
Qed.

(** The hits are made of the items that have a link, one for one. *)
Lemma kept_items items :
  Forall2 hit_of_item (List.filter has_link items) (omap keep_raw items).
Proof.
  induction items as [| item items IH]; [constructor |].
  assert (Hcases :
    (has_link item = true
     /\ exists hit, keep_raw item = Some hit /\ hit_of_item item hit)
    \/ (has_link item = false /\ keep_raw item = None)).
  { unfold has_link, keep_raw, hit_of_item.
    destruct (RawResult.href item) as [[| c url] |]; cbn.
    - right. split; reflexivity.
    - left. split; [reflexivity |]. eexists. split; [reflexivity |].
      cbn. repeat split.
    - right. split; reflexivity. }
  change (omap keep_raw (item :: items))
    with (match keep_raw item with
          | Some hit => hit :: omap keep_raw items
          | None => omap keep_raw items
          end).
  cbn [List.filter].
  destruct Hcases as [(-> & hit & -> & Hhit) | (-> & ->)];
    [constructor; assumption | exact IH].
Qed.

Lemma or_default_nonempty value default :
  default <> "" -> or_default value default <> "".
Proof.
  intros H. unfold or_default. destruct value as [s |]; [| exact H].
  destruct s; cbn; [exact H | discriminate].
Qed.

Lemma keep_raw_Some r h :
  keep_raw r = Some h ->
  SearchHit.url h <> "" /\ SearchHit.title h <> ""
  /\ RawResult.href r = Some (SearchHit.url h).
Proof.
  unfold keep_raw.
  destruct (or_default (RawResult.href r) "") as [| c url] eqn:E;
    cbn [PyStr.is_empty]; [discriminate |].
  intros H. injection H as <-. cbn.
  split; [discriminate |].
  split; [apply or_default_nonempty; discriminate |].
  unfold or_default in E. destruct (RawResult.href r) as [s |];
    [| discriminate].
  destruct s; cbn in E; [discriminate |]. congruence.
Qed.

Lemma fetch_once_length world url attempt text :
  fetch_once world url attempt = Some text ->
  (String.length text <= World.MAX_WEB_CONTENT_LENGTH world)%nat.
Proof.
  unfold fetch_once.
  destruct (World.page_text world url attempt) as [page | e]; [| discriminate].
  cbv zeta.
  destruct (Nat.ltb_spec (World.MAX_WEB_CONTENT_LENGTH world)
              (String.length (clean_lines page)));
    intros Hsome; injection Hsome as <-; [| assumption].
  rewrite PyStrFacts.slice_to_length. lia.
Qed.

End SearcherFacts.

(** X16.  [WebSearcher.search] returns the hits of the first provider
    that has any, in the order weather (only for a query that asks for
    the current weather), DuckDuckGo, Wikipedia, StackOverflow, cut to
    the number of results asked for; a provider is consulted exactly when
    every provider before it returned nothing.  A request for no result
    limit or for 0 results gets the default number of results. *)
Theorem search_uses_first_provider_with_results
    (world : World.t) (query : string) (max_results : option nat) :
  let n :=
    WebSearcher.effective_max_results max_results (World.max_results world) in
  let weather := weather_hits world query in
  let ddg := fst (WebSearcher._search_duckduckgo query n world) in
  let wiki := World._search_wikipedia world query n in
  let so := World._search_stackoverflow world query n in
  let '(hits, calls) := WebSearcher.search query max_results world in
  hits = firstn n (first_nonempty [weather; ddg; wiki; so])
  /\ (length hits <= n)%nat
  /\ (max_results = None \/ max_results = Some 0%nat ->
      n = World.max_results world)
  /\ (forall city,
        In (CallWeather city) calls <->
        WebSearcher.weather_city query = Some city)
  /\ (In (CallDuckDuckGo query n) calls <-> weather = [])
  /\ (In (CallWikipedia query n) calls <-> weather = [] /\ ddg = [])
  /\ (In (CallStackOverflow query n) calls <->
      weather = [] /\ ddg = [] /\ wiki = []).
Proof.
  cbv zeta. rewrite SearcherFacts.search_eq, SearcherFacts.search_duckduckgo_eq.
  cbn [fst].
  set (n := WebSearcher.effective_max_results max_results _).
  split; [reflexivity |].
  split; [apply SearcherFacts.firstn_length_le |].
  split; [intros [-> | ->]; reflexivity |].
  unfold weather_hits.
  destruct (WebSearcher.weather_city query) as [city |];
    [destruct (World._search_weather world city) as [| w ws] |];
    (destruct (omap WebSearcher.keep_raw (fst (World.ddgs_text world query n)))
       as [| d ds];
     [destruct (World._search_wikipedia world query n) as [| k ks];
      [destruct (World._search_stackoverflow world query n) as [| o os] |] |]);
    cbn [app In]; repeat split; intros; intuition (discriminate || congruence).
Qed.

(** X17.  [_search_duckduckgo] returns one hit for each item that has a
    link, in the order of the items and as many times as the item
    occurs, and nothing else: the hit has the link of the item as its URL,
    the title of the item or "No Title", and the body of the item or the
    empty snippet.  So every hit has a non-empty URL and a non-empty
    title; the items produced before an exception are kept. *)
Theorem search_duckduckgo_hits_have_url_and_title
    (world : World.t) (query : string) (max_results : nat) :
  let items := fst (World.ddgs_text world query max_results) in
  let '(hits, calls) :=
    WebSearcher._search_duckduckgo query max_results world in
  calls = [CallDuckDuckGo query max_results]
  /\ Forall2 WebSearcher.hit_of_item
       (List.filter WebSearcher.has_link items) hits
  /\ (length hits <= length items)%nat
  /\ (forall hit, In hit hits ->
        SearchHit.url hit <> "" /\ SearchHit.title hit <> ""
        /\ exists item, In item items
             /\ RawResult.href item = Some (SearchHit.url hit))
  /\ (forall item,
        In item items ->
        (exists url, RawResult.href item = Some url /\ url <> "") ->
        exists hit, In hit hits
          /\ RawResult.href item = Some (SearchHit.url hit)).
Proof.
  cbv zeta. rewrite SearcherFacts.search_duckduckgo_eq.
  split; [reflexivity |].
  split; [apply SearcherFacts.kept_items |].
  split; [apply SearcherFacts.omap_length_le |].
  split.
  - intros hit Hin. apply list_elem_of_In, list_elem_of_omap in Hin
      as (item & Hitem & Hkeep).
    destruct (SearcherFacts.keep_raw_Some item hit Hkeep) as (H1 & H2 & H3).
    split; [exact H1 |]. split; [exact H2 |].
    exists item. split; [apply list_elem_of_In; exact Hitem | exact H3].
  - intros item Hin (url & Hhref & Hurl).
    destruct (WebSearcher.keep_raw item) as [hit |] eqn:Hkeep.
    + exists hit. split.
      * apply list_elem_of_In, list_elem_of_omap. exists item.
        split; [apply list_elem_of_In; exact Hin | exact Hkeep].
      * apply (SearcherFacts.keep_raw_Some item hit Hkeep).
    + exfalso. unfold WebSearcher.keep_raw in Hkeep. rewrite Hhref in Hkeep.
      cbn [WebSearcher.or_default] in Hkeep.
      destruct url; [congruence | cbn in Hkeep; discriminate].
Qed.

(** X18.  [fetch_page_content] never raises and, although it is
    decorated with [retry_on_failure(max_retries=2)], makes a single
    attempt: its body catches every exception and returns [None], so
    the decorator never sees a failure.  The text it returns has at most
    [MAX_WEB_CONTENT_LENGTH] characters; it returns [None] exactly when
    fetching or parsing the page failed at that attempt. *)
Theorem fetch_page_content_single_attempt (world : World.t) (url : string) :
  let '(outcome, calls) := WebSearcher.fetch_page_content url world in
  calls = [CallFetch url 0]
  /\ exists content,
       outcome = Ok content
       /\ (forall text, content = Some text ->
             (String.length text <= World.MAX_WEB_CONTENT_LENGTH world)%nat)
       /\ (content = None <->
           exists e, World.page_text world url 0 = Raise e).
Proof.
  rewrite SearcherFacts.fetch_page_content_eq.
  split; [reflexivity |]. eexists. split; [reflexivity |].
  split.
  { intros text Ht. apply (SearcherFacts.fetch_once_length world url 0).
    exact Ht. }
  unfold WebSearcher.fetch_once.
  destruct (World.page_text world url 0) as [text | e].
  - cbv zeta. split.
    + destruct (_ <? _)%nat; discriminate.
    + intros [e He]. discriminate.
  - split; [eauto | reflexivity].
Qed.

(** X19.  [search_and_extract] with [extract_content=True] does not
    raise; it returns the hits of [search] in the same order, with title,
    URL and snippet unchanged, each with a content: the text of its page
    when the hit has a URL and a non-empty text could be extracted, its
    snippet otherwise.  After the search it fetches the page of every
    hit that has a URL, once, in order.  With [extract_content=False] it
    returns the hits without content and fetches nothing. *)
Theorem search_and_extract_enriches_hits
    (world : World.t) (query : string) (max_results : option nat) :
  let '(hits, search_calls) := WebSearcher.search query max_results world in
  let '(outcome, calls) :=
    WebSearcher.search_and_extract query max_results true world in
  (exists enriched,
     outcome = Ok enriched
     /\ map Hit.search_hit enriched = hits
     /\ (forall (i : nat) h,
           enriched !! i = Some h ->
           Hit.content h = Some (expected_content world (Hit.search_hit h))))
  /\ calls
     = search_calls ++ map (fun url => CallFetch url 0) (urls_to_fetch hits)
  /\ WebSearcher.search_and_extract query max_results false world
     = (Ok (map (fun h => Hit.of_search_hit h None) hits), search_calls).
Proof.
  pose proof (SearcherFacts.search_and_extract_eq query max_results world)
    as Heq.
  cbv zeta in Heq. unfold WebSearcher.search_and_extract at 2.
  unfold mbind, W_bind.
  destruct (WebSearcher.search query max_results world) as [hits search_calls].
  cbn [fst snd] in Heq. rewrite Heq.
  split; [| split; [reflexivity |]].
  - eexists. split; [reflexivity |]. split.
    + rewrite map_map. erewrite map_ext; [apply map_id |].
      intros h. apply SearcherFacts.search_hit_of_search_hit.
    + intros i h Hi. rewrite list_lookup_fmap in Hi.
      destruct (hits !! i) as [hit |]; [| discriminate].
      injection Hi as <-. cbn [Hit.content].
      rewrite SearcherFacts.search_hit_of_search_hit. reflexivity.
  - unfold mret, W_ret. rewrite app_nil_r. reflexivity.
Qed.

(** X20.  A workflow whose web searcher is [WebSearcher], created under
    the same settings: in every run the state holds at most
    [MAX_SEARCH_RESULTS] web results; each of them has a content, which
    is its snippet or a non-empty text of at most
    [MAX_WEB_CONTENT_LENGTH] characters; and since this searcher does not
    raise, an [error] in the final state can only be the message of a
    failure of the index.  The index is taken to return distances that
    are not negative, as the retriever expects of it. *)
Theorem run_with_web_searcher
    (settings : Settings.t)
    (similarity_search_with_score :
       string -> nat -> result (list (Document.t * Q)))
    (llm_invoke : Prompt -> result string) (world : World.t)
    (question : string) :
  World.max_results world = Settings.MAX_SEARCH_RESULTS settings ->
  distances_not_negative similarity_search_with_score question
    (Settings.TOP_K_RETRIEVAL settings) ->
  let env := deployed settings similarity_search_with_score llm_invoke world in
  let final := fst (QAWorkflow.run question env) in
  (length (GraphState.web_results final)
   <= Settings.MAX_SEARCH_RESULTS settings)%nat
  /\ (forall r, In r (GraphState.web_results final) ->
        WebResult.content r = WebResult.snippet r
        \/ (WebResult.content r <> ""
            /\ (String.length (WebResult.content r)
                <= World.MAX_WEB_CONTENT_LENGTH world)%nat))
  /\ (forall e, GraphState.error final = Some e ->
        similarity_search_with_score question
          (Settings.TOP_K_RETRIEVAL settings) = Raise e).
Proof.
  intros Hmax _ env final.
  set (s0 := GraphState.create_initial_state question).
  set (s1 := exec env Node.retrieve_kb s0).
  set (s2 := exec env Node.generate_rag_answer s1).
  assert (Herr1 : forall e, GraphState.error s1 = Some e ->
            similarity_search_with_score question
              (Settings.TOP_K_RETRIEVAL settings) = Raise e).
  { intros e He.
    destruct (Env.similarity_search_with_score env (GraphState.question s0)
                (Settings.TOP_K_RETRIEVAL (Env.settings env)))
      as [[| r rest] | e'] eqn:E.
    - destruct (FieldFacts.exec_retrieve_kb_empty env s0 E) as (_ & H & _).
      fold s1 in H. rewrite H in He. discriminate.
    - destruct (FieldFacts.exec_retrieve_kb_results env s0 r rest E)
        as (H & _).
      fold s1 in H. rewrite H in He. discriminate.
    - destruct (FieldFacts.exec_retrieve_kb_failure env s0 e' E)
        as (_ & H & _).
      fold s1 in H. rewrite H in He. injection He as <-. exact E. }
  assert (Herr2 : GraphState.error s2 = GraphState.error s1)
    by (apply FieldFacts.error_preserved; discriminate).
  assert (Hweb : forall state,
            GraphState.error state = GraphState.error s1 ->
            final = web_part env state ->
            (length (GraphState.web_results final)
             <= Settings.MAX_SEARCH_RESULTS settings)%nat
            /\ (forall r, In r (GraphState.web_results final) ->
                  WebResult.content r = WebResult.snippet r
                  \/ (WebResult.content r <> ""
                      /\ (String.length (WebResult.content r)
                          <= World.MAX_WEB_CONTENT_LENGTH world)%nat))
            /\ (forall e, GraphState.error final = Some e ->
                  similarity_search_with_score question
                    (Settings.TOP_K_RETRIEVAL settings) = Raise e)).
  { intros state Herr Hfinal.
    destruct (PathFacts.web_part_spec env state)
      as (_ & _ & Hres & Herror & _).
    rewrite <- Hfinal in Hres, Herror.
    cbn [Env.search_and_extract Env.settings env deployed] in Hres, Herror.
    unfold web_searcher_oracle in Hres, Herror.
    rewrite SearcherFacts.search_and_extract_eq in Hres, Herror.
    cbn [fst] in Hres, Herror.
    set (query := fst (AnswerGenerator.reformulate_query_for_web _ _)) in *.
    pose proof (SearcherFacts.search_eq query
                  (Some (Settings.MAX_SEARCH_RESULTS settings)) world) as Hs.
    cbv zeta in Hs. rewrite Hs in Hres. cbn [fst] in Hres.
    rewrite Hres, Herror, Herr. split; [| split; [| exact Herr1]].
    - rewrite !length_map.
      etransitivity; [apply SearcherFacts.firstn_length_le |].
      unfold WebSearcher.effective_max_results. rewrite Hmax.
      destruct (Settings.MAX_SEARCH_RESULTS settings); lia.
    - intros r Hr. apply in_map_iff in Hr as (h & <- & Hh).
      apply in_map_iff in Hh as (hit & <- & _).
      cbn [as_web_result Hit.content Hit.snippet Hit.of_search_hit
           WebResult.content WebResult.snippet].
      unfold expected_content.
      destruct (PyStr.is_empty (SearchHit.url hit)); [left; reflexivity |].
      destruct (WebSearcher.fetch_once world (SearchHit.url hit) 0)
        as [content |] eqn:Efetch; [| left; reflexivity].
      destruct content as [| c content]; [left; reflexivity |].
      right. split; [discriminate |].
      apply (SearcherFacts.fetch_once_length world (SearchHit.url hit) 0).
      exact Efetch. }
  destruct (PathFacts.run_cases env question)
    as [(_ & _ & Hfst & _) | [(_ & _ & Hfst & _) | (_ & Hfst & _)]];
    fold s0 in Hfst; fold s1 in Hfst; fold s2 in Hfst; fold final in Hfst.
  - destruct (KbPartFacts.kb_final env s1)
      as (_ & _ & _ & Hwr & _ & _ & _ & Herr).
    fold s2 in Hwr, Herr. rewrite <- Hfst in Hwr, Herr.
    destruct (KbPartFacts.kb_part_untouched env question s1
                (or_introl eq_refl)) as (_ & Hwr1 & _).
    fold s0 in Hwr1. fold s1 in Hwr1.
    rewrite Hwr, Hwr1, Herr. cbn [length In].
    split; [lia |]. split; [intros r [] | exact Herr1].
  - apply (Hweb s2 Herr2 Hfst).
  - apply (Hweb s1 eq_refl Hfst).
Qed.

(** A deployment over the sample network. *)
Lemma run_with_web_searcher_witness :
  let env :=
    deployed Settings.defaults SampleEnv2.passages SampleEnv.llm_down
      SampleWorld.ddg_only in
  let final := fst (QAWorkflow.run SampleEnv.the_question env) in
  (length (GraphState.web_results final)
   <= Settings.MAX_SEARCH_RESULTS Settings.defaults)%nat
  /\ (forall r, In r (GraphState.web_results final) ->
        WebResult.content r = WebResult.snippet r
        \/ (WebResult.content r <> ""
            /\ (String.length (WebResult.content r)
                <= World.MAX_WEB_CONTENT_LENGTH SampleWorld.ddg_only)%nat))
  /\ (forall e, GraphState.error final = Some e ->
        SampleEnv2.passages SampleEnv.the_question
          (Settings.TOP_K_RETRIEVAL Settings.defaults) = Raise e).
Proof.
  apply (run_with_web_searcher Settings.defaults SampleEnv2.passages
           SampleEnv.llm_down SampleWorld.ddg_only SampleEnv.the_question).
  - reflexivity.
  - intros results Hresults. injection Hresults as <-.
    repeat constructor; discriminate.
Defined.

(** ** The PDF loader *)

Module LoaderFacts.

Import PDFLoader.

Lemma page_number_page_document name total page_num text :
  page_number (page_document name total page_num text)
  = Some (Z.of_nat page_num).
Proof. reflexivity. Qed.

Lemma page_of_page_document name total page_num text :
  page_of (page_document name total page_num text) = SInt (Z.of_nat page_num).
Proof. reflexivity. Qed.

(** Every loaded document is the document of a page with text. *)
Lemma load_pages_In name total pages : forall page_num doc,
  In doc (load_pages name total page_num pages) ->
  exists (k : nat) text,
    pages !! k = Some (Some text)
    /\ has_text (Some text) = true
    /\ doc = page_document name total (page_num + k) text.
Proof.
  induction pages as [| text rest IH]; intros page_num doc Hin;
    [destruct Hin |].
  cbn [load_pages] in Hin.
  assert (Hrest : In doc (load_pages name total (S page_num) rest) ->
            exists (k : nat) text0,
              (text :: rest) !! k = Some (Some text0)
              /\ has_text (Some text0) = true
              /\ doc = page_document name total (page_num + k) text0).
  { intros H. destruct (IH _ _ H) as (k & t & Hk & Ht & ->).
    exists (S k), t. split; [exact Hk |]. split; [exact Ht |].
    f_equal. lia. }
  destruct text as [t |]; [| exact (Hrest Hin)].
  destruct (has_text (Some t)) eqn:E; [| exact (Hrest Hin)].
  destruct Hin as [<- | Hin]; [| exact (Hrest Hin)].
  exists 0%nat, t. split; [reflexivity |]. split; [exact E |].
  rewrite Nat.add_0_r. reflexivity.
Qed.

(** No page with text is left out. *)
Lemma load_pages_length name total pages : forall page_num,
  length (load_pages name total page_num pages)
  = length (List.filter has_text pages).
Proof.
  induction pages as [| text rest IH]; intros page_num; [reflexivity |].
  cbn [load_pages List.filter]. specialize (IH (S page_num)).
  destruct text as [t |]; [| cbn [has_text]; exact IH].
  destruct (has_text (Some t)); cbn [length]; rewrite IH; reflexivity.
Qed.

Lemma load_pages_complete name total pages :
  forall page_num (k : nat) text,
    pages !! k = Some (Some text) ->
    has_text (Some text) = true ->
    In (page_document name total (page_num + k) text)
       (load_pages name total page_num pages).
Proof.
  induction pages as [| page rest IH]; intros page_num k text Hk Ht;
    [discriminate |].
  cbn [load_pages]. destruct k as [| k].
  - injection Hk as ->. rewrite Ht, Nat.add_0_r. left. reflexivity.
  - replace (page_num + S k)%nat with (S page_num + k)%nat by lia.
    pose proof (IH (S page_num) k text Hk Ht) as Hin.
    destruct page as [t |]; [| exact Hin].
    destruct (has_text (Some t)); [right |]; exact Hin.
Qed.

(** The loaded documents are in the order of their pages. *)
Lemma load_pages_increasing name total pages : forall page_num (i j : nat) di dj,
  (i < j)%nat ->
  load_pages name total page_num pages !! i = Some di ->
  load_pages name total page_num pages !! j = Some dj ->
  exists p q, page_number di = Some p /\ page_number dj = Some q
              /\ (Z.of_nat page_num <= p < q)%Z.
Proof.
  induction pages as [| text rest IH]; intros page_num i j di dj Hij Hi Hj;
    [discriminate |].
  cbn [load_pages] in Hi, Hj.
  assert (Hrest : forall i j,
            (i < j)%nat ->
            load_pages name total (S page_num) rest !! i = Some di ->
            load_pages name total (S page_num) rest !! j = Some dj ->
            exists p q, page_number di = Some p /\ page_number dj = Some q
                        /\ (Z.of_nat page_num <= p < q)%Z).
  { intros i' j' Hij' Hi' Hj'.
    destruct (IH _ _ _ _ _ Hij' Hi' Hj') as (p & q & Hp & Hq & Hpq).
    exists p, q. repeat split; try assumption; lia. }
  destruct text as [t |]; [| exact (Hrest i j Hij Hi Hj)].
  destruct (has_text (Some t)); [| exact (Hrest i j Hij Hi Hj)].
  destruct j as [| j]; [lia |]. cbn in Hj.
  destruct i as [| i].
  - cbn in Hi. injection Hi as <-.
    apply list_elem_of_lookup_2, list_elem_of_In, load_pages_In in Hj
      as (k & t' & _ & _ & ->).
    exists (Z.of_nat page_num), (Z.of_nat (S page_num + k)).
    rewrite !page_number_page_document. repeat split; lia.
  - cbn in Hi. apply (Hrest i j); [lia | assumption | assumption].
Qed.

(** Documents with true and pairwise different pages are all kept by
    the loop of [get_source_metadata]. *)
Lemma kept_all docs : forall seen_pages,
  (forall d, In d docs ->
     Scalar.truthy (page_of d) = true
     /\ RAGRetriever.seen (page_of d) seen_pages = false) ->
  (forall (i j : nat) di dj,
     (i < j)%nat -> docs !! i = Some di -> docs !! j = Some dj ->
     Scalar.eqb (page_of dj) (page_of di) = false) ->
  kept seen_pages docs = docs.
Proof.
  induction docs as [| d rest IH]; intros seen_pages Hin Hdiff;
    [reflexivity |].
  cbn [kept]. destruct (Hin d (or_introl eq_refl)) as [-> ->]. cbn [andb negb].
  f_equal. apply IH.
  - intros d' Hd'. destruct (Hin d' (or_intror Hd')) as [Ht Hs].
    split; [exact Ht |]. rewrite SourceFacts.seen_app, Hs. cbn [orb].
    unfold RAGRetriever.seen. cbn [existsb]. rewrite orb_false_r.
    apply list_elem_of_In, list_elem_of_lookup_1 in Hd' as [j Hj].
    apply (Hdiff 0%nat (S j) d d' ltac:(lia) eq_refl Hj).
  - intros i j di dj Hij Hi Hj.
    apply (Hdiff (S i) (S j) di dj ltac:(lia) Hi Hj).
Qed.

Lemma page_of_number doc p :
  page_number doc = Some p -> page_of doc = SInt p.
Proof.
  unfold page_number, page_of, Document.get.
  destruct (Document.metadata doc !! "page") as [[| | z |] |];
    try discriminate.
  intros H. injection H as <-. reflexivity.
Qed.

End LoaderFacts.

(** X21.  [load_pdf]: a missing file raises [FileNotFoundError] with the
    path in its message, and a failure of the PDF library is passed on.
    Otherwise the documents are those of pages that have text other than
    white space, in page order: they carry the name of the file, the
    total number of pages of the file, and page numbers that count from 1
    and increase strictly, so no two documents share a page; pages
    without text leave gaps in the numbering.  When the text of the pages
    is ASCII, no page with text is left out: each one gives its document,
    and there are as many documents as pages with text. *)
Theorem load_pdf_pages_in_order (pdf : PDFLoader.Pdf) :
  (PDFLoader.file_exists pdf = false ->
   PDFLoader.load_pdf pdf
   = Raise ("PDF file not found: " +:+ PDFLoader.path pdf))
  /\ (forall e,
        PDFLoader.file_exists pdf = true -> PDFLoader.pages pdf = Raise e ->
        PDFLoader.load_pdf pdf = Raise e)
  /\ (forall pages,
        PDFLoader.file_exists pdf = true -> PDFLoader.pages pdf = Ok pages ->
        exists documents,
          PDFLoader.load_pdf pdf = Ok documents
          /\ (length documents <= length pages)%nat
          /\ (forall doc, In doc documents ->
                exists (p : nat),
                  (1 <= p <= length pages)%nat
                  /\ pages !! (p - 1)%nat = Some (Some (Document.page_content doc))
                  /\ PyStr.strip (Document.page_content doc) <> ""
                  /\ Document.metadata doc !! "page" = Some (SInt (Z.of_nat p))
                  /\ Document.metadata doc !! "total_pages"
                     = Some (SInt (Z.of_nat (length pages)))
                  /\ Document.metadata doc !! "source"
                     = Some (SStr (PDFLoader.name pdf)))
          /\ (forall (i j : nat) di dj,
                (i < j)%nat ->
                documents !! i = Some di -> documents !! j = Some dj ->
                exists p q,
                  PDFLoader.page_number di = Some p
                  /\ PDFLoader.page_number dj = Some q /\ (p < q)%Z)
          /\ ((forall text, In (Some text) pages ->
                  PyStr.isascii text = true) ->
              length documents
              = length (List.filter PDFLoader.has_text pages)
              /\ forall (k : nat) text,
                   pages !! k = Some (Some text) ->
                   PDFLoader.has_text (Some text) = true ->
                   In (PDFLoader.page_document (PDFLoader.name pdf)
                         (length pages) (S k) text) documents)).
Proof.
  unfold PDFLoader.load_pdf. split; [intros ->; reflexivity |].
  split; [intros e -> ->; reflexivity |].
  intros pages -> ->. cbn [negb]. eexists. split; [reflexivity |].
  split.
  { generalize (length pages) at 1. generalize 1%nat.
    induction pages as [| text rest IH]; intros a total; [reflexivity |].
    cbn [PDFLoader.load_pages length]. specialize (IH (S a) total).
    destruct text as [t |]; [destruct (PDFLoader.has_text (Some t)) |];
      cbn [length]; lia. }
  split.
  - intros doc Hin.
    apply LoaderFacts.load_pages_In in Hin as (k & text & Hk & Ht & ->).
    exists (1 + k)%nat.
    pose proof (lookup_lt_Some _ _ _ Hk) as Hlt.
    split; [lia |].
    replace (1 + k - 1)%nat with k by lia.
    split; [exact Hk |]. split.
    + cbn [PDFLoader.page_document Document.page_content].
      cbn [PDFLoader.has_text] in Ht. apply andb_true_iff in Ht as [_ Ht].
      destruct (PyStr.strip text); [discriminate | discriminate].
    + repeat split.
  - split.
    { intros i j di dj Hij Hi Hj.
      destruct (LoaderFacts.load_pages_increasing _ _ _ _ _ _ _ _ Hij Hi Hj)
        as (p & q & Hp & Hq & Hpq).
      exists p, q. repeat split; try assumption; lia. }
    intros _. split; [apply LoaderFacts.load_pages_length |].
    intros k text Hk Ht.
    apply (LoaderFacts.load_pages_complete _ _ _ 1 k text Hk Ht).
Qed.

(** X22.  The sources of a loaded PDF: [get_source_metadata] applied to
    the documents of [load_pdf] drops none of them.  It returns one
    source per document, in order, with the page of the document, since
    the loader numbers pages from 1 and gives every document its own
    page. *)
Theorem get_source_metadata_of_loaded_pdf
    (pdf : PDFLoader.Pdf) (documents : list Document.t) :
  PDFLoader.load_pdf pdf = Ok documents ->
  let sources := RAGRetriever.get_source_metadata documents in
  length sources = length documents
  /\ map RagSource.page sources = map page_of documents
  /\ (forall (i : nat) doc,
        documents !! i = Some doc ->
        exists source,
          sources !! i = Some source
          /\ RagSource.source source = SStr (PDFLoader.name pdf)
          /\ RagSource.preview source
             = PyStr.slice_to 200 (Document.page_content doc) +:+ "...").
Proof.
  unfold PDFLoader.load_pdf.
  destruct (PDFLoader.file_exists pdf); cbn [negb]; [| discriminate].
  destruct (PDFLoader.pages pdf) as [pages | e]; [| discriminate].
  intros H. injection H as <-. cbv zeta.
  set (documents := PDFLoader.load_pages _ _ _ _).
  assert (Hkept : kept [] documents = documents).
  { apply LoaderFacts.kept_all.
    - intros d Hd.
      apply LoaderFacts.load_pages_In in Hd as (k & text & _ & _ & ->).
      rewrite LoaderFacts.page_of_page_document. cbn [Scalar.truthy].
      split; [| reflexivity].
      apply negb_true_iff, Z.eqb_neq. lia.
    - intros i j di dj Hij Hi Hj.
      destruct (LoaderFacts.load_pages_increasing _ _ _ _ _ _ _ _ Hij Hi Hj)
        as (p & q & Hp & Hq & Hpq).
      rewrite (LoaderFacts.page_of_number _ _ Hp),
        (LoaderFacts.page_of_number _ _ Hq).
      unfold Scalar.eqb. cbn [Scalar.as_int]. apply Z.eqb_neq. lia. }
  rewrite SourceFacts.get_source_metadata_kept, Hkept.
  split; [apply length_map |].
  split; [rewrite map_map; reflexivity |].
  intros i doc Hi. exists (RAGRetriever.source_entry doc).
  split; [rewrite list_lookup_fmap, Hi; reflexivity |].
  split; [| reflexivity].
  apply list_elem_of_lookup_2, list_elem_of_In, LoaderFacts.load_pages_In in Hi
    as (k & text & _ & _ & ->).
  reflexivity.
Qed.

(** The sample report: pages 1 and 3 have text. *)
Lemma get_source_metadata_of_loaded_pdf_witness :
  exists documents,
    PDFLoader.load_pdf SamplePdf.report = Ok documents
    /\ length (RAGRetriever.get_source_metadata documents) = length documents
    /\ map RagSource.page (RAGRetriever.get_source_metadata documents)
       = [SInt 1; SInt 3].
Proof.
  eexists. split; [reflexivity |].
  destruct (get_source_metadata_of_loaded_pdf SamplePdf.report _ eq_refl)
    as (H1 & H2 & _).
  split; [exact H1 |]. rewrite H2. reflexivity.
Defined.

(** X23.  [chunk_documents] numbers the chunks of the splitter from 0 in
    [chunk_index], leaving their text and their other metadata as they
    are; but when the splitter returns no chunk it raises
    [ZeroDivisionError] (from the average it logs) instead of returning
    the empty list.  So [process_pdf] raises on a PDF none of whose pages
    has text, whenever the splitter makes no chunk out of no document. *)
Theorem chunk_documents_indexes_or_divides_by_zero
    (split_documents : list Document.t -> result (list Document.t))
    (documents : list Document.t) :
  (split_documents documents = Ok [] ->
   PDFLoader.chunk_documents split_documents documents
   = Raise "division by zero")
  /\ (forall chunk chunks,
        split_documents documents = Ok (chunk :: chunks) ->
        exists indexed,
          PDFLoader.chunk_documents split_documents documents = Ok indexed
          /\ length indexed = length (chunk :: chunks)
          /\ forall (i : nat) c,
               (chunk :: chunks) !! i = Some c ->
               exists c',
                 indexed !! i = Some c'
                 /\ Document.page_content c' = Document.page_content c
                 /\ Document.metadata c' !! "chunk_index"
                    = Some (SInt (Z.of_nat i))
                 /\ forall key, key <> "chunk_index" ->
                      Document.metadata c' !! key = Document.metadata c !! key)
  /\ (forall pdf pages,
        PDFLoader.file_exists pdf = true ->
        PDFLoader.pages pdf = Ok pages ->
        (forall text, In text pages -> PDFLoader.has_text text = false) ->
        split_documents [] = Ok [] ->
        PDFLoader.process_pdf split_documents pdf = Raise "division by zero").
Proof.
  unfold PDFLoader.chunk_documents. split; [intros ->; reflexivity |].
  split.
  - intros chunk chunks ->. eexists. split; [reflexivity |].
    split; [apply (length_imap PDFLoader.with_chunk_index (chunk :: chunks)) |].
    intros i c Hi. exists (PDFLoader.with_chunk_index i c).
    split.
    { change (imap PDFLoader.with_chunk_index (chunk :: chunks) !! i
              = Some (PDFLoader.with_chunk_index i c)).
      rewrite list_lookup_imap, Hi. reflexivity. }
    split; [reflexivity |]. split.
    + apply lookup_insert_eq.
    + intros key Hkey. cbn [PDFLoader.with_chunk_index Document.metadata].
      apply lookup_insert_ne. congruence.
  - intros pdf pages Hexists Hpages Hblank Hsplit.
    unfold PDFLoader.process_pdf, PDFLoader.load_pdf.
    rewrite Hexists, Hpages. cbn [negb].
    assert (E : forall a total, PDFLoader.load_pages (PDFLoader.name pdf) total a pages = []).
    { clear Hpages. induction pages as [| text rest IH]; intros a total;
        [reflexivity |].
      cbn [PDFLoader.load_pages].
      rewrite (IH (fun t Ht => Hblank t (or_intror Ht))).
      destruct text as [t |]; [| reflexivity].
      rewrite (Hblank (Some t) (or_introl eq_refl)). reflexivity. }
    rewrite E. unfold PDFLoader.chunk_documents. rewrite Hsplit. reflexivity.
Qed.

(** The sample scan has two pages without text. *)
Lemma chunk_documents_indexes_or_divides_by_zero_witness :
  PDFLoader.process_pdf SamplePdf.one_chunk_each SamplePdf.scan
  = Raise "division by zero".
Proof.
  destruct (chunk_documents_indexes_or_divides_by_zero
              SamplePdf.one_chunk_each []) as (_ & _ & H).
  apply (H SamplePdf.scan [Some "  "; None]).
  - reflexivity.
  - reflexivity.
  - intros text [<- | [<- | []]]; reflexivity.
  - reflexivity.
Defined.

(** ** Shape of the rule-based reformulation *)

Module ShapeFacts.

Import PyStr Rule.

Lemma lower_length s : String.length (lower s) = String.length s.
Proof. induction s as [| c s IH]; cbn; [reflexivity | rewrite IH; reflexivity]. Qed.

Lemma lstrip_length p s : (String.length (lstrip p s) <= String.length s)%nat.
Proof.
  induction s as [| c s IH]; cbn; [lia |].
  destruct (p c); cbn; lia.
Qed.

Lemma rstrip_length p s : (String.length (rstrip p s) <= String.length s)%nat.
Proof.
  induction s as [| c s IH]; cbn; [lia |].
  destruct (is_empty (rstrip p s) && p c); cbn; lia.
Qed.

Lemma strip_length s : (String.length (strip s) <= String.length s)%nat.
Proof.
  unfold strip, strip_by.
  etransitivity; [apply rstrip_length | apply lstrip_length].
Qed.

Lemma after_prefix_length word : forall s r,
  after_prefix word s = Some r -> (String.length r <= String.length s)%nat.
Proof.
  induction word as [| a word IH]; intros s r H; cbn in H.
  - injection H as <-. lia.
  - destruct s as [| b s]; [discriminate |].
    destruct (Ascii.eqb b a); [| discriminate].
    apply IH in H. cbn. lia.
Qed.

Lemma after_word_length word s r :
  after_word word s = Some r -> (String.length r <= String.length s)%nat.
Proof.
  unfold after_word.
  destruct (after_prefix word s) as [[| c rest] |] eqn:E; try discriminate.
  destruct (isspace c); [| discriminate].
  intros H. injection H as <-.
  apply after_prefix_length in E. cbn in E.
  pose proof (lstrip_length isspace rest). lia.
Qed.

Lemma without_interrogative_length s :
  (String.length (without_interrogative s) <= String.length s)%nat.
Proof.
  unfold without_interrogative.
  generalize interrogatives as words.
  induction words as [| word words IH]; cbn [after_first_word]; [lia |].
  destruct (after_word word s) as [r |] eqn:E; [| exact IH].
  apply (after_word_length word s r E).
Qed.

Lemma without_question_mark_length s :
  (String.length (without_question_mark s) <= String.length s)%nat.
Proof.
  induction s as [| c s IH]; cbn; [lia |].
  destruct (Ascii.eqb c "?" && Re.at_end s); cbn; lia.
Qed.

(** Texts without capital letters. *)
Lemma lower_idem s : lower (lower s) = lower s.
Proof.
  induction s as [| c s IH]; cbn; [reflexivity |].
  rewrite CaseFacts.lower_char_idem, IH. reflexivity.
Qed.

Lemma lower_cons c s :
  lower (String c s) = String c s <-> lower_char c = c /\ lower s = s.
Proof.
  cbn. split; [intros H; injection H; auto | intros [-> ->]; reflexivity].
Qed.

Lemma lstrip_lower p s : lower s = s -> lower (lstrip p s) = lstrip p s.
Proof.
  induction s as [| c s IH]; intros H; [reflexivity |].
  cbn [lstrip]. destruct (p c); [| exact H].
  apply IH. apply lower_cons in H. apply H.
Qed.

Lemma rstrip_lower p s : lower s = s -> lower (rstrip p s) = rstrip p s.
Proof.
  induction s as [| c s IH]; intros H; [reflexivity |].
  apply lower_cons in H as [Hc Hs]. cbn [rstrip].
  destruct (is_empty (rstrip p s) && p c); [reflexivity |].
  apply lower_cons. split; [exact Hc | apply IH; exact Hs].
Qed.

Lemma after_prefix_lower word : forall s r,
  after_prefix word s = Some r -> lower s = s -> lower r = r.
Proof.
  induction word as [| a word IH]; intros s r H Hs; cbn in H.
  - injection H as <-. exact Hs.
  - destruct s as [| b s]; [discriminate |].
    destruct (Ascii.eqb b a); [| discriminate].
    apply lower_cons in Hs. apply (IH s r H). apply Hs.
Qed.

Lemma without_interrogative_lower s :
  lower s = s -> lower (without_interrogative s) = without_interrogative s.
Proof.
  intros Hs. unfold without_interrogative.
  generalize interrogatives as words.
  induction words as [| word words IH]; cbn [after_first_word]; [exact Hs |].
  destruct (after_word word s) as [r |] eqn:E; [| exact IH].
  unfold after_word in E.
  destruct (after_prefix word s) as [[| c rest] |] eqn:E'; try discriminate.
  destruct (isspace c); [| discriminate].
  injection E as <-. apply lstrip_lower.
  apply (after_prefix_lower word s _ E') in Hs. apply lower_cons in Hs.
  apply Hs.
Qed.

Lemma without_question_mark_lower s :
  lower s = s -> lower (without_question_mark s) = without_question_mark s.
Proof.
  induction s as [| c s IH]; intros H; [reflexivity |].
  apply lower_cons in H as [Hc Hs]. cbn [without_question_mark].
  destruct (Ascii.eqb c "?" && Re.at_end s); [exact Hs |].
  apply lower_cons. split; [exact Hc | apply IH; exact Hs].
Qed.

(** Stripping twice. *)
Lemma rstrip_idem p s : rstrip p (rstrip p s) = rstrip p s.
Proof.
  induction s as [| c s IH]; [reflexivity |].
  cbn [rstrip].
  destruct (is_empty (rstrip p s) && p c) eqn:E; [reflexivity |].
  cbn [rstrip]. rewrite IH, E. reflexivity.
Qed.

Lemma lstrip_rstrip_lstrip p s :
  lstrip p (rstrip p (lstrip p s)) = rstrip p (lstrip p s).
Proof.
  induction s as [| c s IH]; [reflexivity |].
  cbn [lstrip]. destruct (p c) eqn:E; [exact IH |].
  cbn [rstrip]. rewrite E, andb_false_r. cbn [lstrip]. rewrite E.
  reflexivity.
Qed.

Lemma strip_idem s : strip (strip s) = strip s.
Proof.
  unfold strip, strip_by. rewrite lstrip_rstrip_lstrip. apply rstrip_idem.
Qed.

End ShapeFacts.

(** X24.  The rule-based reformulation [_simple_reformulation] of a
    question written in ASCII, which is the web query whenever the model
    fails to reformulate: it is never longer than the question, it has no
    capital letter, and it has no white space at either end.  (Outside
    ASCII [str.lower] can lengthen a text.) *)
Theorem simple_reformulation_shape (env : Env.t) (question : string) :
  PyStr.isascii question = true ->
  let query := AnswerGenerator._simple_reformulation question in
  (String.length query <= String.length question)%nat
  /\ PyStr.lower query = query
  /\ PyStr.strip query = query
  /\ (forall e,
        Env.llm_invoke env (ReformulationPrompt question) = Raise e ->
        fst (AnswerGenerator.reformulate_query_for_web question env) = query).
Proof.
  intros _. cbv zeta. split; [| split; [| split]].
  - rewrite SubFacts.simple_reformulation_in_words. unfold Rule.reformulation.
    etransitivity; [apply ShapeFacts.strip_length |].
    etransitivity; [apply ShapeFacts.without_question_mark_length |].
    etransitivity; [apply ShapeFacts.without_interrogative_length |].
    rewrite ShapeFacts.lower_length. lia.
  - rewrite SubFacts.simple_reformulation_in_words. unfold Rule.reformulation.
    unfold PyStr.strip, PyStr.strip_by.
    apply ShapeFacts.rstrip_lower, ShapeFacts.lstrip_lower,
      ShapeFacts.without_question_mark_lower,
      ShapeFacts.without_interrogative_lower, ShapeFacts.lower_idem.
  - rewrite SubFacts.simple_reformulation_in_words. unfold Rule.reformulation.
    apply ShapeFacts.strip_idem.
  - intros e He. apply (ReformulationFacts.reformulate_failure question env e He).
Qed.

(** The sample question, with the model down. *)
Lemma simple_reformulation_shape_witness :
  let question := SampleEnv.the_question in
  let env := SampleEnv.model_down in
  let query := AnswerGenerator._simple_reformulation question in
  (String.length query <= String.length question)%nat
  /\ PyStr.lower query = query
  /\ PyStr.strip query = query
  /\ (forall e,
        Env.llm_invoke env (ReformulationPrompt question) = Raise e ->
        fst (AnswerGenerator.reformulate_query_for_web question env) = query).
Proof.
  apply (simple_reformulation_shape SampleEnv.model_down
           SampleEnv.the_question).
  reflexivity.
Defined.

(** ** The test suite *)

Module MetricsFacts.

Import TestSuite.
Local Open Scope Q_scope.

Lemma of_nat_pos n : (0 < n)%nat -> 0 < PyFloat.of_nat n.
Proof.
  intros H. unfold PyFloat.of_nat. change 0 with (inject_Z 0).
  rewrite <- Zlt_Qlt. lia.
Qed.

Lemma of_nat_le m n : (m <= n)%nat -> PyFloat.of_nat m <= PyFloat.of_nat n.
Proof. intros H. unfold PyFloat.of_nat. rewrite <- Zle_Qle. lia. Qed.

Lemma ratio_bounds a b : (a <= b)%nat -> 0 <= ratio a b <= 1.
Proof.
  intros H. unfold ratio. destruct b as [| b]; [lra |].
  pose proof (of_nat_pos (S b) ltac:(lia)) as Hb.
  pose proof (of_nat_le a (S b) H) as Hab.
  pose proof (of_nat_le 0 a ltac:(lia)) as Ha.
  change (PyFloat.of_nat 0) with 0 in Ha.
  split.
  - apply Qle_shift_div_l; [exact Hb | lra].
  - apply Qle_shift_div_r; [exact Hb | lra].
Qed.

Lemma ratio_times a b :
  (a <= b)%nat -> ratio a b * PyFloat.of_nat b == PyFloat.of_nat a.
Proof.
  intros H. unfold ratio. destruct b as [| b].
  - replace a with 0%nat by lia. change (PyFloat.of_nat 0) with 0. ring.
  - pose proof (of_nat_pos (S b) ltac:(lia)). field. lra.
Qed.

Lemma count_le p results : (count p results <= length results)%nat.
Proof. unfold count. apply List.filter_length_le. Qed.

Lemma of_nat_add a b :
  PyFloat.of_nat (a + b) == PyFloat.of_nat a + PyFloat.of_nat b.
Proof.
  unfold PyFloat.of_nat. rewrite Nat2Z.inj_add, inject_Z_plus. reflexivity.
Qed.

(** Results that all expect one of two different sources split into the
    two groups. *)
Lemma count_split p results :
  (forall r, In r results ->
     expected_source r = "knowledge_base" \/ expected_source r = "web") ->
  count p results
  = (count p (List.filter (expects "knowledge_base") results)
     + count p (List.filter (expects "web") results))%nat.
Proof.
  unfold count, expects.
  induction results as [| r rs IH]; intros H; [reflexivity |].
  specialize (IH (fun r' Hr' => H r' (or_intror Hr'))).
  cbn [List.filter].
  destruct (H r (or_introl eq_refl)) as [E | E]; rewrite E.
  - change (String.eqb "knowledge_base" "knowledge_base") with true.
    change (String.eqb "knowledge_base" "web") with false.
    cbv iota. cbn [List.filter].
    destruct (p r); cbn [length]; lia.
  - change (String.eqb "web" "knowledge_base") with false.
    change (String.eqb "web" "web") with true.
    cbv iota. cbn [List.filter].
    destruct (p r); cbn [length]; lia.
Qed.

Lemma filter_two_groups results :
  (length (List.filter (expects "knowledge_base") results)
   + length (List.filter (expects "web") results) <= length results)%nat.
Proof.
  unfold expects.
  induction results as [| r rs IH]; [reflexivity |].
  cbn [List.filter].
  destruct (String.eqb_spec (expected_source r) "knowledge_base") as [E | _].
  - rewrite E. change (String.eqb "knowledge_base" "web") with false.
    cbv iota. cbn [length]. lia.
  - destruct (String.eqb (expected_source r) "web"); cbn [length]; lia.
Qed.

Lemma count_map_all {A} p (f : A -> TestResult) l :
  (forall x, p (f x) = true) -> count p (map f l) = length (map f l).
Proof.
  intros Hp. unfold count. induction l as [| x l IH]; [reflexivity |].
  cbn [map List.filter]. rewrite Hp. cbn [length]. rewrite IH. reflexivity.
Qed.

Lemma count_map_none {A} p (f : A -> TestResult) l :
  (forall x, p (f x) = false) -> count p (map f l) = 0%nat.
Proof.
  intros Hp. unfold count. induction l as [| x l IH]; [reflexivity |].
  cbn [map List.filter]. rewrite Hp. exact IH.
Qed.

Lemma calculate_metrics_given stored results now :
  results <> [] ->
  exists m,
    calculate_metrics stored (Some results) now = Some m
    /\ overall_accuracy m
       = ratio (count source_correct results) (length results)
    /\ error_rate m = ratio (count has_error results) (length results).
Proof.
  intros H. destruct results as [| r rs]; [congruence |].
  eexists. split; [reflexivity |]. split; reflexivity.
Qed.

End MetricsFacts.

(** X25.  [calculate_metrics] returns the empty dict exactly when there
    is no result to report, neither given nor stored.  Otherwise every
    accuracy and the error rate lie between 0 and 1, and the tests
    expecting the knowledge base and those expecting the web are together
    at most all the tests. *)
Theorem calculate_metrics_rates
    (stored : list TestSuite.TestResult)
    (given : option (list TestSuite.TestResult)) (now : string) :
  let results :=
    match given with Some (r :: rs) => r :: rs | _ => stored end in
  match TestSuite.calculate_metrics stored given now with
  | None => results = []
  | Some m =>
      results <> []
      /\ TestSuite.total_tests m = length results
      /\ (0 <= TestSuite.overall_accuracy m <= 1)%Q
      /\ (0 <= TestSuite.error_rate m <= 1)%Q
      /\ (0 <= TestSuite.knowledge_base_accuracy m <= 1)%Q
      /\ (0 <= TestSuite.web_accuracy m <= 1)%Q
      /\ (0 <= TestSuite.concept_coverage_accuracy m <= 1)%Q
      /\ (TestSuite.knowledge_base_tests m + TestSuite.web_tests m
          <= TestSuite.total_tests m)%nat
  end.
Proof.
  cbv zeta. unfold TestSuite.calculate_metrics.
  set (results := match given with Some (r :: rs) => r :: rs | _ => stored end).
  clearbody results.
  destruct results as [| r rs] eqn:Eres; [reflexivity |].
  rewrite <- Eres. cbn [TestSuite.total_tests TestSuite.overall_accuracy
    TestSuite.error_rate TestSuite.knowledge_base_accuracy
    TestSuite.web_accuracy TestSuite.concept_coverage_accuracy
    TestSuite.knowledge_base_tests TestSuite.web_tests].
  split; [rewrite Eres; discriminate |].
  split; [reflexivity |].
  split; [apply MetricsFacts.ratio_bounds, MetricsFacts.count_le |].
  split; [apply MetricsFacts.ratio_bounds, MetricsFacts.count_le |].
  split; [apply MetricsFacts.ratio_bounds, MetricsFacts.count_le |].
  split; [apply MetricsFacts.ratio_bounds, MetricsFacts.count_le |].
  split; [apply MetricsFacts.ratio_bounds, MetricsFacts.count_le |].
  apply MetricsFacts.filter_two_groups.
Qed.

(** X26.  [run_test_case] on a system that has been set up never
    records an error: the result carries the source type of the
    response, which is [knowledge_base], [web] or [none], and the source
    is counted correct exactly when it equals the expected one.  On a
    system that has not been set up every result has the error of [ask],
    the source [error] and is counted incorrect, so the metrics of a
    non-empty run report accuracy 0 and error rate 1. *)
Theorem run_all_tests_on_system
    (env : Env.t) (elapsed : Q) (test_cases : list TestSuite.TestCase)
    (now : string) :
  (forall r,
     In r (TestSuite.run_all_tests (Some env) elapsed test_cases) ->
     TestSuite.error r = None
     /\ (TestSuite.actual_source r = "knowledge_base"
         \/ TestSuite.actual_source r = "web"
         \/ TestSuite.actual_source r = "none")
     /\ (TestSuite.source_correct r = true <->
         TestSuite.actual_source r = TestSuite.expected_source r))
  /\ (forall r,
        In r (TestSuite.run_all_tests None elapsed test_cases) ->
        TestSuite.error r = Some "System not initialized. Call setup() first."
        /\ TestSuite.actual_source r = "error"
        /\ TestSuite.source_correct r = false)
  /\ (test_cases <> [] ->
      exists m,
        TestSuite.calculate_metrics []
          (Some (TestSuite.run_all_tests None elapsed test_cases)) now
        = Some m
        /\ (TestSuite.overall_accuracy m == 0)%Q
        /\ (TestSuite.error_rate m == 1)%Q).
Proof.
  split; [| split].
  - intros r Hr. unfold TestSuite.run_all_tests in Hr.
    apply in_map_iff in Hr as (test_case & <- & _).
    unfold TestSuite.run_test_case.
    destruct (AskFacts.ask_set_up env (TestSuite.case_question test_case))
      as (response & Hask & _ & Hst & _).
    destruct (QASystem.ask (Some env) (TestSuite.case_question test_case))
      as [outcome calls].
    cbn [fst] in Hask. subst outcome.
    cbn [fst TestSuite.error TestSuite.actual_source TestSuite.source_correct
         TestSuite.expected_source].
    split; [reflexivity |]. split; [exact Hst |].
    apply String.eqb_eq.
  - intros r Hr. unfold TestSuite.run_all_tests in Hr.
    apply in_map_iff in Hr as (test_case & <- & _).
    repeat split.
  - intros Hne.
    set (results := TestSuite.run_all_tests None elapsed test_cases).
    assert (Hlen : length results = length test_cases)
      by apply length_map.
    assert (Hres : results <> [])
      by (destruct test_cases; [congruence | discriminate]).
    destruct (MetricsFacts.calculate_metrics_given [] results now Hres)
      as (m & Hm & Hacc & Herr).
    exists m. split; [exact Hm |]. rewrite Hacc, Herr.
    unfold results at 1 3. unfold TestSuite.run_all_tests.
    rewrite MetricsFacts.count_map_none by reflexivity.
    rewrite MetricsFacts.count_map_all by reflexivity.
    fold (TestSuite.run_all_tests None elapsed test_cases). fold results.
    assert (Hpos : (0 < length results)%nat)
      by (destruct results; [congruence | cbn; lia]).
    pose proof (MetricsFacts.of_nat_pos _ Hpos) as Hq.
    unfold TestSuite.ratio. destruct (length results) as [| n]; [lia |].
    change (PyFloat.of_nat 0) with 0%Q. split; field; lra.
Qed.

(** A set-up system and one that was not set up, on one test case. *)
Lemma run_all_tests_on_system_witness :
  let test_cases :=
    [TestSuite.mk_case "kb_001" SampleEnv.the_question "knowledge_base" None] in
  (forall r,
     In r (TestSuite.run_all_tests (Some SampleEnv2.kb_answers) 1 test_cases) ->
     TestSuite.error r = None)
  /\ exists m,
       TestSuite.calculate_metrics []
         (Some (TestSuite.run_all_tests None 1 test_cases)) "2024-01-01"
       = Some m
       /\ (TestSuite.overall_accuracy m == 0)%Q
       /\ (TestSuite.error_rate m == 1)%Q.
Proof.
  intros test_cases.
  destruct (run_all_tests_on_system SampleEnv2.kb_answers 1 test_cases
              "2024-01-01") as (Hup & _ & Hdown).
  split.
  - intros r Hr. apply (Hup r Hr).
  - apply Hdown. discriminate.
Defined.

(** The sample report: three pages, the second without text. *)
Lemma load_pdf_pages_in_order_witness :
  exists documents,
    PDFLoader.load_pdf SamplePdf.report = Ok documents
    /\ (length documents <= 3)%nat
    /\ length documents = 2%nat
    /\ map PDFLoader.page_number documents = [Some 1%Z; Some 3%Z].
Proof.
  destruct (load_pdf_pages_in_order SamplePdf.report) as (_ & _ & H).
  destruct (H [Some "Introduction"; None; Some "Results"] eq_refl eq_refl)
    as (documents & Hload & Hlen & _ & _ & Hall).
  exists documents. split; [exact Hload |]. split; [exact Hlen |].
  split.
  - apply Hall. intros text [E | [E | [E | []]]]; try discriminate;
      injection E as <-; reflexivity.
  - injection Hload as <-. reflexivity.
Defined.

(** X27.  The [error] of the final state of a run is the message of a
    failure of the index or of the web search, and of nothing else: a
    failure of the model, on any of its three prompts, is never recorded
    there.  When both the index and the web search fail, the message of
    the web search is the one that remains.  The index is taken to return
    distances that are not negative, as the retriever expects of it. *)
Theorem run_error_origin (env : Env.t) (question : string) :
  distances_not_negative (Env.similarity_search_with_score env) question
    (Settings.TOP_K_RETRIEVAL (Env.settings env)) ->
  let top_k := Settings.TOP_K_RETRIEVAL (Env.settings env) in
  let max_results := Settings.MAX_SEARCH_RESULTS (Env.settings env) in
  let retrieved := Env.similarity_search_with_score env question top_k in
  let query :=
    fst (AnswerGenerator.reformulate_query_for_web question env) in
  let searched := Env.search_and_extract env query max_results in
  let final := fst (QAWorkflow.run question env) in
  let index_error :=
    match retrieved with Raise e => Some e | Ok _ => None end in
  (GraphState.source_type final = "knowledge_base" ->
   GraphState.error final = None)
  /\ (GraphState.source_type final <> "knowledge_base" ->
      GraphState.error final
      = match searched with
        | Raise e => Some e
        | Ok _ => index_error
        end)
  /\ (forall e,
        GraphState.error final = Some e ->
        retrieved = Raise e \/ searched = Raise e).
Proof.
  intros _. cbv zeta.
  set (s0 := GraphState.create_initial_state question).
  set (s1 := exec env Node.retrieve_kb s0).
  set (s2 := exec env Node.generate_rag_answer s1).
  set (index_error :=
         match Env.similarity_search_with_score env question _ with
         | Raise e => Some e
         | Ok _ => None
         end).
  assert (Herr1 : GraphState.error s1 = index_error).
  { unfold index_error.
    destruct (Env.similarity_search_with_score env (GraphState.question s0)
                (Settings.TOP_K_RETRIEVAL (Env.settings env)))
      as [[| r rest] | e'] eqn:E; cbn [GraphState.question s0
        GraphState.create_initial_state] in E; rewrite E.
    - apply (FieldFacts.exec_retrieve_kb_empty env s0 E).
    - apply (FieldFacts.exec_retrieve_kb_results env s0 r rest E).
    - apply (FieldFacts.exec_retrieve_kb_failure env s0 e' E). }
  assert (Hsuff1 : GraphState.is_knowledge_base_sufficient s1 = true ->
                   index_error = None).
  { intros H. rewrite <- Herr1.
    pose proof (FieldFacts.exec_retrieve_kb_sufficient env s0 H) as He.
    fold s1 in He. rewrite He. reflexivity. }
  assert (Herr2 : GraphState.error s2 = GraphState.error s1)
    by (apply FieldFacts.error_preserved; discriminate).
  destruct (KbPartFacts.kb_part_untouched env question s1 (or_introl eq_refl))
    as (Hq1 & _).
  destruct (KbPartFacts.kb_part_untouched env question s2 (or_intror eq_refl))
    as (Hq2 & _).
  assert (Hweb : forall state,
            GraphState.question state = question ->
            GraphState.error state = index_error ->
            fst (QAWorkflow.run question env) = web_part env state ->
            GraphState.source_type (fst (QAWorkflow.run question env))
            <> "knowledge_base"
            /\ GraphState.error (fst (QAWorkflow.run question env))
               = match Env.search_and_extract env
                         (fst (AnswerGenerator.reformulate_query_for_web
                                 question env))
                         (Settings.MAX_SEARCH_RESULTS (Env.settings env)) with
                 | Raise e => Some e
                 | Ok _ => index_error
                 end).
  { intros state Hq Herr Hfst.
    destruct (PathFacts.web_part_spec env state)
      as (_ & _ & _ & Herror & _ & _ & Hans).
    rewrite Hq in Herror, Hans. rewrite <- Hfst in Herror, Hans.
    rewrite Herror, Herr. split.
    - destruct (match Env.search_and_extract env _ _ with
                | Ok rs => rs | Raise _ => [] end);
        [destruct Hans as (_ & -> & _) | destruct Hans as (-> & _)];
        discriminate.
    - destruct (Env.search_and_extract env _ _); reflexivity. }
  assert (Hcases :
            (GraphState.source_type (fst (QAWorkflow.run question env))
             = "knowledge_base"
             /\ GraphState.error (fst (QAWorkflow.run question env)) = None)
            \/ (GraphState.source_type (fst (QAWorkflow.run question env))
                <> "knowledge_base"
                /\ GraphState.error (fst (QAWorkflow.run question env))
                   = match Env.search_and_extract env
                             (fst (AnswerGenerator.reformulate_query_for_web
                                     question env))
                             (Settings.MAX_SEARCH_RESULTS (Env.settings env))
                     with
                     | Raise e => Some e
                     | Ok _ => index_error
                     end)).
  { destruct (PathFacts.run_cases env question)
      as [(Hsuff & _ & Hfst & _) | [(_ & _ & Hfst & _) | (_ & Hfst & _)]];
      fold s0 in Hfst; fold s1 in Hfst; fold s2 in Hfst.
    - left. fold s0 in Hsuff. fold s1 in Hsuff.
      destruct (KbPartFacts.kb_final env s1)
        as (Hst & _ & _ & _ & _ & _ & _ & Herr).
      fold s2 in Hst, Herr. rewrite Hfst.
      split; [exact Hst |]. rewrite Herr, Herr1. apply Hsuff1. exact Hsuff.
    - right. apply (Hweb s2 Hq2); [rewrite Herr2; exact Herr1 | exact Hfst].
    - right. apply (Hweb s1 Hq1 Herr1 Hfst). }
  split; [| split].
  - intros Hst. destruct Hcases as [[_ H] | [H _]]; [exact H | contradiction].
  - intros Hst. destruct Hcases as [[H _] | [_ H]]; [contradiction | exact H].
  - intros e He.
    destruct Hcases as [[_ H] | [_ H]]; rewrite H in He; [discriminate |].
    destruct (Env.search_and_extract env _ _) as [rs | e'].
    + left. unfold index_error in He.
      destruct (Env.similarity_search_with_score env question _);
        [discriminate | injection He as <-; reflexivity].
    + right. injection He as <-. reflexivity.
Qed.

(** The run in which the model says that the context is not enough. *)
Lemma run_error_origin_witness :
  let env := SampleEnv.fallback_to_web in
  let question := SampleEnv.the_question in
  let top_k := Settings.TOP_K_RETRIEVAL (Env.settings env) in
  let max_results := Settings.MAX_SEARCH_RESULTS (Env.settings env) in
  let retrieved := Env.similarity_search_with_score env question top_k in
  let query :=
    fst (AnswerGenerator.reformulate_query_for_web question env) in
  let searched := Env.search_and_extract env query max_results in
  let final := fst (QAWorkflow.run question env) in
  let index_error :=
    match retrieved with Raise e => Some e | Ok _ => None end in
  (GraphState.source_type final = "knowledge_base" ->
   GraphState.error final = None)
  /\ (GraphState.source_type final <> "knowledge_base" ->
      GraphState.error final
      = match searched with
        | Raise e => Some e
        | Ok _ => index_error
        end)
  /\ (forall e,
        GraphState.error final = Some e ->
        retrieved = Raise e \/ searched = Raise e).
Proof.
  apply (run_error_origin SampleEnv.fallback_to_web SampleEnv.the_question).
  intros results Hresults. injection Hresults as <-.
  repeat constructor; discriminate.
Defined.

(** ** The query cleaner of the web searcher *)

Module CleanFacts.

Import PyStr.

Lemma remove_char_absent c s : mem_char c (remove_char c s) = false.
Proof.
  induction s as [| d s IH]; [reflexivity |].
  cbn [remove_char]. destruct (Ascii.eqb d c) eqn:E; [exact IH |].
  cbn [mem_char]. rewrite IH, orb_false_r.
  rewrite Ascii.eqb_sym. exact E.
Qed.

Lemma remove_char_length c s :
  (String.length (remove_char c s) <= String.length s)%nat.
Proof.
  induction s as [| d s IH]; cbn; [lia |].
  destruct (Ascii.eqb d c); cbn; lia.
Qed.

Lemma remove_char_nothing c s :
  mem_char c s = false -> remove_char c s = s.
Proof.
  induction s as [| d s IH]; intros H; [reflexivity |].
  cbn [mem_char] in H. apply orb_false_iff in H as [Hd Hs].
  cbn [remove_char]. rewrite Ascii.eqb_sym, Hd, (IH Hs). reflexivity.
Qed.

End CleanFacts.

(** X28.  [WebSearcher.reformulate_query] without context, on a query
    written in ASCII, returns a query that contains no question mark and
    is no longer than the original; a query that has no question mark is only stripped of the
    white space around it.  Since the white space is stripped before the
    question marks are removed, white space that stood before a final
    question mark remains at the end. *)
Theorem reformulate_query_removes_question_marks (original_query : string) :
  PyStr.isascii original_query = true ->
  let query := WebSearcher.reformulate_query original_query "" in
  PyStr.mem_char "?" query = false
  /\ (String.length query <= String.length original_query)%nat
  /\ (PyStr.mem_char "?" original_query = false ->
      query = PyStr.strip original_query)
  /\ WebSearcher.reformulate_query "Who wrote it ?" "" = "Who wrote it ".
Proof.
  intros _. cbv zeta. unfold WebSearcher.reformulate_query. cbn [PyStr.is_empty].
  split; [apply CleanFacts.remove_char_absent |].
  split.
  { etransitivity; [apply CleanFacts.remove_char_length |].
    apply ShapeFacts.strip_length. }
  split; [| vm_compute; reflexivity].
  intros H. apply CleanFacts.remove_char_nothing.
  assert (Hsub : forall p s, PyStr.mem_char "?" s = false ->
            PyStr.mem_char "?" (PyStr.lstrip p s) = false
            /\ PyStr.mem_char "?" (PyStr.rstrip p s) = false).
  { intros p s. induction s as [| d s IH]; intros Hs; [split; reflexivity |].
    cbn [PyStr.mem_char] in Hs. apply orb_false_iff in Hs as [Hd Hs'].
    destruct (IH Hs') as [IH1 IH2]. split.
    - cbn [PyStr.lstrip]. destruct (p d); [exact IH1 |].
      cbn [PyStr.mem_char]. rewrite Hd, Hs'. reflexivity.
    - cbn [PyStr.rstrip].
      destruct (PyStr.is_empty (PyStr.rstrip p s) && p d); [reflexivity |].
      cbn [PyStr.mem_char]. rewrite Hd, IH2. reflexivity. }
  unfold PyStr.strip, PyStr.strip_by.
  apply Hsub. apply Hsub. exact H.
Qed.

(** A query with white space before its question mark. *)
Lemma reformulate_query_removes_question_marks_witness :
  let original_query := "Who wrote it ?" in
  let query := WebSearcher.reformulate_query original_query "" in
  PyStr.mem_char "?" query = false
  /\ (String.length query <= String.length original_query)%nat
  /\ (PyStr.mem_char "?" original_query = false ->
      query = PyStr.strip original_query)
  /\ WebSearcher.reformulate_query "Who wrote it ?" "" = "Who wrote it ".
Proof.
  apply (reformulate_query_removes_question_marks "Who wrote it ?").
  reflexivity.
Defined.

(** ** Cleaning of fetched pages *)

Module LinesFacts.

Import PyStr WebSearcher.

Lemma linebreak_isspace c : is_linebreak c = true -> isspace c = true.
Proof. destruct c as [[] [] [] [] [] [] [] []]; vm_compute; congruence. Qed.

Lemma without_space_app a b :
  without_space (a +:+ b) = without_space a +:+ without_space b.
Proof.
  induction a as [| c a IH]; str_norm; [reflexivity |].
  cbn [without_space]. destruct (isspace c); [exact IH |].
  str_norm. rewrite IH. reflexivity.
Qed.

Lemma without_space_lstrip s : without_space (lstrip isspace s) = without_space s.
Proof.
  induction s as [| c s IH]; [reflexivity |].
  cbn [lstrip without_space]. destruct (isspace c) eqn:E; [exact IH |].
  cbn [without_space]. rewrite E. reflexivity.
Qed.

Lemma without_space_rstrip s : without_space (rstrip isspace s) = without_space s.
Proof.
  induction s as [| c s IH]; [reflexivity |].
  cbn [rstrip without_space].
  destruct (is_empty (rstrip isspace s)) eqn:Hempty; cbn [andb].
  - destruct (isspace c) eqn:E.
    + rewrite <- IH. destruct (rstrip isspace s); [reflexivity | discriminate].
    + cbn [without_space]. rewrite E, IH. reflexivity.
  - cbn [without_space]. rewrite IH. reflexivity.
Qed.

Lemma without_space_strip s : without_space (strip s) = without_space s.
Proof.
  unfold strip, strip_by. rewrite without_space_rstrip. apply without_space_lstrip.
Qed.

Lemma without_space_join lines :
  without_space (join (String newline "") lines)
  = flat (map without_space lines).
Proof.
  induction lines as [| l [| l' lines] IH].
  - reflexivity.
  - cbn. rewrite PyStrFacts.append_nil_r. reflexivity.
  - change (join (String newline "") (l :: l' :: lines))
      with (l +:+ String newline "" +:+ join (String newline "") (l' :: lines)).
    rewrite !without_space_app, IH. reflexivity.
Qed.

Lemma flat_filter_nonempty lines :
  flat (map without_space
          (List.filter (fun line => negb (is_empty line)) lines))
  = flat (map without_space lines).
Proof.
  induction lines as [| l lines IH]; [reflexivity |].
  cbn [List.filter]. destruct l as [| c l]; cbn [is_empty negb map flat
    fold_right].
  - str_norm. exact IH.
  - fold (flat (map without_space lines)).
    fold (flat (map without_space
                  (List.filter (fun line => negb (is_empty line)) lines))).
    rewrite IH. reflexivity.
Qed.

Lemma flat_strip lines :
  flat (map without_space (map strip lines)) = flat (map without_space lines).
Proof.
  induction lines as [| l lines IH]; [reflexivity |].
  cbn [map flat fold_right]. rewrite without_space_strip. f_equal. exact IH.
Qed.

Lemma splitlines_nil s : splitlines s = [] -> s = "".
Proof.
  destruct s as [| c s]; [reflexivity |]. cbn [splitlines].
  destruct (is_linebreak c).
  - destruct s as [| d s]; [discriminate |].
    destruct (Ascii.eqb c (ascii_of_nat 13) && Ascii.eqb d newline);
      discriminate.
  - destruct (splitlines s); discriminate.
Qed.

Lemma flat_splitlines_bounded n : forall s,
  (String.length s <= n)%nat ->
  flat (map without_space (splitlines s)) = without_space s.
Proof.
  induction n as [| n IH]; intros s Hlen.
  - destruct s; [reflexivity | cbn in Hlen; lia].
  - destruct s as [| c s]; [reflexivity |].
    cbn [String.length] in Hlen. cbn [splitlines without_space].
    destruct (is_linebreak c) eqn:Hbreak.
    + rewrite (linebreak_isspace c Hbreak).
      destruct s as [| d s]; [reflexivity |].
      destruct (Ascii.eqb c (ascii_of_nat 13) && Ascii.eqb d newline) eqn:E.
      * apply andb_true_iff in E as [_ Hd]. apply Ascii.eqb_eq in Hd as ->.
        cbn [map flat fold_right]. str_norm.
        fold (flat (map without_space (splitlines s))).
        rewrite IH by (cbn [String.length] in Hlen; lia).
        reflexivity.
      * cbn [map flat fold_right]. str_norm.
        fold (flat (map without_space (splitlines (String d s)))).
        apply IH. lia.
    + pose proof (IH s ltac:(lia)) as Hs.
      destruct (splitlines s) as [| line lines] eqn:Esplit.
      * apply splitlines_nil in Esplit as ->.
        cbn [map flat fold_right without_space].
        destruct (isspace c); reflexivity.
      * cbn [map flat fold_right] in Hs |- *.
        fold (flat (map without_space lines)) in Hs |- *.
        cbn [without_space]. destruct (isspace c); [exact Hs |].
        str_norm. rewrite Hs. reflexivity.
Qed.

Lemma flat_splitlines s :
  flat (map without_space (splitlines s)) = without_space s.
Proof. apply (flat_splitlines_bounded (String.length s)). lia. Qed.

Lemma clean_lines_kept text :
  clean_lines text = join (String newline "") (kept_lines text).
Proof. reflexivity. Qed.

End LinesFacts.

(** X29.  The cleaning of a fetched page whose text is written in ASCII
    changes white space only: the cleaned text is the page's non-blank lines, each stripped of the
    white space around it, joined by single newlines, and its
    characters other than white space are those of the page, in the same
    order.  [fetch_page_content] returns this text, cut to
    [MAX_WEB_CONTENT_LENGTH] characters when it is longer. *)
Theorem clean_lines_changes_white_space_only (text : string) :
  PyStr.isascii text = true ->
  WebSearcher.clean_lines text
  = PyStr.join (String PyStr.newline "") (kept_lines text)
  /\ (forall line, In line (kept_lines text) ->
        line <> "" /\ PyStr.strip line = line)
  /\ without_space (WebSearcher.clean_lines text) = without_space text
  /\ (forall world url attempt,
        World.page_text world url attempt = Ok text ->
        WebSearcher.fetch_once world url attempt
        = Some (PyStr.slice_to (World.MAX_WEB_CONTENT_LENGTH world)
                  (WebSearcher.clean_lines text))).
Proof.
  intros _. split; [reflexivity |]. split; [| split].
  - intros line Hin. unfold kept_lines in Hin.
    apply filter_In in Hin as [Hin Hne].
    apply in_map_iff in Hin as (l & <- & _).
    split; [| apply ShapeFacts.strip_idem].
    destruct (PyStr.strip l); [discriminate | discriminate].
  - rewrite LinesFacts.clean_lines_kept, LinesFacts.without_space_join.
    unfold kept_lines.
    rewrite LinesFacts.flat_filter_nonempty, LinesFacts.flat_strip.
    apply LinesFacts.flat_splitlines.
  - intros world url attempt Hpage. unfold WebSearcher.fetch_once.
    rewrite Hpage. cbv zeta.
    destruct (Nat.ltb_spec (World.MAX_WEB_CONTENT_LENGTH world)
                (String.length (WebSearcher.clean_lines text)));
      [reflexivity |].
    rewrite TextFacts.slice_to_all by assumption. reflexivity.
Qed.

(** The page of the sample network. *)
Lemma clean_lines_changes_white_space_only_witness :
  let text := "France is a country in Western Europe." in
  WebSearcher.clean_lines text
  = PyStr.join (String PyStr.newline "") (kept_lines text)
  /\ (forall line, In line (kept_lines text) ->
        line <> "" /\ PyStr.strip line = line)
  /\ without_space (WebSearcher.clean_lines text) = without_space text
  /\ (forall world url attempt,
        World.page_text world url attempt = Ok text ->
        WebSearcher.fetch_once world url attempt
        = Some (PyStr.slice_to (World.MAX_WEB_CONTENT_LENGTH world)
                  (WebSearcher.clean_lines text))).
Proof.
  apply (clean_lines_changes_white_space_only
           "France is a country in Western Europe.").
  reflexivity.
Defined.

(** ** The sufficiency flag at the end of a run *)

Module FlagFacts.

Import GraphState WorkflowNodes QAWorkflow.

Lemma sufficient_preserved env node state :
  node <> Node.retrieve_kb -> node <> Node.generate_rag_answer ->
  is_knowledge_base_sufficient (exec env node state)
  = is_knowledge_base_sufficient state.
Proof.
  intros H1 H2. destruct node; try congruence; clear H1 H2;
    ExecFacts.node_cases state.
Qed.

End FlagFacts.

(** X30.  The flags of the final state tell where the answer came
    from: [is_knowledge_base_sufficient] is true exactly when the source
    type is [knowledge_base], and [needs_web_fallback] is true exactly
    when a knowledge-base answer was generated and then rejected, in
    which case the sufficiency flag, true after retrieval, has been
    cleared. *)
Theorem run_flags_match_source_type (env : Env.t) (question : string) :
  let s1 :=
    exec env Node.retrieve_kb (GraphState.create_initial_state question) in
  let final := fst (QAWorkflow.run question env) in
  (GraphState.is_knowledge_base_sufficient final = true <->
   GraphState.source_type final = "knowledge_base")
  /\ (GraphState.needs_web_fallback final = true <->
      GraphState.is_knowledge_base_sufficient s1 = true
      /\ GraphState.source_type final <> "knowledge_base")
  /\ (GraphState.needs_web_fallback final = true ->
      GraphState.is_knowledge_base_sufficient final = false).
Proof.
  cbv zeta.
  set (s0 := GraphState.create_initial_state question).
  set (s1 := exec env Node.retrieve_kb s0).
  set (s2 := exec env Node.generate_rag_answer s1).
  assert (Hflag1 : GraphState.needs_web_fallback s1 = false)
    by (unfold s1; rewrite ExecFacts.flag_preserved by discriminate;
        reflexivity).
  destruct (ExecFacts.exec_generate_rag_answer env s1)
    as (_ & _ & _ & Hflag2 & Hsuff2 & _).
  fold s2 in Hflag2, Hsuff2. cbv zeta in Hflag2, Hsuff2.
  rewrite Hflag1, orb_false_r in Hflag2.
  assert (Hweb : forall state,
            fst (QAWorkflow.run question env) = web_part env state ->
            GraphState.source_type (fst (QAWorkflow.run question env))
            <> "knowledge_base"
            /\ GraphState.is_knowledge_base_sufficient
                 (fst (QAWorkflow.run question env))
               = GraphState.is_knowledge_base_sufficient state
            /\ GraphState.needs_web_fallback
                 (fst (QAWorkflow.run question env))
               = GraphState.needs_web_fallback state).
  { intros state Hfst.
    destruct (PathFacts.web_part_spec env state)
      as (_ & _ & _ & _ & _ & _ & Hans).
    rewrite <- Hfst in Hans. split.
    - destruct (match Env.search_and_extract env _ _ with
                | Ok rs => rs | Raise _ => [] end);
        [destruct Hans as (_ & -> & _) | destruct Hans as (-> & _)];
        discriminate.
    - rewrite Hfst. unfold web_part.
      rewrite !FlagFacts.sufficient_preserved,
        !ExecFacts.flag_preserved by discriminate.
      split; reflexivity. }
  destruct (PathFacts.run_cases env question)
    as [(Hsuff & Hflag & Hfst & _) | [(Hsuff & Hflag & Hfst & _)
                                     | (Hsuff & Hfst & _)]];
    fold s0 in Hsuff, Hfst; fold s1 in Hsuff, Hfst; fold s2 in Hfst.
  - fold s0 in Hflag. fold s1 in Hflag. fold s2 in Hflag.
    destruct (KbPartFacts.kb_final env s1) as (Hst & _).
    fold s2 in Hst. rewrite Hfst, Hst.
    rewrite FlagFacts.sufficient_preserved, ExecFacts.flag_preserved
      by discriminate.
    rewrite Hflag, Hsuff2. rewrite Hflag in Hflag2. rewrite <- Hflag2, Hsuff.
    split; [split; reflexivity |].
    split; [split; [discriminate | intros [_ H]; congruence] | discriminate].
  - fold s0 in Hflag. fold s1 in Hflag. fold s2 in Hflag.
    destruct (Hweb s2 Hfst) as (Hst & Hs & Hf).
    rewrite Hs, Hf, Hflag, Hsuff2. rewrite Hflag in Hflag2.
    rewrite <- Hflag2.
    split; [split; [discriminate | contradiction] |].
    split; [split; [intros _; split; assumption | reflexivity] | reflexivity].
  - destruct (Hweb s1 Hfst) as (Hst & Hs & Hf).
    rewrite Hs, Hf, Hflag1, Hsuff.
    split; [split; [discriminate | contradiction] |].
    split; [split; [discriminate | intros [H _]; discriminate] | discriminate].
Qed.

(** * Texts of code points: the classifier and query reformulation *)

(** ** The matcher finds exactly the matches *)

Module UnicodeReFacts.

Import Unicode Unicode.Re.

Lemma is_Some_or_else {A} (x y : option A) :
  is_Some (orelse x y) <-> is_Some x \/ is_Some y.
Proof.
  destruct x as [a |]; cbn.
  - split; [left; eauto | intros _; eauto].
  - split; [right; assumption |
            intros [H | H]; [destruct H; discriminate | exact H]].
Qed.

Section Correct.

Context {A : Type} (i : bool).

Lemma star_finds c (k : nat -> PyStr.t -> option A) pos s :
  is_Some (star i c k pos s) <->
  exists w rest,
    s = w ++ rest
    /\ forallb (cls_match i c) w = true
    /\ is_Some (k (pos + length w)%nat rest).
Proof.
  revert pos. induction s as [| x s IH]; intros pos.
  - cbn [star]. split.
    + intros H. exists [], []. rewrite Nat.add_0_r. auto.
    + intros (w & rest & E & _ & H).
      destruct w; [| discriminate]. cbn in E. subst rest.
      rewrite Nat.add_0_r in H. exact H.
  - cbn [star]. destruct (cls_match i c x) eqn:Ex.
    + rewrite is_Some_or_else, IH. split.
      * intros [(w & rest & -> & Hw & H) | H].
        -- exists (x :: w), rest. split; [reflexivity |].
           split; [cbn; rewrite Ex; exact Hw |].
           cbn [length]. rewrite Nat.add_succ_r. exact H.
        -- exists [], (x :: s). rewrite Nat.add_0_r. auto.
      * intros (w & rest & E & Hw & H). destruct w as [| y w].
        -- right. cbn in E. subst rest. rewrite Nat.add_0_r in H. exact H.
        -- left. cbn in E. injection E as -> ->. exists w, rest.
           cbn in Hw. apply andb_true_iff in Hw as [_ Hw].
           cbn [length] in H. rewrite Nat.add_succ_r in H. auto.
    + split.
      * intros H. exists [], (x :: s). rewrite Nat.add_0_r. auto.
      * intros (w & rest & E & Hw & H). destruct w as [| y w].
        -- cbn in E. subst rest. rewrite Nat.add_0_r in H. exact H.
        -- cbn in E. injection E as -> ->. cbn in Hw.
           rewrite Ex in Hw. discriminate.
Qed.

Lemma run_finds r :
  forall (k : nat -> PyStr.t -> option A) pos s,
    is_Some (run i r k pos s) <->
    exists w rest,
      s = w ++ rest
      /\ matches i r pos w rest
      /\ is_Some (k (pos + length w)%nat rest).
Proof.
  induction r as [| c | r IH | c | c | r1 IH1 r2 IH2 | r1 IH1 r2 IH2 | |];
    intros k pos s; cbn [run].
  - (* REps *)
    split.
    + intros H. exists [], s. rewrite Nat.add_0_r.
      repeat split; [constructor | exact H].
    + intros (w & rest & -> & Hm & H). inversion Hm; subst.
      rewrite Nat.add_0_r in H. exact H.
  - (* RCls *)
    split.
    + destruct s as [| x s]; [intros []; discriminate |].
      destruct (cls_match i c x) eqn:Ex; [| intros []; discriminate].
      intros H. exists [x], s.
      repeat split; [constructor; exact Ex |].
      cbn [length]. rewrite Nat.add_1_r. exact H.
    + intros (w & rest & -> & Hm & H). inversion Hm; subst.
      change ([x] ++ rest) with (x :: rest). cbv beta iota.
      match goal with E : cls_match _ _ _ = true |- _ => rewrite E end.
      cbn [length] in H. rewrite Nat.add_1_r in H. exact H.
  - (* ROpt *)
    rewrite is_Some_or_else, IH. split.
    + intros [(w & rest & -> & Hm & H) | H].
      * exists w, rest. repeat split; [apply MOptSome; exact Hm | exact H].
      * exists [], s. rewrite Nat.add_0_r.
        repeat split; [apply MOptNone | exact H].
    + intros (w & rest & -> & Hm & H). inversion Hm; subst.
      * right. rewrite Nat.add_0_r in H. exact H.
      * left. exists w, rest. auto.
  - (* RStar *)
    rewrite star_finds. split.
    + intros (w & rest & -> & Hw & H). exists w, rest.
      repeat split; [constructor; exact Hw | exact H].
    + intros (w & rest & -> & Hm & H). inversion Hm; subst.
      exists w, rest. auto.
  - (* RPlus *)
    split.
    + destruct s as [| x s]; [intros []; discriminate |].
      destruct (cls_match i c x) eqn:Ex; [| intros []; discriminate].
      intros H. apply star_finds in H as (w & rest & -> & Hw & H).
      exists (x :: w), rest. split; [reflexivity |].
      split; [constructor; cbn; rewrite Ex; exact Hw |].
      cbn [length]. rewrite Nat.add_succ_r. exact H.
    + intros (w & rest & -> & Hm & H). inversion Hm; subst.
      change ((x :: w0) ++ rest) with (x :: (w0 ++ rest)).
      match goal with E : forallb _ _ = true |- _ =>
        cbn in E; apply andb_true_iff in E as [Ex Hw] end.
      cbv beta iota. rewrite Ex. apply star_finds. exists w0, rest.
      cbn [length] in H. rewrite Nat.add_succ_r in H. auto.
  - (* RSeq *)
    rewrite IH1. split.
    + intros (w1 & rest1 & -> & Hm1 & H).
      apply IH2 in H as (w2 & rest & -> & Hm2 & H).
      exists (w1 ++ w2), rest.
      split; [apply List.app_assoc |].
      split; [constructor; assumption |].
      rewrite List.length_app, Nat.add_assoc. exact H.
    + intros (w & rest & -> & Hm & H). inversion Hm; subst.
      exists w1, (w2 ++ rest).
      split; [symmetry; apply List.app_assoc |].
      split; [assumption |].
      apply IH2. exists w2, rest.
      rewrite List.length_app, Nat.add_assoc in H. auto.
  - (* RAlt *)
    rewrite is_Some_or_else, IH1, IH2. split.
    + intros [(w & rest & -> & Hm & H) | (w & rest & -> & Hm & H)];
        exists w, rest; (repeat split; [| exact H]);
        [apply MAltL | apply MAltR]; exact Hm.
    + intros (w & rest & -> & Hm & H). inversion Hm; subst;
        [left | right]; exists w, rest; auto.
  - (* RBol *)
    split.
    + destruct (Nat.eqb_spec pos 0) as [-> | Hne]; [| intros []; discriminate].
      intros H. exists [], s. repeat split; [constructor | exact H].
    + intros (w & rest & -> & Hm & H). inversion Hm; subst. exact H.
  - (* REol *)
    split.
    + destruct (at_end s) eqn:Es; [| intros []; discriminate].
      intros H. exists [], s. rewrite Nat.add_0_r.
      repeat split; [constructor; exact Es | exact H].
    + intros (w & rest & -> & Hm & H). inversion Hm; subst.
      change ([] ++ rest) with rest.
      match goal with E : at_end _ = true |- _ => rewrite E end.
      rewrite Nat.add_0_r in H. exact H.
Qed.

End Correct.

Lemma match_at_finds i r pos s :
  is_Some (match_at i r false pos s) <->
  exists w rest, s = w ++ rest /\ matches i r pos w rest.
Proof.
  unfold match_at. rewrite run_finds. split.
  - intros (w & rest & E & Hm & _). eauto.
  - intros (w & rest & E & Hm). exists w, rest. cbn. eauto.
Qed.

Lemma search_from_finds i r s :
  forall pos,
    is_Some (search_from i r pos s) <->
    exists before w rest,
      s = before ++ w ++ rest
      /\ matches i r (pos + length before) w rest.
Proof.
  induction s as [| x s IH]; intros pos; cbn [search_from].
  - destruct (match_at i r false pos []) as [e |] eqn:E.
    + split; [intros _ | eauto].
      assert (H : is_Some (match_at i r false pos [])) by (rewrite E; eauto).
      apply match_at_finds in H as (w & rest & Hs & Hm).
      exists [], w, rest. rewrite Nat.add_0_r. auto.
    + split; [intros []; discriminate |].
      intros (before & w & rest & Hs & Hm).
      destruct before; [| discriminate]. cbn in Hs.
      rewrite Nat.add_0_r in Hm.
      assert (H : is_Some (match_at i r false pos []))
        by (apply match_at_finds; eauto).
      rewrite E in H. destruct H; discriminate.
  - destruct (match_at i r false pos (x :: s)) as [e |] eqn:E.
    + split; [intros _ | eauto].
      assert (H : is_Some (match_at i r false pos (x :: s)))
        by (rewrite E; eauto).
      apply match_at_finds in H as (w & rest & Hs & Hm).
      exists [], w, rest. rewrite Nat.add_0_r. auto.
    + rewrite IH. split.
      * intros (before & w & rest & -> & Hm).
        exists (x :: before), w, rest. split; [reflexivity |].
        cbn [length]. rewrite Nat.add_succ_r. exact Hm.
      * intros (before & w & rest & Hs & Hm). destruct before as [| y before].
        -- exfalso. cbn in Hs. rewrite Nat.add_0_r in Hm.
           assert (H : is_Some (match_at i r false pos (x :: s)))
             by (apply match_at_finds; eauto).
           rewrite E in H. destruct H; discriminate.
        -- cbn in Hs. injection Hs as -> ->. exists before, w, rest.
           split; [reflexivity |].
           cbn [length] in Hm. rewrite Nat.add_succ_r in Hm. exact Hm.
Qed.

Lemma search_finds i r s : is_Some (search i r s) <-> matches_in i r s.
Proof. unfold search, matches_in. apply search_from_finds. Qed.

Lemma first_match_finds patterns answer :
  Classifier.first_match patterns answer = true <->
  exists pattern, In pattern patterns /\ matches_in true pattern answer.
Proof.
  induction patterns as [| p rest IH]; cbn [Classifier.first_match].
  - split; [discriminate | intros (? & [] & _)].
  - destruct (search true p answer) as [m |] eqn:E.
    + split; [intros _ | reflexivity].
      exists p. split; [left; reflexivity |].
      apply search_finds. rewrite E. eauto.
    + rewrite IH. split.
      * intros (q & Hq & Hm). exists q. split; [right; exact Hq | exact Hm].
      * intros (q & [<- | Hq] & Hm); [| eauto].
        apply search_finds in Hm. rewrite E in Hm.
        destruct Hm; discriminate.
Qed.

End UnicodeReFacts.

(** C7.  The classifier answers [true] on "I don't have enough information
    in the context to answer this." and [false] on "The capital of France
    is Paris [Page 3]."; in general, on every text, it answers [true]
    exactly when one of its case-insensitive patterns matches somewhere
    in the answer text. *)
Theorem answer_indicates_insufficient_info_spec :
  Unicode.Classifier._answer_indicates_insufficient_info
    (Unicode.PyStr.of_string
       "I don't have enough information in the context to answer this.")
  = true
  /\ Unicode.Classifier._answer_indicates_insufficient_info
       (Unicode.PyStr.of_string "The capital of France is Paris [Page 3].")
     = false
  /\ forall answer : Unicode.PyStr.t,
       Unicode.Classifier._answer_indicates_insufficient_info answer = true
       <->
       exists pattern,
         In pattern Unicode.Classifier.insufficient_patterns
         /\ Unicode.Re.matches_in true pattern answer.
Proof.
  split; [vm_compute; reflexivity |].
  split; [vm_compute; reflexivity |].
  intros answer. apply UnicodeReFacts.first_match_finds.
Qed.

(** ** Letter case under [(?i)] *)

Module FoldFacts.

Import Unicode Unicode.Re.

Local Open Scope N_scope.

(** The characters that a small ASCII letter of a pattern matches under
    [(?i)]: itself, its capital, and the four characters from outside
    ASCII that the matcher folds onto [i], [k] and [s]. *)
Lemma lit_match_letter (l x : N) :
  PyStr.islower l = true ->
  lit_match true l x = true <->
  x = l \/ x = l - 32
  \/ (l = 105 /\ (x = 0x130 \/ x = 0x131))
  \/ (l = 107 /\ x = 0x212A)
  \/ (l = 115 /\ x = 0x17F).
Proof.
  unfold PyStr.islower, lit_match, lowers_to, equivalent, PyStr.lower_char,
    PyStr.isupper.
  intros Hl. apply andb_true_iff in Hl as [Hl1 Hl2].
  apply N.leb_le in Hl1, Hl2.
  replace ((65 <=? l) && (l <=? 90)) with false
    by (symmetry; apply andb_false_iff; right; apply N.leb_gt; lia).
  cbv zeta.
  rewrite !orb_true_iff, !andb_true_iff, !N.eqb_eq.
  destruct ((65 <=? x) && (x <=? 90)) eqn:Ex.
  - apply andb_true_iff in Ex as [Ex1 Ex2]. apply N.leb_le in Ex1, Ex2. lia.
  - apply andb_false_iff in Ex. rewrite !N.leb_gt in Ex. lia.
Qed.

(** A character that is not a letter matches itself only. *)
Lemma lit_match_caseless (l x : N) :
  PyStr.isupper l = false ->
  PyStr.islower l = false ->
  lit_match true l x = true <-> x = l.
Proof.
  unfold PyStr.islower, lit_match, lowers_to, equivalent, PyStr.lower_char.
  intros Hu Hl. rewrite Hu. cbv zeta.
  unfold PyStr.isupper in *.
  apply andb_false_iff in Hu, Hl. rewrite !N.leb_gt in Hu, Hl.
  rewrite !orb_true_iff, !andb_true_iff, !N.eqb_eq.
  destruct ((65 <=? x) && (x <=? 90)) eqn:Ex.
  - apply andb_true_iff in Ex as [Ex1 Ex2]. apply N.leb_le in Ex1, Ex2. lia.
  - apply andb_false_iff in Ex. rewrite !N.leb_gt in Ex. lia.
Qed.

End FoldFacts.

(** ** The two substitutions of the rule-based reformulation *)

Module UnicodeSubFacts.

Import Unicode Unicode.Re Unicode.Rule.

Local Open Scope N_scope.

(** Where no match starts, [sub_from] copies the subject. *)
Lemma sub_from_copies i r repl s :
  forall pos skip,
    (forall pos' s', (pos <= pos')%nat -> match_at i r false pos' s' = None) ->
    sub_from i r repl pos skip s = drop skip s.
Proof.
  unfold drop.
  induction s as [| x s IH]; intros pos skip Hnone.
  - destruct skip; cbn [sub_from skipn]; [| reflexivity].
    rewrite Hnone by lia. reflexivity.
  - destruct skip as [| skip]; cbn [sub_from skipn].
    + rewrite Hnone by lia. rewrite IH; [reflexivity |].
      intros pos' s' Hle. apply Hnone. lia.
    + apply IH. intros pos' s' Hle. apply Hnone. lia.
Qed.

(** A literal word matches the prefix it spells. *)
Lemma run_word {A} word :
  forall (k : nat -> PyStr.t -> option A) pos s,
    run false (lit word) k pos s
    = match after_prefix word s with
      | Some rest => k (pos + length word)%nat rest
      | None => None
      end.
Proof.
  induction word as [| a word IH]; intros k pos s.
  - cbn. rewrite Nat.add_0_r. reflexivity.
  - destruct word as [| b word].
    + cbn [lit run after_prefix cls_match lit_match length].
      destruct s as [| x s]; [reflexivity |].
      destruct (x =? a); [| reflexivity].
      cbn [after_prefix]. rewrite Nat.add_1_r. reflexivity.
    + change (lit (a :: b :: word))
        with (RSeq (RCls (CLit a)) (lit (b :: word))).
      cbn [run cls_match lit_match]. destruct s as [| x s]; [reflexivity |].
      change (after_prefix (a :: b :: word) (x :: s))
        with (if x =? a then after_prefix (b :: word) s else None).
      destruct (x =? a); [| reflexivity].
      rewrite IH. cbn [length].
      destruct (after_prefix (b :: word) s); [| reflexivity].
      f_equal. lia.
Qed.

(** The greedy repetition takes every character of the class. *)
Lemma star_spans c pos s :
  star false c (fun e _ => Some e) pos s
  = Some (pos + span (cls_match false c) s)%nat.
Proof.
  revert pos. induction s as [| x s IH]; intros pos; cbn [star span].
  - rewrite Nat.add_0_r. reflexivity.
  - destruct (cls_match false c x).
    + rewrite IH. cbn [orelse]. f_equal. lia.
    + rewrite Nat.add_0_r. reflexivity.
Qed.

Lemma drop_spanned p s : drop (span p s) s = PyStr.lstrip p s.
Proof.
  unfold drop. induction s as [| x s IH]; [reflexivity |].
  cbn [span PyStr.lstrip]. destruct (p x); [exact IH | reflexivity].
Qed.

Lemma drop_prefix word s rest n :
  after_prefix word s = Some rest ->
  drop (length word + n) s = drop n rest.
Proof.
  unfold drop.
  revert s. induction word as [| a word IH]; intros s H.
  - cbn in H. injection H as ->. reflexivity.
  - destruct s as [| x s]; [discriminate |]. cbn [after_prefix] in H.
    destruct (x =? a); [| discriminate].
    cbn [length Nat.add skipn]. apply IH. exact H.
Qed.

Lemma word_end_finds word s :
  match word_end word s with
  | Some e => e <> O /\ after_word word s = Some (drop e s)
  | None => after_word word s = None
  end.
Proof.
  unfold word_end, after_word. rewrite run_word.
  destruct (after_prefix word s) as [rest |] eqn:E; [| reflexivity].
  cbn [run Nat.add]. destruct rest as [| c rest]; [reflexivity |].
  change (cls_match false CSpace c) with (PyStr.isspace c).
  destruct (PyStr.isspace c); [| reflexivity].
  rewrite star_spans. split; [lia |].
  change (cls_match false CSpace) with PyStr.isspace.
  replace (S (length word) + span PyStr.isspace rest)%nat
    with (length word + S (span PyStr.isspace rest))%nat by lia.
  rewrite (drop_prefix word s (c :: rest) _ E).
  change (drop (S (span PyStr.isspace rest)) (c :: rest))
    with (drop (span PyStr.isspace rest) rest).
  rewrite drop_spanned. reflexivity.
Qed.

Lemma first_word_end_finds word words s :
  match run false (alt_of (lit word) (map lit words))
          (run false (RPlus CSpace) (fun e _ => Some e)) 0 s with
  | Some e => e <> O /\ after_first_word (word :: words) s = Some (drop e s)
  | None => after_first_word (word :: words) s = None
  end.
Proof.
  revert word. induction words as [| w words IH]; intros word.
  - cbn [map alt_of after_first_word].
    pose proof (word_end_finds word s) as H. unfold word_end in H.
    destruct (run false (lit word) _ 0 s) as [e |].
    + destruct H as [He ->]. auto.
    + rewrite H. reflexivity.
  - cbn [map alt_of run after_first_word].
    pose proof (word_end_finds word s) as H. unfold word_end in H.
    destruct (run false (lit word) _ 0 s) as [e |]; cbn [orelse].
    + destruct H as [He ->]. auto.
    + rewrite H. apply IH.
Qed.

Lemma interrogative_only_at_start pos s :
  (1 <= pos)%nat ->
  match_at false AnswerGenerator.leading_interrogative false pos s = None.
Proof.
  intros Hpos. unfold match_at, AnswerGenerator.leading_interrogative.
  cbn [seq_of run]. destruct pos; [lia | reflexivity].
Qed.

(** The first substitution removes the interrogative word. *)
Lemma sub_interrogative s :
  sub false AnswerGenerator.leading_interrogative [] s
  = without_interrogative s.
Proof.
  unfold sub, without_interrogative, interrogatives.
  pose proof (first_word_end_finds (PyStr.of_string "what")
                (map PyStr.of_string
                   ["how"; "when"; "where"; "why"; "who"; "which"; "can you";
                    "please"]) s) as H.
  rewrite List.map_map in H.
  assert (Hm : match_at false AnswerGenerator.leading_interrogative false 0 s
               = run false
                   (alt_of (lit (PyStr.of_string "what"))
                      (map (fun x => lit (PyStr.of_string x))
                         ["how"; "when"; "where"; "why"; "who";
                          "which"; "can you"; "please"]))
                   (run false (RPlus CSpace) (fun e _ => Some e)) 0 s)
    by reflexivity.
  assert (Hrest : forall skip s',
            sub_from false AnswerGenerator.leading_interrogative [] 1 skip s'
            = drop skip s').
  { intros skip s'. apply sub_from_copies. intros pos' s'' Hle.
    apply interrogative_only_at_start. exact Hle. }
  change (map PyStr.of_string
            ["what"; "how"; "when"; "where"; "why"; "who"; "which";
             "can you"; "please"])
    with (PyStr.of_string "what"
          :: map PyStr.of_string
               ["how"; "when"; "where"; "why"; "who"; "which"; "can you";
                "please"]).
  destruct s as [| x s].
  - cbn [sub_from]. rewrite Hm.
    destruct (run false _ _ 0%nat []) as [e |].
    + destruct H as [He ->]. destruct e; [congruence |]. reflexivity.
    + rewrite H. reflexivity.
  - cbn [sub_from]. rewrite Hm.
    destruct (run false _ _ 0%nat (x :: s)) as [e |].
    + destruct H as [He ->]. destruct e as [| e]; [congruence |].
      change (S e =? 0)%nat with false. change (S e - 0)%nat with (S e).
      cbv beta iota. cbn [app]. rewrite Hrest. reflexivity.
    + rewrite H, Hrest. reflexivity.
Qed.

Lemma question_mark_at_end s :
  at_end s = true -> without_question_mark s = s.
Proof.
  destruct s as [| c [| d s]]; try discriminate; [reflexivity |].
  intros H. cbn in H. apply N.eqb_eq in H. subst c. reflexivity.
Qed.

Lemma match_question_mark pos x s :
  match_at false AnswerGenerator.trailing_question_mark false pos (x :: s)
  = if (x =? 63) && at_end s then Some (S pos) else None.
Proof.
  unfold match_at, AnswerGenerator.trailing_question_mark.
  change (word "?") with (RCls (CLit 63)).
  cbn [run cls_match lit_match]. destruct (x =? 63); [| reflexivity].
  cbn [andb]. destruct (at_end s); [| reflexivity].
  cbn [andb]. reflexivity.
Qed.

(** The second substitution removes the final question mark. *)
Lemma sub_question_mark s :
  sub false AnswerGenerator.trailing_question_mark [] s
  = without_question_mark s.
Proof.
  unfold sub.
  enough (H : forall pos,
            sub_from false AnswerGenerator.trailing_question_mark [] pos 0 s
            = without_question_mark s) by apply H.
  induction s as [| x s IH]; intros pos; [reflexivity |].
  cbn [sub_from without_question_mark].
  rewrite match_question_mark.
  destruct ((x =? 63) && at_end s) eqn:E.
  - replace (S pos =? pos)%nat with false by (symmetry; apply Nat.eqb_neq; lia).
    replace (S pos - pos)%nat with 1%nat by lia.
    cbn [app]. rewrite IH. apply question_mark_at_end.
    apply andb_true_iff in E as [_ E]. exact E.
  - rewrite IH. reflexivity.
Qed.

(** The rule-based reformulation is the one the words describe. *)
Lemma simple_reformulation_as_rule data question :
  AnswerGenerator._simple_reformulation data question
  = reformulation data question.
Proof.
  unfold AnswerGenerator._simple_reformulation, reformulation.
  rewrite sub_interrogative, sub_question_mark. reflexivity.
Qed.

Lemma broken_false data reply :
  AnswerGenerator.too_short_or_broken data reply = false <->
  (3 <= length reply)%nat
  /\ PyStr.isalnum data (PyStr.remove_char AnswerGenerator.space reply) = true.
Proof.
  unfold AnswerGenerator.too_short_or_broken.
  rewrite orb_false_iff, negb_false_iff, Nat.ltb_ge. reflexivity.
Qed.

End UnicodeSubFacts.

(** C8 (as amended).  For every question, every reply of the model and
    every failure of the model: when the reply, stripped of white space
    and wrapping quotes, has at least 3 characters and is alphanumeric
    once its spaces are removed, that stripped reply is returned, and it
    is not empty.  Otherwise, and when the model fails, the rule-based
    reformulation of the question is returned: the question in lower
    case, without a leading interrogative word and the white space after
    it, without the question mark that ends it, and stripped of white
    space at both ends, as in "is the capital of france" for "What is
    the capital of France?".  Nothing is said of the length of the
    rule-based reformulation: it can be empty.  Texts are sequences of
    code points, and what is alphanumeric or lower case outside ASCII is
    what the character database says. *)
Theorem reformulate_query_for_web_spec
    (data : Unicode.UnicodeData.t)
    (llm_invoke : Unicode.PyStr.t -> result Unicode.PyStr.t)
    (question : Unicode.PyStr.t) :
  let query :=
    Unicode.AnswerGenerator.reformulate_query_for_web data llm_invoke
      question in
  (forall content,
     llm_invoke question = Ok content ->
     let reply := Unicode.AnswerGenerator.clean_reply content in
     ((3 <= length reply)%nat
      /\ Unicode.PyStr.isalnum data
           (Unicode.PyStr.remove_char Unicode.AnswerGenerator.space reply)
         = true ->
      query = reply /\ query <> [])
     /\ ((length reply < 3)%nat
         \/ Unicode.PyStr.isalnum data
              (Unicode.PyStr.remove_char Unicode.AnswerGenerator.space reply)
            = false ->
         query = Unicode.Rule.reformulation data question))
  /\ (forall e,
        llm_invoke question = Raise e ->
        query = Unicode.Rule.reformulation data question)
  /\ Unicode.AnswerGenerator._simple_reformulation data question
     = Unicode.Rule.reformulation data question
  /\ Unicode.Rule.reformulation data
       (Unicode.PyStr.of_string "What is the capital of France?")
     = Unicode.PyStr.of_string "is the capital of france".
Proof.
  cbv zeta. rewrite <- UnicodeSubFacts.simple_reformulation_as_rule.
  unfold Unicode.AnswerGenerator.reformulate_query_for_web.
  split; [| split; [| split]].
  - intros content Hllm. rewrite Hllm. cbv zeta. split.
    + intros Hok. apply UnicodeSubFacts.broken_false in Hok as Hb.
      rewrite Hb. split; [reflexivity |].
      destruct Hok as [Hlen _].
      destruct (Unicode.AnswerGenerator.clean_reply content);
        [cbn in Hlen; lia | discriminate].
    + intros Hbad.
      destruct (Unicode.AnswerGenerator.too_short_or_broken _ _) eqn:E;
        [reflexivity |].
      apply UnicodeSubFacts.broken_false in E as [Hlen Halnum].
      destruct Hbad as [Hshort | Hnot]; [lia | congruence].
  - intros e Hllm. rewrite Hllm. reflexivity.
  - reflexivity.
  - rewrite <- UnicodeSubFacts.simple_reformulation_as_rule.
    vm_compute. reflexivity.
Qed.

(** The reply "café paris", which is kept, and the sample question with
    the model down. *)
Lemma reformulate_query_for_web_spec_witness :
  Unicode.AnswerGenerator.reformulate_query_for_web Unicode.Sample.latin1
    (Unicode.Sample.llm_replies Unicode.Sample.cafe_paris)
    (Unicode.PyStr.of_string "What is the capital of France?")
  = Unicode.Sample.cafe_paris
  /\ Unicode.AnswerGenerator.reformulate_query_for_web Unicode.Sample.latin1
       Unicode.Sample.llm_down
       (Unicode.PyStr.of_string "What is the capital of France?")
     = Unicode.PyStr.of_string "is the capital of france".
Proof.
  split.
  - destruct (reformulate_query_for_web_spec Unicode.Sample.latin1
                (Unicode.Sample.llm_replies Unicode.Sample.cafe_paris)
                (Unicode.PyStr.of_string "What is the capital of France?"))
      as (Hreply & _).
    destruct (Hreply Unicode.Sample.cafe_paris eq_refl) as [Haccept _].
    apply Haccept. vm_compute. split; [lia | reflexivity].
  - destruct (reformulate_query_for_web_spec Unicode.Sample.latin1
                Unicode.Sample.llm_down
                (Unicode.PyStr.of_string "What is the capital of France?"))
      as (_ & Hfail & _ & Hsample).
    rewrite (Hfail "connection refused" eq_refl). exact Hsample.
Defined.

(** C8, counterexample to the claim as stated.  With the model down, the
    question "What ?" is reformulated into the empty query.  (The
    question is written in ASCII, so the character database has no part
    in this.) *)
Lemma reformulate_query_for_web_can_be_empty :
  Unicode.AnswerGenerator.reformulate_query_for_web Unicode.Sample.latin1
    Unicode.Sample.llm_down (Unicode.PyStr.of_string "What ?")
  = [].
Proof. vm_compute. reflexivity. Qed.

(** ** Texts outside ASCII *)

(** The classifier follows the case folding of [re]: "NO İNFORMATION
    ABOUT", written with a capital I with a dot above, is classified as
    insufficient. *)
Lemma classifier_folds_dotted_capital_i :
  Unicode.Classifier._answer_indicates_insufficient_info
    Unicode.Sample.no_information_dotted = true.
Proof. vm_compute. reflexivity. Qed.

(** Whatever the character database says, an empty query comes out of
    the question "What ?" when the model is down. *)
Lemma simple_reformulation_of_what data llm_invoke e :
  llm_invoke (Unicode.PyStr.of_string "What ?") = Raise e ->
  Unicode.AnswerGenerator.reformulate_query_for_web data llm_invoke
    (Unicode.PyStr.of_string "What ?")
  = [].
Proof.
  intros H. unfold Unicode.AnswerGenerator.reformulate_query_for_web.
  rewrite H. vm_compute. reflexivity.
Qed.
